(* ===== verification/_CoqProject ===== *)
-Q . S2P
Prelude.v
Text.v
Float64.v
Platform.v
Concrete.v
Utils.v
Wallet.v
Merkle.v
Structures.v
Codecs.v
Signing.v
Database.v
Locks.v
Connections.v
ChainIndex.v
Blockchain.v
Branches.v
BlockchainLookup.v
BlockchainUpdate.v
UnderTip.v
Tables.v
TxIndex.v
Pending.v
Unspent.v
TxManager.v
Consensus.v
Mining.v
Payment.v
Cancel.v
Net.v
Wire.v
Transit.v
NodeClient.v
Redis.v
Mq.v
MqQueue.v
MqSafe.v
MqStats.v
ComCodecs.v
WalletCLI.v
Daemon.v
Shutdown.v
Logger.v
Config.v
Node.v
NodeCLI.v
Frames.v
NodeChain.v
Genesis.v
Minting.v
Verified.v
SendCommand.v
Server.v
ServerSafe.v
ServerReplies.v
ServerDemo.v
Served.v
Runes.v
LogNumbers.v
LogText.v
Log.v
LogFormat.v
LogSafe.v
LogHandlers.v
LogLines.v
LogBuffer.v
Glog.v
AppConfig.v
GlogRules.v
LogTyped.v
Fork.v
