(* ===== verification/Prelude.v ===== *)
(** * Taincoin core: root of the verification development

    Taincoin is a small proof-of-work block chain node written in Go.  The
    development models its core and proves what makes it correct.

    ** The program and its model

    - [lib/utils], [lib/wallet/wallet.go]: byte helpers, base58 addresses,
      signatures, the Merkle tree, the loggers.  [Utils.v], [Merkle.v],
      [Logger.v]; [Text.v] has [strings.Split] and [strings.Join].
    - [node/structures]: transactions, inputs, outputs, blocks; their texts,
      hashes and signatures.  [Structures.v], [Signing.v].
    - [node/database]: the tables of a bolt file.  [Database.v]: a file is a map
      from bucket names to buckets, an operation a function on it.  [Locks.v] is
      the lock of a file as steps of several processes, [Connections.v] the
      connections a manager makes and closes with the mutexes it holds.
    - [node/blockchain]: the chain of blocks, its branches and its top.
      [Blockchain.v] has the definitions, [ChainIndex.v], [Branches.v],
      [BlockchainLookup.v], [BlockchainUpdate.v] and [UnderTip.v] the theorems.
    - [node/transactions]: the index of transactions ([index.go], [TxIndex.v]),
      the pool of pending ones ([pending.go], [Pending.v]), the set of unspent
      outputs ([unspent.go], [Unspent.v]) and their manager ([manager.go],
      [TxManager.v]).  [Tables.v] has what the three tables share, [Cancel.v]
      what taking a block back does to the set of unspent outputs.
    - [node/consensus]: proof of work, making and verifying blocks.
      [Consensus.v], and [Mining.v] for the way from the pool to a block that
      verifies; [Verified.v] reads what verification accepts off the blocks.
    - [lib/net], [lib/nodeclient]: addresses, the list of known nodes, the
      records that nodes exchange and the calls that send them.  [Net.v],
      [NodeClient.v]; [Wire.v] for the bytes of a request and [Transit.v] for
      the queues of announced blocks ([node/server/transit.go]).
    - [node/nodemanager]: the node, which joins the database, the managers, the
      list of nodes and the client.  [Node.v] has the definitions, [Frames.v]
      which buckets an operation can change, [NodeChain.v] what a node does with
      a block, [Genesis.v] the making of a database, [Minting.v] the way of a
      block from the pool to the other nodes, [Payment.v] and [SendCommand.v] the
      way of a payment from the command line to the pool.
    - [node/server]: a request is read, handled on a clone of the node and
      answered; the block builder is the other routine.  [Server.v] has the
      definitions, [ServerSafe.v] the system of requests and the builder,
      [ServerReplies.v] what is answered, [ServerDemo.v] a server at work,
      [Served.v] a payment of a wallet over a server.
      [Daemon.v]: the file of the running node, starting and stopping it;
      [Shutdown.v]: the routines of the server and the channels between them.
    - [lib/wallet]: keys and their file ([Wallet.v]), the client's commands
      ([WalletCLI.v]).
    - [node/config], [node/nodecli.go], [node/main.go]: the flags and the
      configuration file ([Config.v]), every command of the program and what it
      prints ([NodeCLI.v]).
    - [mq]: queues of packages in Redis, which the node does not call.  [Redis.v]
      has the commands and their documented effect, [Mq.v] every operation as a
      program that sends commands, [MqQueue.v] what the operations do for a client
      that runs alone, [MqSafe.v] many clients at the same time, [MqStats.v] the
      statistics and their observer.

    - [log]: a logging library.  [Log.v] has the levels, records, loggers and
      handlers ([logger.go], [root.go], [handler.go]), [LogNumbers.v], [LogText.v]
      and [LogFormat.v] the formats ([format.go]), with [Runes.v] for the text
      functions of the standard library; [LogSafe.v] shows of each handler and
      format that it reads no further than its context, [LogLines.v] that a
      record is one line, [LogHandlers.v] what handlers do together, with
      [syslog.go], [LogBuffer.v] the handler with a goroutine.  [Glog.v] and
      [GlogRules.v] are the verbosity by call site ([handler_glog.go]);
      [LogTyped.v] is about any combination of all of these.
    - [lib/fork]: functions that run in processes of their own ([Fork.v]).
      [config/config.go]: the settings of the example [p2p] ([AppConfig.v]).

    The managers keep no state of their own but the database, so an operation
    of the source is a function of the state [DB] ([Database.v]: whether the
    connection is open, and the two files) with the source's name, prefixed
    where two packages use one name ([bc_GetBlock], [tm_BlockAdded]).  Go values
    become Rocq values: [[]byte] a list of bytes, [int] a [Z] with its
    wrap-around written where the code computes with it, [float64] the
    [SpecFloat] of 53 bits ([Float64.v]), a map a [gmap].  A result is an
    [outcome]: a value, a returned error, a run-time panic, or a loop that ran
    out of the rounds it was given.  What changes the state is in the monad
    [st]; a failed call returns the state it leaves, and a bolt transaction that
    fails rolls back ([Update]).  Errors that the source drops are dropped by
    [drop_err] and [ignore_err].  The messages of the node to its
    loggers are left out of its operations.

    Libraries that are not in the repository are classes of operations with
    classes of laws ([Platform.v]); [Concrete.v] and [Codecs.v] have instances
    for the witnesses.  This covers hashes, ECDSA, base58, [encoding/gob], bolt,
    [sort] and the order in which Go visits a map.

    ** What the theorems show

    - Signing: exactly which transactions [Verify] accepts; a transaction that
      is prepared, signed and completed is accepted; what a signature does not
      cover.
    - The chain bucket refines a list of hashes under any sequence of
      additions and removals; [AddBlock] and [DeleteBlock] keep the invariant
      [chain_state] of the blockchain file in every case, a change of the main
      branch included; the lookups return what the branches contain.
    - The index, the pool and the set of unspent outputs are functions from
      keys to lists, and adding, removing and rebuilding do to these what their
      abstract effect says; the pool stays free of conflicts; the three tables
      together follow a block ([node_rep]).
    - What verification of a transaction accepts, for the pool and for a block
      under any tip, in terms of the blocks and their spendings; a block is accepted exactly when it meets the rules of [VerifyBlock]; a
      block that the node makes passes its own verification.
    - The list of known nodes is a set; requests, addresses and commands are
      read back as they were written; the queues of announced blocks are
      queues.
    - A new database holds the chain of its first block; a block that a node
      adds on top becomes the top and the three tables follow it; a node that
      makes a block leaves a consistent node and announces the block.
    - Which blocks are under a tip, on the main chain or on a side branch; what
      taking a block back restores, record by record, and two examples of what it
      loses.
    - The server: as long as the blocks that arrive and that are made are well
      formed ([well_formed], which no check of the code ensures), the file keeps
      the invariant of the chain, whatever requests arrive, in any order and
      between the two halves of the making of a block; the loop over announced blocks ends with the first unknown block
      asked for; a request for a balance is answered with the balance; the
      management requests need the text of the node.
    - A payment from the command line, with enough free outputs of the key,
      is made, verified, pooled and announced; one from a wallet over a server
      is prepared, signed, verified and pooled by the two requests of the wallet;
      [printchain] prints the chain.
    - The lock of a file excludes the goroutines of one process, its wait is
      bounded, and a manager gives back what it locked; the same does not hold
      between processes, as an example shows.
    - Once the server listens a signal stops it, however its routines take turns,
      and the one panic is that of a request that signals a builder that has left;
      examples show a signal that is lost and a request that ends the program.
    - Wallets, the file of the running node and the configuration are read back
      as they were written; keys are found in a bounded number of attempts; the
      program that a start runs in the background has the settings of the start.
    - A queue delivers packages in their order and once; no package is lost or
      doubled, however the commands of its clients take turns and wherever a client
      stops: each operation moves packages only the way it is for, and only an
      acknowledgement takes one off; every count of the statistics is sent or kept once.  Examples show where
      collections, names of queues and unreadable texts break this.
    - The log: a value is read back from the text it is written as, and a record
      is one line whatever its values are; numbers fit their buffer and are read
      back; a context is always pairs, so that no handler or format reads past
      its end; failing over, the handlers of loggers made from others, a handler
      with a channel, which loses and reorders nothing, and the rules of a
      verbosity, whose cache changes nothing.
    - A registered function runs in the process that is started for it with the
      arguments it was given.

    ** Fuel

    A loop that follows stored blocks takes a number of rounds.  The theorems
    ask for one more than the longest branch, or prove the result for every
    larger number; the search for a nonce needs at most [2^63].  The loop over
    announced blocks needs as many rounds as there are announcements.  Loops
    over slices need none.

    ** Not modelled

    The messages of the node to its loggers; the locks of [log], but for the
    mutex of [SyncHandler]; the fixed text of [PrintUsage]; [lib/timer] and
    [lib/fork/process], which measure time and wait for a command; the web
    server of [mq]; the example [p2p], which calls a network library; what a
    listening socket does beyond handing over connections. What the operating
    system answers is an argument of the operations that ask it: whether a
    file opens, a process lives or starts, what is read or drawn at random.
    Goroutines: a lock around every open connection lets one work on the files
    at a time, so a request is one step, and the builder, which closes its
    connection while it looks for a nonce, is two ([sys_step]). A request that
    waits for the lock, and what two requests do at the same time to the
    queues and to the list of nodes, which have no lock of their own across a
    request, are left out. A dialed connection, its time limits and a peer
    that does not answer are the class [Network]. *)

From Stdlib Require Import Strings.Byte Ascii SpecFloat.
From stdpp Require Import base strings gmap numbers sorting list.

(** ** Byte strings

    A Go [[]byte] is a list of bytes.  The nil slice and the empty slice are
    the same list: where the source tells them apart (an absent key of a
    bucket, a missing record) the model uses [option]. *)
Abbreviation bytes := (list byte).

#[export] Instance byte_eq_dec : EqDecision byte := Byte.byte_eq_dec.

Declare Scope go_scope.
Delimit Scope go_scope with go.

(** Conversion of a string literal of the source to the bytes Go stores. *)
Definition str (s : string) : bytes := String.list_byte_of_string s.

Definition byte_Z (b : byte) : Z := Z.of_N (Byte.to_N b).

Definition Z_byte (z : Z) : byte :=
  match Byte.of_N (Z.to_N (z `mod` 256)) with
  | Some b => b
  | None => x00
  end.

(** [bytes.Compare]: lexicographic, by the numeric value of the bytes. *)
Fixpoint bytes_Compare (a b : bytes) : comparison :=
  match a, b with
  | [], [] => Eq
  | [], _ :: _ => Lt
  | _ :: _, [] => Gt
  | x :: a', y :: b' =>
      match N.compare (Byte.to_N x) (Byte.to_N y) with
      | Eq => bytes_Compare a' b'
      | c => c
      end
  end.

(** [bytes.Compare(a, b) == 0], the only equality test the source uses. *)
Definition bytes_eqb (a b : bytes) : bool := bool_decide (a = b).

(** [make([]byte, n)]. *)
Definition zeros (n : nat) : bytes := replicate n x00.

(** [copy(dst, src)]: overwrites the common prefix of [dst]. *)
Definition go_copy {A} (dst src : list A) : list A :=
  take (length dst) src ++ drop (length src) dst.

(** [copy(dst[off:], src)], for [off <= len(dst)]. *)
Definition go_copy_at {A} (dst : list A) (off : nat) (src : list A) : list A :=
  take off dst ++ go_copy (drop off dst) src.

(** ** Errors, panics and results *)

(** An argument of a [fmt.Sprintf] call that builds an error message. *)
Inductive fmt_arg :=
| ABytes (b : bytes)
| AInt (z : Z)
| AFloat (f : spec_float)
| AStr (s : string).

(** Error values.  [EMsg] is [errors.New] on a constant, [EFmt] on a formatted
    message, [EDB] a [database.DBError], [ETXVerify] and [ETXNotFound] the
    errors of [node/transactions/error.go], [ELib] an error that a library
    outside of the repository returns, and [EWrap] an error whose message is
    built from another error. *)
Inductive goerror :=
| EMsg (msg : string)
| EFmt (fmt : string) (args : list fmt_arg)
| EDB (err kind : string)
| ETXVerify (err kind : string) (TX : bytes)
| ETXNotFound (err kind : string)
| ELib (what : string)
| EWrap (fmt : string) (inner : goerror).

#[export] Instance spec_float_eq_dec : EqDecision spec_float.
Proof. solve_decision. Defined.
#[export] Instance fmt_arg_eq_dec : EqDecision fmt_arg.
Proof. solve_decision. Defined.
#[export] Instance goerror_eq_dec : EqDecision goerror.
Proof. intros x y. unfold Decision. decide equality; apply (decide (_ = _)). Defined.

(** Run-time panics the code can reach, and [os.Exit], which ends the program. *)
Inductive gopanic :=
| PIndex
| PSlice
| PNil
| PNilMap
| PUnlock
| PLog
| PUncomparable
| PBadLevel
| PError (e : goerror)
| PExit.

(** The result of a Go call: a value, a returned error, a run-time panic, or
    a loop that the fuel given did not bring to its end. *)
Inductive outcome (A : Type) : Type :=
| Ret (a : A)
| Err (e : goerror)
| Panic (p : gopanic)
| OutOfFuel.
Arguments Ret {A} a.
Arguments Err {A} e.
Arguments Panic {A} p.
Arguments OutOfFuel {A}.

#[export] Instance outcome_ret : MRet outcome := fun A a => Ret a.
#[export] Instance outcome_bind : MBind outcome := fun A B f m =>
  match m with
  | Ret a => f a
  | Err e => Err e
  | Panic p => Panic p
  | OutOfFuel => OutOfFuel
  end.
#[export] Instance outcome_fmap : FMap outcome := fun A B f m => m ≫= (λ a, Ret (f a)).

(** Indexing, nil checks and slicing as Go performs them. *)
Definition index {A} (l : list A) (i : Z) : outcome A :=
  if (i <? 0)%Z then Panic PIndex
  else match l !! Z.to_nat i with
       | Some a => Ret a
       | None => Panic PIndex
       end.

Definition deref {A} (o : option A) : outcome A :=
  match o with Some a => Ret a | None => Panic PNil end.

(** [s[lo:hi]] for a slice whose capacity is its length. *)
Definition slice {A} (l : list A) (lo hi : Z) : outcome (list A) :=
  if ((lo <? 0) || (hi <? lo) || (Z.of_nat (length l) <? hi))%Z then Panic PSlice
  else Ret (drop (Z.to_nat lo) (take (Z.to_nat hi) l)).

(** [s[i], s[j] = s[j], s[i]]. *)
Definition go_swap {A} (l : list A) (i j : Z) : outcome (list A) :=
  di ← index l i; dj ← index l j;
  Ret (<[Z.to_nat j := di]> (<[Z.to_nat i := dj]> l)).

(** A call whose error the source drops ([v, _ := f()]): the caller goes on
    with the zero value. *)
Definition ignore_err {A} (zero : A) (m : outcome A) : outcome A :=
  match m with
  | Err _ => Ret zero
  | m => m
  end.

(** A call whose error is dropped and whose result, a nil pointer when there is
    an error, is dereferenced at once. *)
Definition unchecked {A} (m : outcome A) : outcome A :=
  match m with
  | Err _ => Panic PNil
  | m => m
  end.

(** ** State-passing computations

    A function of the source that writes to the store [S] is a function from
    the store to a result and the store it leaves, also when it fails. *)
Definition st (S A : Type) : Type := S → outcome A * S.

#[export] Instance st_ret {S} : MRet (st S) := fun A a s => (Ret a, s).
#[export] Instance st_bind {S} : MBind (st S) := fun A B f m s =>
  match m s with
  | (Ret a, s') => f a s'
  | (Err e, s') => (Err e, s')
  | (Panic p, s') => (Panic p, s')
  | (OutOfFuel, s') => (OutOfFuel, s')
  end.

(** A read-only operation used in a writing one. *)
Definition ask {S A} (f : S → outcome A) : st S A := fun s => (f s, s).
Definition fail {S A} (e : goerror) : st S A := fun s => (Err e, s).
Definition lift {S A} (m : outcome A) : st S A := fun s => (m, s).

(** A step given by what it does to the state. *)
Definition effect {S A} (f : S → outcome A * S) : st S A := f.

(** A call whose returned error is logged or dropped and has no other
    effect: panics still propagate. *)
Definition drop_err {S A} (m : st S A) : st S unit := fun s =>
  match m s with
  | (Ret _, s') | (Err _, s') => (Ret tt, s')
  | (Panic p, s') => (Panic p, s')
  | (OutOfFuel, s') => (OutOfFuel, s')
  end.

(** Loops over a slice. *)
Fixpoint mfor {A B} (l : list A) (body : B → A → outcome B) (acc : B) : outcome B :=
  match l with
  | [] => Ret acc
  | a :: l' => acc' ← body acc a; mfor l' body acc'
  end.

Fixpoint sfor {S A B} (l : list A) (body : B → A → st S B) (acc : B) : st S B :=
  match l with
  | [] => mret acc
  | a :: l' => acc' ← body acc a; sfor l' body acc'
  end.

(** The results of a call on each element, in order, up to the first failure. *)
Fixpoint mmap {A B} (g : A → outcome B) (l : list A) : outcome (list B) :=
  match l with
  | [] => Ret []
  | a :: l' => b ← g a; bs ← mmap g l'; Ret (b :: bs)
  end.

(** A slice with the index of each element, as [for i, x := range l]. *)
Definition indexed_from {A} (n : nat) (l : list A) : list (Z * A) :=
  imap (λ i a, (Z.of_nat (n + i), a)) l.
Definition indexed {A} (l : list A) : list (Z * A) := indexed_from 0 l.

(** ** Machine integers *)

Definition int64_wrap (z : Z) : Z := ((z + 2 ^ 63) `mod` 2 ^ 64 - 2 ^ 63)%Z.
Definition int32_wrap (z : Z) : Z := ((z + 2 ^ 31) `mod` 2 ^ 32 - 2 ^ 31)%Z.
Definition is_int64 (z : Z) : Prop := (- 2 ^ 63 ≤ z < 2 ^ 63)%Z.

(** [binary.Write(_, binary.BigEndian, _)] of an [n]-byte integer. *)
Fixpoint big_endian (n : nat) (z : Z) : bytes :=
  match n with
  | O => []
  | S n' => big_endian n' (z / 256) ++ [Z_byte z]
  end.

(** The unsigned big-endian value of a byte string ([big.Int.SetBytes]). *)
Definition big_SetBytes (b : bytes) : Z :=
  fold_left (λ acc x, acc * 256 + byte_Z x)%Z b 0%Z.

(** [hex.EncodeToString]. *)
Definition hex_digit (n : Z) : ascii :=
  ascii_of_N (Z.to_N (if (n <? 10)%Z then 48 + n else 87 + n)%Z).
Fixpoint hex_EncodeToString (b : bytes) : string :=
  match b with
  | [] => EmptyString
  | x :: b' =>
      String (hex_digit (byte_Z x / 16)) (String (hex_digit (byte_Z x `mod` 16))
        (hex_EncodeToString b'))
  end.

(** [hex.DecodeString]. *)
Definition hex_value (c : ascii) : option Z :=
  let n := Z.of_N (N_of_ascii c) in
  if (48 <=? n)%Z && (n <=? 57)%Z then Some (n - 48)%Z
  else if (97 <=? n)%Z && (n <=? 102)%Z then Some (n - 87)%Z
  else if (65 <=? n)%Z && (n <=? 70)%Z then Some (n - 55)%Z
  else None.
Fixpoint hex_DecodeString (s : string) : outcome bytes :=
  match s with
  | EmptyString => Ret []
  | String c (String d s') =>
      match hex_value c, hex_value d with
      | Some hi, Some lo => b ← hex_DecodeString s'; Ret (Z_byte (16 * hi + lo) :: b)
      | _, _ => Err (ELib "hex.InvalidByteError")
      end
  | String _ EmptyString => Err (ELib "hex.ErrLength")
  end.

(** ** Automation *)

(** [lia] also reasons about division and remainder. *)
Ltac Zify.zify_post_hook ::= Z.to_euclidean_division_equations.

Create HintDb go discriminated.
Create Rewrite HintDb go.

(** The unit laws, to step through a computation without unfolding it. *)
Lemma ret_bind {A B} (a : A) (f : A → outcome B) : (Ret a ≫= f) = f a.
Proof. reflexivity. Qed.
Lemma err_bind {A B} e (f : A → outcome B) : (Err e ≫= f) = Err e.
Proof. reflexivity. Qed.
Lemma panic_bind {A B} p (f : A → outcome B) : (Panic p ≫= f) = Panic p.
Proof. reflexivity. Qed.

(** A monadic computation returns a value exactly when each of its steps
    does. *)
Lemma outcome_bind_Ret {A B} (m : outcome A) (f : A → outcome B) b :
  (m ≫= f) = Ret b ↔ ∃ a, m = Ret a ∧ f a = Ret b.
Proof.
  split; [|by intros (a & -> & ?)].
  destruct m; simpl; try done. eauto.
Qed.

(** The result of a run, with the state it leaves. *)
Lemma run_result {A B} (p : A * B) a : p.1 = a → p = (a, p.2).
Proof. intros <-. by destruct p. Qed.

(** Two computations with the same steps. *)
Lemma outcome_bind_ext {A B} (m m' : outcome A) (f f' : A → outcome B) :
  m = m' → (∀ a, f a = f' a) → (m ≫= f) = (m' ≫= f').
Proof. intros -> Hf. by destruct m'; simpl. Qed.

Lemma st_bind_Ret {S A B} (m : st S A) (f : A → st S B) s b s' :
  (m ≫= f) s = (Ret b, s') ↔ ∃ a s1, m s = (Ret a, s1) ∧ f a s1 = (Ret b, s').
Proof.
  unfold mbind, st_bind. split.
  - destruct (m s) as [[a|e|p|] s1]; intros E; [by eauto|by simplify_eq..].
  - by intros (a & s1 & -> & ?).
Qed.

(** [go_inv H]: breaks a hypothesis that says a computation returned into one
    hypothesis per step. *)
Ltac go_inv H :=
  lazymatch type of H with
  | (_ ≫= _) = Ret _ =>
      let a := fresh "v" in let E := fresh "E" in
      apply outcome_bind_Ret in H; destruct H as (a & E & H); go_inv H
  | (_ ≫= _) _ = (Ret _, _) =>
      let a := fresh "v" in let s := fresh "s" in let E := fresh "E" in
      apply st_bind_Ret in H; destruct H as (a & s & E & H); go_inv H
  | Ret _ = Ret _ => simplify_eq
  | mret _ = Ret _ => unfold mret, outcome_ret in H; simplify_eq
  | _ => idtac
  end.

(** [go_case]: case analysis on the next test the goal branches on. *)
Ltac go_case :=
  match goal with
  | |- context [if ?b then _ else _] =>
      lazymatch b with
      | context [if _ then _ else _] => fail
      | _ => let E := fresh "E" in destruct b eqn:E
      end
  | |- context [match ?x with _ => _ end] =>
      lazymatch x with
      | context [match _ with _ => _ end] => fail
      | _ => let E := fresh "E" in destruct x eqn:E
      end
  end.

(** ** Lists, indices and slices *)

Lemma index_Ret {A} (l : list A) i a :
  index l i = Ret a ↔ (0 ≤ i)%Z ∧ l !! Z.to_nat i = Some a.
Proof.
  unfold index. destruct (i <? 0)%Z eqn:E.
  - split; [done|]. intros [? _]. apply Z.ltb_lt in E. lia.
  - apply Z.ltb_ge in E. destruct (l !! _); split; intros HR; [by simplify_eq|destruct HR; by simplify_eq|done|by destruct HR].
Qed.

Lemma index_nat {A} (l : list A) (n : nat) :
  index l (Z.of_nat n) = match l !! n with Some a => Ret a | None => Panic PIndex end.
Proof.
  unfold index. rewrite Nat2Z.id.
  by destruct (Z.ltb_spec (Z.of_nat n) 0) as [?|?]; [lia|].
Qed.

Lemma index_in {A} (l : list A) (i : Z) :
  (0 ≤ i < Z.of_nat (length l))%Z → ∃ a, index l i = Ret a.
Proof.
  intros Hi. destruct (lookup_lt_is_Some_2 l (Z.to_nat i)) as [a Ha]; [lia|].
  exists a. apply index_Ret. split; [lia|done].
Qed.

Lemma slice_Ret {A} (l : list A) (lo hi : nat) :
  lo ≤ hi ≤ length l →
  slice l (Z.of_nat lo) (Z.of_nat hi) = Ret (drop lo (take hi l)).
Proof.
  intros ?. unfold slice. rewrite !Nat2Z.id.
  by replace (_ || _ || _) with false by lia.
Qed.

Lemma go_swap_Ret {A} (l : list A) (i j : nat) a b :
  l !! i = Some a → l !! j = Some b →
  go_swap l (Z.of_nat i) (Z.of_nat j) = Ret (<[j := a]> (<[i := b]> l)).
Proof.
  intros Hi Hj. unfold go_swap. rewrite !index_nat, Hi, Hj. simpl. by rewrite !Nat2Z.id.
Qed.

(** The list [cur] is [l] with its first and last [k] elements exchanged: what
    the swap loops of the source reach after [k] rounds. *)
Definition swapped_upto {A} (k : nat) (l cur : list A) : Prop :=
  length cur = length l ∧
  ∀ p, p < length l →
    cur !! p = if bool_decide (p < k ∨ length l - k ≤ p)
               then l !! (length l - 1 - p) else l !! p.

Lemma swapped_upto_0 {A} (l : list A) : swapped_upto 0 l l.
Proof. split; [done|]. intros p Hp. rewrite bool_decide_eq_false_2; [done|lia]. Qed.

Lemma swapped_upto_full {A} k (l cur : list A) :
  length l ≤ 2 * k + 1 → swapped_upto k l cur → cur = reverse l.
Proof.
  intros Hk [Hlen Hl]. apply list_eq_same_length with (length l);
    [by rewrite length_reverse|done|].
  intros p x y Hp Hx Hy. rewrite Hl in Hx by lia. rewrite reverse_lookup in Hy by lia.
  replace (length l - 1 - p) with (length l - S p) in Hx by lia.
  case_bool_decide; [congruence|].
  replace (length l - S p) with p in Hy by lia. congruence.
Qed.

(** One more round: the elements at [k] and [length l - 1 - k] change places. *)
Lemma swapped_upto_S {A} k (l cur : list A) :
  2 * k + 1 < length l → swapped_upto k l cur →
  ∃ cur', go_swap cur (Z.of_nat k) (Z.of_nat (length l - 1 - k)) = Ret cur' ∧
          swapped_upto (S k) l cur'.
Proof.
  intros Hk [Hlen Hl].
  destruct (lookup_lt_is_Some_2 cur k) as [a Ha]; [lia|].
  destruct (lookup_lt_is_Some_2 cur (length l - 1 - k)) as [b Hb]; [lia|].
  eexists. split; [by apply go_swap_Ret|]. split; [by rewrite !length_insert|].
  intros p Hp. rewrite Hl in Ha, Hb by lia.
  rewrite bool_decide_eq_false_2 in Ha, Hb by lia.
  destruct (decide (p = length l - 1 - k)) as [->|Hp1].
  { rewrite list_lookup_insert_eq by (rewrite length_insert; lia).
    rewrite bool_decide_eq_true_2 by lia. rewrite <- Ha. f_equal. lia. }
  rewrite list_lookup_insert_ne by lia.
  destruct (decide (p = k)) as [->|Hp2].
  { rewrite list_lookup_insert_eq by lia. by rewrite bool_decide_eq_true_2 by lia. }
  rewrite list_lookup_insert_ne by lia. rewrite Hl by lia.
  destruct (decide (p < k ∨ length l - k ≤ p)).
  - by rewrite !bool_decide_eq_true_2 by lia.
  - by rewrite !bool_decide_eq_false_2 by lia.
Qed.

Lemma go_copy_full {A} (dst src : list A) :
  length dst = length src → go_copy dst src = src.
Proof.
  intros Hlen. unfold go_copy.
  by rewrite Hlen, firstn_all, <- Hlen, drop_all, app_nil_r.
Qed.

Lemma length_go_copy {A} (dst src : list A) : length (go_copy dst src) = length dst.
Proof. unfold go_copy. rewrite length_app, length_take, length_drop. lia. Qed.

Lemma length_zeros n : length (zeros n) = n.
Proof. apply length_replicate. Qed.

(** ** Loops *)

(** A loop whose body folds the result of a call into the accumulator. *)
Lemma mfor_fold {A B C} (g : A → outcome B) (f : C → B → C) (body : C → A → outcome C) l acc :
  (∀ acc a, body acc a = (g a ≫= λ x, Ret (f acc x))) →
  mfor l body acc = (mmap g l ≫= λ xs, Ret (fold_left f xs acc)).
Proof.
  intros Hb. revert acc. induction l as [|a l IH]; intros acc; simpl; [done|].
  rewrite Hb. destruct (g a) as [x|e|p|]; simpl; [|done..].
  rewrite IH. by destruct (mmap g l).
Qed.

Lemma mmap_Ret {A B} (g : A → outcome B) l xs :
  mmap g l = Ret xs ↔ Forall2 (λ a x, g a = Ret x) l xs.
Proof.
  revert xs. induction l as [|a l IH]; intros xs; simpl.
  - split; [intros [= <-]; constructor|by inversion 1].
  - split.
    + intros Hm. go_inv Hm. constructor; [done|]. by apply IH.
    + inversion 1 as [|? x ? xs' Hg Hl]; subst. apply IH in Hl. by rewrite Hg, ret_bind, Hl.
Qed.

Lemma mmap_ext {A B} (g g' : A → outcome B) l :
  (∀ a, g a = g' a) → mmap g l = mmap g' l.
Proof. intros Hg. induction l as [|a l IH]; simpl; [done|]. by rewrite Hg, IH. Qed.

Lemma mfor_ext {A B} (f f' : B → A → outcome B) l acc :
  (∀ acc a, f acc a = f' acc a) → mfor l f acc = mfor l f' acc.
Proof.
  intros Hf. revert acc. induction l as [|a l IH]; intros acc; simpl; [done|].
  rewrite Hf. by destruct (f' acc a); simpl.
Qed.

Lemma mfor_ext_in {A B} (f f' : B → A → outcome B) l acc :
  (∀ acc a, a ∈ l → f acc a = f' acc a) → mfor l f acc = mfor l f' acc.
Proof.
  revert acc. induction l as [|a l IH]; intros acc Hf; simpl; [done|].
  rewrite Hf by left. destruct (f' acc a); simpl; [|done..]. apply IH. intros. apply Hf. by right.
Qed.

(** The same loop on accumulators that [h] translates. *)
Lemma mfor_translate {A B C} (h : B → C) (f : B → A → outcome B) (f' : C → A → outcome C) l acc c :
  (∀ acc a, f' (h acc) a = (x ← f acc a; Ret (h x))) → c = h acc →
  mfor l f' c = (x ← mfor l f acc; Ret (h x)).
Proof.
  intros Hf ->. revert acc. induction l as [|a l IH]; intros acc; simpl; [done|].
  rewrite Hf. by destruct (f acc a); simpl.
Qed.

Lemma mfor_snoc {A B} (g : A → outcome B) l acc :
  mfor l (λ acc a, x ← g a; Ret (acc ++ [x])) acc = (xs ← mmap g l; Ret (acc ++ xs)).
Proof.
  rewrite (mfor_fold g (λ acc x, acc ++ [x])) by done.
  destruct (mmap g l) as [xs|e|p|]; simpl; [|done..]. f_equal.
  revert acc. induction xs as [|x xs IH]; intros acc; simpl; [by rewrite app_nil_r|].
  by rewrite IH, <- app_assoc.
Qed.

Lemma mfor_snoc_total {A B} (g : A → outcome B) l acc :
  (∀ a, a ∈ l → ∃ b, g a = Ret b) →
  ∃ bs, mfor l (λ acc a, x ← g a; Ret (acc ++ [x])) acc = Ret (acc ++ bs) ∧ Forall2 (λ a b, g a = Ret b) l bs.
Proof.
  intros Hg. assert (∃ bs, mmap g l = Ret bs) as [bs E].
  { induction l as [|a l IH]; [by exists []|]. destruct (Hg a) as [b E]; [by left|].
    destruct IH as [bs Eb]; [intros x Hx; apply Hg; by right|]. exists (b :: bs). simpl. by rewrite E, Eb. }
  exists bs. rewrite mfor_snoc, E. split; [done|]. by apply mmap_Ret.
Qed.

(** A loop that only checks. *)
Lemma mfor_unit {A} (body : unit → A → outcome unit) l :
  mfor l body tt = Ret tt ↔ Forall (λ a, body tt a = Ret tt) l.
Proof.
  induction l as [|a l IH]; simpl; [by split|]. rewrite Forall_cons, <- IH.
  destruct (body tt a) as [[]|e|p|]; simpl; (split; [by intros|by intros []]).
Qed.

(** A loop of steps [body x] that each take a state related to [m] to one
    related to [eff m x], as long as [ok m x]. *)
Fixpoint all_ok {X M} (ok : M → X → Prop) (eff : M → X → M) (m : M) (xs : list X) : Prop :=
  match xs with
  | [] => True
  | x :: xs' => ok m x ∧ all_ok ok eff (eff m x) xs'
  end.

Lemma sfor_sim {S X M} (R : S → M → Prop) (body : X → st S unit) (eff : M → X → M)
    (ok : M → X → Prop) xs s m :
  R s m → all_ok ok eff m xs →
  (∀ s m x, R s m → ok m x → ∃ s', body x s = (Ret tt, s') ∧ R s' (eff m x)) →
  ∃ s', sfor xs (λ _ x, body x) tt s = (Ret tt, s') ∧ R s' (fold_left eff xs m).
Proof.
  intros HR Hok Hstep. revert s m HR Hok. induction xs as [|x xs IH]; intros s m HR Hok.
  { by exists s. }
  destruct Hok as [Hx Hok]. destruct (Hstep s m x HR Hx) as (s1 & E & HR1).
  destruct (IH s1 (eff m x) HR1 Hok) as (s2 & E2 & HR2). exists s2. split; [|done].
  simpl. apply st_bind_Ret. eauto.
Qed.

Lemma sfor_app {S X B} (body : B → X → st S B) l1 l2 acc s :
  sfor (l1 ++ l2) body acc s = (acc' ← sfor l1 body acc; sfor l2 body acc') s.
Proof.
  revert acc s. induction l1 as [|x l1 IH]; intros acc s; [done|].
  simpl. unfold mbind, st_bind. by destruct (body acc x s) as [[b|e|p|] s'].
Qed.

(** Nested loops are one loop over the items in the order they are met. *)
Lemma sfor_flatten {S X Y} (items : X → list Y) (body : X → st S unit) (step : Y → st S unit) xs s :
  (∀ x s, body x s = sfor (items x) (λ _ y, step y) tt s) →
  sfor xs (λ _ x, body x) tt s = sfor (mjoin (items <$> xs)) (λ _ y, step y) tt s.
Proof.
  intros Hb. revert s. induction xs as [|x xs IH]; intros s; [done|].
  csimpl. rewrite sfor_app. unfold mbind, st_bind. rewrite Hb.
  by destruct (sfor (items x) _ tt s) as [[[]|e|p|] s'].
Qed.

Lemma sfor_fmap {S X Y} (g : X → Y) (step : Y → st S unit) xs s :
  sfor (g <$> xs) (λ _ y, step y) tt s = sfor xs (λ _ x, step (g x)) tt s.
Proof.
  revert s. induction xs as [|x xs IH]; intros s; [done|].
  simpl. unfold mbind, st_bind. by destruct (step (g x) s) as [[[]|e|p|] s'].
Qed.

Lemma indexed_from_cons {A} n (a : A) l :
  indexed_from n (a :: l) = (Z.of_nat n, a) :: indexed_from (S n) l.
Proof.
  unfold indexed_from. simpl. rewrite Nat.add_0_r. f_equal.
  apply imap_ext. intros i x _. simpl. do 2 f_equal. lia.
Qed.

Lemma fmap_snd_indexed_filter {A} (P : A → Prop) `{!∀ x, Decision (P x)} n (l : list A) :
  snd <$> filter (λ p, P p.2) (indexed_from n l) = filter P l.
Proof.
  revert n. induction l as [|a l IH]; intros n; [done|].
  rewrite indexed_from_cons, !filter_cons. simpl. case_decide; csimpl; by rewrite IH.
Qed.

Lemma lookup_indexed {A} (l : list A) i :
  indexed l !! i = (λ a, (Z.of_nat i, a)) <$> l !! i.
Proof. unfold indexed, indexed_from. rewrite list_lookup_imap. by destruct (l !! i). Qed.

Lemma elem_of_indexed {A} (l : list A) z a :
  (z, a) ∈ indexed l ↔ ∃ i : nat, z = Z.of_nat i ∧ l !! i = Some a.
Proof.
  rewrite list_elem_of_lookup. setoid_rewrite lookup_indexed. split.
  - intros (i & (a' & E & [= -> ->])%fmap_Some). by exists i.
  - intros (i & -> & E). exists i. by rewrite E.
Qed.

Lemma NoDup_fmap_filter {A B} (g : A → B) (P : A → Prop) `{∀ x, Decision (P x)} l :
  NoDup (g <$> l) → NoDup (g <$> filter P l).
Proof.
  induction l as [|a l IH]; intros Hnd; [done|]. rewrite fmap_cons in Hnd.
  apply NoDup_cons in Hnd as [Hn Hnd]. rewrite filter_cons. case_decide; [|by apply IH].
  rewrite fmap_cons. constructor; [|by apply IH]. intros (x & E & Hx)%list_elem_of_fmap.
  apply list_elem_of_filter in Hx as [_ Hx]. apply Hn. rewrite E. by apply list_elem_of_fmap_2.
Qed.

Lemma NoDup_indexed {A} (l : list A) : NoDup (indexed l).*1.
Proof.
  apply NoDup_alt. intros i j z. rewrite !list_lookup_fmap, !lookup_indexed.
  intros (p & Hi & E)%fmap_Some (q & Hj & E')%fmap_Some.
  apply fmap_Some in Hi as (? & _ & ->). apply fmap_Some in Hj as (? & _ & ->). simpl in *. lia.
Qed.

Lemma length_indexed {A} (l : list A) : length (indexed l) = length l.
Proof. apply length_imap. Qed.

Lemma Forall_indexed {A} (P : Z * A → Prop) l :
  Forall P (indexed l) ↔ ∀ (i : nat) a, l !! i = Some a → P (Z.of_nat i, a).
Proof.
  rewrite Forall_lookup. split.
  - intros Hf i a Hi. apply (Hf i). by rewrite lookup_indexed, Hi.
  - intros Hf i [j a]. rewrite lookup_indexed. intros Hi.
    apply fmap_Some in Hi as (a' & Hi & [= -> ->]). eauto.
Qed.

Lemma Forall2_indexed {A B} (R : Z * A → B → Prop) l xs :
  Forall2 R (indexed l) xs ↔
  length xs = length l ∧
  ∀ (i : nat) a x, l !! i = Some a → xs !! i = Some x → R (Z.of_nat i, a) x.
Proof.
  rewrite Forall2_same_length_lookup, length_indexed. split; intros [Hl Hr]; (split; [done|]).
  - intros i a x Ha Hx. apply (Hr i); [|done]. by rewrite lookup_indexed, Ha.
  - intros i [j a] x. rewrite lookup_indexed. intros Ha.
    apply fmap_Some in Ha as (a' & Ha & [= -> ->]). eauto.
Qed.

Lemma Forall2_refine {A B} (P R : A → B → Prop) (Q : A → Prop) l k :
  Forall2 P l k → Forall Q l → (∀ x y, P x y → Q x → R x y) → Forall2 R l k.
Proof. intros Hf. induction Hf; inversion 1; subst; constructor; auto. Qed.

Lemma Forall2_perm {A B} (R : A → B → Prop) l l' k :
  l ≡ₚ l' → Forall2 R l k → ∃ k', Forall2 R l' k' ∧ k ≡ₚ k'.
Proof.
  intros Hp. revert k. induction Hp as [|x l l' _ IH|x y l|l l' l'' _ IH1 _ IH2]; intros k Hf.
  - by exists k.
  - apply Forall2_cons_inv_l in Hf as (z & k0 & Hz & Hf & ->).
    destruct (IH _ Hf) as (k' & ? & ?). exists (z :: k'). split; [by constructor|by constructor].
  - apply Forall2_cons_inv_l in Hf as (z & k0 & Hz & Hf & ->).
    apply Forall2_cons_inv_l in Hf as (w & k1 & Hw & Hf & ->).
    exists (w :: z :: k1). split; [by repeat constructor|constructor].
  - destruct (IH1 _ Hf) as (k1 & Hf1 & ?). destruct (IH2 _ Hf1) as (k2 & ? & ?).
    exists k2. split; [done|by etrans].
Qed.

Lemma StronglySorted_mono {A} (R R' : A → A → Prop) l :
  (∀ a b, R a b → R' a b) → StronglySorted R l → StronglySorted R' l.
Proof.
  intros HR. induction 1 as [|a l _ IH Ha]; constructor; [done|].
  eapply Forall_impl; [exact Ha|]. apply HR.
Qed.

Lemma elem_of_join_fmap {A B} (g : A → list B) ls x :
  x ∈ mjoin (g <$> ls) ↔ ∃ l, l ∈ ls ∧ x ∈ g l.
Proof. rewrite list_elem_of_join. setoid_rewrite list_elem_of_fmap. naive_solver. Qed.

Lemma Forall2_left {A B} (P : A → B → Prop) (Q : A → Prop) l k :
  Forall2 P l k → (∀ x y, P x y → Q x) → Forall Q l.
Proof. intros Hf HQ. induction Hf; constructor; eauto. Qed.

Lemma filter_all {A} (P : A → Prop) `{!∀ x, Decision (P x)} (l : list A) :
  Forall P l → filter P l = l.
Proof. induction 1 as [|x l Hx _ IH]; [done|]. by rewrite filter_cons_True, IH. Qed.

Lemma filter_none {A} (P : A → Prop) `{!∀ x, Decision (P x)} (l : list A) :
  Forall (λ x, ¬ P x) l → filter P l = [].
Proof. induction 1 as [|x l Hx _ IH]; [done|]. by rewrite filter_cons_False, IH. Qed.

(** ** Integers and bytes *)

Lemma byte_Z_range b : (0 ≤ byte_Z b < 256)%Z.
Proof. unfold byte_Z. pose proof (Byte.to_N_bounded b). lia. Qed.

Lemma byte_Z_Z_byte z : byte_Z (Z_byte z) = (z `mod` 256)%Z.
Proof.
  unfold byte_Z, Z_byte.
  pose proof (Z.mod_pos_bound z 256 ltac:(lia)) as Hb.
  destruct (Byte.of_N _) as [b|] eqn:E.
  - apply Byte.to_of_N in E. rewrite E. lia.
  - apply Byte.of_N_None_iff in E. lia.
Qed.

Lemma Z_byte_byte_Z b : Z_byte (byte_Z b) = b.
Proof.
  unfold Z_byte, byte_Z. rewrite Z.mod_small by apply byte_Z_range.
  by rewrite N2Z.id, Byte.of_to_N.
Qed.

Lemma length_big_endian n z : length (big_endian n z) = n.
Proof. revert z. induction n; intros z; simpl; [done|]. rewrite length_app, IHn. simpl. lia. Qed.

Lemma big_SetBytes_app a b :
  big_SetBytes (a ++ [b]) = (big_SetBytes a * 256 + byte_Z b)%Z.
Proof. unfold big_SetBytes. by rewrite fold_left_app. Qed.

Lemma big_SetBytes_big_endian n z :
  big_SetBytes (big_endian n z) = (z `mod` 256 ^ Z.of_nat n)%Z.
Proof.
  revert z. induction n as [|n IH]; intros z.
  { simpl. by rewrite Z.mod_1_r. }
  simpl big_endian. rewrite big_SetBytes_app, IH, byte_Z_Z_byte.
  rewrite Nat2Z.inj_succ, Z.pow_succ_r by lia.
  rewrite Z.rem_mul_r by lia. lia.
Qed.

Lemma byte_Z_inj a b : byte_Z a = byte_Z b → a = b.
Proof. intros H. by rewrite <- (Z_byte_byte_Z a), H, Z_byte_byte_Z. Qed.

Lemma hex_digit_inj a b :
  (0 ≤ a < 16)%Z → (0 ≤ b < 16)%Z → hex_digit a = hex_digit b → a = b.
Proof.
  intros Ha Hb H. unfold hex_digit in H. apply (f_equal N_of_ascii) in H.
  rewrite !N_ascii_embedding in H by (repeat case_match; lia).
  repeat case_match; lia.
Qed.

Lemma hex_value_digit n : (0 ≤ n < 16)%Z → hex_value (hex_digit n) = Some n.
Proof.
  intros Hn. assert (∃ k : nat, k < 16 ∧ n = Z.of_nat k) as (k & Hk & ->) by (exists (Z.to_nat n); lia).
  do 16 (destruct k as [|k]; [reflexivity|]). lia.
Qed.

Lemma hex_DecodeString_Encode b : hex_DecodeString (hex_EncodeToString b) = Ret b.
Proof.
  induction b as [|x b IH]; [done|]. pose proof (byte_Z_range x). cbn [hex_EncodeToString hex_DecodeString].
  rewrite !hex_value_digit by lia. rewrite IH, ret_bind.
  replace (16 * (byte_Z x / 16) + byte_Z x `mod` 16)%Z with (byte_Z x) by lia.
  by rewrite Z_byte_byte_Z.
Qed.

Lemma hex_EncodeToString_inj a b : hex_EncodeToString a = hex_EncodeToString b → a = b.
Proof.
  revert b. induction a as [|x a IH]; intros [|y b]; simpl; try done.
  intros H. injection H as H1 H2 H3. f_equal; [|by apply IH].
  pose proof (byte_Z_range x). pose proof (byte_Z_range y).
  apply hex_digit_inj in H1; [|lia|lia]. apply hex_digit_inj in H2; [|lia|lia].
  apply byte_Z_inj. lia.
Qed.

Lemma bytes_eqb_true a b : bytes_eqb a b = true ↔ a = b.
Proof. apply bool_decide_eq_true. Qed.
Lemma bytes_eqb_false a b : bytes_eqb a b = false ↔ a ≠ b.
Proof. apply bool_decide_eq_false. Qed.
Lemma bytes_eqb_refl a : bytes_eqb a a = true.
Proof. by apply bytes_eqb_true. Qed.

Lemma bytes_Compare_refl a : bytes_Compare a a = Eq.
Proof. induction a as [|x a IH]; simpl; [done|]. by rewrite N.compare_refl. Qed.

Lemma bytes_Compare_Eq a b : bytes_Compare a b = Eq ↔ a = b.
Proof.
  split; [|intros ->; apply bytes_Compare_refl].
  revert b. induction a as [|x a IH]; intros [|y b]; simpl; try done.
  destruct (N.compare_spec (Byte.to_N x) (Byte.to_N y)) as [E|?|?]; try done.
  intros H%IH. subst. f_equal.
  apply (f_equal Byte.of_N) in E. rewrite !Byte.of_to_N in E. congruence.
Qed.

(** No byte string is below the zero string of its length: the test
    [bytes.Compare(h, emptyHash) > 0] is [h <> emptyHash]. *)
Lemma bytes_Compare_zeros h :
  bytes_Compare h (zeros (length h)) = if bool_decide (h = zeros (length h)) then Eq else Gt.
Proof.
  unfold zeros. induction h as [|x h IH]; [done|]. simpl.
  destruct (decide (x = x00)) as [->|Hx].
  - rewrite N.compare_refl, IH.
    case_bool_decide; case_bool_decide; congruence.
  - rewrite bool_decide_eq_false_2 by naive_solver.
    destruct (Byte.to_N x) eqn:E; [|done]. exfalso. apply Hx.
    apply (f_equal Byte.of_N) in E. rewrite Byte.of_to_N in E. by simplify_eq/=.
Qed.

#[export] Hint Rewrite @length_app @length_take @length_drop @length_insert @length_replicate
  @length_go_copy length_zeros length_big_endian @ret_bind @err_bind @panic_bind bytes_eqb_refl bytes_Compare_refl : go.
#[export] Hint Resolve byte_Z_range swapped_upto_0 : go.

(** A value of the type is not changed. *)
Lemma int64_wrap_id z : is_int64 z → int64_wrap z = z.
Proof. unfold is_int64, int64_wrap. intros Hz. rewrite Z.mod_small; lia. Qed.
