(* ===== verification/Text.v ===== *)
(** * The standard library's texts

    [strings.Split], [strings.Join] and [encoding/base64] as the source uses
    them, on strings as their bytes, with the round trips the components need. *)

From Stdlib Require Import Strings.Byte ZifyNat.
From stdpp Require Import base strings numbers list.
From S2P Require Import Prelude.

(** Texts that JSON keeps as they are. *)
Definition plain_text (s : bytes) : Prop := Forall (λ c, (byte_Z c < 128)%Z) s.

(** ** [strings.Split] and [strings.Join] for a separator of one byte *)

Fixpoint Split (sep : byte) (s : bytes) : list bytes :=
  match s with
  | [] => [[]]
  | c :: s' =>
      if bool_decide (c = sep) then [] :: Split sep s'
      else match Split sep s' with
           | [] => [[c]]
           | p :: ps => (c :: p) :: ps
           end
  end.

Fixpoint Join (sep : byte) (l : list bytes) : bytes :=
  match l with
  | [] => []
  | [s] => s
  | s :: l' => s ++ sep :: Join sep l'
  end.

(** ** [base64.StdEncoding] *)

Definition base64_alphabet : bytes :=
  str "ABCDEFGHIJKLMNOPQRSTUVWXYZabcdefghijklmnopqrstuvwxyz0123456789+/".
Definition base64_char (n : Z) : byte := nth (Z.to_nat n) base64_alphabet x00.
Definition base64_value (c : byte) : option Z :=
  let n := byte_Z c in
  (if (65 <=? n) && (n <=? 90) then Some (n - 65)
   else if (97 <=? n) && (n <=? 122) then Some (n - 71)
   else if (48 <=? n) && (n <=? 57) then Some (n + 4)
   else if n =? 43 then Some 62
   else if n =? 47 then Some 63
   else None)%Z.
Definition pad : byte := "="%byte.

(** [EncodeToString]: three bytes are four characters of six bits each. *)
Fixpoint base64_EncodeToString (b : bytes) : bytes :=
  match b with
  | x :: y :: z :: b' =>
      let v := (byte_Z x * 65536 + byte_Z y * 256 + byte_Z z)%Z in
      base64_char (v / 262144) :: base64_char ((v / 4096) `mod` 64) ::
      base64_char ((v / 64) `mod` 64) :: base64_char (v `mod` 64) :: base64_EncodeToString b'
  | [x; y] =>
      let v := (byte_Z x * 65536 + byte_Z y * 256)%Z in
      [base64_char (v / 262144); base64_char ((v / 4096) `mod` 64); base64_char ((v / 64) `mod` 64); pad]
  | [x] =>
      let v := (byte_Z x * 65536)%Z in
      [base64_char (v / 262144); base64_char ((v / 4096) `mod` 64); pad; pad]
  | [] => []
  end.

(** What [DecodeString] returns next to an error that the source drops: the bytes
    before the first bad quantum.  Line ends are skipped. *)
Fixpoint base64_decode (s : bytes) : bytes :=
  match s with
  | a :: b :: c :: d :: s' =>
      match base64_value a, base64_value b with
      | Some p, Some q =>
          let v := (p * 262144 + q * 4096)%Z in
          match base64_value c with
          | Some r =>
              let v := (v + r * 64)%Z in
              match base64_value d with
              | Some t => Z_byte (v / 65536) :: Z_byte (v / 256) :: Z_byte (v + t) :: base64_decode s'
              | None => if bool_decide (d = pad) then [Z_byte (v / 65536); Z_byte (v / 256)] else []
              end
          | None => if bool_decide (c = pad) && bool_decide (d = pad) then [Z_byte (v / 65536)] else []
          end
      | _, _ => []
      end
  | _ => []
  end.
Definition base64_DecodeString (s : bytes) : bytes :=
  base64_decode (filter (λ c, c ≠ "010"%byte ∧ c ≠ "013"%byte) s).

(** ** Lemmas *)

Lemma Split_nonempty sep s : Split sep s ≠ [].
Proof. destruct s as [|c s]; cbn; [done|]. case_bool_decide; [done|]. by destruct (Split sep s). Qed.

Lemma Join_cons sep s l : l ≠ [] → Join sep (s :: l) = s ++ sep :: Join sep l.
Proof. by destruct l. Qed.

Lemma Join_Split sep s : Join sep (Split sep s) = s.
Proof.
  induction s as [|c s IH]; [done|]. cbn [Split]. pose proof (Split_nonempty sep s) as Hne.
  case_bool_decide as Hc; [subst c; by rewrite Join_cons, IH|].
  destruct (Split sep s) as [|p ps]; [done|]. destruct ps as [|q ps]; cbn in *; [by rewrite IH|].
  by rewrite IH.
Qed.

Lemma Split_notin sep s : sep ∉ s → Split sep s = [s].
Proof.
  induction s as [|c s IH]; intros Hn; [done|]. apply not_elem_of_cons in Hn as [Hc Hn].
  cbn. rewrite bool_decide_eq_false_2, IH; done.
Qed.

Lemma Split_cons sep s rest : sep ∉ s → Split sep (s ++ sep :: rest) = s :: Split sep rest.
Proof.
  induction s as [|c s IH]; intros Hn; cbn; [by rewrite bool_decide_eq_true_2|].
  apply not_elem_of_cons in Hn as [Hc Hn]. by rewrite bool_decide_eq_false_2, IH.
Qed.

Lemma Split_Join sep l : l ≠ [] → (∀ s, s ∈ l → sep ∉ s) → Split sep (Join sep l) = l.
Proof.
  induction l as [|s l IH]; intros Hne Hs; [done|]. destruct l as [|s' l].
  - apply Split_notin, Hs. by left.
  - rewrite Join_cons, Split_cons, IH; [done|done| |apply Hs; by left|done].
    intros x Hx. apply Hs. by right.
Qed.

Lemma Split_parts sep s p : p ∈ Split sep s → sep ∉ p.
Proof.
  revert p. induction s as [|c s IH]; intros p; cbn [Split].
  { intros ->%list_elem_of_singleton. apply not_elem_of_nil. }
  case_bool_decide as Hc.
  { intros [->|Hp]%elem_of_cons; [apply not_elem_of_nil|by apply IH]. }
  pose proof (Split_nonempty sep s). destruct (Split sep s) as [|q qs]; [done|].
  intros [->|Hp]%elem_of_cons; [|apply IH; by right]. apply not_elem_of_cons. split; [congruence|apply IH; by left].
Qed.

(** The characters of the alphabet. *)
Definition below_64 (P : Z → Prop) `{!∀ n, Decision (P n)} : bool :=
  forallb (λ n, bool_decide (P n)) (seqZ 0 64).
Lemma all_below_64 (P : Z → Prop) `{!∀ n, Decision (P n)} n : below_64 P = true → (0 ≤ n < 64)%Z → P n.
Proof.
  unfold below_64. rewrite forallb_forall. intros Hf Hn. apply (bool_decide_eq_true _), Hf.
  apply list_elem_of_In, elem_of_seqZ. lia.
Qed.

Lemma base64_value_char n : (0 ≤ n < 64)%Z → base64_value (base64_char n) = Some n.
Proof. apply (all_below_64 (λ n, base64_value (base64_char n) = Some n)). by vm_compute. Qed.

Definition plain (c : byte) : Prop := c ≠ " "%byte ∧ c ≠ "010"%byte ∧ c ≠ "013"%byte.
Lemma base64_char_plain n : (0 ≤ n < 64)%Z → plain (base64_char n).
Proof. apply (all_below_64 (λ n, plain (base64_char n))). by vm_compute. Qed.

Lemma Z_byte_shift b v : (v `mod` 256 = byte_Z b)%Z → Z_byte v = b.
Proof.
  intros Hv. apply byte_Z_inj. by rewrite byte_Z_Z_byte.
Qed.

Lemma base64_decode_Encode b : base64_decode (base64_EncodeToString b) = b.
Proof.
  revert b. fix IH 1. intros [|x [|y [|z b]]]; [done|..]; cbn [base64_EncodeToString base64_decode].
  - pose proof (byte_Z_range x). rewrite !base64_value_char by lia. cbn [base64_value].
    change (base64_value pad) with (@None Z). cbv iota. rewrite bool_decide_eq_true_2 by done.
    cbn [andb]. f_equal. apply Z_byte_shift. lia.
  - pose proof (byte_Z_range x). pose proof (byte_Z_range y). rewrite !base64_value_char by lia.
    change (base64_value pad) with (@None Z). cbv iota. rewrite bool_decide_eq_true_2 by done.
    f_equal; [|f_equal]; apply Z_byte_shift; lia.
  - pose proof (byte_Z_range x). pose proof (byte_Z_range y). pose proof (byte_Z_range z).
    rewrite !base64_value_char by lia. rewrite IH.
    f_equal; [|f_equal; [|f_equal]]; apply Z_byte_shift; lia.
Qed.

Lemma base64_Encode_plain b : Forall plain (base64_EncodeToString b).
Proof.
  assert (Hp : plain pad) by done.
  revert b. fix IH 1. intros [|x [|y [|z b]]]; [constructor|..]; cbn [base64_EncodeToString];
    pose proof (byte_Z_range x); try pose proof (byte_Z_range y); try pose proof (byte_Z_range z);
    repeat (apply Forall_cons; split; [first [exact Hp|apply base64_char_plain; lia]|]);
    [constructor|constructor|apply IH].
Qed.

Lemma base64_DecodeString_EncodeToString b : base64_DecodeString (base64_EncodeToString b) = b.
Proof.
  unfold base64_DecodeString. rewrite filter_all; [apply base64_decode_Encode|].
  eapply Forall_impl; [apply base64_Encode_plain|]. unfold plain. naive_solver.
Qed.

Lemma base64_Encode_length b : b ≠ [] → (4 ≤ length (base64_EncodeToString b)).
Proof. destruct b as [|x [|y [|z b]]]; cbn; [done|lia..]. Qed.

Example base64_text : base64_EncodeToString (str "Port in use") = str "UG9ydCBpbiB1c2U=".
Proof. reflexivity. Qed.
Example line_ends : base64_DecodeString (str "UG9y" ++ [x0a; x0d] ++ str "dA==") = str "Port".
Proof. reflexivity. Qed.
