(* ===== verification/Float64.v ===== *)
(** * Go's [float64]

    Amounts are [float64] in the source.  A [float64] is Corelib's
    [spec_float] at binary64 (53 bits of precision, largest exponent 1024), so
    additions round to nearest even and comparisons with a NaN are false, as
    in Go.  The file also has the fixed-precision decimal formatting of
    [fmt.Sprintf("%.<p>f")] and the round trip through
    [strconv.ParseFloat] the source applies to an amount. *)

From Stdlib Require Import Ascii SpecFloat.
From stdpp Require Import base strings numbers pretty list.
From S2P Require Import Prelude.

Abbreviation float64 := spec_float.

Definition f64_add : float64 → float64 → float64 := SFadd 53 1024.
Definition f64_sub : float64 → float64 → float64 := SFsub 53 1024.
Definition f64_abs : float64 → float64 := SFabs.
Definition f64_zero : float64 := S754_zero false.
Definition f64_nan : float64 := S754_nan.
Definition f64_of_Z (z : Z) : float64 := binary_normalize 53 1024 z 0 false.

(** Go's comparison operators on [float64]. *)
Definition f64_ltb (x y : float64) : bool := SFltb x y.
Definition f64_leb (x y : float64) : bool := SFleb x y.
Definition f64_gtb (x y : float64) : bool := SFltb y x.
Definition f64_geb (x y : float64) : bool := SFleb y x.
Definition f64_eqb (x y : float64) : bool := SFeqb x y.

(** The 64 bits of a [float64] ([math.Float64bits]); every NaN is the one
    [math.NaN()] makes. *)
Definition f64_bits (f : float64) : Z :=
  let sign (s : bool) : Z := if s then (2 ^ 63)%Z else 0%Z in
  match f with
  | S754_zero s => sign s
  | S754_infinity s => sign s + 2047 * 2 ^ 52
  | S754_nan => 2047 * 2 ^ 52 + 2 ^ 51 + 1
  | S754_finite s m e =>
      if Z.pos m <? 2 ^ 52 then sign s + Z.pos m
      else sign s + (e + 1075) * 2 ^ 52 + (Z.pos m - 2 ^ 52)
  end%Z.

(** [lib.PaymentForBlockMade] and [lib.SmallestUnit] as [float64] constants;
    the second is the nearest [float64] to [10 ^ -8]. *)
Definition PaymentForBlockMade : float64 := f64_of_Z 10.
Definition SmallestUnit : float64 := SFdiv 53 1024 (f64_of_Z 1) (f64_of_Z (10 ^ 8)).

Example SmallestUnit_bits : f64_bits SmallestUnit = 4487126258331716666%Z.
Proof. reflexivity. Qed.

(** ** Decimal formatting *)

(** [a / b] rounded to the nearest integer, ties to even ([0 <= a], [0 < b]). *)
Definition round_half_even (a b : Z) : Z :=
  let q := (a / b)%Z in
  match (2 * (a `mod` b) ?= b)%Z with
  | Lt => q
  | Gt => (q + 1)%Z
  | Eq => if Z.even q then q else (q + 1)%Z
  end.

(** The magnitude [m * 2 ^ e] in units of [10 ^ -p], rounded as [strconv]
    rounds the exact decimal expansion. *)
Definition scaled (p : Z) (m : positive) (e : Z) : Z :=
  if (0 <=? e)%Z then (Z.pos m * 2 ^ e * 10 ^ p)%Z
  else round_half_even (Z.pos m * 10 ^ p) (2 ^ (- e)).

(** The last [n] decimal digits of [z], zero padded. *)
Fixpoint low_digits (n : nat) (z : Z) (acc : string) : string :=
  match n with
  | O => acc
  | S n' => low_digits n' (z / 10) (String (ascii_of_N (Z.to_N (48 + z `mod` 10))) acc)
  end.

Definition sign_string (s : bool) : string := if s then "-" else "".

(** [fmt.Sprintf("%.<p>f", f)]; the verb [%f] is [p = 6]. *)
Definition fmt_fixed (p : nat) (f : float64) : string :=
  match f with
  | S754_nan => "NaN"
  | S754_infinity false => "+Inf"
  | S754_infinity true => "-Inf"
  | S754_zero s => sign_string s +:+ "0." +:+ low_digits p 0 ""
  | S754_finite s m e =>
      let n := scaled (Z.of_nat p) m e in
      sign_string s +:+ pretty (n / 10 ^ Z.of_nat p)%Z +:+ "." +:+ low_digits p n ""
  end.

(** [strconv.ParseFloat(fmt.Sprintf("%.8f", f), 64)]: the nearest [float64] to
    the value rounded to eight decimals.  The text [fmt] writes is always
    accepted, so the error of [ParseFloat] does not arise. *)
Definition parse_fixed8 (f : float64) : float64 :=
  match f with
  | S754_finite s m e =>
      match scaled 8 m e with
      | Z.pos n => SFdiv 53 1024 (S754_finite s n 0) (S754_finite false (10 ^ 8) 0)
      | _ => S754_zero s
      end
  | f => f
  end.

Example fmt_fixed_ten : fmt_fixed 6 (f64_of_Z 10) = "10.000000".
Proof. reflexivity. Qed.
Example parse_fixed8_ten : parse_fixed8 (f64_of_Z 10) = f64_of_Z 10.
Proof. reflexivity. Qed.

(** ** Facts about comparisons *)

Lemma f64_add_nan_l x : f64_add f64_nan x = f64_nan.
Proof. reflexivity. Qed.

Lemma f64_add_nan_r x : f64_add x f64_nan = f64_nan.
Proof. by destruct x. Qed.

Lemma f64_sub_nan_r x : f64_sub x f64_nan = f64_nan.
Proof. by destruct x. Qed.

Lemma f64_ltb_nan_l x : f64_ltb f64_nan x = false.
Proof. reflexivity. Qed.

Lemma f64_geb_nan_l x : f64_geb f64_nan x = false.
Proof. by destruct x. Qed.

Lemma SFcompare_antisym x y c : SFcompare x y = Some c → SFcompare y x = Some (CompOpp c).
Proof.
  destruct x as [[]|[]| |[] mx ex], y as [[]|[]| |[] my ey]; simpl; intros [= <-]; try done;
    rewrite (Z.compare_antisym ex ey); destruct (ex ?= ey)%Z; simpl; try done;
    by rewrite (Pos.compare_cont_antisym mx my Eq).
Qed.

Lemma f64_ltb_asym x y : f64_ltb x y = true → f64_ltb y x = false.
Proof.
  unfold f64_ltb, SFltb. destruct (SFcompare x y) as [[]|] eqn:E; try done.
  by rewrite (SFcompare_antisym x y Lt E).
Qed.

Create Rewrite HintDb f64.
#[export] Hint Rewrite f64_add_nan_l f64_add_nan_r f64_sub_nan_r f64_ltb_nan_l
  f64_geb_nan_l : f64.
