(* ===== verification/Platform.v ===== *)
(** * Code outside of the repository

    The source calls libraries that are not part of it: the hash functions and
    ECDSA, [encoding/gob], base58, the clock's zone, and the bolt key/value
    store.  Each is a class of operations here, which the definitions take as
    an argument, and a class of laws, which states the documented behaviour a
    theorem relies on.  [Concrete.v] has instances of all of them. *)

From Stdlib Require Import Strings.Byte.
From stdpp Require Import base strings gmap sorting list.
From S2P Require Import Prelude.

(** ** Hashes, signatures, encodings of addresses *)

Class Crypto := {
  PrivateKey : Type;
  (** [sha256.Sum256], [ripemd160.New().Write(..).Sum(nil)], [md5] *)
  sha256_Sum256 : bytes → bytes;
  ripemd160_Sum : bytes → bytes;
  md5_Sum : bytes → bytes;
  (** [base58.Encode] and [base58.Decode]; strings as their bytes *)
  base58_Encode : bytes → bytes;
  base58_Decode : bytes → bytes;
  (** [ecdsa.Sign] on P-256 for one draw of its random reader: [None] is its
      error; [ecdsa.Verify] for a public point *)
  ecdsa_Sign : PrivateKey → N → bytes → option (Z * Z);
  ecdsa_Verify : Z * Z → bytes → Z → Z → bool;
  (** [time.Unix(0, t)] printed in the zone of the machine *)
  time_Unix_String : Z → string
}.

Class CryptoLaws `{Crypto} : Prop := {
  sha256_length b : length (sha256_Sum256 b) = 32;
  ripemd160_length b : length (ripemd160_Sum b) = 20;
  base58_Decode_Encode b : base58_Decode (base58_Encode b) = b;
  base58_Encode_nonempty b : b ≠ [] → base58_Encode b ≠ []
}.

(** ** [encoding/gob]

    The encoder is used through [Encode] on a fresh buffer and the decoder
    through [Decode] into a zero value. *)
Class Gob (A : Type) := {
  gob_Encode : A → outcome bytes;
  gob_Decode : bytes → outcome A
}.

(** Encoding a value of one of the stored types succeeds with a nonempty text
    that decodes to the value; there is nothing to decode in an empty text. *)
Class GobLaws (A : Type) `{Gob A} : Prop := {
  gob_total a : ∃ b, gob_Encode a = Ret b;
  gob_roundtrip a b : gob_Encode a = Ret b → b ≠ [] ∧ gob_Decode b = Ret a;
  gob_Decode_empty : ∃ e, gob_Decode [] = Err e
}.

(** ** The bolt store

    A bucket maps keys to values.  [b_Cursor] lists the records in the order
    of a cursor's [First]/[Next]. *)
Class Bolt := {
  bucket : Type;
  b_empty : bucket;
  b_Get : bucket → bytes → option bytes;
  b_Put : bucket → bytes → bytes → outcome bucket;
  b_Delete : bucket → bytes → outcome bucket;
  b_Cursor : bucket → list (bytes * bytes)
}.

(** The limits [Put] documents: a key that is not blank, at most 32768 bytes
    of key and [2^31 - 2] bytes of value. *)
Definition storable (k v : bytes) : Prop :=
  k ≠ [] ∧ (Z.of_nat (length k) ≤ 32768)%Z ∧ (Z.of_nat (length v) ≤ 2 ^ 31 - 2)%Z.

Class BoltLaws `{Bolt} : Prop := {
  b_Get_empty k : b_Get b_empty k = None;
  b_Get_blank b : b_Get b [] = None;
  b_Put_total b k v : storable k v → ∃ b', b_Put b k v = Ret b';
  b_Get_Put b k v b' k' : b_Put b k v = Ret b' →
    b_Get b' k' = if bool_decide (k' = k) then Some v else b_Get b k';
  b_Delete_total b k : ∃ b', b_Delete b k = Ret b';
  b_Get_Delete b k b' k' : b_Delete b k = Ret b' →
    b_Get b' k' = if bool_decide (k' = k) then None else b_Get b k';
  b_Cursor_Get b k v : (k, v) ∈ b_Cursor b ↔ b_Get b k = Some v;
  b_Cursor_NoDup b : NoDup (b_Cursor b).*1;
  b_Cursor_Sorted b : Sorted (λ p q, bytes_Compare p.1 q.1 ≠ Gt) (b_Cursor b)
}.

(** ** [sort]

    [sort.Sort] with the [Less] of its argument.  The documentation promises a
    permutation in ascending order when [Less] is a strict weak ordering of the
    elements, and no order among equal elements. *)
Class GoSort := { go_Sort {A} (less : A → A → bool) (l : list A) : list A }.

(** [less] orders the elements of [l]. *)
Definition orders {A} (less : A → A → bool) (l : list A) : Prop :=
  (∀ a b, a ∈ l → b ∈ l → less a b = true → less b a = false) ∧
  (∀ a b c, a ∈ l → b ∈ l → c ∈ l → less b a = false → less c b = false → less c a = false).

Class GoSortLaws `{GoSort} : Prop := {
  go_Sort_Permutation {A} (less : A → A → bool) l : go_Sort less l ≡ₚ l;
  go_Sort_sorted {A} (less : A → A → bool) l :
    orders less l → StronglySorted (λ a b, less b a = false) (go_Sort less l)
}.

(** ** [range] over a map

    Go visits the entries of a map in an order it does not specify. *)
Class GoRange := { go_range `{Countable K} {V} (m : gmap K V) : list (K * V) }.
Class GoRangeLaws `{GoRange} : Prop := {
  go_range_Permutation `{Countable K} {V} (m : gmap K V) : go_range m ≡ₚ map_to_list m
}.
