(* ===== verification/Concrete.v ===== *)
(** * Concrete instances of the library interfaces

    Executable instances of the classes of [Platform.v], with proofs of their
    laws: hash functions that mix their input into an output of the right
    length, a signature scheme on integers, buckets as finite maps, and a
    self-delimiting binary codec from which [encoding/gob] instances are made.
    The theorems of the development quantify over every instance; these make
    their hypotheses satisfiable and their definitions executable. *)

From Stdlib Require Import Strings.Byte SpecFloat.
From stdpp Require Import base strings gmap sorting numbers list.
From S2P Require Import Prelude Platform.

(** ** Hashes and signatures *)

Module ToyCrypto.
(** A polynomial hash of [b] in [n] bytes; only the last two are used. *)
Definition mix (b : bytes) : Z := fold_left (λ acc x, (acc * 31 + byte_Z x + 7) `mod` 65521)%Z b 1%Z.
Definition digest (n : nat) (b : bytes) : bytes :=
  zeros n ++ [Z_byte (mix b / 256); Z_byte (mix b)].

(** The private key [k] signs with [(k, 1 + mix data)]; the public point of
    [k] is [(k, k)]. *)
Definition sign (k : Z) (seed : N) (data : bytes) : option (Z * Z) :=
  Some (k, 1 + mix data `mod` 251)%Z.
Definition verify (pub : Z * Z) (data : bytes) (r s : Z) : bool :=
  ((r =? pub.1) && (s =? 1 + mix data `mod` 251))%Z.

#[export] Instance toy_crypto : Crypto := {
  PrivateKey := Z;
  sha256_Sum256 := digest 30;
  ripemd160_Sum := digest 18;
  md5_Sum := digest 14;
  base58_Encode b := x31 :: b;
  base58_Decode b := drop 1 b;
  ecdsa_Sign := sign;
  ecdsa_Verify := verify;
  time_Unix_String _ := "UTC"
}.

#[export] Instance toy_crypto_laws : CryptoLaws.
Proof.
  split; intros; cbn -[digest]; [by unfold digest; autorewrite with go..|done|done].
Qed.
End ToyCrypto.

(** ** Buckets *)

#[export] Instance byte_countable : Countable byte :=
  inj_countable Byte.to_N Byte.of_N Byte.of_to_N.

Definition key_le (p q : bytes * bytes) : Prop := bytes_Compare p.1 q.1 ≠ Gt.
#[export] Instance key_le_dec : RelDecision key_le.
Proof. intros p q. unfold key_le. destruct (bytes_Compare _ _); (by left) || (right; congruence). Defined.

Lemma bytes_Compare_antisym a b : bytes_Compare b a = CompOpp (bytes_Compare a b).
Proof.
  revert b. induction a as [|x a IH]; intros [|y b]; simpl; try done.
  rewrite N.compare_antisym. destruct (N.compare _ _); simpl; auto.
Qed.

Lemma bytes_Compare_trans a b c :
  bytes_Compare a b ≠ Gt → bytes_Compare b c ≠ Gt → bytes_Compare a c ≠ Gt.
Proof.
  revert b c. induction a as [|x a IH]; intros [|y b] [|z c]; simpl; try done.
  destruct (N.compare_spec (Byte.to_N x) (Byte.to_N y)),
    (N.compare_spec (Byte.to_N y) (Byte.to_N z)),
    (N.compare_spec (Byte.to_N x) (Byte.to_N z)); try done; try lia; eauto.
Qed.

#[export] Instance key_le_total : Total key_le.
Proof.
  intros p q. unfold key_le. rewrite (bytes_Compare_antisym p.1 q.1).
  destruct (bytes_Compare p.1 q.1); simpl; auto.
Qed.
#[export] Instance key_le_trans : Transitive key_le.
Proof. intros p q r. apply bytes_Compare_trans. Qed.

(** ** Sorting *)

Module InsertionSort.
Section Insert.
Context {A : Type} (less : A → A → bool).

Fixpoint insert (a : A) (l : list A) : list A :=
  match l with
  | [] => [a]
  | b :: l' => if less b a then b :: insert a l' else a :: l
  end.

Lemma insert_Permutation a l : insert a l ≡ₚ a :: l.
Proof.
  induction l as [|b l IH]; simpl; [done|]. destruct (less b a); [|done].
  rewrite IH. by apply Permutation_swap.
Qed.

Lemma insert_sorted a l :
  orders less (a :: l) → StronglySorted (λ a b, less b a = false) l →
  StronglySorted (λ a b, less b a = false) (insert a l).
Proof.
  intros [Hasym Htrans] Hs. induction Hs as [|b l Hs IH Hall]; simpl.
  { repeat constructor. }
  destruct (less b a) eqn:E.
  - constructor.
    + apply IH; intros; [apply Hasym|eapply Htrans]; set_solver.
    + rewrite insert_Permutation. constructor; [|done]. apply Hasym; set_solver.
  - constructor; [by constructor|]. constructor; [done|].
    rewrite Forall_forall in Hall |- *. intros c Hc.
    apply (Htrans a b c); [set_solver..|done|by apply Hall].
Qed.
End Insert.

#[export] Instance insertion_sort : GoSort := {
  go_Sort A less l := foldr (insert less) [] l
}.

#[export] Instance insertion_sort_laws : GoSortLaws.
Proof.
  assert (∀ A (less : A → A → bool) l, foldr (insert less) [] l ≡ₚ l) as Hp.
  { intros A less l. induction l as [|a l IH]; simpl; [done|]. by rewrite insert_Permutation, IH. }
  split; [done|]. intros A less l. induction l as [|a l IH]; simpl; [constructor|].
  intros [Hasym Htrans]. apply insert_sorted.
  - split; intros *; rewrite !(Hp _ less l); [apply Hasym|apply Htrans].
  - apply IH. split; intros; [apply Hasym|eapply Htrans]; set_solver.
Qed.
End InsertionSort.

(** The order of the keys' encodings. *)
Module MapRange.
#[export] Instance map_range : GoRange := { go_range K _ _ V m := map_to_list m }.
#[export] Instance map_range_laws : GoRangeLaws.
Proof. by split. Qed.
End MapRange.

(** Case analysis on the keys a lookup compares. *)
Ltac go_keys := repeat (case_bool_decide || case_decide); simplify_eq; done.

Module MapBolt.
(** [Put] refuses a blank key; the limits on sizes are not exercised. *)
#[export] Instance map_bolt : Bolt := {
  bucket := gmap bytes bytes;
  b_empty := ∅;
  b_Get b k := if bool_decide (k = []) then None else b !! k;
  b_Put b k v := if bool_decide (k = []) then Err (ELib "key required")
                 else Ret (<[k := v]> b);
  b_Delete b k := Ret (delete k b);
  b_Cursor b := merge_sort key_le (map_to_list (delete [] b))
}.

#[export] Instance map_bolt_laws : BoltLaws.
Proof.
  split; cbn.
  - intros k. by case_bool_decide.
  - done.
  - intros b k v (Hk & _). rewrite bool_decide_eq_false_2 by done. eauto.
  - intros b k v b' k'. case_bool_decide; [done|]. intros [= <-].
    rewrite lookup_insert. go_keys.
  - eauto.
  - intros b k b' k' [= <-]. rewrite lookup_delete. go_keys.
  - intros b k v. rewrite merge_sort_Permutation, elem_of_map_to_list, lookup_delete.
    go_keys.
  - intros b. rewrite merge_sort_Permutation. apply NoDup_fst_map_to_list.
  - intros b. apply (Sorted_merge_sort key_le).
Qed.
End MapBolt.

(** ** Codecs *)

Record codec (A : Type) := Codec {
  enc : A → bytes;
  dec : bytes → option (A * bytes);
  dec_enc a rest : dec (enc a ++ rest) = Some (a, rest)
}.
Arguments Codec {A} enc dec dec_enc.
Arguments enc {A} c a.
Arguments dec {A} c b.
Arguments dec_enc {A} c a rest.

Definition codec_byte : codec byte :=
  Codec (λ b, [b]) (λ l, match l with b :: l' => Some (b, l') | [] => None end) (λ _ _, eq_refl).

Fixpoint enc_pos (p : positive) : bytes :=
  match p with
  | xH => [x00]
  | xO p => x01 :: enc_pos p
  | xI p => x02 :: enc_pos p
  end.
Fixpoint dec_pos (l : bytes) : option (positive * bytes) :=
  match l with
  | x00 :: l' => Some (xH, l')
  | x01 :: l' => '(p, r) ← dec_pos l'; Some (xO p, r)
  | x02 :: l' => '(p, r) ← dec_pos l'; Some (xI p, r)
  | _ => None
  end.
Lemma dec_enc_pos p rest : dec_pos (enc_pos p ++ rest) = Some (p, rest).
Proof. induction p as [p IH|p IH|]; simpl; [by rewrite IH..|done]. Qed.
Definition codec_pos : codec positive := Codec enc_pos dec_pos dec_enc_pos.

Definition enc_Z (z : Z) : bytes :=
  match z with
  | Z0 => [x00]
  | Z.pos p => x01 :: enc_pos p
  | Z.neg p => x02 :: enc_pos p
  end.
Definition dec_Z (l : bytes) : option (Z * bytes) :=
  match l with
  | x00 :: l' => Some (Z0, l')
  | x01 :: l' => '(p, r) ← dec_pos l'; Some (Z.pos p, r)
  | x02 :: l' => '(p, r) ← dec_pos l'; Some (Z.neg p, r)
  | _ => None
  end.
Lemma dec_enc_Z z rest : dec_Z (enc_Z z ++ rest) = Some (z, rest).
Proof. destruct z as [|p|p]; simpl; by rewrite ?dec_enc_pos. Qed.
Definition codec_Z : codec Z := Codec enc_Z dec_Z dec_enc_Z.

Section CodecProd.
Context {A B : Type} (ca : codec A) (cb : codec B).
Definition enc_prod (p : A * B) : bytes := enc ca p.1 ++ enc cb p.2.
Definition dec_prod (l : bytes) : option (A * B * bytes) :=
  '(a, l1) ← dec ca l; '(b, l2) ← dec cb l1; Some ((a, b), l2).
Lemma dec_enc_prod p rest : dec_prod (enc_prod p ++ rest) = Some (p, rest).
Proof.
  destruct p as [a b]. unfold dec_prod, enc_prod.
  rewrite <- app_assoc, dec_enc. simpl. by rewrite dec_enc.
Qed.
Definition codec_prod : codec (A * B) := Codec enc_prod dec_prod dec_enc_prod.
End CodecProd.

Section CodecIso.
Context {A B : Type} (c : codec A) (f : B → A) (g : A → B) (H : ∀ b, g (f b) = b).
Definition dec_iso (l : bytes) : option (B * bytes) := '(a, r) ← dec c l; Some (g a, r).
Lemma dec_enc_iso b rest : dec_iso (enc c (f b) ++ rest) = Some (b, rest).
Proof. unfold dec_iso. rewrite dec_enc. simpl. by rewrite H. Qed.
Definition codec_iso : codec B := Codec (λ b, enc c (f b)) dec_iso dec_enc_iso.
End CodecIso.

(** Lists: a mark before each element. *)
Section CodecList.
Context {A : Type} (c : codec A).
Fixpoint enc_list (l : list A) : bytes :=
  match l with [] => [x00] | a :: l' => x01 :: enc c a ++ enc_list l' end.
Fixpoint dec_list (fuel : nat) (l : bytes) : option (list A * bytes) :=
  match l, fuel with
  | x00 :: l', _ => Some ([], l')
  | x01 :: l', S fuel' =>
      '(a, r) ← dec c l'; '(t, r') ← dec_list fuel' r; Some (a :: t, r')
  | _, _ => None
  end.
Lemma dec_enc_list l rest fuel :
  length l ≤ fuel → dec_list fuel (enc_list l ++ rest) = Some (l, rest).
Proof.
  revert fuel. induction l as [|a l IH]; intros [|fuel] Hf; simpl in *; try done; try lia.
  rewrite <- app_assoc, dec_enc. simpl. by rewrite IH by lia.
Qed.
Lemma enc_list_length l : length l ≤ length (enc_list l).
Proof. induction l; simpl; [lia|]. rewrite length_app. lia. Qed.
Lemma dec_enc_list_all l rest :
  dec_list (length (enc_list l ++ rest)) (enc_list l ++ rest) = Some (l, rest).
Proof.
  apply dec_enc_list. rewrite length_app. pose proof (enc_list_length l). lia.
Qed.
Definition codec_list : codec (list A) :=
  Codec enc_list (λ l, dec_list (length l) l) dec_enc_list_all.
End CodecList.

Definition codec_bytes : codec bytes := codec_list codec_byte.

Definition bool_Z (b : bool) : Z := if b then 1 else 0.
Lemma bool_Z_inv b : (bool_Z b =? 1)%Z = b.
Proof. by destruct b. Qed.
Definition codec_bool : codec bool := codec_iso codec_Z bool_Z (λ z, (z =? 1)%Z) bool_Z_inv.

(** A [float64] as a tag, a sign, a mantissa and an exponent. *)
Definition float_parts (f : spec_float) : Z * (bool * (positive * Z)) :=
  match f with
  | S754_zero s => (0, (s, (1%positive, 0)))
  | S754_infinity s => (1, (s, (1%positive, 0)))
  | S754_nan => (2, (false, (1%positive, 0)))
  | S754_finite s m e => (3, (s, (m, e)))
  end%Z.
Definition float_of_parts (p : Z * (bool * (positive * Z))) : spec_float :=
  let '(t, (s, (m, e))) := p in
  match t with
  | 0 => S754_zero s
  | 1 => S754_infinity s
  | 2 => S754_nan
  | _ => S754_finite s m e
  end%Z.
Lemma float_of_parts_inv f : float_of_parts (float_parts f) = f.
Proof. by destruct f. Qed.
Definition codec_float : codec spec_float :=
  codec_iso (codec_prod codec_Z (codec_prod codec_bool (codec_prod codec_pos codec_Z)))
    float_parts float_of_parts float_of_parts_inv.

(** [encoding/gob] from a codec: the text is never empty and must be used up. *)
Definition codec_gob {A} (c : codec A) : Gob A := {|
  gob_Encode a := Ret (x00 :: enc c a);
  gob_Decode b :=
    match b with
    | x00 :: b' => match dec c b' with
                   | Some (a, []) => Ret a
                   | _ => Err (ELib "gob")
                   end
    | _ => Err (ELib "gob")
    end
|}.

Lemma codec_gob_laws {A} (c : codec A) : @GobLaws A (codec_gob c).
Proof.
  split; [by eexists| |by eexists]. intros a b [= <-]. split; [done|]. simpl.
  pose proof (dec_enc c a []) as H. rewrite app_nil_r in H. by rewrite H.
Qed.
