(* ===== verification/Utils.v ===== *)
(** * Package [lib/utils] and the wallet's address check

    [IntToHex], [ReverseBytes], [CopyBytes], the base58 wrappers, addresses
    and checksums ([lib/utils/utils.go], [base58.go]), signing and verifying
    ([lib/utils/crypt.go]) and the address functions of
    [lib/wallet/wallet.go]. *)

From Stdlib Require Import Strings.Byte ZifyNat.
From stdpp Require Import base strings numbers list.
From S2P Require Import Prelude Platform Concrete.

(** [lib/constants.go] *)
Definition Version : byte := x00.
Definition AddressChecksumLen : Z := 4.

Definition IntToHex (num : Z) : bytes := big_endian 8 (num `mod` 2 ^ 64).

(** The swap loop of [ReverseBytes]: [i] counts up and [j] down until they
    meet.  Each round shrinks [j - i], so [length data] rounds are enough. *)
Fixpoint ReverseBytes_loop (fuel : nat) (i j : Z) (data : bytes) : outcome bytes :=
  if (i <? j)%Z then
    match fuel with
    | O => OutOfFuel
    | S fuel' =>
        data' ← go_swap data i j;
        ReverseBytes_loop fuel' (i + 1) (j - 1) data'
    end
  else Ret data.
Definition ReverseBytes (data : bytes) : outcome bytes :=
  ReverseBytes_loop (length data) 0 (Z.of_nat (length data) - 1) data.

Definition CopyBytes (source : bytes) : bytes :=
  if (0 <? Z.of_nat (length source))%Z
  then go_copy (zeros (length source)) source
  else [].

(** [RandString]: [Intn i] is the [i]-th number that [rand.Intn(52)] returns. *)
Definition letterBytes : bytes := str "abcdefghijklmnopqrstuvwxyzABCDEFGHIJKLMNOPQRSTUVWXYZ".
Definition RandString (Intn : nat → Z) (n : Z) : outcome bytes :=
  if (n <? 0)%Z then Panic PSlice else mmap (λ i, index letterBytes (Intn i)) (seq 0 (Z.to_nat n)).

Lemma RandString_letters Intn n :
  (∀ i, 0 ≤ Intn i < 52)%Z → (0 ≤ n)%Z →
  ∃ s, RandString Intn n = Ret s ∧ length s = Z.to_nat n ∧ Forall (λ c, c ∈ letterBytes) s.
Proof.
  intros Hi Hn. unfold RandString. rewrite (proj2 (Z.ltb_ge n 0)) by done. clear Hn. generalize 0%nat as from.
  induction (Z.to_nat n) as [|k IH]; intros from; [by exists []|]. cbn [seq mmap].
  destruct (lookup_lt_is_Some_2 letterBytes (Z.to_nat (Intn from))) as [c Hc].
  { specialize (Hi from). change (length letterBytes) with 52. lia. }
  destruct (IH (S from)) as (s & Es & Hl & Hs). exists (c :: s).
  assert (Ec : index letterBytes (Intn from) = Ret c).
  { unfold index. rewrite (proj2 (Z.ltb_ge _ 0)) by apply Hi. by rewrite Hc. }
  rewrite Ec, ret_bind, Es, ret_bind. split; [done|]. split; [simpl; by rewrite Hl|].
  constructor; [by eapply list_elem_of_lookup_2|done].
Qed.

Section Addresses.
Context `{Crypto}.

Definition Base58Encode (input : bytes) : bytes := base58_Encode input.
Definition Base58Decode (input : bytes) : bytes := base58_Decode input.

Definition Checksum (payload : bytes) : bytes :=
  let firstSHA := sha256_Sum256 payload in
  let secondSHA := sha256_Sum256 firstSHA in
  take (Z.to_nat AddressChecksumLen) secondSHA.

Definition HashPubKey (pubKey : bytes) : bytes :=
  let publicSHA256 := sha256_Sum256 pubKey in
  ripemd160_Sum publicSHA256.

Definition AddresToPubKeyHash (address : bytes) : outcome bytes :=
  let pubKeyHash := Base58Decode address in
  if (Z.of_nat (length pubKeyHash) <? 10)%Z then Err (EMsg "Wrong address")
  else slice pubKeyHash 1 (Z.of_nat (length pubKeyHash) - 4).

Definition PubKeyHashToAddres (pubKeyHash : bytes) : bytes :=
  let versionedPayload := [Version] ++ pubKeyHash in
  let checksum := Checksum versionedPayload in
  let fullPayload := versionedPayload ++ checksum in
  Base58Encode fullPayload.

Definition PubKeyToAddres (pubKey : bytes) : bytes :=
  let pubKeyHash := HashPubKey pubKey in
  let versionedPayload := [Version] ++ pubKeyHash in
  let checksum := Checksum versionedPayload in
  let fullPayload := versionedPayload ++ checksum in
  Base58Encode fullPayload.

(** [Wallet.GetAddress], for the wallet's public key. *)
Definition GetAddress (PublicKey : bytes) : bytes :=
  let pubKeyHash := HashPubKey PublicKey in
  let versionedPayload := [Version] ++ pubKeyHash in
  let checksum := Checksum versionedPayload in
  let fullPayload := versionedPayload ++ checksum in
  Base58Encode fullPayload.

(** [Wallet.ValidateAddress]. *)
Definition ValidateAddress (address : bytes) : outcome bool :=
  if (Z.of_nat (length address) =? 0)%Z then Ret false
  else
    let pubKeyHash := Base58Decode address in
    let n := Z.of_nat (length pubKeyHash) in
    if (n <=? AddressChecksumLen)%Z then Ret false
    else
      actualChecksum ← slice pubKeyHash (n - AddressChecksumLen) n;
      version ← index pubKeyHash 0;
      pubKeyHash ← slice pubKeyHash 1 (n - AddressChecksumLen);
      let targetChecksum := Checksum ([version] ++ pubKeyHash) in
      Ret (bytes_eqb actualChecksum targetChecksum).

(** *** Signatures *)

(** [big.Int.Bytes()]: the minimal big-endian text of a nonnegative integer;
    [fuel] bounds the number of bytes, and 8 bits go per byte. *)
Fixpoint big_Bytes_loop (fuel : nat) (z : Z) (acc : bytes) : bytes :=
  match fuel with
  | O => acc
  | S fuel' => if (z <=? 0)%Z then acc
               else big_Bytes_loop fuel' (z / 256) (Z_byte z :: acc)
  end.
Definition big_Bytes (z : Z) : bytes := big_Bytes_loop (Z.to_nat (Z.log2 z + 1)) z [].

(** [utils.SignData]; [seed] is what the random reader yields. *)
Definition SignData (privKey : PrivateKey) (seed : N) (dataToSign : bytes) : outcome bytes :=
  let data := md5_Sum dataToSign in
  match ecdsa_Sign privKey seed data with
  | None => Err (ELib "ecdsa.Sign")
  | Some (r, s) => Ret (big_Bytes r ++ big_Bytes s)
  end.

(** The two integers a signature or a public key is cut into: the first half
    of its bytes, rounded down, and the rest. *)
Definition halves (b : bytes) : Z * Z :=
  let h := length b `div` 2 in
  (big_SetBytes (take h b), big_SetBytes (drop h b)).

(** [utils.VerifySignature]. *)
Definition VerifySignature (signature message PubKey : bytes) : bool :=
  let data := md5_Sum message in
  let '(r, s) := halves signature in
  let '(x, y) := halves PubKey in
  ecdsa_Verify (x, y) data r s.

(** The retry loop the three signing functions share: at most ten
    signatures are drawn, the last one is kept whether it verifies or not.
    [seeds attempt] is what the reader yields at an attempt. *)
Fixpoint sign_attempts (fuel : nat) (attempt : Z) (privKey : PrivateKey)
    (PubKey dataToSign : bytes) (seeds : Z → N) : outcome bytes :=
  match fuel with
  | O => OutOfFuel
  | S fuel' =>
      signature ← SignData privKey (seeds attempt) dataToSign;
      let attempt := (attempt + 1)%Z in
      if VerifySignature signature dataToSign PubKey then Ret signature
      else if (10 <? attempt)%Z then Ret signature
      else sign_attempts fuel' attempt privKey PubKey dataToSign seeds
  end.
Definition sign_fuel : nat := 10.

(** [utils.SignDataSet]; [seeds i] are the draws for the [i]-th data set. *)
Definition SignDataSet (PubKey : bytes) (privKey : PrivateKey)
    (dataSetsToSign : list bytes) (seeds : Z → Z → N) : outcome (list bytes) :=
  mfor (indexed dataSetsToSign) (λ signatures '(i, dataToSign),
    signature ← sign_attempts sign_fuel 1 privKey PubKey dataToSign (seeds i);
    Ret (signatures ++ [signature])) [].
End Addresses.

(** ** Byte helpers *)

Lemma ReverseBytes_loop_spec fuel k data cur :
  length data ≤ fuel + 2 * k + 1 → 2 * k ≤ length data →
  swapped_upto k data cur →
  ReverseBytes_loop fuel (Z.of_nat k) (Z.of_nat (length data) - 1 - Z.of_nat k) cur
  = Ret (reverse data).
Proof.
  revert k cur. induction fuel as [|fuel IH]; intros k cur Hf Hk Hcur; simpl.
  { replace (_ <? _)%Z with false by lia. rewrite (swapped_upto_full k data cur); [done|lia|done]. }
  destruct (Z.ltb_spec (Z.of_nat k) (Z.of_nat (length data) - 1 - Z.of_nat k)).
  - destruct (swapped_upto_S k data cur) as (cur' & Hs & Hcur'); [lia|done|].
    replace (Z.of_nat (length data) - 1 - Z.of_nat k)%Z
      with (Z.of_nat (length data - 1 - k)) by lia.
    rewrite Hs. simpl.
    replace (Z.of_nat k + 1)%Z with (Z.of_nat (S k)) by lia.
    replace (Z.of_nat (length data - 1 - k) - 1)%Z
      with (Z.of_nat (length data) - 1 - Z.of_nat (S k))%Z by lia.
    apply IH; [lia..|done].
  - rewrite (swapped_upto_full k data cur); [done|lia|done].
Qed.

(** [ReverseBytes] terminates without a panic on every slice and leaves
    its reversal. *)
Theorem ReverseBytes_reverse data : ReverseBytes data = Ret (reverse data).
Proof.
  unfold ReverseBytes. rewrite <- (Z.sub_0_r (_ - 1)%Z).
  apply (ReverseBytes_loop_spec _ 0); auto with go; lia.
Qed.

Lemma CopyBytes_id source : CopyBytes source = source.
Proof.
  unfold CopyBytes. destruct (Z.ltb_spec 0 (Z.of_nat (length source))).
  - by apply go_copy_full, length_zeros.
  - by destruct source; simpl in *; [|lia].
Qed.

Lemma IntToHex_length num : length (IntToHex num) = 8.
Proof. apply length_big_endian. Qed.

Lemma IntToHex_value num : big_SetBytes (IntToHex num) = (num `mod` 2 ^ 64)%Z.
Proof. unfold IntToHex. rewrite big_SetBytes_big_endian. by rewrite Z.mod_mod. Qed.

(** the eight bytes [IntToHex] writes determine the [int64]. *)
Theorem IntToHex_inj n m :
  is_int64 n → is_int64 m → IntToHex n = IntToHex m → n = m.
Proof.
  intros Hn Hm H%(f_equal big_SetBytes). rewrite !IntToHex_value in H.
  unfold is_int64 in *. lia.
Qed.

Lemma IntToHex_inj_witness :
  is_int64 5 ∧ is_int64 5 ∧ IntToHex 5 = IntToHex 5 ∧ (5 = 5)%Z.
Proof.
  assert (is_int64 5) as H by (unfold is_int64; lia).
  split_and!; [done|done|done|]. by apply (IntToHex_inj 5 5 H H).
Defined.

(** ** The value of a byte string *)

Lemma big_SetBytes_range b : (0 ≤ big_SetBytes b < 256 ^ Z.of_nat (length b))%Z.
Proof.
  induction b as [|x b IH] using rev_ind; [done|].
  rewrite big_SetBytes_app, length_app. simpl.
  pose proof (byte_Z_range x).
  replace (Z.of_nat (length b + 1)) with (Z.succ (Z.of_nat (length b))) by lia.
  rewrite Z.pow_succ_r by lia. nia.
Qed.

Lemma big_SetBytes_concat a b :
  big_SetBytes (a ++ b) = (big_SetBytes a * 256 ^ Z.of_nat (length b) + big_SetBytes b)%Z.
Proof.
  induction b as [|x b IH] using rev_ind.
  { rewrite app_nil_r. change (big_SetBytes []) with 0%Z. simpl. lia. }
  rewrite app_assoc, !big_SetBytes_app, IH, length_app. simpl.
  replace (Z.of_nat (length b + 1)) with (Z.succ (Z.of_nat (length b))) by lia.
  rewrite Z.pow_succ_r by lia. lia.
Qed.

Lemma big_Bytes_loop_spec fuel z acc :
  (0 ≤ z < 2 ^ Z.of_nat fuel)%Z →
  ∃ p, big_Bytes_loop fuel z acc = p ++ acc ∧ big_SetBytes p = z ∧
       (z = 0%Z → p = []) ∧
       ((0 < z)%Z → p ≠ [] ∧ (256 ^ (Z.of_nat (length p) - 1) ≤ z)%Z).
Proof.
  revert z acc. induction fuel as [|fuel IH]; intros z acc Hz.
  { exists []. simpl in *. change (big_SetBytes []) with 0%Z. split_and!; [done|lia|done|lia]. }
  simpl. destruct (Z.leb_spec z 0).
  { exists []. change (big_SetBytes []) with 0%Z. split_and!; [done|lia|done|lia]. }
  destruct (IH (z / 256)%Z (Z_byte z :: acc)) as (p & -> & Hp & Hnil & Hlow).
  { rewrite Nat2Z.inj_succ, Z.pow_succ_r in Hz by lia. lia. }
  exists (p ++ [Z_byte z]). rewrite <- app_assoc.
  split_and!; [done|rewrite big_SetBytes_app, byte_Z_Z_byte, Hp; lia|lia|].
  intros _. split; [by destruct p|]. rewrite length_app. simpl.
  replace (Z.of_nat (length p + 1) - 1)%Z with (Z.of_nat (length p)) by lia.
  destruct (Z.leb_spec (z / 256) 0).
  - rewrite Hnil by lia. simpl. lia.
  - destruct Hlow as [Hne Hlow]; [lia|].
    destruct p as [|y p]; [done|]. simpl length in *.
    replace (Z.of_nat (S (length p))) with (Z.succ (Z.of_nat (S (length p)) - 1)) by lia.
    rewrite Z.pow_succ_r by lia. lia.
Qed.

(** [big.Int.Bytes] followed by [big.Int.SetBytes] gives the integer back. *)
Lemma big_SetBytes_big_Bytes z : (0 ≤ z)%Z → big_SetBytes (big_Bytes z) = z.
Proof.
  intros Hz. unfold big_Bytes.
  destruct (big_Bytes_loop_spec (Z.to_nat (Z.log2 z + 1)) z []) as (p & -> & Hp & _).
  { pose proof (Z.log2_nonneg z). rewrite Z2Nat.id by lia. split; [done|].
    destruct (decide (z = 0)%Z) as [->|]; [done|].
    replace (Z.log2 z + 1)%Z with (Z.succ (Z.log2 z)) by lia. apply Z.log2_spec. lia. }
  by rewrite app_nil_r.
Qed.

Lemma big_Bytes_minimal z :
  (0 < z)%Z → big_Bytes z ≠ [] ∧ (256 ^ (Z.of_nat (length (big_Bytes z)) - 1) ≤ z)%Z.
Proof.
  intros Hz. unfold big_Bytes.
  destruct (big_Bytes_loop_spec (Z.to_nat (Z.log2 z + 1)) z []) as (p & -> & _ & _ & Hp).
  { pose proof (Z.log2_nonneg z). rewrite Z2Nat.id by lia. split; [lia|].
    replace (Z.log2 z + 1)%Z with (Z.succ (Z.log2 z)) by lia. apply Z.log2_spec. lia. }
  rewrite app_nil_r. auto.
Qed.

(** A concatenation of two minimal texts is cut back into its parts exactly
    when the cut falls between them. *)
Lemma halves_big_Bytes r s :
  (0 < r)%Z → (0 < s)%Z →
  halves (big_Bytes r ++ big_Bytes s) = (r, s) ↔
  length (big_Bytes s) = length (big_Bytes r) ∨
  length (big_Bytes s) = S (length (big_Bytes r)).
Proof.
  intros Hr Hs. unfold halves.
  pose proof (big_Bytes_minimal r Hr) as [Hrn Hrl].
  pose proof (big_SetBytes_big_Bytes r ltac:(lia)) as Er.
  pose proof (big_SetBytes_big_Bytes s ltac:(lia)) as Es.
  set (a := big_Bytes r) in *. set (b := big_Bytes s) in *. rewrite length_app.
  set (h := (length a + length b) `div` 2).
  assert (Hh : length b = length a ∨ length b = S (length a) ↔ h = length a).
  { pose proof (Nat.div_mod_eq (length a + length b) 2).
    pose proof (Nat.mod_upper_bound (length a + length b) 2 ltac:(lia)). subst h. lia. }
  rewrite Hh. clear Hh. split.
  - intros H. injection H as H1 _. destruct (lt_eq_lt_dec h (length a)) as [[Hlt|]|Hgt]; [|done|].
    + exfalso. rewrite take_app_le in H1 by lia.
      pose proof (big_SetBytes_range (take h a)) as Hb. rewrite length_take_le in Hb by lia.
      assert (256 ^ Z.of_nat h ≤ 256 ^ (Z.of_nat (length a) - 1))%Z
        by (apply Z.pow_le_mono_r; lia). lia.
    + exfalso. rewrite take_app_ge in H1 by lia.
      rewrite big_SetBytes_concat, Er in H1.
      assert (length (take (h - length a) b) = h - length a) as El
        by (rewrite length_take; pose proof (Nat.Div0.div_le_upper_bound (length a + length b) 2 (length a + length b)); subst h; lia).
      pose proof (big_SetBytes_range (take (h - length a) b)). rewrite El in *.
      assert (256 ^ 1 ≤ 256 ^ Z.of_nat (h - length a))%Z by (apply Z.pow_le_mono_r; lia).
      nia.
  - intros ->. by rewrite take_app_length, drop_app_length, Er, Es.
Qed.

Section AddressTheorems.
Context `{Crypto}.

(** a signature [SignData] makes is cut by [VerifySignature] into the
    pair [ecdsa.Sign] returned exactly when the two integers have texts of
    the same length, or the second is one byte longer; any other pair is
    handed to [ecdsa.Verify] altered. *)
Theorem SignData_halves privKey seed message r s :
  ecdsa_Sign privKey seed (md5_Sum message) = Some (r, s) →
  (0 < r)%Z → (0 < s)%Z →
  ∃ signature, SignData privKey seed message = Ret signature ∧
    (halves signature = (r, s) ↔
     length (big_Bytes s) = length (big_Bytes r) ∨
     length (big_Bytes s) = S (length (big_Bytes r))).
Proof.
  intros Hsign Hr Hs. unfold SignData. rewrite Hsign.
  eexists. split; [done|]. by apply halves_big_Bytes.
Qed.

Lemma VerifySignature_halves signature message PubKey r s :
  halves signature = (r, s) →
  VerifySignature signature message PubKey
  = ecdsa_Verify (halves PubKey) (md5_Sum message) r s.
Proof. intros E. unfold VerifySignature. rewrite E. by destruct (halves PubKey). Qed.

Context `{!CryptoLaws}.

Lemma length_Checksum payload : length (Checksum payload) = 4.
Proof. unfold Checksum. rewrite length_take, sha256_length. done. Qed.

Lemma slice_address h c :
  length c = 4 →
  slice (Version :: h ++ c) 1 (Z.of_nat (length (Version :: h ++ c)) - 4) = Ret h.
Proof.
  intros Hc. simpl. rewrite length_app, Hc.
  replace (Z.of_nat (S (length h + 4)) - 4)%Z with (Z.of_nat (S (length h))) by lia.
  rewrite (slice_Ret _ 1) by (simpl; rewrite length_app; lia).
  simpl. by rewrite take_app_length.
Qed.

(** an address the node makes from a key hash is accepted by the wallet's
    validation, and the key hash is read back from it. *)
Theorem address_roundtrip pubKeyHash :
  5 ≤ length pubKeyHash →
  ValidateAddress (PubKeyHashToAddres pubKeyHash) = Ret true ∧
  AddresToPubKeyHash (PubKeyHashToAddres pubKeyHash) = Ret pubKeyHash.
Proof.
  intros Hlen. unfold PubKeyHashToAddres, Base58Encode, ValidateAddress,
    AddresToPubKeyHash, Base58Decode.
  set (c := Checksum ([Version] ++ pubKeyHash)).
  assert (length c = 4) as Hc by apply length_Checksum.
  simpl app. rewrite base58_Decode_Encode. split.
  - destruct (Z.eqb_spec (Z.of_nat (length (base58_Encode (Version :: pubKeyHash ++ c)))) 0)
      as [E|E].
    { exfalso. apply (base58_Encode_nonempty (Version :: pubKeyHash ++ c)); [done|].
      by destruct (base58_Encode _). }
    unfold AddressChecksumLen. cbn [length]. rewrite length_app, Hc.
    rewrite (proj2 (Z.leb_gt _ _)) by lia.
    replace (Z.of_nat (S (length pubKeyHash + 4)) - 4)%Z
      with (Z.of_nat (S (length pubKeyHash))) by lia.
    rewrite slice_Ret by (simpl; rewrite length_app; lia). simpl.
    rewrite (slice_Ret _ 1) by (simpl; rewrite length_app; lia).
    simpl. rewrite take_app_length. simpl.
    rewrite <- Hc at 1. rewrite <- length_app, firstn_all, drop_app_length.
    f_equal. apply bytes_eqb_refl.
  - simpl length. rewrite length_app, Hc. rewrite (proj2 (Z.ltb_ge _ _)) by lia.
    rewrite <- Hc, <- length_app. apply slice_address; done.
Qed.
End AddressTheorems.

Section Witnesses.
Import ToyCrypto.

(** A key whose signature integers have texts of one and of two bytes: the
    equivalence applies, and the cut is right. *)
Lemma SignData_halves_witness :
  ∃ signature, @SignData toy_crypto 5%Z 0%N [] = Ret signature ∧
    (halves signature = (5, 1 + mix (digest 14 []) `mod` 251)%Z ↔
     length (big_Bytes (1 + mix (digest 14 []) `mod` 251)%Z) = length (big_Bytes 5) ∨
     length (big_Bytes (1 + mix (digest 14 []) `mod` 251)%Z) = S (length (big_Bytes 5))).
Proof.
  apply (@SignData_halves toy_crypto 5%Z 0%N [] 5); [reflexivity|lia|].
  vm_compute. reflexivity.
Defined.

Lemma address_roundtrip_witness :
  ValidateAddress (PubKeyHashToAddres [x01; x02; x03; x04; x05]) = Ret true ∧
  AddresToPubKeyHash (PubKeyHashToAddres [x01; x02; x03; x04; x05])
  = Ret [x01; x02; x03; x04; x05].
Proof. apply (address_roundtrip [x01; x02; x03; x04; x05]). simpl. lia. Defined.

End Witnesses.
