(* ===== verification/Wallet.v ===== *)
(** * Package [lib/wallet]: wallets and their file

    [wallet.go] and [wallets.go]: keys are made and tried, a collection of
    wallets is kept by address, and saved to and loaded from a file of the data
    directory.  The file system is the map from names to contents.  The commands
    of [cli.go] are in [WalletCLI.v]. *)

From Stdlib Require Import Strings.Byte ZifyNat.
From stdpp Require Import base strings numbers gmap list.
From S2P Require Import Prelude Platform Concrete Utils.

Definition walletFile : bytes := str "wallet.dat".
Definition keysTestString : bytes :=
  str "this is the test string to use for new keys. to know that sign and verify works fine".

Section Wallets.
Context `{Crypto}.

Record Wallet := mkWallet { w_PrivateKey : PrivateKey; w_PublicKey : bytes }.

Definition GetPublicKey (w : Wallet) : bytes := w_PublicKey w.
Definition GetPrivateKey (w : Wallet) : PrivateKey := w_PrivateKey w.

(** What the random reader yields at each attempt: a pair of keys, or the error of
    [ecdsa.GenerateKey], which ends the program, and the draw of a signature. *)
Record key_source := mkKeySource {
  ks_keys : Z → option (PrivateKey * (Z * Z));
  ks_seed : Z → N
}.

Definition newKeyPair (ks : key_source) (attempt : Z) : outcome Wallet :=
  match ks_keys ks attempt with
  | None => Panic PLog
  | Some (private, (X, Y)) => Ret (mkWallet private (big_Bytes X ++ big_Bytes Y))
  end.

(** Whether the keys sign a text so that it verifies. *)
Definition good_keys (ks : key_source) (attempt : Z) (w : Wallet) : bool :=
  match SignData (w_PrivateKey w) (ks_seed ks attempt) keysTestString with
  | Ret signature => VerifySignature signature keysTestString (w_PublicKey w)
  | _ => false
  end.

(** The loop of [MakeWallet]; [w] are the keys of the last attempt. *)
Fixpoint MakeWallet_loop (fuel : nat) (i : Z) (ks : key_source) (w : option Wallet) : outcome (option Wallet) :=
  match fuel with
  | O => OutOfFuel
  | S fuel' =>
      if (1000 <? i)%Z then Ret w
      else
        w ← newKeyPair ks i;
        if good_keys ks i w then Ret (Some w) else MakeWallet_loop fuel' (i + 1) ks (Some w)
  end.
Definition MakeWallet (ks : key_source) : outcome (option Wallet) :=
  MakeWallet_loop (Z.to_nat 1002) 0 ks None.

(** ** The collection of wallets *)

(** A nil map of the source is [None]. *)
Record Wallets := mkWallets {
  ws_DataDir : bytes;
  ws_Wallets : option (gmap bytes Wallet);
  ws_WalletsFile : bytes
}.

(** What can go wrong in writing a file is up to the system. *)
Context `{!Gob (option (gmap bytes Wallet))} `{GoRange} (write_error : bytes → option goerror).

Abbreviation files := (gmap bytes bytes).

Definition ErrNotExist : goerror := ELib "os.ErrNotExist".

Definition ReadFile (name : bytes) (fs : files) : outcome bytes :=
  match fs !! name with None => Err ErrNotExist | Some content => Ret content end.
Definition WriteFile (name content : bytes) : st files unit := λ fs,
  match write_error name with
  | Some e => (Err e, fs)
  | None => (Ret tt, <[name := content]> fs)
  end.

Definition SaveToFile (ws : Wallets) : st files unit :=
  let walletsFile := ws_DataDir ws ++ walletFile in
  content ← lift (gob_Encode (ws_Wallets ws));
  WriteFile walletsFile content.

Definition LoadFromFile (ws : Wallets) (fs : files) : outcome Wallets :=
  let walletsFile := if bool_decide (ws_WalletsFile ws = []) then ws_DataDir ws ++ walletFile
                     else ws_WalletsFile ws in
  fileContent ← ReadFile walletsFile fs;
  wallets ← gob_Decode fileContent;
  Ret (mkWallets (ws_DataDir ws) wallets (ws_WalletsFile ws)).

(** The wallet is in the collection also when it is not saved. *)
Definition CreateWallet (ks : key_source) : st (Wallets * files) bytes := λ '(ws, fs),
  match MakeWallet ks with
  | Ret None => (OutOfFuel, (ws, fs))
  | Ret (Some wallet) =>
      let address := GetAddress (w_PublicKey wallet) in
      match ws_Wallets ws with
      | None => (Panic PNilMap, (ws, fs))
      | Some m =>
          let ws := mkWallets (ws_DataDir ws) (Some (<[address := wallet]> m)) (ws_WalletsFile ws) in
          let '(r, fs) := SaveToFile ws fs in
          (_ ← r; Ret address, (ws, fs))
      end
  | Err e => (Err e, (ws, fs))
  | Panic p => (Panic p, (ws, fs))
  | OutOfFuel => (OutOfFuel, (ws, fs))
  end.

Definition GetAddresses (ws : Wallets) : list bytes :=
  (go_range (default ∅ (ws_Wallets ws))).*1.

Definition err_no_wallet : goerror := EMsg "Wallet nout found".
Definition GetWallet (address : bytes) (ws : Wallets) : outcome Wallet :=
  match ws_Wallets ws ≫= (.!! address) with
  | Some w => Ret w
  | None => Err err_no_wallet
  end.
End Wallets.

(** ** Making keys *)

Section Keys.
Context `{Crypto} (ks : key_source).

(** The pair of attempt [n] does not sign. *)
Definition bad_attempt (n : Z) : Prop := ∃ w, newKeyPair ks n = Ret w ∧ good_keys ks n w = false.

Lemma MakeWallet_loop_spec n i w0 :
  (∀ k, is_Some (ks_keys ks k)) → (i + Z.of_nat n = 1001)%Z →
  MakeWallet_loop (S n) i ks w0 = Ret w0 ∧ n = 0 ∨
  ∃ w k, MakeWallet_loop (S n) i ks w0 = Ret (Some w) ∧ (i ≤ k ≤ 1000)%Z ∧ newKeyPair ks k = Ret w ∧
    (∀ j, (i ≤ j < k)%Z → bad_attempt j) ∧ (good_keys ks k w = true ∨ k = 1000%Z ∧ bad_attempt k).
Proof.
  intros Hk. revert i w0. induction n as [|n IH]; intros i w0 Hn.
  - left. split; [|done]. cbn. by rewrite (proj2 (Z.ltb_lt 1000 i)) by lia.
  - right. change (MakeWallet_loop (S (S n)) i ks w0) with
      (if (1000 <? i)%Z then Ret w0
       else w ← newKeyPair ks i; if good_keys ks i w then Ret (Some w)
                                 else MakeWallet_loop (S n) (i + 1) ks (Some w)).
    rewrite (proj2 (Z.ltb_ge 1000 i)) by lia.
    destruct (newKeyPair ks i) as [w|e|p|] eqn:Ew.
    2-4: destruct (Hk i) as [[pr [X Y]] Hi]; unfold newKeyPair in Ew; by rewrite Hi in Ew.
    rewrite ret_bind. destruct (good_keys ks i w) eqn:Eg.
    { exists w, i. repeat split; auto; lia. }
    assert (Hbad : bad_attempt i) by (by exists w).
    destruct (IH (i + 1)%Z (Some w) ltac:(lia)) as [[-> ->]|(w' & k & -> & Hik & Hw' & Hb & Hg)].
    + exists w, i. repeat split; auto; try lia. right. split; [lia|done].
    + exists w', k. repeat split; auto; [lia..|]. intros j Hj.
      destruct (decide (j = i)) as [->|]; [done|]. apply Hb. lia.
Qed.

(** [MakeWallet] returns after at most 1001 attempts: with the first pair of
    keys whose signature verifies or, when no pair does, with the last one. *)
Theorem MakeWallet_spec : (∀ k, is_Some (ks_keys ks k)) →
  ∃ w k, MakeWallet ks = Ret (Some w) ∧ (0 ≤ k ≤ 1000)%Z ∧ newKeyPair ks k = Ret w ∧
    (∀ j, (0 ≤ j < k)%Z → bad_attempt j) ∧ (good_keys ks k w = true ∨ k = 1000%Z ∧ bad_attempt k).
Proof.
  intros Hk. destruct (MakeWallet_loop_spec 1001 0 None Hk) as [[_ Hn]|Hw]; [done|done|].
  exact Hw.
Qed.
End Keys.

(** ** The collection and its file *)

Section File.
Context `{CryptoLaws} `{!Gob (option (gmap bytes Wallet))} `{GoRangeLaws} (write_error : bytes → option goerror).
Context `{!GobLaws (option (gmap bytes Wallet))}.

Lemma SaveToFile_run ws fs : write_error (ws_DataDir ws ++ walletFile) = None →
  ∃ content, gob_Encode (ws_Wallets ws) = Ret content ∧
    SaveToFile write_error ws fs = (Ret tt, <[ws_DataDir ws ++ walletFile := content]> fs).
Proof.
  intros Hw. destruct (gob_total (ws_Wallets ws)) as [content Hc]. exists content. split; [done|].
  unfold SaveToFile, WriteFile, st_bind, mbind, lift. by rewrite Hc, Hw.
Qed.

Lemma elem_of_GetAddresses a ws : a ∈ GetAddresses ws ↔ is_Some (default ∅ (ws_Wallets ws) !! a).
Proof.
  unfold GetAddresses. rewrite go_range_Permutation, list_elem_of_fmap. split.
  - intros ([k w] & -> & Hw%elem_of_map_to_list). by exists w.
  - intros [w Hw]. exists (a, w). split; [done|]. by apply elem_of_map_to_list.
Qed.

Lemma GetAddress_valid pub : ValidateAddress (GetAddress pub) = Ret true.
Proof.
  apply (address_roundtrip (HashPubKey pub)). unfold HashPubKey. rewrite ripemd160_length. lia.
Qed.

(** A new wallet has a valid address, under which it is found; the others stay,
    and whoever loads the file of the data directory gets them all. *)
Lemma CreateWallet_spec ks w ws m fs :
  MakeWallet ks = Ret (Some w) → ws_Wallets ws = Some m → write_error (ws_DataDir ws ++ walletFile) = None →
  let address := GetAddress (w_PublicKey w) in
  ∃ ws' fs', CreateWallet write_error ks (ws, fs) = (Ret address, (ws', fs')) ∧
    ValidateAddress address = Ret true ∧ GetWallet address ws' = Ret w ∧
    (∀ a, a ≠ address → GetWallet a ws' = GetWallet a ws) ∧
    (∀ a, a ∈ GetAddresses ws' ↔ a = address ∨ a ∈ GetAddresses ws) ∧
    ∀ before, LoadFromFile (mkWallets (ws_DataDir ws) before []) fs' =
      Ret (mkWallets (ws_DataDir ws) (ws_Wallets ws') []).
Proof.
  intros Hmake Hm Hw address. set (ws' := mkWallets (ws_DataDir ws) (Some (<[address := w]> m)) (ws_WalletsFile ws)).
  destruct (SaveToFile_run ws' fs Hw) as (content & Hc & Hs).
  exists ws', (<[ws_DataDir ws ++ walletFile := content]> fs). split.
  { unfold CreateWallet. rewrite Hmake, Hm. fold address ws'. by rewrite Hs. }
  split; [apply GetAddress_valid|]. split.
  { unfold GetWallet. cbn. by rewrite lookup_insert_eq. }
  split. { intros a Ha. unfold GetWallet. rewrite Hm. cbn. by rewrite lookup_insert_ne. }
  split. { intros a. rewrite !elem_of_GetAddresses. cbn. rewrite Hm. cbn.
    destruct (decide (a = address)) as [->|Ha].
    - rewrite lookup_insert_eq. naive_solver.
    - rewrite lookup_insert_ne by done. naive_solver. }
  intros before. unfold LoadFromFile, ReadFile. cbn.
  rewrite lookup_insert_eq, ret_bind. by rewrite (proj2 (gob_roundtrip _ _ Hc)).
Qed.
End File.

(** ** An instance *)

Module WalletDemo.
Import ToyCrypto MapRange.

Definition entries (m : option (gmap bytes Wallet)) : bool * list (bytes * (Z * bytes)) :=
  (bool_decide (is_Some m),
   map (λ p : bytes * Wallet, (p.1, (w_PrivateKey p.2 : Z, w_PublicKey p.2))) (map_to_list (default ∅ m))).
Definition of_entries (p : bool * list (bytes * (Z * bytes))) : option (gmap bytes Wallet) :=
  if p.1 then Some (list_to_map (map (λ q : bytes * (Z * bytes), (q.1, mkWallet (q.2.1 : PrivateKey) q.2.2)) p.2))
  else None.

Lemma of_entries_inv m : of_entries (entries m) = m.
Proof.
  destruct m as [m|]; [|done]. unfold of_entries, entries. cbn. f_equal.
  rewrite map_map. rewrite <- (list_to_map_to_list m) at 2. f_equal.
  rewrite <- (map_id (map_to_list m)) at 2. apply map_ext. by intros [a [k pub]].
Qed.

#[export] Instance wallets_gob : Gob (option (gmap bytes Wallet)) :=
  codec_gob (codec_iso (codec_prod codec_bool (codec_list (codec_prod codec_bytes (codec_prod codec_Z codec_bytes))))
    entries of_entries of_entries_inv).
#[export] Instance wallets_gob_laws : GobLaws (option (gmap bytes Wallet)).
Proof. apply codec_gob_laws. Qed.

(** The key 7 does not sign with the point of attempt 0, and does with the next. *)
Definition keys : key_source :=
  mkKeySource (λ i, Some (7%Z, if (i =? 0)%Z then (8, 8)%Z else (7, 7)%Z)) (λ _, 0%N).
Definition made : Wallet := mkWallet (7%Z : PrivateKey) [x07; x07].
Definition no_error (_ : bytes) : option goerror := None.
Definition empty_wallets (file : bytes) : Wallets := mkWallets (str "data/") (Some ∅) file.

Lemma MakeWallet_spec_witness :
  ∃ w k, MakeWallet keys = Ret (Some w) ∧ newKeyPair keys k = Ret w ∧ (0 ≤ k ≤ 1000)%Z.
Proof.
  destruct (MakeWallet_spec keys) as (w & k & Hm & Hk & Hw & _); [by eexists|]. exists w, k. auto.
Defined.

(** The file that was set is read, but not written. *)
Example WalletsFile_not_written :
  let p := (CreateWallet no_error keys (empty_wallets (str "other.dat"), ∅)).2 in
  LoadFromFile p.1 p.2 = Err ErrNotExist ∧ GetWallet (GetAddress [x07; x07]) p.1 = Ret made.
Proof. split; reflexivity. Qed.
End WalletDemo.
