(* ===== verification/Merkle.v ===== *)
(** * The Merkle tree of [lib/utils/merkle_tree.go]

    [NewMerkleTree] builds its levels for as many rounds as half the number of
    leaves, padding a level of odd length with its last node.  [merkle_ref] is
    the usual definition, which stops at the root; the theorem of the file says
    how the two agree. *)

From Stdlib Require Import Strings.Byte ZifyNat.
From stdpp Require Import base strings numbers list.
From S2P Require Import Prelude Platform Concrete.

Inductive MerkleNode := mkMerkleNode {
  Left : option MerkleNode;
  Right : option MerkleNode;
  Data : bytes
}.

Record MerkleTree := mkMerkleTree { RootNode : MerkleNode }.

(** [append(l, l[len(l)-1])] when the length of [l] is odd. *)
Definition pad_even {A} (l : list A) : outcome (list A) :=
  if negb (Z.of_nat (length l) `mod` 2 =? 0)%Z
  then x ← index l (Z.of_nat (length l) - 1); Ret (l ++ [x])
  else Ret l.

Section MerkleTree.
Context `{Crypto}.

Definition NewMerkleNode (left right : option MerkleNode) (data : bytes)
    : outcome MerkleNode :=
  match left, right with
  | None, None => Ret (mkMerkleNode left right (sha256_Sum256 data))
  | _, _ =>
      l ← deref left; r ← deref right;
      let prevHashes := Data l ++ Data r in
      Ret (mkMerkleNode left right (sha256_Sum256 prevHashes))
  end.

(** The [j] loop: one node for each pair of nodes of a level. *)
Fixpoint newLevel (nodes : list MerkleNode) : outcome (list MerkleNode) :=
  match nodes with
  | [] => Ret []
  | [_] => Panic PIndex
  | l :: r :: nodes' =>
      node ← NewMerkleNode (Some l) (Some r) [];
      level ← newLevel nodes';
      Ret (node :: level)
  end.

(** The [i] loop. *)
Fixpoint merkle_rounds (n : nat) (nodes : list MerkleNode) : outcome (list MerkleNode) :=
  match n with
  | O => Ret nodes
  | S n' => level ← newLevel nodes; nodes' ← pad_even level; merkle_rounds n' nodes'
  end.

(** The loop that makes the leaves. *)
Definition add_leaf (nodes : list MerkleNode) (datum : bytes) : outcome (list MerkleNode) :=
  node ← NewMerkleNode None None datum;
  Ret (nodes ++ [node]).

Definition NewMerkleTree (data : list bytes) : outcome MerkleTree :=
  data ← pad_even data;
  nodes ← mfor data add_leaf [];
  nodes ← merkle_rounds (length data `div` 2) nodes;
  root ← index nodes 0;
  Ret (mkMerkleTree root).

(** ** The reference *)

Definition pad {A} (l : list A) : list A :=
  match last l with
  | Some x => if Nat.odd (length l) then l ++ [x] else l
  | None => l
  end.

Fixpoint pairs (hs : list bytes) : list bytes :=
  match hs with
  | l :: r :: hs' => sha256_Sum256 (l ++ r) :: pairs hs'
  | _ => []
  end.

(** The root above the hashes [hs]: a level is the hashes of the pairs of
    the level below it, until one is left. *)
Fixpoint merkle_ref (fuel : nat) (hs : list bytes) : bytes :=
  match fuel, hs with
  | _, [] => []
  | _, [h] => h
  | O, _ => []
  | S fuel', _ => merkle_ref fuel' (pairs (pad hs))
  end.

Definition double (h : bytes) : bytes := sha256_Sum256 (h ++ h).
End MerkleTree.

(** ** Padding *)

Lemma pad_even_pad {A} (l : list A) : pad_even l = Ret (pad l).
Proof.
  unfold pad_even, pad. destruct (decide (l = [])) as [->|Hl]; [done|].
  destruct (last l) as [x|] eqn:Ex; [|by apply last_None in Ex].
  rewrite last_lookup in Ex.
  assert (length l ≠ 0) by (by destruct l).
  destruct (Z.eqb_spec (Z.of_nat (length l) `mod` 2) 0) as [E|E]; simpl.
  - replace (Nat.odd (length l)) with false; [done|].
    symmetry. rewrite <- Nat.negb_even. apply negb_false_iff, Nat.even_spec.
    exists (length l `div` 2). lia.
  - replace (Nat.odd (length l)) with true.
    2: { symmetry. apply Nat.odd_spec. exists (length l `div` 2). lia. }
    replace (Z.of_nat (length l) - 1)%Z with (Z.of_nat (pred (length l))) by lia.
    by rewrite index_nat, Ex.
Qed.

Lemma pad_map {A B} (f : A → B) (l : list A) : pad (f <$> l) = f <$> pad l.
Proof.
  unfold pad. rewrite fmap_last, length_fmap.
  destruct (last l); simpl; [|done]. destruct (Nat.odd _); [by rewrite fmap_app|done].
Qed.

Lemma pad_length {A} (l : list A) : l ≠ [] →
  ∃ m, length (pad l) = 2 * m ∧ m = Nat.div2 (S (length l)) ∧ 1 ≤ m.
Proof.
  intros Hl. unfold pad. destruct (last l) as [x|] eqn:Ex; [|by apply last_None in Ex].
  exists (Nat.div2 (S (length l))). rewrite Nat.div2_div.
  assert (length l ≠ 0) by (by destruct l).
  destruct (Nat.odd (length l)) eqn:E.
  - apply Nat.odd_spec in E as [k E]. rewrite length_app. simpl length. lia.
  - rewrite <- Nat.negb_even in E. apply negb_false_iff, Nat.even_spec in E as [k E]. lia.
Qed.

Lemma pad_pad {A} (l : list A) : pad (pad l) = pad l.
Proof.
  destruct (decide (l = [])) as [->|Hl]; [done|].
  destruct (pad_length l Hl) as (m & Hm & _).
  unfold pad at 1. destruct (last (pad l)); [|done].
  replace (Nat.odd (length (pad l))) with false; [done|].
  symmetry. rewrite <- Nat.negb_even. apply negb_false_iff, Nat.even_spec. by exists m.
Qed.

Section Equivalence.
Context `{Crypto}.

Lemma pairs_length m hs : length hs = 2 * m → length (pairs hs) = m.
Proof.
  revert hs. induction m as [|m IH]; intros [|a [|b hs]] Hlen; simpl in *; try lia.
  rewrite IH; lia.
Qed.

Lemma newLevel_pairs m nodes :
  length nodes = 2 * m →
  ∃ level, newLevel nodes = Ret level ∧ Data <$> level = pairs (Data <$> nodes).
Proof.
  revert nodes. induction m as [|m IH]; intros [|a [|b nodes]] Hlen; simpl in *; try lia.
  - by exists [].
  - destruct (IH nodes) as (level & -> & E); [lia|].
    simpl. eexists. split; [done|]. csimpl. by rewrite E.
Qed.

(** One round on nodes is [pad ∘ pairs] on their hashes. *)
Lemma merkle_rounds_hashes n m nodes :
  length nodes = 2 * S m →
  ∃ nodes', merkle_rounds n nodes = Ret nodes' ∧
            Data <$> nodes' = Nat.iter n (λ hs, pad (pairs hs)) (Data <$> nodes).
Proof.
  revert m nodes. induction n as [|n IH]; intros m nodes Hlen; simpl; [by exists nodes|].
  destruct (newLevel_pairs (S m) nodes Hlen) as (level & -> & E). simpl.
  rewrite pad_even_pad. simpl.
  assert (length level = S m) as Hl.
  { rewrite <- (length_fmap Data), E. apply pairs_length. by rewrite length_fmap. }
  destruct (pad_length level) as (m' & Hm & _ & H1); [by destruct level|].
  destruct m' as [|m']; [lia|].
  destruct (IH m' (pad level)) as (nodes' & -> & E'); [done|].
  exists nodes'. split; [done|].
  rewrite E', <- pad_map, E. exact (Nat.iter_swap n _ _ _).
Qed.

Lemma merkle_leaves data nodes :
  ∃ leaves, mfor data add_leaf nodes = Ret (nodes ++ leaves) ∧
    Data <$> leaves = sha256_Sum256 <$> data.
Proof.
  revert nodes. induction data as [|d data IH]; intros nodes.
  - exists []. simpl. by rewrite app_nil_r.
  - destruct (IH (nodes ++ [mkMerkleNode None None (sha256_Sum256 d)])) as (leaves & El & E).
    eexists (_ :: leaves). split; [etrans; [exact El|by rewrite <- app_assoc]|]. csimpl. by rewrite E.
Qed.

(** Rounds past the root pair it with itself. *)
Lemma rounds_above_root n r :
  head (Nat.iter n (λ hs, pad (pairs hs)) [r; r]) = Some (Nat.iter n double r).
Proof.
  revert r. induction n as [|n IH]; intros r; [done|].
  rewrite !Nat.iter_succ_r. apply (IH (double r)).
Qed.

Lemma merkle_ref_fuel fuel fuel' hs :
  length hs ≤ fuel → length hs ≤ fuel' → merkle_ref fuel hs = merkle_ref fuel' hs.
Proof.
  revert fuel' hs. induction fuel as [|fuel IH]; intros [|fuel'] [|a [|b hs]] H1 H2;
    simpl in *; try done; try lia.
  destruct (pad_length (a :: b :: hs)) as (m & Hm & Hm' & _); [done|].
  rewrite Nat.div2_div in Hm'. simpl length in Hm'.
  apply IH; rewrite (pairs_length m) by done; lia.
Qed.

Lemma merkle_ref_pad fuel hs :
  2 ≤ length hs → length hs < fuel → merkle_ref fuel (pad hs) = merkle_ref fuel hs.
Proof.
  intros H2 Hf. destruct fuel as [|fuel]; [lia|].
  destruct hs as [|a [|b hs]]; simpl in H2; try lia.
  simpl. destruct (pad_length (a :: b :: hs)) as (m & Hm & _ & H1); [done|].
  destruct (pad (a :: b :: hs)) as [|c [|d t]] eqn:E; simpl in Hm; try lia.
  by rewrite <- E, pad_pad.
Qed.

Lemma log2_up_half m : 2 ≤ m →
  Nat.log2_up (2 * m) = S (Nat.log2_up (2 * Nat.div2 (S m))).
Proof.
  intros Hm. rewrite Nat.log2_up_double by lia. f_equal.
  destruct (Nat.Even_or_Odd m) as [[k ->]|[k ->]].
  - f_equal. lia.
  - replace (2 * Nat.div2 (S (2 * k + 1))) with (2 * S k) by lia.
    rewrite Nat.log2_up_double, (Nat.log2_up_eqn (2 * k + 1)) by lia. f_equal.
    replace (Nat.pred (2 * k + 1)) with (2 * k) by lia.
    rewrite Nat.log2_double by lia.
    by rewrite Nat.log2_up_eqn by lia.
Qed.

Lemma log2_up_le_half m : 1 ≤ m → Nat.log2_up (2 * m) ≤ m.
Proof.
  intros Hm. rewrite Nat.log2_up_double by lia.
  pose proof (Nat.log2_up_lt_lin m ltac:(lia)). lia.
Qed.

(** The rounds of the loop on a level of [2 * S m] hashes: as many as the
    reference takes, then the ones above the root. *)
Lemma rounds_merkle_ref n m hs :
  length hs = 2 * S m → Nat.log2_up (2 * S m) ≤ n →
  head (Nat.iter n (λ hs, pad (pairs hs)) hs)
  = Some (Nat.iter (n - Nat.log2_up (2 * S m)) double (merkle_ref (S (length hs)) hs)).
Proof.
  revert m hs. induction n as [|n IH]; intros m hs Hlen Hn.
  { rewrite Nat.log2_up_double in Hn by lia. lia. }
  rewrite Nat.iter_succ_r. pose proof (pairs_length (S m) hs Hlen) as Hp.
  destruct m as [|m].
  - destruct hs as [|a [|b [|? ?]]]; simpl in Hlen; try lia.
    change (pad (pairs [a; b])) with [sha256_Sum256 (a ++ b); sha256_Sum256 (a ++ b)].
    rewrite rounds_above_root. f_equal. change (Nat.log2_up (2 * 1)) with 1.
    by rewrite Nat.sub_succ, Nat.sub_0_r.
  - destruct (pad_length (pairs hs)) as (m' & Hm' & Em' & H1); [by destruct (pairs hs)|].
    rewrite Hp in Em'. destruct m' as [|m']; [lia|].
    rewrite (log2_up_half (S (S m))), <- Em' in Hn |- * by lia.
    rewrite (IH m') by (done || lia). rewrite Nat.sub_succ. do 2 f_equal.
    rewrite (merkle_ref_pad (S (length (pad (pairs hs))))) by lia.
    destruct hs as [|a [|b hs]]; simpl in Hlen; try lia.
    change (merkle_ref (S (length (a :: b :: hs))) (a :: b :: hs))
      with (merkle_ref (length (a :: b :: hs)) (pairs (pad (a :: b :: hs)))).
    assert (pad (a :: b :: hs) = a :: b :: hs) as ->.
    { unfold pad. destruct (last _); [|done].
      replace (Nat.odd _) with false; [done|]. symmetry. rewrite <- Nat.negb_even.
      apply negb_false_iff, Nat.even_spec. exists (S (S m)). simpl in *. lia. }
    apply merkle_ref_fuel; rewrite Hp; [rewrite Hm'|cbn [length]]; lia.
Qed.

(** The root [NewMerkleTree] takes, as the first of what the rounds leave of
    the hashes of the leaves. *)
Lemma NewMerkleTree_rounds data :
  data ≠ [] →
  ∃ m tree, length (pad data) = 2 * S m ∧ NewMerkleTree data = Ret tree ∧
    head (Nat.iter (S m) (λ hs, pad (pairs hs)) (sha256_Sum256 <$> pad data))
    = Some (Data (RootNode tree)).
Proof.
  intros Hne. destruct (pad_length data Hne) as (m & Hm & _ & H1). destruct m as [|m]; [lia|].
  exists m. unfold NewMerkleTree. rewrite pad_even_pad, ret_bind.
  destruct (merkle_leaves (pad data) []) as (ns & -> & E). rewrite ret_bind, app_nil_l.
  assert (length ns = 2 * S m) as Hns by (by rewrite <- (length_fmap Data), E, length_fmap).
  rewrite Hm. replace ((2 * S m) `div` 2) with (S m) by lia.
  destruct (merkle_rounds_hashes (S m) m ns Hns) as (ns' & -> & E'). rewrite ret_bind, <- E, <- E'.
  destruct ns' as [|r ns']; [|by eexists].
  exfalso. pose proof (rounds_merkle_ref (S m) m (Data <$> ns)) as Hr.
  rewrite length_fmap in Hr. rewrite <- E' in Hr.
  by specialize (Hr Hns (log2_up_le_half (S m) ltac:(lia))).
Qed.

Lemma NewMerkleTree_returns data :
  data ≠ [] → ∃ tree, NewMerkleTree data = Ret tree.
Proof. intros Hd. destruct (NewMerkleTree_rounds data Hd) as (? & t & _ & Ht & _). eauto. Qed.

(** C21: on a nonempty list of data, [NewMerkleTree] returns (no loop runs
    away and no index is out of range) and its root is the reference root of
    the hashes of the padded leaves, hashed with itself once for each round
    the loop makes beyond the height of the tree. *)
Theorem NewMerkleTree_ref data :
  data ≠ [] →
  let leaves := sha256_Sum256 <$> pad data in
  ∃ tree, NewMerkleTree data = Ret tree ∧
    Data (RootNode tree)
    = Nat.iter (length leaves `div` 2 - Nat.log2_up (length leaves)) double
        (merkle_ref (S (length leaves)) leaves).
Proof.
  intros Hne leaves. destruct (NewMerkleTree_rounds data Hne) as (m & tree & Hm & -> & Hr).
  exists tree. split; [done|].
  assert (length leaves = 2 * S m) as Hl by (unfold leaves; by rewrite length_fmap).
  fold leaves in Hr.
  rewrite (rounds_merkle_ref (S m) m leaves Hl (log2_up_le_half (S m) ltac:(lia))) in Hr.
  injection Hr as <-. rewrite Hl. by replace ((2 * S m) `div` 2) with (S m) by lia.
Qed.

(** Without data there is no root to take: the call panics. *)
Lemma NewMerkleTree_nil : NewMerkleTree [] = Panic PIndex.
Proof. reflexivity. Qed.

(** The padding of [NewMerkleTree] makes a list of odd length and the list
    with its last element repeated the same tree. *)
Lemma NewMerkleTree_repeat data x :
  last data = Some x → Nat.odd (length data) = true →
  NewMerkleTree (data ++ [x]) = NewMerkleTree data.
Proof.
  intros Hx Hodd. unfold NewMerkleTree. rewrite !pad_even_pad.
  assert (pad data = data ++ [x]) as E by (unfold pad; by rewrite Hx, Hodd).
  by rewrite <- E, pad_pad.
Qed.
End Equivalence.

Section Witnesses.
Import ToyCrypto.

Lemma NewMerkleTree_ref_witness :
  let leaves := sha256_Sum256 <$> pad [[x01]; [x02]; [x03]] in
  ∃ tree, NewMerkleTree [[x01]; [x02]; [x03]] = Ret tree ∧
    Data (RootNode tree)
    = Nat.iter (length leaves `div` 2 - Nat.log2_up (length leaves)) double
        (merkle_ref (S (length leaves)) leaves).
Proof. apply (NewMerkleTree_ref [[x01]; [x02]; [x03]]). discriminate. Defined.

(** Eight leaves make a root hashed once more than the height asks for. *)
Example eight_leaves :
  length (sha256_Sum256 <$> pad (repeat [x01] 8)) `div` 2
  - Nat.log2_up (length (sha256_Sum256 <$> pad (repeat [x01] 8))) = 1.
Proof. reflexivity. Qed.

End Witnesses.
