(* ===== verification/Structures.v ===== *)
(** * Package [node/structures]: transactions, outputs and blocks

    The records of [transaction.go], [transaction_input.go],
    [transaction_output.go], [transaction_info.go] and [block.go], their
    copies, their byte texts ([ToBytes]) and hashes.  Signing and verifying
    are in [Signing.v]. *)

From Stdlib Require Import Strings.Byte ZifyNat.
From stdpp Require Import base strings numbers gmap list.
From S2P Require Import Prelude Float64 Platform Concrete Utils Merkle.

(** ** Data *)

Record TXInput := mkTXInput {
  in_Txid : bytes;
  in_Vout : Z;
  in_Signature : bytes;
  in_PubKey : bytes
}.

Record TXOutput := mkTXOutput {
  out_Value : float64;
  out_PubKeyHash : bytes
}.

Record TXOutputIndependent := mkTXOutputIndependent {
  uo_Value : float64;
  uo_DestPubKeyHash : bytes;
  uo_SendPubKeyHash : bytes;
  uo_TXID : bytes;
  uo_OIndex : Z;
  uo_IsBase : bool;
  uo_BlockHash : bytes
}.

Record Transaction := mkTransaction {
  tx_ID : bytes;
  tx_Vin : list TXInput;
  tx_Vout : list TXOutput;
  tx_Time : Z
}.

Record Block := mkBlock {
  blk_Timestamp : Z;
  blk_Transactions : list Transaction;
  blk_PrevBlockHash : bytes;
  blk_Hash : bytes;
  blk_Nonce : Z;
  blk_Height : Z
}.

Record BlockShort := mkBlockShort {
  bs_PrevBlockHash : bytes;
  bs_Hash : bytes;
  bs_Height : Z
}.

Record TransactionsHistory := mkTransactionsHistory {
  th_IOType : bool;
  th_TXID : bytes;
  th_Address : bytes;
  th_Value : float64
}.

#[export] Instance TXInput_eq_dec : EqDecision TXInput.
Proof. solve_decision. Defined.
#[export] Instance TXOutput_eq_dec : EqDecision TXOutput.
Proof. solve_decision. Defined.
#[export] Instance Transaction_eq_dec : EqDecision Transaction.
Proof. solve_decision. Defined.
#[export] Instance Block_eq_dec : EqDecision Block.
Proof. solve_decision. Defined.

(** ** Inputs and outputs *)

Section InputsOutputs.
Context `{Crypto}.

Definition UsesKey (inp : TXInput) (pubKeyHash : bytes) : bool :=
  let lockingHash := HashPubKey (in_PubKey inp) in
  bytes_eqb lockingHash pubKeyHash.

Definition TXInput_ToBytes (input : TXInput) : bytes :=
  in_Txid input ++ big_endian 4 (int32_wrap (in_Vout input))
    ++ in_Signature input ++ in_PubKey input.

Definition IsLockedWithKey (out : TXOutput) (pubKeyHash : bytes) : bool :=
  bytes_eqb (out_PubKeyHash out) pubKeyHash.

Definition uo_IsLockedWithKey (out : TXOutputIndependent) (pubKeyHash : bytes) : bool :=
  bytes_eqb (uo_DestPubKeyHash out) pubKeyHash.

Definition LoadFromSimple (sout : TXOutput) (txid : bytes) (ind : Z) (sender : bytes)
    (iscoinbase : bool) (blockHash : bytes) : TXOutputIndependent :=
  mkTXOutputIndependent (out_Value sout) (out_PubKeyHash sout) sender txid ind
    iscoinbase blockHash.

(** [Lock]: the address is cut without the length check of
    [AddresToPubKeyHash]. *)
Definition Lock (out : TXOutput) (address : bytes) : outcome TXOutput :=
  let pubKeyHash := Base58Decode address in
  pubKeyHash ← slice pubKeyHash 1 (Z.of_nat (length pubKeyHash) - 4);
  Ret (mkTXOutput (out_Value out) pubKeyHash).

Definition NewTXOutput (value : float64) (address : bytes) : outcome TXOutput :=
  Lock (mkTXOutput value []) address.

Definition TXOutput_ToBytes (output : TXOutput) : bytes :=
  big_endian 8 (f64_bits (out_Value output)) ++ out_PubKeyHash output.
End InputsOutputs.

(** [TXOutputIndependentList.Less] and [Transactions.Less]. *)
Definition uo_Less (a b : TXOutputIndependent) : bool := f64_ltb (uo_Value a) (uo_Value b).
Definition tx_Less (a b : Transaction) : bool := (tx_Time a <? tx_Time b)%Z.

(** ** Transactions *)

Definition IsCoinbase (tx : Transaction) : bool :=
  match tx_Vin tx with
  | [vin] => (Z.of_nat (length (in_Txid vin)) =? 0)%Z && (in_Vout vin =? -1)%Z
  | _ => false
  end.

Definition set_ID (id : bytes) (tx : Transaction) : Transaction :=
  mkTransaction id (tx_Vin tx) (tx_Vout tx) (tx_Time tx).
Definition set_Vin (vin : list TXInput) (tx : Transaction) : Transaction :=
  mkTransaction (tx_ID tx) vin (tx_Vout tx) (tx_Time tx).
Definition set_PubKey (pk : bytes) (vin : TXInput) : TXInput :=
  mkTXInput (in_Txid vin) (in_Vout vin) (in_Signature vin) pk.
Definition set_Signature (sig : bytes) (vin : TXInput) : TXInput :=
  mkTXInput (in_Txid vin) (in_Vout vin) sig (in_PubKey vin).

Definition copy_output (vout : TXOutput) : TXOutput :=
  mkTXOutput (out_Value vout) (CopyBytes (out_PubKeyHash vout)).

Definition TrimmedCopy (tx : Transaction) : Transaction :=
  let inputs := map (λ vin, mkTXInput (in_Txid vin) (in_Vout vin) [] []) (tx_Vin tx) in
  let outputs := map copy_output (tx_Vout tx) in
  mkTransaction (CopyBytes (tx_ID tx)) inputs outputs (tx_Time tx).

Definition tx_Copy (tx : Transaction) : Transaction :=
  let inputs := map (λ vin, mkTXInput (in_Txid vin) (in_Vout vin)
                              (CopyBytes (in_Signature vin)) (CopyBytes (in_PubKey vin)))
                    (tx_Vin tx) in
  let outputs := map copy_output (tx_Vout tx) in
  mkTransaction (CopyBytes (tx_ID tx)) inputs outputs (tx_Time tx).

Definition tx_ToBytes (tx : Transaction) : bytes :=
  tx_ID tx ++ mjoin (map TXInput_ToBytes (tx_Vin tx))
    ++ mjoin (map TXOutput_ToBytes (tx_Vout tx)) ++ big_endian 8 (tx_Time tx).

Section Transactions.
Context `{Crypto} `{!Gob Transaction}.

Definition tx_Serialize (tx : Transaction) : outcome bytes :=
  let txCopy := tx_Copy tx in
  gob_Encode txCopy.

Definition DeserializeTransaction (data : bytes) : outcome Transaction := gob_Decode data.

(** [Hash]: the transaction with its new [ID], which is the returned hash;
    an error leaves the transaction as it was. *)
Definition tx_Hash (tx : Transaction) : outcome Transaction :=
  let txCopy := set_ID [] tx in
  txser ← tx_Serialize txCopy;
  let hash := sha256_Sum256 txser in
  Ret (set_ID hash tx).

(** A call to [Hash] whose results are dropped. *)
Definition tx_Hash_ignored (tx : Transaction) : outcome Transaction :=
  ignore_err tx (tx_Hash tx).

(** [MakeCoinbaseTX]; [randData] is what the random reader returns for an
    empty [data]. *)
Definition MakeCoinbaseTX (tx : Transaction) (to data : bytes) (randData : outcome bytes)
    : outcome Transaction :=
  data ← (if bool_decide (data = []) then r ← randData; Ret (str (hex_EncodeToString r))
          else Ret data);
  let txin := mkTXInput [] (-1) [] data in
  txout ← NewTXOutput PaymentForBlockMade to;
  let tx := mkTransaction (tx_ID tx) [txin] [txout] (tx_Time tx) in
  tx_Hash_ignored tx.
End Transactions.

(** ** Blocks *)

Definition GetShortCopy (b : Block) : BlockShort :=
  mkBlockShort (blk_PrevBlockHash b) (blk_Hash b) (blk_Height b).

Definition blk_Copy (b : Block) : Block :=
  mkBlock (blk_Timestamp b) (map tx_Copy (blk_Transactions b))
    (go_copy (zeros (length (blk_PrevBlockHash b))) (blk_PrevBlockHash b))
    (go_copy (zeros (length (blk_Hash b))) (blk_Hash b))
    (blk_Nonce b) (blk_Height b).

(** [PrepareNewBlock]; [now] is the clock. *)
Definition PrepareNewBlock (transactions : list Transaction) (prevBlockHash : bytes)
    (height now : Z) : Block :=
  mkBlock now transactions
    (go_copy (zeros (length prevBlockHash)) prevBlockHash) [] 0 height.

(** The loop of [ReverseBlocksSlice] and [ReverseBlocksShortSlice]: round [i]
    of [len(ss)/2] exchanges [ss[i]] and [ss[last-i]]. *)
Fixpoint reverse_rounds {A} (n : nat) (i last : Z) (ss : list A) : outcome (list A) :=
  match n with
  | O => Ret ss
  | S n' => ss ← go_swap ss i (last - i); reverse_rounds n' (i + 1) last ss
  end.
Definition ReverseBlocksSlice {A} (ss : list A) : outcome (list A) :=
  let last := (Z.of_nat (length ss) - 1)%Z in
  if (last <? 1)%Z then Ret ss
  else reverse_rounds (length ss `div` 2) 0 last ss.
Definition ReverseBlocksShortSlice (ss : list BlockShort) : outcome (list BlockShort) :=
  let last := (Z.of_nat (length ss) - 1)%Z in
  if (last <? 1)%Z then Ret ss
  else reverse_rounds (length ss `div` 2) 0 last ss.

Section Blocks.
Context `{Crypto} `{!Gob Block} `{!Gob BlockShort}.

Definition HashTransactions (b : Block) : outcome bytes :=
  let transactions := map tx_ToBytes (blk_Transactions b) in
  mTree ← NewMerkleTree transactions;
  Ret (Data (RootNode mTree)).

Definition blk_Serialize (b : Block) : outcome bytes := gob_Encode b.
Definition DeserializeBlock (d : bytes) : outcome Block := gob_Decode d.
Definition bs_Serialize (b : BlockShort) : outcome bytes := gob_Encode b.
Definition bs_DeserializeBlock (d : bytes) : outcome BlockShort := gob_Decode d.
End Blocks.

(** ** Copies and reversals *)

Lemma copy_output_id vout : copy_output vout = vout.
Proof. unfold copy_output. rewrite CopyBytes_id. by destruct vout. Qed.

Lemma map_copy_output l : map copy_output l = l.
Proof. induction l as [|o l IH]; simpl; [done|]. by rewrite copy_output_id, IH. Qed.

Lemma tx_Copy_id tx : tx_Copy tx = tx.
Proof.
  unfold tx_Copy. rewrite CopyBytes_id, map_copy_output. destruct tx as [i vin vout t]. simpl.
  f_equal. induction vin as [|v vin IH]; simpl; [done|].
  rewrite !CopyBytes_id, IH. by destruct v.
Qed.

Lemma blk_Copy_id b : blk_Copy b = b.
Proof.
  unfold blk_Copy. rewrite !go_copy_full by apply length_zeros.
  replace (map tx_Copy (blk_Transactions b)) with (blk_Transactions b); [by destruct b|].
  induction (blk_Transactions b) as [|t l IH]; simpl; [done|]. by rewrite tx_Copy_id, <- IH.
Qed.

Lemma reverse_rounds_spec {A} n k (ss cur : list A) :
  2 * (k + n) = length ss ∨ 2 * (k + n) + 1 = length ss →
  swapped_upto k ss cur →
  reverse_rounds n (Z.of_nat k) (Z.of_nat (length ss) - 1) cur = Ret (reverse ss).
Proof.
  revert k cur. induction n as [|n IH]; intros k cur Hk Hcur; simpl.
  - rewrite (swapped_upto_full k ss cur); [done|lia|done].
  - destruct (swapped_upto_S k ss cur) as (cur' & Hs & Hcur'); [lia|done|].
    replace (Z.of_nat (length ss) - 1 - Z.of_nat k)%Z
      with (Z.of_nat (length ss - 1 - k)) by lia.
    rewrite Hs, ret_bind. replace (Z.of_nat k + 1)%Z with (Z.of_nat (S k)) by lia.
    apply IH; [lia|done].
Qed.

Lemma ReverseBlocksSlice_reverse {A} (ss : list A) : ReverseBlocksSlice ss = Ret (reverse ss).
Proof.
  unfold ReverseBlocksSlice. destruct (Z.ltb_spec (Z.of_nat (length ss) - 1) 1).
  - destruct ss as [|a [|b ss]]; simpl in *; [done|done|lia].
  - apply (reverse_rounds_spec _ 0); [lia|auto with go].
Qed.

Lemma ReverseBlocksShortSlice_reverse ss : ReverseBlocksShortSlice ss = Ret (reverse ss).
Proof. apply ReverseBlocksSlice_reverse. Qed.

#[export] Hint Rewrite CopyBytes_id copy_output_id map_copy_output tx_Copy_id blk_Copy_id
  @ReverseBlocksSlice_reverse ReverseBlocksShortSlice_reverse : go.

(** ** Round trips through the stored form *)

Section RoundTrips.
Context `{Crypto} `{!Gob Transaction} `{!GobLaws Transaction}.

Lemma tx_Serialize_total tx : ∃ b, tx_Serialize tx = Ret b.
Proof. apply gob_total. Qed.

Lemma DeserializeTransaction_Serialize tx b :
  tx_Serialize tx = Ret b → b ≠ [] ∧ DeserializeTransaction b = Ret tx.
Proof. unfold tx_Serialize. rewrite tx_Copy_id. apply gob_roundtrip. Qed.

Lemma tx_Hash_total tx : ∃ h, tx_Hash tx = Ret (set_ID h tx).
Proof.
  unfold tx_Hash. destruct (tx_Serialize_total (set_ID [] tx)) as [b ->].
  rewrite ret_bind. eauto.
Qed.

Lemma tx_Hash_ignored_spec tx : ∃ h, tx_Hash_ignored tx = Ret (set_ID h tx).
Proof. unfold tx_Hash_ignored. destruct (tx_Hash_total tx) as [h ->]. by exists h. Qed.

(** The identifier does not depend on the identifier before it. *)
Lemma tx_Hash_ID_independent tx id : tx_Hash (set_ID id tx) = tx_Hash tx.
Proof. reflexivity. Qed.
End RoundTrips.
