(* ===== verification/Codecs.v ===== *)
(** * Gob instances for the stored records

    Executable [encoding/gob] instances for the records of [node/structures],
    made from the codecs of [Concrete.v]; the witnesses of the theorems that
    assume an encoder run on them. *)

From Stdlib Require Import Strings.Byte SpecFloat.
From stdpp Require Import base strings gmap list.
From S2P Require Import Prelude Float64 Platform Concrete Structures.

Module Codecs.

Definition input_codec : codec TXInput :=
  codec_iso (codec_prod (codec_prod codec_bytes codec_Z) (codec_prod codec_bytes codec_bytes))
    (λ i, ((in_Txid i, in_Vout i), (in_Signature i, in_PubKey i)))
    (λ p, mkTXInput p.1.1 p.1.2 p.2.1 p.2.2) (λ '(mkTXInput _ _ _ _), eq_refl).

Definition output_codec : codec TXOutput :=
  codec_iso (codec_prod codec_float codec_bytes)
    (λ o, (out_Value o, out_PubKeyHash o))
    (λ p, mkTXOutput p.1 p.2) (λ '(mkTXOutput _ _), eq_refl).

Definition transaction_codec : codec Transaction :=
  codec_iso (codec_prod (codec_prod codec_bytes (codec_list input_codec))
                        (codec_prod (codec_list output_codec) codec_Z))
    (λ t, ((tx_ID t, tx_Vin t), (tx_Vout t, tx_Time t)))
    (λ p, mkTransaction p.1.1 p.1.2 p.2.1 p.2.2) (λ '(mkTransaction _ _ _ _), eq_refl).

Definition block_codec : codec Block :=
  codec_iso (codec_prod (codec_prod codec_Z (codec_list transaction_codec))
              (codec_prod (codec_prod codec_bytes codec_bytes) (codec_prod codec_Z codec_Z)))
    (λ b, ((blk_Timestamp b, blk_Transactions b),
           ((blk_PrevBlockHash b, blk_Hash b), (blk_Nonce b, blk_Height b))))
    (λ p, mkBlock p.1.1 p.1.2 p.2.1.1 p.2.1.2 p.2.2.1 p.2.2.2)
    (λ '(mkBlock _ _ _ _ _ _), eq_refl).

Definition block_short_codec : codec BlockShort :=
  codec_iso (codec_prod (codec_prod codec_bytes codec_bytes) codec_Z)
    (λ b, ((bs_PrevBlockHash b, bs_Hash b), bs_Height b))
    (λ p, mkBlockShort p.1.1 p.1.2 p.2) (λ '(mkBlockShort _ _ _), eq_refl).

Definition independent_codec : codec TXOutputIndependent :=
  codec_iso (codec_prod (codec_prod codec_float (codec_prod codec_bytes codec_bytes))
              (codec_prod (codec_prod codec_bytes codec_Z) (codec_prod codec_bool codec_bytes)))
    (λ o, ((uo_Value o, (uo_DestPubKeyHash o, uo_SendPubKeyHash o)),
           ((uo_TXID o, uo_OIndex o), (uo_IsBase o, uo_BlockHash o))))
    (λ p, mkTXOutputIndependent p.1.1 p.1.2.1 p.1.2.2 p.2.1.1 p.2.1.2 p.2.2.1 p.2.2.2)
    (λ '(mkTXOutputIndependent _ _ _ _ _ _ _), eq_refl).

#[export] Instance transaction_gob : Gob Transaction := codec_gob transaction_codec.
#[export] Instance transaction_gob_laws : GobLaws Transaction := codec_gob_laws _.
#[export] Instance block_gob : Gob Block := codec_gob block_codec.
#[export] Instance block_gob_laws : GobLaws Block := codec_gob_laws _.
#[export] Instance block_short_gob : Gob BlockShort := codec_gob block_short_codec.
#[export] Instance block_short_gob_laws : GobLaws BlockShort := codec_gob_laws _.
#[export] Instance outputs_gob : Gob (list TXOutputIndependent) :=
  codec_gob (codec_list independent_codec).
#[export] Instance outputs_gob_laws : GobLaws (list TXOutputIndependent) := codec_gob_laws _.
#[export] Instance hashes_gob : Gob (list bytes) := codec_gob (codec_list codec_bytes).
#[export] Instance hashes_gob_laws : GobLaws (list bytes) := codec_gob_laws _.

End Codecs.
