(* ===== verification/Signing.v ===== *)
(** * Signing and verifying transactions

    [String], [PrepareSignData], [SignData], [SetSignatures] and [Verify] of
    [node/structures/transaction.go].  The text that is signed for an input is
    the hexadecimal form of [String()] of a trimmed copy of the transaction
    ([fmt] applies a [String] method before the verb [%x]), so what [String]
    prints is what a signature covers. *)

From Stdlib Require Import Strings.Byte ZifyNat SpecFloat.
From stdpp Require Import base strings numbers pretty gmap list.
From S2P Require Import Prelude Float64 Platform Concrete Utils Merkle Structures Codecs.

(** The map from the index of an input to the transaction it spends from. *)
Abbreviation prevmap := (gmap Z (option Transaction)).

(** [prevTXs[i]], the nil pointer when there is no record. *)
Definition mget (m : prevmap) (i : Z) : option Transaction := default None (m !! i).

Definition nl : string := String (Ascii.ascii_of_nat 10) EmptyString.
Definition go_string (b : bytes) : string := String.string_of_list_byte b.
Definition join_lines (ls : list string) : string := String.concat nl ls.

Section Signing.
Context `{Crypto} `{!Gob Transaction}.

Definition input_lines (i : Z) (input : TXInput) : list string :=
  let address := PubKeyToAddres (in_PubKey input) in
  [ "     Input " +:+ pretty i +:+ ":";
    "       TXID:      " +:+ hex_EncodeToString (in_Txid input);
    "       Out:       " +:+ pretty (in_Vout input);
    "       Signature: " +:+ hex_EncodeToString (in_Signature input);
    "       PubKey:    " +:+ hex_EncodeToString (in_PubKey input);
    "       Address:   " +:+ go_string address ].

Definition output_lines (i : Z) (output : TXOutput) : list string :=
  let address := PubKeyHashToAddres (out_PubKeyHash output) in
  [ "     Output " +:+ pretty i +:+ ":";
    "       Value:  " +:+ fmt_fixed 6 (out_Value output);
    "       Script: " +:+ hex_EncodeToString (out_PubKeyHash output);
    "       Address: " +:+ go_string address ].

(** The first output that does not go back to the sender. *)
Fixpoint destination (fromhash : bytes) (outs : list TXOutput) : bytes * float64 :=
  match outs with
  | [] => ([], f64_zero)
  | output :: outs' =>
      if negb (bytes_eqb fromhash (out_PubKeyHash output))
      then (PubKeyHashToAddres (out_PubKeyHash output), out_Value output)
      else destination fromhash outs'
  end.

Definition tx_String (tx : Transaction) : outcome string :=
  vin0 ← index (tx_Vin tx) 0;
  let from := PubKeyToAddres (in_PubKey vin0) in
  let fromhash := HashPubKey (in_PubKey vin0) in
  let '(to, amount) := destination fromhash (tx_Vout tx) in
  Ret (join_lines (
    [ "--- Transaction " +:+ hex_EncodeToString (tx_ID tx) +:+ ":";
      "    FROM " +:+ go_string from +:+ " TO " +:+ go_string to +:+ " VALUE "
        +:+ fmt_fixed 6 amount;
      "    Time " +:+ pretty (tx_Time tx) +:+ " (" +:+ time_Unix_String (tx_Time tx) +:+ ")" ]
    ++ mjoin (map (λ p, input_lines p.1 p.2) (indexed (tx_Vin tx)))
    ++ mjoin (map (λ p, output_lines p.1 p.2) (indexed (tx_Vout tx))))).

(** [[]byte(fmt.Sprintf("%x\n", txCopy))]. *)
Definition signed_text (txCopy : Transaction) : outcome bytes :=
  s ← tx_String txCopy;
  Ret (str (hex_EncodeToString (str s) +:+ nl)).

(** The text of input [inID]: its [PubKey] is replaced by the key hash of
    the output it spends, the other inputs have none. *)
Definition input_text (txCopy : Transaction) (inID : Z) (pkh : bytes) : outcome bytes :=
  vin ← index (tx_Vin txCopy) inID;
  signed_text (set_Vin (<[Z.to_nat inID := set_PubKey pkh vin]> (tx_Vin txCopy)) txCopy).

Definition err_prev : goerror := EMsg "Previous transaction is not correct".

Definition PrepareSignData (tx : Transaction) (prevTXs : prevmap) : outcome (list bytes) :=
  if IsCoinbase tx then Ret []
  else
    _ ← mfor (indexed (tx_Vin tx)) (λ _ '(vinInd, vin),
      match prevTXs !! vinInd with
      | None => Err err_prev
      | Some p =>
          ptx ← deref p;
          if negb (bytes_eqb (tx_ID ptx) (in_Txid vin)) then Err err_prev else Ret tt
      end) tt;
    let txCopy := set_ID [] (TrimmedCopy tx) in
    mfor (indexed (tx_Vin txCopy)) (λ signdata '(inID, vin),
      prevTx ← deref (mget prevTXs inID);
      out ← index (tx_Vout prevTx) (in_Vout vin);
      dataToSign ← input_text txCopy inID (out_PubKeyHash out);
      Ret (signdata ++ [dataToSign])) [].

(** [tx.Vin[inID].Signature = signatures[inID]] for every input. *)
Definition sign_inputs (vins : list TXInput) (signature : Z → outcome bytes)
    : outcome (list TXInput) :=
  mfor (indexed vins) (λ acc '(inID, vin),
    sig ← signature inID; Ret (acc ++ [set_Signature sig vin])) [].

Definition tx_SignData (tx : Transaction) (privKey : PrivateKey) (PubKey : bytes)
    (DataToSign : list bytes) (seeds : Z → Z → N) : outcome Transaction :=
  if IsCoinbase tx then Ret tx
  else
    vins ← sign_inputs (tx_Vin tx) (λ inID,
      dataToSign ← index DataToSign inID;
      sign_attempts sign_fuel 1 privKey PubKey dataToSign (seeds inID));
    tx_Hash_ignored (set_Vin vins tx).

Definition SetSignatures (tx : Transaction) (signatures : list bytes) : outcome Transaction :=
  if IsCoinbase tx then Ret tx
  else
    vins ← sign_inputs (tx_Vin tx) (index signatures);
    tx_Hash_ignored (set_Vin vins tx).

(** [prevTXs[vind].Vout[vin.Vout]], as the loops of [Verify] read it. *)
Definition spent_output (prevTXs : prevmap) (vind : Z) (vin : TXInput) : outcome TXOutput :=
  ptx ← deref (mget prevTXs vind);
  index (tx_Vout ptx) (in_Vout vin).

(** The [ID] of a missing transaction is nil.  A slice is a list here, so that a nil
    one and an empty one are the same: a transaction in [prevTXs] comes from a decoder
    of [gob], which leaves an empty slice nil, and the copies whose [ID] the code sets
    to an empty slice are never put there. *)
Definition total_input (prevTXs : prevmap) (vins : list TXInput) : outcome float64 :=
  mfor (indexed vins) (λ totalinput '(vind, vin),
    ptx ← deref (mget prevTXs vind);
    if bool_decide (tx_ID ptx = []) then Err err_prev
    else
      out ← index (tx_Vout ptx) (in_Vout vin);
      Ret (f64_add totalinput (out_Value out))) f64_zero.

Definition verify_input (txCopy : Transaction) (prevTXs : prevmap) (inID : Z) (vin : TXInput)
    : outcome unit :=
  let signPubKeyHash := HashPubKey (in_PubKey vin) in
  out ← spent_output prevTXs inID vin;
  if negb (bytes_eqb (out_PubKeyHash out) signPubKeyHash)
  then Err (EFmt "Sign Key Hash for input %x is different from output hash"
              [ABytes (in_Txid vin)])
  else
    dataToVerify ← input_text txCopy inID (out_PubKeyHash out);
    if negb (VerifySignature (in_Signature vin) dataToVerify (in_PubKey vin))
    then Err (EFmt "Signatire doe not match for input TX %x." [ABytes (in_Txid vin)])
    else Ret tt.

Definition total_output (vouts : list TXOutput) : outcome float64 :=
  mfor vouts (λ totaloutput vout,
    if f64_ltb (out_Value vout) SmallestUnit
    then Err (EFmt "Too small output value %f" [AFloat (out_Value vout)])
    else Ret (f64_add totaloutput (out_Value vout))) f64_zero.

Definition Verify (tx : Transaction) (prevTXs : prevmap) : outcome unit :=
  if IsCoinbase tx then
    out ← index (tx_Vout tx) 0;
    if negb (f64_eqb (out_Value out) PaymentForBlockMade)
    then Err (EMsg "Value of coinbase transaction is wrong")
    else if (1 <? Z.of_nat (length (tx_Vout tx)))%Z
    then Err (EMsg "Coinbase transaction can have only 1 output")
    else Ret tt
  else
    totalinput ← total_input prevTXs (tx_Vin tx);
    let txCopy := set_ID [] (TrimmedCopy tx) in
    _ ← mfor (indexed (tx_Vin tx)) (λ _ '(inID, vin), verify_input txCopy prevTXs inID vin) tt;
    totaloutput ← total_output (tx_Vout tx);
    if f64_geb (f64_abs (f64_sub totalinput totaloutput)) SmallestUnit
    then Err (EFmt "Input and output values of a transaction are not same: %.10f vs %.10f . Diff %.10f"
                [AFloat totalinput; AFloat totaloutput; AFloat (f64_sub totalinput totaloutput)])
    else Ret tt.
End Signing.

(** ** What [Verify] accepts *)

Section Acceptance.
Context `{Crypto} `{!Gob Transaction}.
Implicit Types (tx ptx : Transaction) (prevTXs : prevmap) (vin : TXInput) (out : TXOutput).

(** The copy whose [String] is signed. *)
Definition unsigned (tx : Transaction) : Transaction := set_ID [] (TrimmedCopy tx).

(** Input [i] spends [out], an output of the previous transaction given for it. *)
Definition spends (prevTXs : prevmap) (i : Z) (vin : TXInput) (out : TXOutput) : Prop :=
  ∃ ptx, prevTXs !! i = Some (Some ptx) ∧ tx_ID ptx ≠ [] ∧
         index (tx_Vout ptx) (in_Vout vin) = Ret out.

(** The key of the input is the one the output is locked with, and its
    signature is one of the text of the input. *)
Definition authorised (tx : Transaction) (prevTXs : prevmap) (i : Z) (vin : TXInput)
    (out : TXOutput) : Prop :=
  spends prevTXs i vin out ∧
  out_PubKeyHash out = HashPubKey (in_PubKey vin) ∧
  ∃ text, input_text (unsigned tx) i (out_PubKeyHash out) = Ret text ∧
          VerifySignature (in_Signature vin) text (in_PubKey vin) = true.

(** The sum [Verify] computes: from left to right, in [float64]. *)
Definition total (outs : list TXOutput) : float64 :=
  fold_left (λ acc out, f64_add acc (out_Value out)) outs f64_zero.

(** The amounts [Verify] accepts. *)
Definition balanced (ins outs : list TXOutput) : Prop :=
  Forall (λ out, f64_ltb (out_Value out) SmallestUnit = false) outs ∧
  f64_geb (f64_abs (f64_sub (total ins) (total outs))) SmallestUnit = false.

Lemma deref_mget prevTXs i ptx :
  deref (mget prevTXs i) = Ret ptx ↔ prevTXs !! i = Some (Some ptx).
Proof.
  unfold mget, deref. destruct (prevTXs !! i) as [[?|]|]; simpl; split; congruence.
Qed.

Lemma total_input_Ret prevTXs vins v :
  total_input prevTXs vins = Ret v ↔
  ∃ outs, Forall2 (λ p out, spends prevTXs p.1 p.2 out) (indexed vins) outs ∧ v = total outs.
Proof.
  unfold total_input.
  rewrite (mfor_fold (λ p, ptx ← deref (mget prevTXs p.1);
             if bool_decide (tx_ID ptx = []) then Err err_prev
             else index (tx_Vout ptx) (in_Vout p.2))
             (λ acc out, f64_add acc (out_Value out))).
  2: { intros acc [i vin]. simpl. destruct (deref _) as [ptx|e|p|]; simpl; try done.
       by case_bool_decide. }
  rewrite outcome_bind_Ret. setoid_rewrite mmap_Ret. split.
  - intros (outs & Hf & [= <-]). exists outs. split; [|done].
    eapply Forall2_impl; [exact Hf|]. intros [i vin] out Ho. simpl in Ho. go_inv Ho.
    apply deref_mget in E. eexists. by case_bool_decide.
  - intros (outs & Hf & ->). exists outs. split; [|done].
    eapply Forall2_impl; [exact Hf|]. intros [i vin] out (ptx & Hp & Hid & Hout). simpl.
    apply deref_mget in Hp. simpl in Hp, Hout. rewrite Hp. simpl. by rewrite bool_decide_eq_false_2.
Qed.

Lemma total_output_Ret vouts v :
  total_output vouts = Ret v ↔
  Forall (λ out, f64_ltb (out_Value out) SmallestUnit = false) vouts ∧ v = total vouts.
Proof.
  unfold total_output, total. generalize f64_zero. induction vouts as [|o vouts IH]; intros acc; simpl.
  - split; [intros [= <-]; by split|by intros [_ ->]].
  - rewrite Forall_cons. destruct (f64_ltb _ _); simpl; [split; [done|by intros [[] ]]|].
    rewrite IH. tauto.
Qed.

Lemma verify_input_Ret txCopy prevTXs i vin :
  verify_input txCopy prevTXs i vin = Ret tt ↔
  ∃ out text, spent_output prevTXs i vin = Ret out ∧
    out_PubKeyHash out = HashPubKey (in_PubKey vin) ∧
    input_text txCopy i (out_PubKeyHash out) = Ret text ∧
    VerifySignature (in_Signature vin) text (in_PubKey vin) = true.
Proof.
  unfold verify_input. split.
  - intros Hv. go_inv Hv. destruct (bytes_eqb _ _) eqn:Eq; simpl in Hv; [|done].
    apply bytes_eqb_true in Eq. go_inv Hv. exists v, v0.
    destruct (VerifySignature _ _ _) eqn:Ev; [done|]. done.
  - intros (out & text & -> & Hk & Ht & Hs). simpl. rewrite Hk, bytes_eqb_refl. simpl.
    rewrite Hk in Ht. rewrite Ht. simpl. by rewrite Hs.
Qed.

Lemma authorised_verify_input tx prevTXs i vin out :
  spends prevTXs i vin out →
  authorised tx prevTXs i vin out ↔ verify_input (unsigned tx) prevTXs i vin = Ret tt.
Proof.
  intros Hsp. pose proof Hsp as (ptx & Hp & Hid & Ho). rewrite verify_input_Ret.
  assert (spent_output prevTXs i vin = Ret out) as Hso.
  { unfold spent_output. by rewrite (proj2 (deref_mget _ _ _) Hp). }
  rewrite Hso. split.
  - intros (_ & Hk & text & Ht & Hs). by exists out, text.
  - intros (out' & text & [= <-] & Hk & Ht & Hs). split_and!; eauto.
Qed.

Lemma Verify_accepts tx prevTXs :
  IsCoinbase tx = false →
  (∃ outs, Forall2 (λ p out, authorised tx prevTXs p.1 p.2 out) (indexed (tx_Vin tx)) outs ∧
           balanced outs (tx_Vout tx)) →
  Verify tx prevTXs = Ret tt.
Proof.
  intros Hcb. unfold Verify, balanced. rewrite Hcb.
  intros (outs & Hf & Ho & Hb). rewrite (proj2 (total_input_Ret _ _ (total outs))).
  2: { exists outs. split; [|done]. eapply Forall2_impl; [exact Hf|]. by intros p out []. }
  rewrite ret_bind, (proj2 (mfor_unit _ _)).
  2: { eapply Forall2_left; [exact Hf|]. intros [i vin] out Ha. simpl in *.
       by apply (authorised_verify_input _ _ _ _ out); [apply Ha|]. }
  rewrite ret_bind.
  assert (total_output (tx_Vout tx) = Ret (total (tx_Vout tx))) as ->
    by (apply total_output_Ret; split; [exact Ho|reflexivity]).
  by rewrite ret_bind, Hb.
Qed.

(** C1: [Verify] returns without an error for a transaction that is not a
    coinbase exactly when every input spends an output of its previous
    transaction with the key the output is locked to and a valid signature of
    the text for that input, no output is below the smallest unit, and the
    totals of inputs and outputs differ by less than it. *)
Theorem Verify_iff tx prevTXs :
  IsCoinbase tx = false →
  Verify tx prevTXs = Ret tt ↔
  ∃ outs, Forall2 (λ p out, authorised tx prevTXs p.1 p.2 out) (indexed (tx_Vin tx)) outs ∧
          balanced outs (tx_Vout tx).
Proof.
  intros Hcb. split; [|by apply Verify_accepts].
  unfold Verify, balanced. rewrite Hcb.
  intros Hv. go_inv Hv. destruct v0. apply mfor_unit in E0.
  apply total_input_Ret in E as (outs & Hf & ->). apply total_output_Ret in E1 as [Ho ->].
  exists outs. destruct (f64_geb _ _); [done|]. split; [|done].
  eapply Forall2_refine; [exact Hf|exact E0|].
  intros [i vin] out Hs Hv1. by apply authorised_verify_input.
Qed.

(** [Verify] accepts a coinbase transaction exactly when it has one output,
    of the payment for a block; without outputs the first index panics. *)
Theorem Verify_coinbase tx prevTXs :
  IsCoinbase tx = true →
  (Verify tx prevTXs = Ret tt ↔
   ∃ out, tx_Vout tx = [out] ∧ f64_eqb (out_Value out) PaymentForBlockMade = true) ∧
  (Verify tx prevTXs = Panic PIndex ↔ tx_Vout tx = []).
Proof.
  intros Hcb. unfold Verify. rewrite Hcb.
  destruct (tx_Vout tx) as [|o [|o' outs]].
  - simpl. split; [|done]. split; [done|]. by intros (? & ? & _).
  - change (index [o] 0) with (Ret o). rewrite ret_bind.
    destruct (f64_eqb (out_Value o) PaymentForBlockMade) eqn:E; simpl.
    + split; [|done]. split; [by exists o|done].
    + split; [|done]. split; [done|]. intros (? & [= <-] & ?). congruence.
  - replace (index (o :: o' :: outs) 0) with (Ret o) by done. rewrite ret_bind.
    rewrite (proj2 (Z.ltb_lt _ _)) by (cbn [length]; lia).
    destruct (f64_eqb _ _); simpl; (split; [|done]); (split; [done|]; by intros (? & ? & _)).
Qed.

(** ** Amounts that are not numbers *)

Lemma fold_total_nan outs acc :
  acc = f64_nan ∨ Exists (λ out, out_Value out = f64_nan) outs →
  fold_left (λ acc out, f64_add acc (out_Value out)) outs acc = f64_nan.
Proof.
  revert acc. induction outs as [|o outs IH]; intros acc [->|Hx]; simpl; try done.
  - inversion Hx.
  - apply IH. by left.
  - apply IH. apply Exists_cons in Hx as [->|Hx]; [left; apply f64_add_nan_r|by right].
Qed.

(** one output whose amount is a NaN makes [Verify] accept whatever the
    other amounts are: the sums are compared with a NaN. *)
Theorem Verify_nan tx prevTXs outs :
  IsCoinbase tx = false →
  Forall2 (λ p out, authorised tx prevTXs p.1 p.2 out) (indexed (tx_Vin tx)) outs →
  Forall (λ out, f64_ltb (out_Value out) SmallestUnit = false) (tx_Vout tx) →
  Exists (λ out, out_Value out = f64_nan) (tx_Vout tx) →
  Verify tx prevTXs = Ret tt.
Proof.
  intros Hcb Hf Ho Hn. apply Verify_accepts; [done|]. exists outs. split; [done|]. split; [done|].
  unfold total at 2. rewrite fold_total_nan by by right.
  rewrite f64_sub_nan_r. apply f64_geb_nan_l.
Qed.

(** ** What a signature does not cover *)

Definition set_Vout (outs : list TXOutput) (tx : Transaction) : Transaction :=
  mkTransaction (tx_ID tx) (tx_Vin tx) outs (tx_Time tx).

(** Two outputs that [String] prints alike: same key hash, and amounts that
    agree in six decimals. *)
Definition prints_alike (o o' : TXOutput) : Prop :=
  out_PubKeyHash o = out_PubKeyHash o' ∧
  fmt_fixed 6 (out_Value o) = fmt_fixed 6 (out_Value o').

Lemma destination_alike from outs outs' :
  Forall2 prints_alike outs outs' →
  (destination from outs).1 = (destination from outs').1 ∧
  fmt_fixed 6 (destination from outs).2 = fmt_fixed 6 (destination from outs').2.
Proof.
  induction 1 as [|o o' outs outs' [Hk Hv] _ IH]; simpl; [done|].
  rewrite Hk. by destruct (negb _).
Qed.

Lemma output_lines_alike n outs outs' :
  Forall2 prints_alike outs outs' →
  map (λ p, output_lines p.1 p.2) (indexed_from n outs)
  = map (λ p, output_lines p.1 p.2) (indexed_from n outs').
Proof.
  intros Hf. revert n. induction Hf as [|o o' outs outs' [Hk Hv] _ IH]; intros n; [done|].
  rewrite !indexed_from_cons. simpl. rewrite IH. unfold output_lines. by rewrite Hk, Hv.
Qed.

Lemma signed_text_alike tx outs :
  Forall2 prints_alike (tx_Vout tx) outs →
  signed_text (set_Vout outs tx) = signed_text tx.
Proof.
  intros Hf. unfold signed_text, tx_String. simpl.
  destruct (index (tx_Vin tx) 0) as [vin0|e|p|]; simpl; try done.
  destruct (destination_alike (HashPubKey (in_PubKey vin0)) _ _ Hf) as [H1 H2].
  destruct (destination _ (tx_Vout tx)) as [to v], (destination _ outs) as [to' v'].
  simpl in *. unfold indexed. by rewrite H1, H2, (output_lines_alike 0 _ _ Hf).
Qed.

(** the signatures of a transaction are as good for any transaction whose
    outputs go to the same keys and whose amounts agree with it in the six
    decimals [String] prints, two fewer than the smallest unit has. *)
Theorem verify_input_alike tx prevTXs outs i vin :
  Forall2 prints_alike (tx_Vout tx) outs →
  verify_input (unsigned (set_Vout outs tx)) prevTXs i vin
  = verify_input (unsigned tx) prevTXs i vin.
Proof.
  intros Hf. unfold verify_input. destruct (spent_output _ _ _) as [o|e|p|]; simpl; try done.
  destruct (bytes_eqb _ _); simpl; [|done].
  assert (∀ pkh, input_text (unsigned (set_Vout outs tx)) i pkh = input_text (unsigned tx) i pkh)
    as ->; [|done].
  intros pkh. unfold input_text, unsigned, TrimmedCopy. simpl. rewrite !map_copy_output.
  destruct (index _ _) as [v|e|p|]; simpl; try done.
  by apply (signed_text_alike (mkTransaction _ _ (tx_Vout tx) _)).
Qed.

(** ** Signing, then verifying *)

Lemma sign_inputs_Ret vins signature vins' :
  sign_inputs vins signature = Ret vins' ↔
  Forall2 (λ p vin', ∃ sig, signature p.1 = Ret sig ∧ vin' = set_Signature sig p.2)
    (indexed vins) vins'.
Proof.
  unfold sign_inputs.
  rewrite (mfor_ext _ (λ acc p, x ← (sig ← signature p.1; Ret (set_Signature sig p.2));
                                Ret (acc ++ [x]))).
  2: { intros acc [i vin]. simpl. by destruct (signature i). }
  rewrite mfor_snoc. simpl. rewrite outcome_bind_Ret. setoid_rewrite mmap_Ret. split.
  - intros (xs & Hf & [= <-]). eapply Forall2_impl; [exact Hf|].
    intros p vin' Hs. simpl in Hs. go_inv Hs. eauto.
  - intros Hf. exists vins'. split; [|done]. eapply Forall2_impl; [exact Hf|].
    intros p vin' (sig & Hs & ->). simpl. by rewrite Hs.
Qed.

Lemma TrimmedCopy_signed tx vins signature :
  Forall2 (λ p vin', ∃ sig, signature p.1 = Ret sig ∧ vin' = set_Signature sig p.2)
    (indexed (tx_Vin tx)) vins →
  unsigned (set_Vin vins tx) = unsigned tx.
Proof.
  intros Hf. unfold unsigned, TrimmedCopy, set_ID. simpl. f_equal.
  revert Hf. unfold indexed. generalize 0. generalize (tx_Vin tx). clear tx.
  intros l n Hf. revert l n Hf. induction vins as [|v vins IH]; intros [|w l] n Hf;
    rewrite ?indexed_from_cons in Hf; inversion Hf as [|???? (sig & _ & ->) Hf']; subst; [done|].
  simpl. f_equal. by apply (IH _ (S n)).
Qed.

Lemma lookup_unsigned_Vin tx i vin :
  tx_Vin tx !! i = Some vin →
  tx_Vin (unsigned tx) !! i = Some (mkTXInput (in_Txid vin) (in_Vout vin) [] []).
Proof. intros Hi. unfold unsigned, TrimmedCopy. simpl. by rewrite list_lookup_fmap, Hi. Qed.

Lemma length_unsigned_Vin tx : length (tx_Vin (unsigned tx)) = length (tx_Vin tx).
Proof. apply length_fmap. Qed.

(** The texts to sign are the ones [Verify] checks the signatures of. *)
Lemma PrepareSignData_texts tx prevTXs texts :
  IsCoinbase tx = false →
  PrepareSignData tx prevTXs = Ret texts →
  length texts = length (tx_Vin tx) ∧
  ∀ i vin out text, tx_Vin tx !! i = Some vin → spends prevTXs (Z.of_nat i) vin out →
    texts !! i = Some text →
    input_text (unsigned tx) (Z.of_nat i) (out_PubKeyHash out) = Ret text.
Proof.
  intros Hcb. unfold PrepareSignData. rewrite Hcb. intros Hp.
  apply outcome_bind_Ret in Hp as (u & _ & Hp). fold (unsigned tx) in Hp.
  rewrite (mfor_ext _ (λ acc p,
    x ← (prevTx ← deref (mget prevTXs p.1); out ← index (tx_Vout prevTx) (in_Vout p.2);
         input_text (unsigned tx) p.1 (out_PubKeyHash out));
    Ret (acc ++ [x]))) in Hp.
  2: { intros acc [i vin]. simpl. destruct (deref _); simpl; try done. by destruct (index _ _). }
  rewrite mfor_snoc in Hp. apply outcome_bind_Ret in Hp as (xs & Hm & [= <-]).
  apply mmap_Ret in Hm. simpl. apply Forall2_indexed in Hm as [Hlen Hm].
  rewrite length_unsigned_Vin in Hlen. split; [done|].
  intros i vin out text Hi (ptx & Hp & _ & Ho) Ht.
  specialize (Hm i _ text (lookup_unsigned_Vin _ _ _ Hi) Ht). simpl in Hm.
  apply deref_mget in Hp. rewrite Hp in Hm. simpl in Hm. by rewrite Ho in Hm.
Qed.

Lemma IsCoinbase_signed tx vins signature id :
  Forall2 (λ p vin', ∃ sig, signature p.1 = Ret sig ∧ vin' = set_Signature sig p.2)
    (indexed (tx_Vin tx)) vins →
  IsCoinbase (set_ID id (set_Vin vins tx)) = IsCoinbase tx.
Proof.
  unfold IsCoinbase, indexed. simpl.
  destruct (tx_Vin tx) as [|v [|v' l]]; rewrite ?indexed_from_cons; intros Hf;
    inversion Hf as [|???? (sig & _ & ->) Hf']; subst; [done|..];
    inversion Hf' as [|???? _ Hf'']; by subst.
Qed.

Context `{!GobLaws Transaction}.

(** the two halves of making a transaction fit: when [PrepareSignData]
    returns texts, the inputs spend [outs], locked with their keys, and each
    signature is good for its text, then [SetSignatures] returns a transaction
    that [Verify] accepts, provided the amounts balance. *)
Theorem SetSignatures_Verify tx prevTXs texts signatures outs :
  IsCoinbase tx = false →
  PrepareSignData tx prevTXs = Ret texts →
  length signatures = length texts →
  Forall2 (λ p out, spends prevTXs p.1 p.2 out ∧
                    out_PubKeyHash out = HashPubKey (in_PubKey p.2)) (indexed (tx_Vin tx)) outs →
  (∀ i vin text sig, tx_Vin tx !! i = Some vin → texts !! i = Some text →
     signatures !! i = Some sig → VerifySignature sig text (in_PubKey vin) = true) →
  balanced outs (tx_Vout tx) →
  ∃ tx', SetSignatures tx signatures = Ret tx' ∧ Verify tx' prevTXs = Ret tt.
Proof.
  intros Hcb Hprep Hlen Hsp Hsig Hb.
  destruct (PrepareSignData_texts _ _ _ Hcb Hprep) as [Hlt Htexts].
  set (vins := zip_with set_Signature signatures (tx_Vin tx)).
  assert (Forall2 (λ p vin', ∃ sig, index signatures p.1 = Ret sig ∧
            vin' = set_Signature sig p.2) (indexed (tx_Vin tx)) vins) as Hvins.
  { apply Forall2_indexed. split; [unfold vins; rewrite length_zip_with; lia|].
    intros i vin vin' Hi Hv. apply lookup_zip_with_Some in Hv as (sig & w & -> & Hs & Hw).
    simplify_eq. exists sig. split; [|done]. simpl. by rewrite index_nat, Hs. }
  unfold SetSignatures. rewrite Hcb, (proj2 (sign_inputs_Ret _ _ vins) Hvins), ret_bind.
  destruct (tx_Hash_ignored_spec (set_Vin vins tx)) as [h ->]. eexists. split; [done|].
  apply Verify_accepts.
  { rewrite (IsCoinbase_signed _ _ (index signatures)). exact Hcb. exact Hvins. }
  exists outs. split; [|done].
  apply Forall2_indexed in Hsp as [Ho Hsp]. apply Forall2_indexed in Hvins as [Hv Hvins].
  apply Forall2_indexed. simpl. split; [by rewrite Ho, Hv|].
  intros i vin' out Hi' Hout.
  destruct (lookup_lt_is_Some_2 (tx_Vin tx) i) as [vin Hi]; [apply lookup_lt_Some in Hi'; lia|].
  destruct (lookup_lt_is_Some_2 texts i) as [text Ht]; [apply lookup_lt_Some in Hi; lia|].
  destruct (Hvins i vin vin' Hi Hi') as (sig & Hs & ->). simpl in Hs.
  destruct (Hsp i vin out Hi Hout) as [Hspend Hk]. simpl in Hspend, Hk.
  rewrite index_nat in Hs. destruct (signatures !! i) as [s|] eqn:Es; simplify_eq.
  split; [done|]. split; [done|]. exists text. split; [|exact (Hsig i vin text sig Hi Ht Es)].
  change (unsigned (set_ID h (set_Vin vins tx))) with (unsigned (set_Vin vins tx)).
  rewrite (TrimmedCopy_signed _ _ (index signatures)).
  - by apply (Htexts i vin).
  - apply Forall2_indexed. by split.
Qed.
End Acceptance.

(** ** Witnesses *)

Section Witnesses.
Import ToyCrypto Codecs.

(** A payment of one input and one output, of a key of six bytes. *)
Definition demo_pub : bytes := [x00; x00; x07; x00; x00; x07].
Definition demo_out (v : float64) : TXOutput := mkTXOutput v (HashPubKey demo_pub).
Definition demo_prev : Transaction := mkTransaction [x09] [] [demo_out (f64_of_Z 3)] 0.
Definition demo_prevs : prevmap := {[ 0%Z := Some demo_prev ]}.
Definition demo_tx (sig : bytes) (v : float64) : Transaction :=
  mkTransaction [] [mkTXInput [x09] 0 sig demo_pub] [demo_out v] 1.

(** The signature of the text of that payment. *)
Definition demo_text (v : float64) : bytes :=
  match input_text (unsigned (demo_tx [] v)) 0 (HashPubKey demo_pub) with
  | Ret t => t
  | _ => []
  end.
Definition demo_sig (v : float64) : bytes :=
  match SignData (H := toy_crypto) 7%Z 0%N (demo_text v) with Ret s => s | _ => [] end.

Lemma demo_spends (sig : bytes) :
  spends demo_prevs 0 (mkTXInput [x09] 0 sig demo_pub) (demo_out (f64_of_Z 3)).
Proof. by exists demo_prev. Qed.

Lemma Verify_coinbase_witness :
  let tx := mkTransaction [] [mkTXInput [] (-1) [] []] [mkTXOutput PaymentForBlockMade []] 0 in
  (Verify tx ∅ = Ret tt ↔
   ∃ out, tx_Vout tx = [out] ∧ f64_eqb (out_Value out) PaymentForBlockMade = true) ∧
  (Verify tx ∅ = Panic PIndex ↔ tx_Vout tx = []).
Proof. apply (Verify_coinbase (mkTransaction _ _ _ _)). reflexivity. Defined.

Lemma verify_input_alike_witness :
  let outs := [demo_out (SFdiv 53 1024 (f64_of_Z 30000001) (f64_of_Z 10000000))] in
  tx_Vout (demo_tx [] (f64_of_Z 3)) ≠ outs ∧
  verify_input (unsigned (set_Vout outs (demo_tx [] (f64_of_Z 3)))) demo_prevs 0
    (mkTXInput [x09] 0 [] demo_pub)
  = verify_input (unsigned (demo_tx [] (f64_of_Z 3))) demo_prevs 0 (mkTXInput [x09] 0 [] demo_pub).
Proof.
  split; [discriminate|]. apply (verify_input_alike (demo_tx [] (f64_of_Z 3))).
  repeat constructor.
Defined.

Lemma demo_authorised (v : float64) :
  VerifySignature (demo_sig v) (demo_text v) demo_pub = true →
  authorised (demo_tx (demo_sig v) v) demo_prevs 0 (mkTXInput [x09] 0 (demo_sig v) demo_pub)
    (demo_out (f64_of_Z 3)).
Proof.
  intros Hv. split; [apply demo_spends|]. split; [reflexivity|]. exists (demo_text v). split; [|done].
  reflexivity.
Qed.

Lemma Verify_nan_witness : Verify (demo_tx (demo_sig f64_nan) f64_nan) demo_prevs = Ret tt.
Proof.
  apply (Verify_nan (demo_tx (demo_sig f64_nan) f64_nan) demo_prevs [demo_out (f64_of_Z 3)]); [reflexivity| | |].
  - constructor; [|constructor]. apply demo_authorised. vm_compute. reflexivity.
  - repeat constructor.
  - left. reflexivity.
Defined.

Lemma Verify_iff_witness :
  Verify (demo_tx (demo_sig (f64_of_Z 3)) (f64_of_Z 3)) demo_prevs = Ret tt.
Proof.
  apply (Verify_iff (demo_tx (demo_sig (f64_of_Z 3)) (f64_of_Z 3)) demo_prevs); [reflexivity|].
  exists [demo_out (f64_of_Z 3)]. split.
  - constructor; [|constructor]. apply demo_authorised. vm_compute. reflexivity.
  - split; [repeat constructor|reflexivity].
Defined.

Lemma SetSignatures_Verify_witness :
  ∃ tx', SetSignatures (demo_tx [] (f64_of_Z 3)) [demo_sig (f64_of_Z 3)] = Ret tx' ∧
         Verify tx' demo_prevs = Ret tt.
Proof.
  apply (SetSignatures_Verify (demo_tx [] (f64_of_Z 3)) demo_prevs [demo_text (f64_of_Z 3)]
    [demo_sig (f64_of_Z 3)] [demo_out (f64_of_Z 3)]).
  - reflexivity.
  - reflexivity.
  - reflexivity.
  - constructor; [|constructor]. split; [exact (demo_spends [])|vm_compute; reflexivity].
  - intros [|i] vin text sig; [|discriminate]. intros Hv Ht Hs.
    change (Some (mkTXInput [x09] 0 [] demo_pub) = Some vin) in Hv.
    change (Some (demo_text (f64_of_Z 3)) = Some text) in Ht.
    change (Some (demo_sig (f64_of_Z 3)) = Some sig) in Hs.
    apply (inj Some) in Hv, Ht, Hs. rewrite <- Hv, <- Ht, <- Hs. vm_compute. reflexivity.
  - split; [repeat constructor|reflexivity].
Defined.

End Witnesses.
