(* ===== verification/Database.v ===== *)
(** * Package [node/database]: the buckets of the blockchain and nodes files

    The operations of [blockchain.go], [transactions.go], [unspentoutputs.go],
    [unapprovedtransactions.go], [nodes.go], [connection.go] and [errors.go] on
    the buckets of a bolt file, and the [Get...Object] functions of
    [manager.go], which give access to them.  A file is a finite map from
    bucket names to buckets.  An operation that writes runs in a bolt
    transaction: an error or a panic rolls it back. *)

From Stdlib Require Import Strings.Byte ZifyNat.
From stdpp Require Import base strings numbers gmap list.
From S2P Require Import Prelude Platform Concrete Utils.

(** ** [errors.go] *)

Definition TXVerifyErrorNoInput : string := "noinput".
Definition DBCursorBreak : string := "cursorbreak".
Definition DBHashNotFoundError : string := "hashnotfound".
Definition DBHashEmptyError : string := "hashisemptyd".
Definition DBHashError : string := "hashemptyd".

Definition DBError_IsKind (e : goerror) (kind : string) : bool :=
  match e with
  | EDB _ k => bool_decide (k = kind)
  | _ => false
  end.

Definition NewDBError (err kind : string) : goerror := EDB err kind.
Definition NewBucketNotFoundDBError : goerror := EDB "Bucket is not found" "bucket".
Definition NewNotFoundDBError (kind : string) : goerror := EDB "Not found" kind.
Definition NewDBIsNotReadyError : goerror := EDB "Database is not ready" "database".
Definition NewDBCursorStopError : goerror := EDB "Break data loop" DBCursorBreak.
Definition NewHashNotFoundDBError (err : string) : goerror :=
  let err := if bool_decide (err = "") then "Block hash is not found" else err in
  EDB err DBHashNotFoundError.
Definition NewHashEmptyDBError : goerror := EDB "Provided hash is empty" DBHashEmptyError.
Definition NewHashDBError (err : string) : goerror := EDB err DBHashError.

(** Errors of bolt. *)
Definition ErrBucketExists : goerror := ELib "bolt.ErrBucketExists".
Definition ErrBucketNotFound : goerror := ELib "bolt.ErrBucketNotFound".

(** Names of the buckets. *)
Definition blocksBucket : string := "blocks".
Definition blockChainBucket : string := "blockchain".
Definition transactionsBucket : string := "transactions".
Definition transactionsOutputsBucket : string := "transactionsoutputs".
Definition unspentTransactionsBucket : string := "unspentoutputstransactions".
Definition unapprovedTransactionsBucket : string := "unapprovedtransactions".
Definition nodesBucket : string := "nodes".

Abbreviation boltfile := (gmap string bucket).

Section Bolt.
Context `{Bolt}.

(** [db.Update]: a failed transaction leaves the file as it was. *)
Definition Update {A} (fn : st boltfile A) : st boltfile A := λ f,
  match fn f with
  | (Ret a, f') => (Ret a, f')
  | (r, _) => (r, f)
  end.

(** [tx.Bucket(name)] with the nil check that follows it everywhere. *)
Definition Bucket (name : string) (f : boltfile) : outcome bucket :=
  match f !! name with
  | None => Err NewDBIsNotReadyError
  | Some b => Ret b
  end.

(** [b.Put] and [b.Delete] on the bucket [name] of the transaction. *)
Definition in_bucket (name : string) (op : bucket → outcome bucket) : st boltfile unit := λ f,
  match f !! name with
  | None => (Panic PNil, f)
  | Some b => match op b with
              | Ret b' => (Ret tt, <[name := b']> f)
              | Err e => (Err e, f)
              | Panic p => (Panic p, f)
              | OutOfFuel => (OutOfFuel, f)
              end
  end.
Definition Put (name : string) (k v : bytes) : st boltfile unit :=
  in_bucket name (λ b, b_Put b k v).
Definition Delete (name : string) (k : bytes) : st boltfile unit :=
  in_bucket name (λ b, b_Delete b k).

Definition CreateBucket (name : string) : st boltfile unit := λ f,
  match f !! name with
  | Some _ => (Err ErrBucketExists, f)
  | None => (Ret tt, <[name := b_empty]> f)
  end.
Definition DeleteBucket (name : string) : st boltfile unit := λ f,
  match f !! name with
  | None => (Err ErrBucketNotFound, f)
  | Some _ => (Ret tt, delete name f)
  end.

(** What [b.Get] returns, the nil slice for an absent key. *)
Definition Get (b : bucket) (k : bytes) : bytes := default [] (b_Get b k).

(** The shapes most operations have.  [view_find] is [view_get] where callers
    tell an absent record, the nil slice, from an empty one. *)
Definition view_find (name : string) (k : bytes) (f : boltfile) : outcome (option bytes) :=
  b ← Bucket name f; Ret (b_Get b k).
Definition view_get (name : string) (k : bytes) (f : boltfile) : outcome bytes :=
  b ← Bucket name f; Ret (Get b k).
Definition update_put (name : string) (k v : bytes) : st boltfile unit :=
  Update (_ ← ask (Bucket name); Put name k v).
Definition update_delete (name : string) (k : bytes) : st boltfile unit :=
  Update (_ ← ask (Bucket name); Delete name k).

(** [err != nil && err != bolt.ErrBucketNotFound] after [DeleteBucket]. *)
Definition delete_bucket_if_exists (name : string) : st boltfile unit := λ f,
  match DeleteBucket name f with
  | (Err e, f') => if bool_decide (e = ErrBucketNotFound) then (Ret tt, f') else (Err e, f')
  | r => r
  end.

(** *** [connection.go] *)

(** The loop of [forEachInBucket] over the records a cursor yields; [B] is the
    state the callback captures. *)
Fixpoint forEach_loop {B} (records : list (bytes * bytes))
    (callback : bytes → bytes → st B unit) : st B unit :=
  match records with
  | [] => mret tt
  | (k, v) :: records' => λ s,
      match callback k v s with
      | (Ret _, s') => forEach_loop records' callback s'
      | (Err e, s') => if DBError_IsKind e DBCursorBreak then (Ret tt, s') else (Err e, s')
      | (Panic p, s') => (Panic p, s')
      | (OutOfFuel, s') => (OutOfFuel, s')
      end
  end.

Definition forEachInBucket {B} (name : string) (callback : bytes → bytes → st B unit)
    (f : boltfile) : st B unit :=
  b ← lift (Bucket name f);
  forEach_loop (b_Cursor b) callback.

Definition getCountInBucket (name : string) (f : boltfile) : outcome Z :=
  b ← Bucket name f;
  Ret (fold_left (λ count _, count + 1)%Z (b_Cursor b) 0%Z).
End Bolt.

(** ** [blockchain.go] *)

Module BlockchainDB.
Section Ops.
Context `{Bolt}.

Definition InitDB : st boltfile unit :=
  Update (_ ← CreateBucket blocksBucket; CreateBucket blockChainBucket).

Definition GetBlock (hash : bytes) (f : boltfile) : outcome bytes :=
  blockData ← view_get blocksBucket hash f;
  if (0 <? Z.of_nat (length blockData))%Z then Ret (CopyBytes blockData) else Ret blockData.

Definition CheckBlockExists (hash : bytes) (f : boltfile) : outcome bool :=
  blockData ← GetBlock hash f;
  if (0 <? Z.of_nat (length blockData))%Z then Ret true else Ret false.

Definition PutBlock (hash blockdata : bytes) : st boltfile unit :=
  update_put blocksBucket hash blockdata.

Definition DeleteBlock (hash : bytes) : st boltfile unit :=
  update_delete blocksBucket hash.

Definition SaveTopHash (hash : bytes) : st boltfile unit :=
  update_put blocksBucket (str "l") hash.

Definition GetTopHash (f : boltfile) : outcome bytes :=
  topHash ← view_get blocksBucket (str "l") f;
  if (0 <? Z.of_nat (length topHash))%Z then Ret (CopyBytes topHash)
  else Err (NewNotFoundDBError "tophash").

Definition SaveFirstHash (hash : bytes) : st boltfile unit :=
  update_put blocksBucket (str "f") hash.

Definition GetFirstHash (f : boltfile) : outcome bytes :=
  firstHash ← view_get blocksBucket (str "f") f;
  if (0 <? Z.of_nat (length firstHash))%Z then Ret (CopyBytes firstHash)
  else Err (NewNotFoundDBError "firsthash").

Definition PutBlockOnTop (hash blockdata : bytes) : st boltfile unit :=
  _ ← PutBlock hash blockdata;
  SaveTopHash hash.

Definition GetTopBlock (f : boltfile) : outcome bytes :=
  topHash ← GetTopHash f;
  GetBlock topHash f.

(** A record of the chain bucket: the hash of the block before and the hash of
    the block after, zeros where there is none. *)
Definition AddToChain (hash prevHash : bytes) : st boltfile unit :=
  let len := length hash in
  if (Z.of_nat len =? 0)%Z then fail NewHashEmptyDBError
  else
    let emptyHash := zeros len in
    Update (
      b ← ask (Bucket blockChainBucket);
      let hashBytes := zeros (len * 2) in
      hashBytes ← (
        if (0 <? Z.of_nat (length prevHash))%Z then
          let prRecTmp := Get b prevHash in
          if (Z.of_nat (length prRecTmp) <? Z.of_nat len * 2)%Z
          then fail (NewHashNotFoundDBError "Previous hash is not found in the chain")
          else
            let prRec := CopyBytes prRecTmp in
            let exNext := go_copy (zeros len) (drop len prRec) in
            if bool_decide (bytes_Compare exNext emptyHash = Gt)
            then fail (NewHashDBError "Previous hash already has a next hash")
            else
              let prRec := go_copy_at prRec len hash in
              _ ← Put blockChainBucket prevHash prRec;
              mret (go_copy hashBytes prevHash)
        else mret hashBytes);
      Put blockChainBucket hash hashBytes).

Definition RemoveFromChain (hash : bytes) : st boltfile unit :=
  let len := length hash in
  if (Z.of_nat len =? 0)%Z then fail NewHashEmptyDBError
  else
    let emptyHash := zeros len in
    Update (
      b ← ask (Bucket blockChainBucket);
      let hashBytesTmp := Get b hash in
      if (Z.of_nat (length hashBytesTmp) <? Z.of_nat len * 2)%Z
      then fail (NewHashNotFoundDBError " ")
      else
        let hashBytes := CopyBytes hashBytesTmp in
        let nextHash := go_copy (zeros len) (drop len hashBytes) in
        if bool_decide (bytes_Compare nextHash emptyHash = Gt)
        then fail (NewHashDBError "Only last hash can be removed")
        else
          let prevHash := go_copy (zeros len) (take len hashBytes) in
          _ ← (if bool_decide (bytes_Compare prevHash emptyHash = Gt) then
                 let prevHashBytesTmp := Get b prevHash in
                 if (Z.of_nat (length prevHashBytesTmp) <? Z.of_nat len * 2)%Z
                 then fail (NewHashNotFoundDBError "Previous hash is not found")
                 else
                   let prevHashBytes := CopyBytes prevHashBytesTmp in
                   let prevHashBytes := go_copy_at prevHashBytes len emptyHash in
                   Put blockChainBucket prevHash prevHashBytes
               else mret tt);
          Delete blockChainBucket hash).

Definition BlockInChain (hash : bytes) (f : boltfile) : outcome bool :=
  let len := length hash in
  if (Z.of_nat len =? 0)%Z then Err NewHashEmptyDBError
  else
    b ← Bucket blockChainBucket f;
    let h := Get b hash in
    Ret (Z.of_nat (length h) =? Z.of_nat len * 2)%Z.

Definition GetLocationInChain (hash : bytes) (f : boltfile) : outcome (bool * bytes * bytes) :=
  let len := length hash in
  if (Z.of_nat len =? 0)%Z then Err NewHashEmptyDBError
  else
    let emptyHash := zeros len in
    b ← Bucket blockChainBucket f;
    let hTmp := Get b hash in
    if (Z.of_nat (length hTmp) =? Z.of_nat len * 2)%Z then
      let h := CopyBytes hTmp in
      let prevHash := go_copy (zeros len) (take len h) in
      let nextHash := go_copy (zeros len) (drop len h) in
      let prevHash := if bool_decide (bytes_Compare prevHash emptyHash = Eq) then [] else prevHash in
      let nextHash := if bool_decide (bytes_Compare nextHash emptyHash = Eq) then [] else nextHash in
      Ret (true, prevHash, nextHash)
    else Ret (false, [], []).
End Ops.
End BlockchainDB.

(** ** [transactions.go] *)

Module TranactionsDB.
Section Ops.
Context `{Bolt}.

Definition InitDB : st boltfile unit :=
  _ ← Update (CreateBucket transactionsBucket);
  Update (CreateBucket transactionsOutputsBucket).

Definition TruncateDB : st boltfile unit :=
  _ ← Update (_ ← delete_bucket_if_exists transactionsBucket; CreateBucket transactionsBucket);
  Update (_ ← delete_bucket_if_exists transactionsOutputsBucket;
          CreateBucket transactionsOutputsBucket).

Definition PutTXToBlockLink (txID blockHash : bytes) : st boltfile unit :=
  update_put transactionsBucket txID blockHash.
Definition GetBlockHashForTX (txID : bytes) (f : boltfile) : outcome (option bytes) :=
  view_find transactionsBucket txID f.
Definition DeleteTXToBlockLink (txID : bytes) : st boltfile unit :=
  update_delete transactionsBucket txID.
Definition PutTXSpentOutputs (txID outputs : bytes) : st boltfile unit :=
  update_put transactionsOutputsBucket txID outputs.
Definition GetTXSpentOutputs (txID : bytes) (f : boltfile) : outcome (option bytes) :=
  view_find transactionsOutputsBucket txID f.
Definition DeleteTXSpentData (txID : bytes) : st boltfile unit :=
  update_delete transactionsOutputsBucket txID.
End Ops.
End TranactionsDB.

(** ** [unspentoutputs.go] *)

Module UnspentOutputsDB.
Section Ops.
Context `{Bolt}.

Definition InitDB : st boltfile unit := Update (CreateBucket unspentTransactionsBucket).
Definition ForEach {B} (callback : bytes → bytes → st B unit) (f : boltfile) : st B unit :=
  forEachInBucket unspentTransactionsBucket callback f.
Definition GetCount (f : boltfile) : outcome Z := getCountInBucket unspentTransactionsBucket f.
Definition TruncateDB : st boltfile unit :=
  Update (_ ← DeleteBucket unspentTransactionsBucket; CreateBucket unspentTransactionsBucket).
Definition GetDataForTransaction (txID : bytes) (f : boltfile) : outcome (option bytes) :=
  view_find unspentTransactionsBucket txID f.
Definition DeleteDataForTransaction (txID : bytes) : st boltfile unit :=
  update_delete unspentTransactionsBucket txID.
Definition PutDataForTransaction (txID txData : bytes) : st boltfile unit :=
  update_put unspentTransactionsBucket txID txData.
End Ops.
End UnspentOutputsDB.

(** ** [unapprovedtransactions.go] *)

Module UnapprovedTransactionsDB.
Section Ops.
Context `{Bolt}.

Definition InitDB : st boltfile unit := Update (CreateBucket unapprovedTransactionsBucket).
Definition ForEach {B} (callback : bytes → bytes → st B unit) (f : boltfile) : st B unit :=
  forEachInBucket unapprovedTransactionsBucket callback f.
Definition GetCount (f : boltfile) : outcome Z := getCountInBucket unapprovedTransactionsBucket f.
Definition TruncateDB : st boltfile unit :=
  Update (_ ← delete_bucket_if_exists unapprovedTransactionsBucket;
          CreateBucket unapprovedTransactionsBucket).
Definition GetTransaction (txID : bytes) (f : boltfile) : outcome bytes :=
  view_get unapprovedTransactionsBucket txID f.
Definition PutTransaction (txID txdata : bytes) : st boltfile unit :=
  update_put unapprovedTransactionsBucket txID txdata.
Definition DeleteTransaction (txID : bytes) : st boltfile unit :=
  update_delete unapprovedTransactionsBucket txID.
End Ops.
End UnapprovedTransactionsDB.

(** ** [nodes.go] *)

Module NodesDB.
Section Ops.
Context `{Bolt}.

Definition InitDB : st boltfile unit := Update (CreateBucket nodesBucket).
Definition ForEach {B} (callback : bytes → bytes → st B unit) (f : boltfile) : st B unit :=
  forEachInBucket nodesBucket callback f.
Definition GetCount (f : boltfile) : outcome Z := getCountInBucket nodesBucket f.
Definition PutNode (nodeID nodeData : bytes) : st boltfile unit :=
  update_put nodesBucket nodeID nodeData.
Definition DeleteNode (nodeID : bytes) : st boltfile unit := update_delete nodesBucket nodeID.
End Ops.
End NodesDB.

(** ** [manager.go]: access to the files

    The node's database: whether a connection is opened, and the two files, if
    they exist.  All tables but the one of the nodes are in the blockchain
    file.  A connection to a file is made by the first [Get...Object] call
    that needs it and reused until [CloseConnection]; the lock files that
    serialise the processes and goroutines are not part of this state. *)

Section Connections.
Context `{Bolt}.

Record DB := mkDB {
  openedConn : bool;
  bcFile : option boltfile;
  nodesFile : option boltfile
}.

Definition err_not_inited : goerror := EMsg "Connection was not inited".
Definition err_no_file : goerror := EFmt "Database file %s not found" [].

Definition OpenConnection (db : DB) : DB := mkDB true (bcFile db) (nodesFile db).
Definition CloseConnection (db : DB) : DB := mkDB false (bcFile db) (nodesFile db).

(** [getConnectionForObject] for a class of the blockchain file, and for the
    class of the nodes. *)
Definition getConnectionBC (db : DB) : outcome boltfile :=
  if negb (openedConn db) then Err err_not_inited
  else match bcFile db with None => Err err_no_file | Some f => Ret f end.
Definition getConnectionNodes (db : DB) : outcome boltfile :=
  if negb (openedConn db) then Err err_not_inited
  else match nodesFile db with None => Err err_no_file | Some f => Ret f end.

Definition GetBlockchainObject (db : DB) : outcome boltfile := getConnectionBC db.
Definition GetTransactionsObject (db : DB) : outcome boltfile := getConnectionBC db.
Definition GetUnapprovedTransactionsObject (db : DB) : outcome boltfile := getConnectionBC db.
Definition GetUnspentOutputsObject (db : DB) : outcome boltfile := getConnectionBC db.
Definition GetNodesObject (db : DB) : outcome boltfile := getConnectionNodes db.

(** A writing operation on the object a [Get...Object] call returned. *)
Definition on_bc {A} (op : st boltfile A) : st DB A := λ db,
  match bcFile db with
  | None => (Panic PNil, db)
  | Some f => let '(r, f') := op f in (r, mkDB (openedConn db) (Some f') (nodesFile db))
  end.
Definition on_nodes {A} (op : st boltfile A) : st DB A := λ db,
  match nodesFile db with
  | None => (Panic PNil, db)
  | Some f => let '(r, f') := op f in (r, mkDB (openedConn db) (bcFile db) (Some f'))
  end.

Definition CheckDBExists (db : DB) : outcome bool :=
  match GetBlockchainObject db with
  | Ret bc => match BlockchainDB.GetTopHash bc with
              | Ret tophash => Ret (0 <? Z.of_nat (length tophash))%Z
              | _ => Ret false
              end
  | _ => Ret false
  end.

(** [InitDatabase]: the files are created if they are missing, then the tables;
    the connection is closed in any case. *)
Definition create_files (db : DB) : DB :=
  mkDB (openedConn db) (Some (default ∅ (bcFile db))) (Some (default ∅ (nodesFile db))).
Definition InitDatabase : st DB unit := λ db,
  let '(r, db) := (
    _ ← ask GetBlockchainObject;
    _ ← on_bc BlockchainDB.InitDB;
    _ ← ask GetTransactionsObject;
    _ ← on_bc TranactionsDB.InitDB;
    _ ← ask GetUnapprovedTransactionsObject;
    _ ← on_bc UnapprovedTransactionsDB.InitDB;
    _ ← ask GetUnspentOutputsObject;
    _ ← on_bc UnspentOutputsDB.InitDB;
    _ ← ask GetNodesObject;
    on_nodes NodesDB.InitDB) (create_files (OpenConnection db)) in
  (r, CloseConnection db).
End Connections.

(** ** A file as a map of records

    [bget f name k] is the record of [k] in the bucket [name].  The writing
    operations are characterised by what they do to it and by the buckets they
    keep. *)

Section Records.
Context `{BoltLaws}.
Implicit Types (f : boltfile) (name : string) (k v : bytes).

Definition bget f name k : option bytes := b ← f !! name; b_Get b k.

(** [f'] is [f] with the record of [k] in [name] set to [o]. *)
Definition set_record f name k (o : option bytes) f' : Prop :=
  dom f' = dom f ∧
  ∀ name' k', bget f' name' k'
              = if bool_decide (name' = name ∧ k' = k) then o else bget f name' k'.

Lemma bget_lookup f name b k : f !! name = Some b → bget f name k = b_Get b k.
Proof. intros E. unfold bget. by rewrite E. Qed.

Lemma Bucket_in f name : name ∈ dom f → ∃ b, f !! name = Some b ∧ Bucket name f = Ret b.
Proof. intros [b E]%elem_of_dom. exists b. unfold Bucket. by rewrite E. Qed.

Lemma Bucket_missing f name : name ∉ dom f → Bucket name f = Err NewDBIsNotReadyError.
Proof. intros E%not_elem_of_dom. unfold Bucket. by rewrite E. Qed.

Lemma Get_bget f name b k : f !! name = Some b → Get b k = default [] (bget f name k).
Proof. intros E. by rewrite (bget_lookup _ _ _ _ E). Qed.

Lemma set_record_intro f name b b' k o :
  f !! name = Some b →
  (∀ k', b_Get b' k' = if bool_decide (k' = k) then o else b_Get b k') →
  set_record f name k o (<[name := b']> f).
Proof.
  intros E Hb. split; [apply dom_insert_lookup_L; eauto|]. intros name' k'. unfold bget.
  destruct (decide (name' = name)) as [->|Hn].
  - rewrite lookup_insert_eq, E. simpl. rewrite Hb. by repeat case_bool_decide; naive_solver.
  - rewrite lookup_insert_ne by done. rewrite bool_decide_eq_false_2 by naive_solver. done.
Qed.

Lemma Put_spec f name k v :
  name ∈ dom f → storable k v →
  ∃ f', Put name k v f = (Ret tt, f') ∧ set_record f name k (Some v) f'.
Proof.
  intros [b E]%elem_of_dom Hs. destruct (b_Put_total b k v Hs) as [b' Hb].
  exists (<[name := b']> f). unfold Put, in_bucket. rewrite E, Hb. split; [done|].
  eapply set_record_intro; [done|]. intros k'. by apply b_Get_Put.
Qed.

Lemma Delete_spec f name k :
  name ∈ dom f →
  ∃ f', Delete name k f = (Ret tt, f') ∧ set_record f name k None f'.
Proof.
  intros [b E]%elem_of_dom. destruct (b_Delete_total b k) as [b' Hb].
  exists (<[name := b']> f). unfold Delete, in_bucket. rewrite E, Hb. split; [done|].
  eapply set_record_intro; [done|]. intros k'. by apply b_Get_Delete.
Qed.

Lemma view_get_spec f name k :
  name ∈ dom f → view_get name k f = Ret (default [] (bget f name k)).
Proof.
  intros (b & E & Hb)%Bucket_in. unfold view_get. rewrite Hb, ret_bind. by rewrite (Get_bget f name).
Qed.

Lemma view_find_spec f name k : name ∈ dom f → view_find name k f = Ret (bget f name k).
Proof.
  intros (b & E & Hb)%Bucket_in. unfold view_find. rewrite Hb, ret_bind.
  by rewrite (bget_lookup f name b k E).
Qed.

Lemma Update_Ret {A} (fn : st boltfile A) f a f' :
  fn f = (Ret a, f') → Update fn f = (Ret a, f').
Proof. intros E. unfold Update. by rewrite E. Qed.

(** A transaction that does not return a value leaves the file as it was. *)
Lemma Update_rollback {A} (fn : st boltfile A) f :
  (∀ a, (Update fn f).1 ≠ Ret a) → (Update fn f).2 = f.
Proof. unfold Update. destruct (fn f) as [[] f']; simpl; naive_solver. Qed.

Lemma update_put_spec f name k v :
  name ∈ dom f → storable k v →
  ∃ f', update_put name k v f = (Ret tt, f') ∧ set_record f name k (Some v) f'.
Proof.
  intros Hn Hs. destruct (Put_spec f name k v Hn Hs) as (f' & Hp & Hr). exists f'. split; [|done].
  apply Update_Ret, st_bind_Ret. destruct (Bucket_in f name Hn) as (b & _ & Hb).
  exists b, f. unfold ask. by rewrite Hb.
Qed.

Lemma update_delete_spec f name k :
  name ∈ dom f →
  ∃ f', update_delete name k f = (Ret tt, f') ∧ set_record f name k None f'.
Proof.
  intros Hn. destruct (Delete_spec f name k Hn) as (f' & Hp & Hr). exists f'. split; [|done].
  apply Update_Ret, st_bind_Ret. destruct (Bucket_in f name Hn) as (b & _ & Hb).
  exists b, f. unfold ask. by rewrite Hb.
Qed.

Lemma update_put_missing f name k v :
  name ∉ dom f → update_put name k v f = (Err NewDBIsNotReadyError, f).
Proof.
  intros Hn. unfold update_put, Update, mbind, st_bind, ask. by rewrite Bucket_missing.
Qed.

(** Consequences of [set_record] used everywhere. *)
Lemma set_record_eq f name k o f' : set_record f name k o f' → bget f' name k = o.
Proof. intros [_ Hr]. rewrite Hr. by rewrite bool_decide_eq_true_2. Qed.

Lemma set_record_ne f name k o f' name' k' :
  set_record f name k o f' → name' ≠ name ∨ k' ≠ k → bget f' name' k' = bget f name' k'.
Proof. intros [_ Hr] Hne. rewrite Hr. rewrite bool_decide_eq_false_2; naive_solver. Qed.

Lemma set_record_dom f name k o f' : set_record f name k o f' → dom f' = dom f.
Proof. by intros []. Qed.

Lemma set_record_trans f name k o1 f1 o2 f2 :
  set_record f name k o1 f1 → set_record f1 name k o2 f2 → set_record f name k o2 f2.
Proof.
  intros [D1 R1] [D2 R2]. split; [congruence|]. intros name' k'. rewrite R2, R1.
  by case_bool_decide.
Qed.

(** Creating a bucket. *)
Lemma CreateBucket_spec f name :
  name ∉ dom f →
  ∃ f', CreateBucket name f = (Ret tt, f') ∧ dom f' = {[ name ]} ∪ dom f ∧
        ∀ name' k, bget f' name' k = bget f name' k.
Proof.
  intros E%not_elem_of_dom. exists (<[name := b_empty]> f). unfold CreateBucket. rewrite E.
  split; [done|]. split; [apply dom_insert_L|]. intros name' k. unfold bget.
  destruct (decide (name' = name)) as [->|Hn].
  - rewrite lookup_insert_eq, E. apply b_Get_empty.
  - by rewrite lookup_insert_ne.
Qed.

(** The loop over a bucket counts its records. *)
Lemma getCountInBucket_spec f name b :
  f !! name = Some b → getCountInBucket name f = Ret (Z.of_nat (length (b_Cursor b))).
Proof.
  intros E. unfold getCountInBucket, Bucket. rewrite E, ret_bind. f_equal.
  rewrite <- (Z.add_0_l (Z.of_nat _)). generalize 0%Z.
  induction (b_Cursor b) as [|r rs IH]; intros z; simpl; [lia|]. rewrite IH. lia.
Qed.

(** The loop of a callback that decodes each record and then either goes on or
    stops the cursor, as a loop over the decoded records. *)
Fixpoint scan {B X} (step : B → X → B * bool) (s : B) (xs : list X) : B :=
  match xs with
  | [] => s
  | x :: xs' => let '(s', stop) := step s x in if stop then s' else scan step s' xs'
  end.

Lemma forEach_scan {B X} (records : list (bytes * bytes)) (xs : list X)
    (dec : bytes * bytes → outcome X) callback (step : B → X → B * bool) s :
  Forall2 (λ r x, dec r = Ret x) records xs →
  (∀ r x s, dec r = Ret x →
     callback r.1 r.2 s
     = (if (step s x).2 then Err NewDBCursorStopError else Ret tt, (step s x).1)) →
  forEach_loop records callback s = (Ret tt, scan step s xs).
Proof.
  intros Hf Hc. revert s. induction Hf as [|[k v] x records xs Hd _ IH]; intros s; simpl; [done|].
  pose proof (Hc (k, v) x s Hd) as E. simpl in E. rewrite E. destruct (step s x) as [s' []]; simpl; [done|apply IH].
Qed.

(** A scan that never stops. *)
Lemma scan_all {B X} (g : B → X → B) xs s : scan (λ s x, (g s x, false)) s xs = fold_left g xs s.
Proof. revert s. induction xs as [|x xs IH]; intros s; simpl; [done|apply IH]. Qed.
End Records.

(** The keys of the two distinguished records of the blocks bucket are not
    block hashes. *)
Definition is_block_hash (h : bytes) : Prop := h ≠ [] ∧ h ≠ str "l" ∧ h ≠ str "f".

#[export] Hint Resolve set_record_eq set_record_dom : go.
