(* ===== verification/Locks.v ===== *)
(** * Package [node/database]: lock files

    [lockDB] and [unLockDB] ([manager.go]) guard each database file with a mutex
    of the process and a lock file between processes.  A goroutine is between
    two of their operations on what is shared: [next] is its next one. *)

From Stdlib Require Import Strings.Byte ZifyNat.
From stdpp Require Import base strings numbers gmap relations list.
From S2P Require Import Prelude.

(** ** The lock of one file *)

(** Where a goroutine is.  [Waiting i] is the head of the loop after [i] rounds,
    [Creating] the call of [os.Create], [Removing] the last line of [unLockDB]. *)
Inductive pc := Outside | Entered | Waiting (i : Z) | Creating | Holding | Removing.

#[global] Instance pc_eq_dec : EqDecision pc.
Proof. solve_decision. Defined.

(** The lock file, with the time of its creation in minutes; the clock; for
    each process the goroutine that has the mutex; where each goroutine is. *)
Record locks := mkLocks {
  lk_file : option Z;
  lk_now : Z;
  lk_mutex : nat → option nat;
  lk_pc : nat → nat → pc
}.

Definition at_pc (p g : nat) (x : pc) (f : nat → nat → pc) : nat → nat → pc :=
  λ p' g', if bool_decide (p' = p ∧ g' = g) then x else f p' g'.
Definition with_mutex (p : nat) (o : option nat) (m : nat → option nat) : nat → option nat :=
  λ p', if bool_decide (p' = p) then o else m p'.

Definition moves (p g : nat) (x : pc) (file : option Z) (s : locks) : locks :=
  mkLocks file (lk_now s) (lk_mutex s) (at_pc p g x (lk_pc s)).
(** [locker.Unlock()] and return. *)
Definition leaves (p g : nat) (file : option Z) (s : locks) : locks :=
  mkLocks file (lk_now s) (with_mutex p None (lk_mutex s)) (at_pc p g Outside (lk_pc s)).

(** The next operation of goroutine [g] of process [p]; [None] while the mutex
    is taken.  A lock file older than an hour is removed; a round of the wait is
    one look at the file and a sleep, and the round 10001 ends in an error. *)
Definition next (p g : nat) (s : locks) : option locks :=
  match lk_pc s p g with
  | Outside =>
      match lk_mutex s p with
      | Some _ => None
      | None => Some (mkLocks (lk_file s) (lk_now s) (with_mutex p (Some g) (lk_mutex s))
                        (at_pc p g Entered (lk_pc s)))
      end
  | Entered =>
      let file := match lk_file s with
                  | Some t => if (60 <? lk_now s - t)%Z then None else Some t
                  | None => None
                  end in
      Some (moves p g (Waiting 0) file s)
  | Waiting i =>
      match lk_file s with
      | None => Some (moves p g Creating None s)
      | Some t =>
          let i := (i + 1)%Z in
          Some (if (10000 <? i)%Z then leaves p g (Some t) s else moves p g (Waiting i) (Some t) s)
      end
  | Creating => Some (moves p g Holding (Some (lk_now s)) s)
  | Holding => Some (moves p g Removing None s)
  | Removing => Some (leaves p g (lk_file s) s)
  end.

(** The steps of a system of processes.  [os.Create] can fail.  Where the disk
    can be [full], the writing to the new file can too, and the file stays. *)
Inductive lock_step (who : nat → Prop) (full : bool) : locks → locks → Prop :=
| lock_next p g s s' : who p → next p g s = Some s' → lock_step who full s s'
| lock_tick s t : (0 ≤ t)%Z →
    lock_step who full s (mkLocks (lk_file s) (lk_now s + t) (lk_mutex s) (lk_pc s))
| lock_not_created p g s : who p → lk_pc s p g = Creating →
    lock_step who full s (leaves p g (lk_file s) s)
| lock_not_written p g s : who p → full = true → lk_pc s p g = Creating →
    lock_step who full s (leaves p g (Some (lk_now s)) s).

Definition lock_init (now : Z) : locks := mkLocks None now (λ _, None) (λ _ _, Outside).

(** *** The mutex *)

Lemma at_pc_cases p g x f p' g' :
  p' = p ∧ g' = g ∧ at_pc p g x f p' g' = x ∨ ¬ (p' = p ∧ g' = g) ∧ at_pc p g x f p' g' = f p' g'.
Proof. unfold at_pc. case_bool_decide; naive_solver. Qed.
Lemma at_pc_same p g x f : at_pc p g x f p g = x.
Proof. unfold at_pc. by rewrite bool_decide_eq_true_2. Qed.

(** The goroutine that is in [lockDB], in [unLockDB] or between them has the
    mutex of its process. *)
Definition mutex_ok (s : locks) : Prop := ∀ p g, lk_pc s p g ≠ Outside ↔ lk_mutex s p = Some g.

Lemma moves_ok p g x file s :
  mutex_ok s → lk_pc s p g ≠ Outside → x ≠ Outside → mutex_ok (moves p g x file s).
Proof.
  intros Hs Hp Hx p' g'. cbn. destruct (at_pc_cases p g x (lk_pc s) p' g') as [(-> & -> & ->)|[_ ->]];
    [|apply Hs]. rewrite <- (Hs p g). naive_solver.
Qed.

Lemma leaves_ok p g file s : mutex_ok s → lk_pc s p g ≠ Outside → mutex_ok (leaves p g file s).
Proof.
  intros Hs Hp p' g'. cbn. unfold with_mutex.
  destruct (at_pc_cases p g Outside (lk_pc s) p' g') as [(-> & -> & ->)|[Hne ->]].
  - rewrite bool_decide_eq_true_2 by done. naive_solver.
  - case_bool_decide as Ep; [subst p'|apply Hs]. split; [|done]. intros Hg.
    apply Hs in Hp, Hg. naive_solver.
Qed.

Lemma mutex_next_ok p g s s' : mutex_ok s → next p g s = Some s' → mutex_ok s'.
Proof.
  intros Hs Hn. unfold next in Hn. destruct (lk_pc s p g) eqn:Epc.
  - destruct (lk_mutex s p) eqn:Em; [done|]. injection Hn as <-. intros p' g'. cbn. unfold with_mutex.
    destruct (at_pc_cases p g Entered (lk_pc s) p' g') as [(-> & -> & ->)|[Hne ->]].
    + by rewrite bool_decide_eq_true_2.
    + case_bool_decide as Ep; [subst p'|apply Hs]. rewrite (Hs p g'), Em. naive_solver.
  - injection Hn as <-. apply moves_ok; [done|by rewrite Epc|done].
  - destruct (lk_file s); [destruct (10000 <? _)%Z|]; injection Hn as <-;
      [apply leaves_ok|apply moves_ok..]; try done; by rewrite Epc.
  - injection Hn as <-. apply moves_ok; [done|by rewrite Epc|done].
  - injection Hn as <-. apply moves_ok; [done|by rewrite Epc|done].
  - injection Hn as <-. apply leaves_ok; [done|by rewrite Epc].
Qed.

Lemma step_ok who full s s' : mutex_ok s → lock_step who full s s' → mutex_ok s'.
Proof.
  intros Hs Hst. destruct Hst as [p g s s' _ Hn|s t _|p g s _ Hc|p g s _ _ Hc];
    [by eapply mutex_next_ok|exact Hs|..]; (apply leaves_ok; [done|by rewrite Hc]).
Qed.

Lemma init_ok now : mutex_ok (lock_init now).
Proof. intros p g. cbn. naive_solver. Qed.

(** A property that the steps keep holds in every reachable state. *)
Lemma steps_keep who full (I : locks → Prop) s s' :
  (∀ x y, I x → lock_step who full x y → I y) → I s → rtc (lock_step who full) s s' → I s'.
Proof. intros HI Hs Hr. revert Hs. induction Hr; eauto. Qed.

(** C25: whatever the processes do, in one process at most one goroutine is in
    [lockDB], in [unLockDB] or has the lock at a time, and it is the one that
    has the mutex. *)
Theorem lock_in_process who full now s p g g' :
  rtc (lock_step who full) (lock_init now) s → lk_pc s p g ≠ Outside → lk_pc s p g' ≠ Outside →
  g = g' ∧ lk_mutex s p = Some g.
Proof.
  intros Hr Hg Hg'. assert (Hs : mutex_ok s).
  { eapply steps_keep; [apply step_ok|apply init_ok|exact Hr]. }
  apply Hs in Hg, Hg'. split; [|done]. congruence.
Qed.

(** *** One process alone *)

(** With one process the file is there only when a goroutine has the lock. *)
Definition file_held (p : nat) (s : locks) : Prop :=
  mutex_ok s ∧ (lk_file s ≠ None ↔ ∃ g, lk_pc s p g = Holding) ∧ ∀ g i, lk_pc s p g = Waiting i → i = 0%Z.

Lemma none_holds p g s :
  file_held p s → (∀ g', g' ≠ g → lk_pc s p g' = Outside) → lk_pc s p g ≠ Holding → lk_file s = None.
Proof.
  intros (_ & Hf & _) Ho Hh. destruct (lk_file s) eqn:Ef; [|done].
  destruct (proj1 Hf ltac:(done)) as [g' Hg']. destruct (decide (g' = g)) as [->|Hne]; [done|].
  rewrite Ho in Hg'; done.
Qed.

Lemma file_held_at p g x file s s' :
  file_held p s → mutex_ok s' → (∀ g', g' ≠ g → lk_pc s p g' = Outside) →
  lk_pc s' = at_pc p g x (lk_pc s) → lk_file s' = file →
  (file ≠ None ↔ x = Holding) → (∀ i, x = Waiting i → i = 0%Z) → file_held p s'.
Proof.
  intros (_ & _ & Hw) Hs' Ho Hpc Hfile Hx Hi. split; [done|]. rewrite Hpc, Hfile. split.
  - rewrite Hx. split; [intros ->; exists g; apply at_pc_same|]. intros [g' Hg'].
    destruct (at_pc_cases p g x (lk_pc s) p g') as [(_ & -> & E)|[Hne E]]; rewrite E in Hg'; [done|].
    rewrite Ho in Hg'; naive_solver.
  - intros g' i Hg'.
    destruct (at_pc_cases p g x (lk_pc s) p g') as [(_ & -> & E)|[Hne E]]; rewrite E in Hg'; eauto.
Qed.

Lemma others_outside p g s :
  mutex_ok s → lk_pc s p g ≠ Outside ∨ lk_mutex s p = None → ∀ g', g' ≠ g → lk_pc s p g' = Outside.
Proof.
  intros Hs Hp g' Hne. destruct (decide (lk_pc s p g' = Outside)) as [|Ho%Hs]; [done|].
  destruct Hp as [Hp%Hs|Hp]; congruence.
Qed.

Lemma file_held_next p g s s' : file_held p s → next p g s = Some s' → file_held p s'.
Proof.
  intros Hf Hn. pose proof (mutex_next_ok _ _ _ _ (proj1 Hf) Hn) as Hs'.
  assert (Ho : ∀ g', g' ≠ g → lk_pc s p g' = Outside).
  { apply others_outside; [apply Hf|]. unfold next in Hn. destruct (lk_pc s p g); auto.
    destruct (lk_mutex s p); auto. }
  pose proof (none_holds p g s Hf Ho) as Hnone. pose proof (proj2 (proj2 Hf) g) as Hw.
  unfold next in Hn. destruct (lk_pc s p g) as [| |i| | |].
  - destruct (lk_mutex s p); [done|]. injection Hn as <-.
    eapply (file_held_at p g); [done..| |done]. by rewrite Hnone.
  - injection Hn as <-. eapply (file_held_at p g); [done..| |]; cbn; [by rewrite Hnone|naive_solver].
  - rewrite Hnone in Hn by done. injection Hn as <-. by eapply (file_held_at p g).
  - injection Hn as <-. by eapply (file_held_at p g).
  - injection Hn as <-. by eapply (file_held_at p g).
  - injection Hn as <-. eapply (file_held_at p g); [done..| |done]. cbn. by rewrite Hnone.
Qed.

Lemma file_held_step p s s' : file_held p s → lock_step (λ q, q = p) false s s' → file_held p s'.
Proof.
  intros Hf Hst. destruct Hst as [q g s s' -> Hn|s t _|q g s -> Hc|]; [by eapply file_held_next|exact Hf| |done].
  assert (Ho : ∀ g', g' ≠ g → lk_pc s p g' = Outside).
  { apply others_outside; [apply Hf|]. left. by rewrite Hc. }
  eapply (file_held_at p g); [done| |done..| |done].
  - apply leaves_ok; [apply Hf|by rewrite Hc].
  - cbn. rewrite (none_holds p g s); [done..|by rewrite Hc].
Qed.

Lemma file_held_init p now : file_held p (lock_init now).
Proof. split; [apply init_ok|]. cbn. naive_solver. Qed.

(** a process that is alone finds no lock file of its own: the file is there
    exactly while a goroutine has the lock, and the loop of [lockDB] never
    waits, if the writing to the file does not fail. *)
Theorem lock_alone p now s :
  rtc (lock_step (λ q, q = p) false) (lock_init now) s →
  (lk_file s ≠ None ↔ ∃ g, lk_pc s p g = Holding) ∧
  (∀ g i, lk_pc s p g = Waiting i → ∃ s', next p g s = Some s' ∧ lk_pc s' p g = Creating).
Proof.
  intros Hr. assert (Hf : file_held p s).
  { eapply steps_keep; [apply file_held_step|apply file_held_init|exact Hr]. }
  split; [apply Hf|]. intros g i Hg. unfold next. rewrite Hg, (none_holds p g s).
  - eexists. split; [done|]. apply at_pc_same.
  - done.
  - apply others_outside; [apply Hf|]. left. by rewrite Hg.
  - by rewrite Hg.
Qed.

(** *** [lockDB] returns *)

(** An upper bound on the operations a goroutine has left in [lockDB]. *)
Definition rank (x : pc) : Z :=
  match x with
  | Entered => 10003
  | Waiting i => Z.max 2 (10002 - i)
  | Creating => 1
  | Outside | Holding | Removing => 0
  end.
Definition in_lockDB (x : pc) : Prop := (0 < rank x)%Z.

Lemma rank_bound x : (0 ≤ rank x)%Z.
Proof. destruct x; cbn; lia. Qed.

Lemma in_lockDB_moves p g s : in_lockDB (lk_pc s p g) →
  ∃ s', next p g s = Some s' ∧ (rank (lk_pc s' p g) < rank (lk_pc s p g))%Z.
Proof.
  unfold in_lockDB, next. intros Hin. destruct (lk_pc s p g) as [| |i| | |]; cbn in Hin; try lia.
  - eexists. split; [done|]. cbn. rewrite at_pc_same. cbn. lia.
  - destruct (lk_file s); [destruct (10000 <? i + 1)%Z eqn:Ei|];
      (eexists; split; [done|]); cbn; rewrite at_pc_same; cbn; lia.
  - eexists. split; [done|]. cbn. rewrite at_pc_same. cbn. lia.
Qed.

(** An operation of another goroutine leaves this one where it is. *)
Lemma next_other p g q h s s' :
  next q h s = Some s' → ¬ (p = q ∧ g = h) → lk_pc s' p g = lk_pc s p g.
Proof.
  intros Hn Hne. assert (He : ∃ x, lk_pc s' = at_pc q h x (lk_pc s)).
  { unfold next in Hn. repeat case_match; simplify_eq; eauto. }
  destruct He as [x ->]. destruct (at_pc_cases q h x (lk_pc s) p g) as [(-> & -> & _)|[_ ->]]; naive_solver.
Qed.

Lemma step_rank who full p g s s' : lock_step who full s s' → in_lockDB (lk_pc s p g) →
  lk_pc s' p g = lk_pc s p g ∨ (rank (lk_pc s' p g) < rank (lk_pc s p g))%Z.
Proof.
  intros Hst Hin. destruct Hst as [q h s s' _ Hn|s t _|q h s _ Hc|q h s _ _ Hc]; [|by left|..].
  - destruct (decide (p = q ∧ g = h)) as [[-> ->]|Hne]; [right|left; by eapply next_other].
    destruct (in_lockDB_moves q h s Hin) as (s'' & Hs'' & Hlt). congruence.
  - cbn. destruct (at_pc_cases q h Outside (lk_pc s) p g) as [(-> & -> & ->)|[_ ->]]; auto.
  - cbn. destruct (at_pc_cases q h Outside (lk_pc s) p g) as [(-> & -> & ->)|[_ ->]]; auto.
Qed.

(** The run of a system, with the number of operations goroutine [g] of process
    [p] makes in [lockDB]. *)
Inductive turns who full (p g : nat) : nat → locks → locks → Prop :=
| turns_none s : turns who full p g 0 s s
| turns_other n s s' s'' : lock_step who full s s' → lk_pc s' p g = lk_pc s p g →
    turns who full p g n s' s'' → turns who full p g n s s''
| turns_own n s s' s'' : lock_step who full s s' → in_lockDB (lk_pc s p g) →
    lk_pc s' p g ≠ lk_pc s p g → turns who full p g n s' s'' → turns who full p g (S n) s s''.

Lemma turns_rank who full p g n s s' :
  turns who full p g n s s' → (Z.of_nat n + rank (lk_pc s' p g) ≤ rank (lk_pc s p g))%Z.
Proof.
  induction 1 as [s|n s s' s'' _ Hpc _ IH|n s s' s'' Hst Hin Hpc _ IH]; [lia|by rewrite <- Hpc|].
  destruct (step_rank _ _ p g _ _ Hst Hin) as [?|?]; [done|lia].
Qed.

(** a goroutine that has the mutex returns from [lockDB] after at most 10003
    operations of its own, whatever the other goroutines and processes do:
    until it has returned it can make the next one. *)
Theorem lockDB_returns who full p g n s s' :
  turns who full p g n s s' → lk_pc s p g = Entered →
  (Z.of_nat n ≤ 10003)%Z ∧
  (in_lockDB (lk_pc s' p g) → ∃ s'', next p g s' = Some s'' ∧ lk_pc s'' p g ≠ lk_pc s' p g).
Proof.
  intros Hn%turns_rank Hs. rewrite Hs in Hn. pose proof (rank_bound (lk_pc s' p g)).
  split; [cbn in Hn; lia|]. intros (s'' & Hnext & Hlt)%in_lockDB_moves. exists s''. split; [done|].
  intros E. rewrite E in Hlt. lia.
Qed.

(** *** Two processes, and a full disk *)

Definition turn (s : option locks) (pg : nat * nat) : option locks := s ≫= next pg.1 pg.2.

Lemma turns_reach (who : nat → Prop) full l s s' : Forall (λ pg, who pg.1) l →
  foldl turn (Some s) l = Some s' → rtc (lock_step who full) s s'.
Proof.
  intros Hl. revert s. induction Hl as [|[p g] l Hp _ IH]; intros s Hs; cbn in Hs.
  - injection Hs as ->. done.
  - destruct (next p g s) as [s1|] eqn:En.
    + eapply rtc_l; [by eapply lock_next|by apply IH].
    + exfalso. clear -Hs. induction l; [done|auto].
Qed.

(** Two processes look for the lock file before either of them makes it:
    [os.Create] does not ask that the file is new, and both have the lock. *)
Example two_processes_hold :
  ∃ s, rtc (lock_step (λ _, True) false) (lock_init 0) s ∧ lk_pc s 0 0 = Holding ∧ lk_pc s 1 0 = Holding.
Proof.
  eexists. split; [|split].
  - eapply (turns_reach _ _ [(0, 0); (1, 0); (0, 0); (1, 0); (0, 0); (1, 0); (0, 0); (1, 0)]).
    + by repeat constructor.
    + cbn. reflexivity.
  - reflexivity.
  - reflexivity.
Qed.

(** A failed writing returns an error and leaves the file, which no goroutine
    removes for an hour. *)
Example lock_file_left :
  ∃ s, rtc (lock_step (λ p, p = 0) true) (lock_init 0) s ∧ (∀ g, lk_pc s 0 g = Outside) ∧
    lk_file s = Some 0%Z.
Proof.
  eexists. split; [|split].
  - eapply rtc_r.
    + eapply (turns_reach _ _ [(0, 0); (0, 0); (0, 0)]); [by repeat constructor|cbn; reflexivity].
    + by apply (lock_not_written _ _ 0 0).
  - intros g. cbn. destruct (at_pc_cases 0 0 Outside (λ _ _, Outside) 0 g) as [(_ & -> & _)|[Hne _]]; [done|].
    unfold at_pc. by rewrite bool_decide_eq_false_2.
  - reflexivity.
Qed.


(** *** The theorems at work *)

Definition demo_run (l : list (nat * nat)) : locks := default (lock_init 0) (foldl turn (Some (lock_init 0)) l).

Lemma lock_in_process_witness : let s := demo_run [(0, 0); (1, 5); (0, 0)] in
  lk_pc s 0 0 = Waiting 0 ∧ 0 = 0 ∧ lk_mutex s 0 = Some 0.
Proof.
  split; [reflexivity|]. apply (lock_in_process (λ _, True) false 0); [|done..].
  eapply (turns_reach _ _ [(0, 0); (1, 5); (0, 0)]); [by repeat constructor|reflexivity].
Defined.

Lemma lock_alone_witness : let s := demo_run [(3, 1); (3, 1)] in
  lk_pc s 3 1 = Waiting 0 ∧ ∃ s', next 3 1 s = Some s' ∧ lk_pc s' 3 1 = Creating.
Proof.
  split; [reflexivity|]. apply (lock_alone 3 0) with (i := 0%Z); [|reflexivity].
  eapply (turns_reach _ _ [(3, 1); (3, 1)]); [by repeat constructor|reflexivity].
Defined.

(** The goroutine looks for the file while another process has the lock. *)
Lemma lockDB_returns_witness :
  let s := demo_run [(1, 0); (1, 0); (1, 0); (1, 0); (0, 0)] in
  lk_pc s 0 0 = Entered ∧ ∃ s', next 0 0 (demo_run [(1, 0); (1, 0); (1, 0); (1, 0); (0, 0); (0, 0)]) = Some s' ∧
    lk_pc s' 0 0 ≠ Waiting 0.
Proof.
  split; [reflexivity|].
  apply (lockDB_returns (λ _, True) false 0 0 1 (demo_run [(1, 0); (1, 0); (1, 0); (1, 0); (0, 0)])); [|reflexivity..].
  eapply turns_own; [by eapply (lock_next _ _ 0 0)|reflexivity|done|apply turns_none].
Defined.
