(* ===== verification/Connections.v ===== *)
(** * Package [node/database]: the connections of a manager

    [manager.go] names the database files and their lock files by the class of
    an object, makes a connection when the first object of a file is asked for,
    and closes the connections and gives up their locks in [CloseConnection]. *)

From Stdlib Require Import Strings.Byte ZifyNat.
From stdpp Require Import base strings numbers list.
From S2P Require Import Prelude.

(** ** The files and their names *)

Definition ClassNameNodes : string := "nodes".
Definition ClassNameBlockchain : string := "blockchain".
Definition ClassNameTransactions : string := "transactions".
Definition ClassNameUnapprovedTransactions : string := "unapprovedtransactions".
Definition ClassNameUnspentOutputs : string := "unspentoutputs".

Record DatabaseConfig := mkDatabaseConfig {
  DataDir : bytes;
  BlockchainFile : bytes;
  NodesFile : bytes
}.

Definition DatabaseConfig_IsEmpty (dbc : DatabaseConfig) : bool :=
  bool_decide (BlockchainFile dbc = []) || bool_decide (NodesFile dbc = []).
Definition SetDefault (dbc : DatabaseConfig) : DatabaseConfig :=
  mkDatabaseConfig (DataDir dbc) (str "blockchain.db") (str "nodeslist.db").

Definition isBCDB (name : string) : bool :=
  bool_decide (name ∈ [ClassNameBlockchain; ClassNameTransactions;
                       ClassNameUnapprovedTransactions; ClassNameUnspentOutputs]).
Definition isNodesDB (name : string) : bool := bool_decide (ClassNameNodes = name).

Definition getDBFileForObject (config : DatabaseConfig) (name : string) : outcome bytes :=
  if isNodesDB name then Ret (DataDir config ++ NodesFile config)
  else if isBCDB name then Ret (DataDir config ++ BlockchainFile config)
  else Err (EMsg ("Unknown DB object name " ++ name)).

(** [path.Ext]: from the last dot of the last element of the path, reading the
    path from its end. *)
Fixpoint Ext_loop (reversed ext : bytes) : bytes :=
  match reversed with
  | [] => []
  | c :: reversed =>
      if bool_decide (c = "/"%byte) then []
      else if bool_decide (c = "."%byte) then c :: ext
      else Ext_loop reversed (c :: ext)
  end.
Definition path_Ext (path : bytes) : bytes := Ext_loop (rev path) [].

Definition getDBLockFileForObject (config : DatabaseConfig) (name : string) : outcome bytes :=
  dbfileName ← getDBFileForObject config name;
  let ext := path_Ext dbfileName in
  stem ← slice dbfileName 0 (Z.of_nat (length dbfileName) - Z.of_nat (length ext));
  Ret (stem ++ str ".lock").

(** The name of a lock file is the one of the database file with its extension,
    if it has one, replaced. *)
Lemma Ext_loop_plain r ext s :
  "."%byte ∉ r → "/"%byte ∉ r → Ext_loop (r ++ s) ext = Ext_loop s (rev r ++ ext).
Proof.
  revert ext. induction r as [|c r IH]; intros ext Hd Hs; [done|].
  apply not_elem_of_cons in Hd, Hs. cbn. rewrite !bool_decide_eq_false_2 by naive_solver.
  rewrite IH by naive_solver. by rewrite <- app_assoc.
Qed.

Lemma notin_rev (c : byte) r : c ∉ r → c ∉ rev r.
Proof. by rewrite !list_elem_of_In, <- in_rev. Qed.

Lemma path_Ext_dot stem e :
  "."%byte ∉ e → "/"%byte ∉ e → path_Ext (stem ++ "."%byte :: e) = "."%byte :: e.
Proof.
  intros Hd Hs. unfold path_Ext. rewrite rev_app_distr. cbn. rewrite <- app_assoc.
  rewrite Ext_loop_plain by (by apply notin_rev). cbn. by rewrite rev_involutive, app_nil_r.
Qed.

Lemma path_Ext_none dir file :
  "."%byte ∉ file → "/"%byte ∉ file → dir = [] ∨ (∃ d, dir = d ++ str "/") → path_Ext (dir ++ file) = [].
Proof.
  intros Hd Hs Hdir. unfold path_Ext. rewrite rev_app_distr, Ext_loop_plain by (by apply notin_rev).
  destruct Hdir as [->|[d ->]]; [done|]. by rewrite rev_app_distr.
Qed.

Lemma getDBLockFileForObject_ext config name stem ext :
  getDBFileForObject config name = Ret (stem ++ ext) → path_Ext (stem ++ ext) = ext →
  getDBLockFileForObject config name = Ret (stem ++ str ".lock").
Proof.
  intros Hf He. unfold getDBLockFileForObject. rewrite Hf, ret_bind, He, length_app.
  replace (Z.of_nat (length stem + length ext) - Z.of_nat (length ext))%Z with (Z.of_nat (length stem)) by lia.
  pose proof (slice_Ret (stem ++ ext) 0 (length stem)) as Hsl. rewrite length_app in Hsl.
  change (Z.of_nat 0) with 0%Z in Hsl. rewrite Hsl, ret_bind by lia.
  by rewrite drop_0, take_app_length.
Qed.

(** With the default names the two files have lock files of their own. *)
Lemma default_locks dir :
  getDBLockFileForObject (SetDefault (mkDatabaseConfig dir [] [])) ClassNameBlockchain =
    Ret (dir ++ str "blockchain.lock") ∧
  getDBLockFileForObject (SetDefault (mkDatabaseConfig dir [] [])) ClassNameNodes =
    Ret (dir ++ str "nodeslist.lock").
Proof.
  assert (Hx : ∀ stem, path_Ext ((dir ++ stem) ++ str ".db") = str ".db").
  { intros stem. apply path_Ext_dot; by apply (bool_decide_unpack _). }
  split.
  - rewrite (getDBLockFileForObject_ext _ _ (dir ++ str "blockchain") (str ".db")); [|by rewrite <- app_assoc|apply Hx].
    by rewrite <- app_assoc.
  - rewrite (getDBLockFileForObject_ext _ _ (dir ++ str "nodeslist") (str ".db")); [|by rewrite <- app_assoc|apply Hx].
    by rewrite <- app_assoc.
Qed.

(** Two files whose names differ in the extension alone share their lock file. *)
Example one_lock_file :
  let config := mkDatabaseConfig (str "/data/") (str "node.blocks") (str "node.peers") in
  getDBLockFileForObject config ClassNameBlockchain = getDBLockFileForObject config ClassNameNodes.
Proof. reflexivity. Qed.

(** ** The connections *)

(** A [BoltDBManager]: whether it is open, the class each connection was made
    for, and which of the two mutexes it has locked. *)
Record BoltDBManager := mkManager {
  openedConn : bool;
  connBC : option string;
  connNodes : option string;
  lockedBC : bool;
  lockedNodes : bool
}.

(** What the rest of the world makes of an attempt to connect: whether the
    database file exists, what [lockDB] returns once it has the mutex, and what
    [bolt.Open] returns. *)
Record attempt := mkAttempt {
  file_exists : bool;
  lock_result : outcome unit;
  open_result : outcome unit
}.

Definition locked (name : string) (b : BoltDBManager) : bool :=
  if isNodesDB name then lockedNodes b else lockedBC b.
Definition set_locked (name : string) (v : bool) (b : BoltDBManager) : BoltDBManager :=
  if isNodesDB name then mkManager (openedConn b) (connBC b) (connNodes b) (lockedBC b) v
  else mkManager (openedConn b) (connBC b) (connNodes b) v (lockedNodes b).

(** [lockDB] keeps the mutex when it returns no error; a goroutine that has the
    mutex already waits for ever.  [unLockDB] panics when the mutex is free. *)
Definition lockDB (name : string) (result : outcome unit) : st BoltDBManager unit := λ b,
  if locked name b then (OutOfFuel, b)
  else match result with
       | Ret _ => (Ret tt, set_locked name true b)
       | r => (r, b)
       end.
Definition unLockDB (name : string) : st BoltDBManager unit := λ b,
  if locked name b then (Ret tt, set_locked name false b) else (Panic PUnlock, b).

Definition OpenConnection (b : BoltDBManager) : BoltDBManager :=
  if openedConn b then b else mkManager true None None (lockedBC b) (lockedNodes b).

Definition set_conns (bc nodes : option string) : st BoltDBManager unit := λ b,
  (Ret tt, mkManager (openedConn b) bc nodes (lockedBC b) (lockedNodes b)).
Definition close_bc : st BoltDBManager unit := λ b,
  match connBC b with
  | Some lockFile =>
      let '(r, b) := unLockDB lockFile b in
      match r with Ret _ => set_conns None (connNodes b) b | _ => (r, b) end
  | None => (Ret tt, b)
  end.
Definition close_nodes : st BoltDBManager unit := λ b,
  match connNodes b with
  | Some lockFile =>
      let '(r, b) := unLockDB lockFile b in
      match r with Ret _ => set_conns (connBC b) None b | _ => (r, b) end
  | None => (Ret tt, b)
  end.
Definition CloseConnection : st BoltDBManager unit := λ b,
  if negb (openedConn b) then (Ret tt, b)
  else
    (_ ← close_bc;
     _ ← close_nodes;
     effect (λ b, (Ret tt, mkManager false (connBC b) (connNodes b) (lockedBC b) (lockedNodes b)))) b.

Definition IsConnectionOpen (b : BoltDBManager) : bool := openedConn b.

Definition err_not_inited : goerror := EMsg "Connection was not inited".
Definition err_no_file (boltdbfile : bytes) : goerror :=
  EFmt "Database file %s not found" [ABytes boltdbfile].

(** The class of the connection it returns. *)
Definition getConnectionForObjectWithCheck (config : DatabaseConfig) (name : string)
    (ignoremissed : bool) (a : attempt) : st BoltDBManager string := λ b,
  if negb (openedConn b) then (Err err_not_inited, b)
  else
    let bc := if isBCDB name then connBC b else None in
    let nodes := if isNodesDB name then connNodes b else None in
    match bc, nodes with
    | Some conn, _ => (Ret conn, b)
    | None, Some conn => (Ret conn, b)
    | None, None =>
        (boltdbfile ← lift (getDBFileForObject config name);
         if negb (file_exists a) && negb ignoremissed then fail (err_no_file boltdbfile)
         else
           _ ← lockDB name (lock_result a);
           _ ← lift (open_result a);
           effect (λ b, (Ret name, mkManager (openedConn b)
                                     (if isBCDB name then Some name else connBC b)
                                     (if isNodesDB name then Some name else connNodes b)
                                     (lockedBC b) (lockedNodes b)))) b
    end.
Definition getConnectionForObject (config : DatabaseConfig) (name : string) (a : attempt) :
    st BoltDBManager string := getConnectionForObjectWithCheck config name false a.

(** A use of the manager. *)
Inductive call :=
| COpen
| CGet (name : string) (ignoremissed : bool) (a : attempt)
| CClose.

Definition do_call (config : DatabaseConfig) (c : call) : st BoltDBManager unit := λ b,
  match c with
  | COpen => (Ret tt, OpenConnection b)
  | CGet name ignoremissed a =>
      let '(r, b) := getConnectionForObjectWithCheck config name ignoremissed a b in
      (_ ← r; Ret tt, b)
  | CClose => CloseConnection b
  end.
(** Calls one after the other, whatever the earlier ones return. *)
Definition calls (config : DatabaseConfig) (l : list call) (b : BoltDBManager) : BoltDBManager :=
  foldl (λ b c, (do_call config c b).2) b l.

Definition manager_init : BoltDBManager := mkManager false None None false false.

(** A call in which [lockDB] returns, and [bolt.Open] succeeds after it. *)
Definition opens (c : call) : Prop :=
  match c with
  | CGet _ _ a => (lock_result a = Ret tt ∨ ∃ e, lock_result a = Err e) ∧ open_result a = Ret tt
  | _ => True
  end.
Definition returns {A} (r : outcome A) : Prop := (∃ a, r = Ret a) ∨ ∃ e, r = Err e.

(** The manager has the mutexes of its connections and no others. *)
Record manager_ok (b : BoltDBManager) : Prop := mkManagerOk {
  mo_bc : lockedBC b = bool_decide (is_Some (connBC b));
  mo_nodes : lockedNodes b = bool_decide (is_Some (connNodes b));
  mo_bc_name n : connBC b = Some n → isBCDB n = true;
  mo_nodes_name n : connNodes b = Some n → n = ClassNameNodes;
  mo_closed : openedConn b = false → connBC b = None ∧ connNodes b = None
}.

Lemma isBCDB_nodes n : isBCDB n = true → isNodesDB n = false.
Proof. intros Hn. apply bool_decide_eq_false. by intros <-. Qed.
Lemma isNodesDB_name n : isNodesDB n = true → n = ClassNameNodes ∧ isBCDB n = false.
Proof. by intros <-%bool_decide_eq_true. Qed.

(** [CloseConnection] of such a manager gives up every mutex. *)
Lemma CloseConnection_ok b : manager_ok b → CloseConnection b = (Ret tt, manager_init).
Proof.
  intros [Hbc Hn Hbcn Hnn Hc]. destruct b as [o bc ns lb ln]; cbn in *. subst lb ln.
  destruct o; [|by destruct Hc as [-> ->]]. unfold CloseConnection, close_bc, close_nodes, st_bind, mbind, unLockDB.
  cbn. destruct bc as [n|], ns as [m|]; try done.
  - rewrite (Hnn m) by done. unfold locked, set_locked. cbn. by rewrite (isBCDB_nodes n) by auto.
  - unfold locked, set_locked. cbn. by rewrite (isBCDB_nodes n) by auto.
  - by rewrite (Hnn m).
Qed.

Lemma OpenConnection_ok b : manager_ok b → manager_ok (OpenConnection b).
Proof.
  intros Hb. unfold OpenConnection. destruct (openedConn b) eqn:Eo; [done|].
  destruct (mo_closed b Hb Eo) as [Hbc Hns]. destruct Hb as [Hl Hn _ _ _].
  split; cbn; [by rewrite Hl, Hbc|by rewrite Hn, Hns|done..].
Qed.

Lemma getDBFileForObject_known config name f : getDBFileForObject config name = Ret f →
  isNodesDB name = true ∧ isBCDB name = false ∨ isNodesDB name = false ∧ isBCDB name = true.
Proof.
  unfold getDBFileForObject. destruct (isNodesDB name) eqn:En.
  - apply isNodesDB_name in En as [-> ->]. auto.
  - destruct (isBCDB name); auto. done.
Qed.
Lemma getDBFileForObject_returns config name : returns (getDBFileForObject config name).
Proof.
  unfold getDBFileForObject. destruct (isNodesDB name); [left; eauto|].
  destruct (isBCDB name); [left|right]; eauto.
Qed.

Lemma getConnection_ok config name ignoremissed a b :
  manager_ok b → opens (CGet name ignoremissed a) →
  returns (getConnectionForObjectWithCheck config name ignoremissed a b).1 ∧
  manager_ok (getConnectionForObjectWithCheck config name ignoremissed a b).2.
Proof.
  intros Hb [Hlock Hopen]. unfold getConnectionForObjectWithCheck.
  destruct (openedConn b) eqn:Eo; cbn; [|split; [right; eauto|done]].
  destruct (if isBCDB name then connBC b else None) as [conn|] eqn:Ebc; [by split; [left; eauto|]|].
  destruct (if isNodesDB name then connNodes b else None) as [conn|] eqn:Ens; [by split; [left; eauto|]|].
  destruct (getDBFileForObject config name) as [boltdbfile|e|p|] eqn:Ef; cbn;
    [|by split; [right; eauto|]|by destruct (getDBFileForObject_returns config name) as [[? ?]|[? ?]]; congruence..].
  destruct (negb (file_exists a) && negb ignoremissed); cbn; [by split; [right; eauto|]|].
  pose proof (getDBFileForObject_known _ _ _ Ef) as Hname.
  unfold st_bind, mbind, lift, lockDB. rewrite Hopen.
  assert (Hfree : locked name b = false).
  { unfold locked. destruct Hname as [[E1 E2]|[E1 E2]]; rewrite E1.
    - rewrite E1 in Ens. by rewrite (mo_nodes b Hb), Ens.
    - rewrite E2 in Ebc. by rewrite (mo_bc b Hb), Ebc. }
  rewrite Hfree. destruct Hlock as [->|[e ->]]; [|by split; [right; eauto|]].
  split; [left; eauto|]. destruct Hb as [Hl Hn Hbn Hnn Hc]. unfold set_locked, effect.
  destruct Hname as [[E1 E2]|[E1 E2]]; rewrite E1, E2; split; cbn; rewrite ?Eo; try done.
  - intros n [= <-]. by apply isNodesDB_name.
  - by intros n [= <-].
Qed.

Lemma do_call_ok config c b :
  manager_ok b → opens c → returns (do_call config c b).1 ∧ manager_ok (do_call config c b).2.
Proof.
  intros Hb Hc. destruct c as [|name i a|]; cbn.
  - split; [left; eauto|by apply OpenConnection_ok].
  - destruct (getConnection_ok config name i a b Hb Hc) as [Hr Hs].
    destruct (getConnectionForObjectWithCheck config name i a b) as [r b']. cbn in *. split; [|done].
    destruct Hr as [[x ->]|[e ->]]; [left|right]; eauto.
  - rewrite CloseConnection_ok by done. split; [left; eauto|]. by split.
Qed.

(** whatever objects are asked for, as long as [bolt.Open] succeeds after
    [lockDB] did, every call returns, the mutexes a manager has are those of its
    connections, and [CloseConnection] gives up all of them. *)
Theorem connections_unlock config l :
  Forall opens l →
  let b := calls config l manager_init in
  manager_ok b ∧ CloseConnection b = (Ret tt, manager_init) ∧
  ∀ c, opens c → returns (do_call config c b).1.
Proof.
  intros Hl b. assert (Hb : manager_ok b).
  { unfold b, calls. assert (H0 : manager_ok manager_init) by by split. revert H0.
    generalize manager_init. induction Hl as [|c l Hc _ IH]; intros b0 H0; [done|].
    cbn. apply IH. by apply do_call_ok. }
  split; [done|]. split; [by apply CloseConnection_ok|]. intros c Hc. by apply do_call_ok.
Qed.

(** A failed [bolt.Open] keeps the mutex: the next use of the file waits for ever,
    also after [CloseConnection]. *)
Example failed_open_keeps_mutex config :
  let get r := CGet ClassNameBlockchain false (mkAttempt true (Ret tt) r) in
  let b := calls config [COpen; get (Err (ELib "timeout")); CClose; COpen] manager_init in
  connBC b = None ∧ lockedBC b = true ∧ (do_call config (get (Ret tt)) b).1 = OutOfFuel.
Proof. by vm_compute. Qed.

Lemma connections_unlock_witness :
  let a := mkAttempt true (Ret tt) (Ret tt) in
  let b := calls (mkDatabaseConfig [] (str "b.db") (str "n.db"))
             [COpen; CGet ClassNameNodes false a; CGet ClassNameUnspentOutputs false a] manager_init in
  lockedBC b = true ∧ lockedNodes b = true ∧ CloseConnection b = (Ret tt, manager_init).
Proof.
  split; [reflexivity|]. split; [reflexivity|]. apply connections_unlock.
  repeat constructor.
Defined.
