(* ===== verification/ChainIndex.v ===== *)
(** * The chain bucket refines a list of hashes

    [AddToChain], [RemoveFromChain], [BlockInChain] and [GetLocationInChain] of
    [node/database/blockchain.go] keep a doubly linked list in a bucket: the
    record of a hash is the hash before it and the hash after it.  The abstract
    state is the list of hashes from the first block to the top; the theorems
    say that every operation does on the bucket what its specification does on
    the list, errors included. *)

From Stdlib Require Import Strings.Byte ZifyNat.
From stdpp Require Import base strings numbers gmap list.
From S2P Require Import Prelude Platform Concrete Utils Database.

Import BlockchainDB.

(** ** The abstract list *)

Definition err_prev_not_found : goerror :=
  NewHashNotFoundDBError "Previous hash is not found in the chain".
Definition err_prev_has_next : goerror := NewHashDBError "Previous hash already has a next hash".
Definition err_not_in_chain : goerror := NewHashNotFoundDBError " ".
Definition err_not_last : goerror := NewHashDBError "Only last hash can be removed".

(** A hash goes after the last one. *)
Definition chain_add (hash prevHash : bytes) (hs : list bytes) : outcome (list bytes) :=
  if decide (last hs = Some prevHash ∨ prevHash = []) then Ret (hs ++ [hash])
  else if decide (prevHash ∈ hs) then Err err_prev_has_next
  else Err err_prev_not_found.

(** Only the last hash goes. *)
Definition chain_remove (hash : bytes) (hs : list bytes) : outcome (list bytes) :=
  if decide (last hs = Some hash) then Ret (take (length hs - 1) hs)
  else if decide (hash ∈ hs) then Err err_not_last
  else Err err_not_in_chain.

(** The hashes on both sides of position [i]. *)
Definition before (hs : list bytes) (i : nat) : option bytes :=
  match i with O => None | S j => hs !! j end.
Definition after (hs : list bytes) (i : nat) : option bytes := hs !! S i.

Section ChainIndex.
Context `{BoltLaws}.

(** A link of a record: a hash, or zeros. *)
Definition link (n : nat) (o : option bytes) : bytes := default (zeros n) o.

Definition chain_hash (n : nat) (h : bytes) : Prop := length h = n ∧ h ≠ zeros n.

(** The bucket of [f] holds the list [hs] of hashes of [n] bytes. *)
Record in_chain (n : nat) (f : boltfile) (hs : list bytes) : Prop := {
  ic_width : 0 < n ∧ (Z.of_nat n ≤ 32768)%Z;
  ic_bucket : blockChainBucket ∈ dom f;
  ic_hash h : h ∈ hs → chain_hash n h;
  ic_NoDup : NoDup hs;
  ic_record i h : hs !! i = Some h →
    bget f blockChainBucket h = Some (link n (before hs i) ++ link n (after hs i));
  ic_absent k : k ∉ hs → bget f blockChainBucket k = None
}.

(** *** Records *)

Lemma length_link n o : (∀ h, o = Some h → length h = n) → length (link n o) = n.
Proof. intros Ho. unfold link. destruct o as [h|]; simpl; [by apply Ho|apply length_zeros]. Qed.

Lemma before_elem hs i h : before hs i = Some h → h ∈ hs.
Proof. destruct i as [|i]; [done|]. apply list_elem_of_lookup_2. Qed.

Lemma after_elem hs i h : after hs i = Some h → h ∈ hs.
Proof. apply list_elem_of_lookup_2. Qed.

Lemma length_before n f hs i : in_chain n f hs → length (link n (before hs i)) = n.
Proof. intros Hc. apply length_link. intros h Hh%before_elem. by apply (ic_hash _ _ _ Hc). Qed.

Lemma length_after n f hs i : in_chain n f hs → length (link n (after hs i)) = n.
Proof. intros Hc. apply length_link. intros h Hh%after_elem. by apply (ic_hash _ _ _ Hc). Qed.

(** The two halves of a record, as the code cuts them. *)
Lemma record_halves n (p q : bytes) :
  length p = n → length q = n →
  go_copy (zeros n) (take n (p ++ q)) = p ∧ go_copy (zeros n) (drop n (p ++ q)) = q ∧
  length (p ++ q) = n * 2.
Proof.
  intros <- Hq. rewrite take_app_length, drop_app_length, length_app.
  rewrite !go_copy_full by (rewrite length_zeros; lia). split_and!; [done..|lia].
Qed.

Lemma record_set_next n (p q q' : bytes) :
  length p = n → length q = n → length q' = n → go_copy_at (p ++ q) n q' = p ++ q'.
Proof.
  intros <- Hq Hq'. unfold go_copy_at. rewrite take_app_length, drop_app_length.
  by rewrite go_copy_full by congruence.
Qed.

(** A link compared with the empty hash. *)
Lemma link_Gt n f hs o :
  in_chain n f hs → (∀ h, o = Some h → h ∈ hs) →
  bool_decide (bytes_Compare (link n o) (zeros n) = Gt) = bool_decide (is_Some o).
Proof.
  intros Hc Ho. destruct o as [h|]; simpl.
  - destruct (ic_hash _ _ _ Hc h) as [Hl Hz]; [by apply Ho|].
    rewrite <- Hl, bytes_Compare_zeros, Hl, (bool_decide_eq_false_2 (h = zeros n)) by done.
    reflexivity.
  - by rewrite bytes_Compare_refl.
Qed.

Lemma link_Eq n f hs o :
  in_chain n f hs → (∀ h, o = Some h → h ∈ hs) →
  (if bool_decide (bytes_Compare (link n o) (zeros n) = Eq) then [] else link n o) = default [] o.
Proof.
  intros Hc Ho. destruct o as [h|]; simpl.
  - destruct (ic_hash _ _ _ Hc h) as [Hl Hz]; [by apply Ho|].
    case_bool_decide as E; [|done]. by apply bytes_Compare_Eq in E.
  - by rewrite bytes_Compare_refl.
Qed.

Lemma storable_record n f hs k v :
  in_chain n f hs → length k = n → length v = n * 2 → storable k v.
Proof. intros [[? ?] _ _ _ _ _] Hk Hv. repeat split; [intros ->; simpl in Hk; lia|lia|lia]. Qed.

(** The record of a hash, and the bucket it is in. *)
Lemma chain_Get n f hs i h :
  in_chain n f hs → hs !! i = Some h →
  ∃ b, Bucket blockChainBucket f = Ret b ∧
       Get b h = link n (before hs i) ++ link n (after hs i).
Proof.
  intros Hc Hi. destruct (Bucket_in f _ (ic_bucket _ _ _ Hc)) as (b & E & Hb).
  exists b. split; [done|]. by rewrite (Get_bget _ _ _ _ E), (ic_record _ _ _ Hc i h Hi).
Qed.

Lemma chain_Get_absent n f hs k :
  in_chain n f hs → k ∉ hs → ∃ b, Bucket blockChainBucket f = Ret b ∧ Get b k = [].
Proof.
  intros Hc Hk. destruct (Bucket_in f _ (ic_bucket _ _ _ Hc)) as (b & E & Hb).
  exists b. split; [done|]. by rewrite (Get_bget _ _ _ _ E), (ic_absent _ _ _ Hc k Hk).
Qed.

(** ** Lookups *)

Lemma GetLocationInChain_at n f hs i h :
  in_chain n f hs → hs !! i = Some h →
  GetLocationInChain h f = Ret (true, default [] (before hs i), default [] (after hs i)).
Proof.
  intros Hc Hi. pose proof (ic_width _ _ _ Hc) as [Hn _]. unfold GetLocationInChain.
  assert (length h = n) as Hl by (by apply (ic_hash _ _ _ Hc), list_elem_of_lookup; eauto).
  rewrite Hl, (proj2 (Z.eqb_neq _ _)) by lia.
  destruct (chain_Get n f hs i h Hc Hi) as (b & -> & Eb). rewrite ret_bind, Eb.
  destruct (record_halves n _ _ (length_before n f hs i Hc) (length_after n f hs i Hc))
    as (E1 & E2 & E3).
  rewrite E3, CopyBytes_id, E1, E2, (proj2 (Z.eqb_eq _ _)) by lia.
  by rewrite !(link_Eq n f hs) by (done || intros ?; apply before_elem || apply after_elem).
Qed.

(** [GetLocationInChain] finds exactly the hashes of the list, and returns
    the neighbours of a hash it finds, empty at the ends. *)
Theorem GetLocationInChain_refines n f hs h :
  in_chain n f hs → length h = n →
  GetLocationInChain h f =
    match list_find (h =.) hs with
    | Some (i, _) => Ret (true, default [] (before hs i), default [] (after hs i))
    | None => Ret (false, [], [])
    end.
Proof.
  intros Hc Hl. destruct (list_find _ hs) as [[i h']|] eqn:Ef.
  - apply list_find_Some in Ef as (Hi & <- & _). by apply (GetLocationInChain_at n).
  - apply list_find_None in Ef. rewrite Forall_forall in Ef.
    pose proof (ic_width _ _ _ Hc) as [Hn _]. unfold GetLocationInChain.
    destruct (chain_Get_absent n f hs h Hc) as (b & -> & Eb); [by intros Hx%Ef|].
    rewrite ret_bind, Eb, Hl, !(proj2 (Z.eqb_neq _ _)) by (cbn [length]; lia). done.
Qed.

(** [BlockInChain] is membership in the list. *)
Lemma BlockInChain_refines n f hs h :
  in_chain n f hs → length h = n → BlockInChain h f = Ret (bool_decide (h ∈ hs)).
Proof.
  intros Hc Hl. pose proof (ic_width _ _ _ Hc) as [Hn _]. unfold BlockInChain.
  rewrite (proj2 (Z.eqb_neq _ _)) by lia. rewrite Hl. case_bool_decide as Hin.
  - apply list_elem_of_lookup in Hin as [i Hi].
    destruct (chain_Get n f hs i h Hc Hi) as (b & -> & Eb). rewrite ret_bind, Eb.
    destruct (record_halves n _ _ (length_before n f hs i Hc) (length_after n f hs i Hc))
      as (_ & _ & ->).
    by rewrite (proj2 (Z.eqb_eq _ _)) by lia.
  - destruct (chain_Get_absent n f hs h Hc Hin) as (b & -> & Eb). rewrite ret_bind, Eb.
    by rewrite (proj2 (Z.eqb_neq _ _)) by (cbn [length]; lia).
Qed.

(** ** Additions *)

(** Nothing but the bucket [name] differs. *)
Definition only_bucket (name : string) (f f' : boltfile) : Prop :=
  dom f' = dom f ∧ ∀ name' k, name' ≠ name → bget f' name' k = bget f name' k.

Lemma only_bucket_refl name f : only_bucket name f f.
Proof. done. Qed.

Lemma set_record_only name f k o f' : set_record f name k o f' → only_bucket name f f'.
Proof. intros [Hd Hr]. split; [done|]. intros name' k' Hn. apply (set_record_ne f name k o); [by split|by left]. Qed.

Lemma only_bucket_trans name f1 f2 f3 :
  only_bucket name f1 f2 → only_bucket name f2 f3 → only_bucket name f1 f3.
Proof.
  intros [D1 R1] [D2 R2]. split; [congruence|]. intros name' k Hn. by rewrite R2, R1.
Qed.

Lemma lookup_last_index (hs : list bytes) p : last hs = Some p → hs !! (length hs - 1) = Some p.
Proof. rewrite last_lookup. by replace (pred (length hs)) with (length hs - 1) by lia. Qed.

Lemma before_snoc hs h i : i ≤ length hs → before (hs ++ [h]) i = if decide (i = length hs) then last hs else before hs i.
Proof.
  intros Hi. destruct i as [|i]; simpl.
  - case_decide as E; [|done]. by destruct hs.
  - rewrite lookup_app_l by lia. case_decide as E; [|done].
    rewrite last_lookup. f_equal. lia.
Qed.

Lemma after_snoc hs h i : i ≤ length hs → after (hs ++ [h]) i = if decide (S i = length hs) then Some h else after hs i.
Proof.
  intros Hi. unfold after. case_decide as E.
  - by rewrite E, list_lookup_middle.
  - destruct (decide (S i < length hs)); [by rewrite lookup_app_l by lia|].
    rewrite !lookup_ge_None_2; [done|lia|rewrite length_app; simpl; lia].
Qed.

Lemma after_last hs : after hs (length hs - 1) = None.
Proof. apply lookup_ge_None_2. lia. Qed.

(** The two writes of an addition make the list longer by one. *)
Lemma in_chain_snoc n f f1 f2 hs h :
  in_chain n f hs → chain_hash n h → h ∉ hs →
  match last hs with
  | Some p => set_record f blockChainBucket p (Some (link n (before hs (length hs - 1)) ++ h)) f1
  | None => f1 = f
  end →
  set_record f1 blockChainBucket h (Some (link n (last hs) ++ zeros n)) f2 →
  in_chain n f2 (hs ++ [h]).
Proof.
  intros Hc Hh Hnin H1 H2. split.
  - apply Hc.
  - rewrite (set_record_dom _ _ _ _ _ H2). destruct (last hs); [|subst; apply Hc].
    rewrite (set_record_dom _ _ _ _ _ H1). apply Hc.
  - intros h' [Hx|Hx%list_elem_of_singleton]%elem_of_app; [by apply (ic_hash _ _ _ Hc)|by subst].
  - apply NoDup_app. split; [apply Hc|]. split; [|apply NoDup_singleton].
    by intros x Hx ->%list_elem_of_singleton.
  - intros i h' Hi.
    assert (i ≤ length hs) as Hle by (apply lookup_lt_Some in Hi; rewrite length_app in Hi; simpl in Hi; lia).
    rewrite before_snoc, after_snoc by done. destruct (decide (i = length hs)) as [->|Hne].
    { rewrite list_lookup_middle in Hi by done. simplify_eq.
      rewrite decide_False by lia. unfold after.
      rewrite lookup_ge_None_2 by lia. by eapply set_record_eq. }
    rewrite lookup_app_l in Hi by lia.
    assert (h' ≠ h) by (intros ->; by apply list_elem_of_lookup_2 in Hi).
    rewrite (set_record_ne _ _ _ _ _ _ _ H2) by auto. destruct (decide (S i = length hs)) as [Hs|Hs].
    + assert (last hs = Some h') as El by (rewrite last_lookup, <- Hs; done).
      rewrite El in H1. rewrite (set_record_eq _ _ _ _ _ H1). by replace (length hs - 1) with i by lia.
    + rewrite <- (ic_record _ _ _ Hc i h' Hi). destruct (last hs) as [p|] eqn:El; [|by subst].
      apply (set_record_ne _ _ _ _ _ _ _ H1). right. intros ->. apply lookup_last_index in El.
      apply Hs. pose proof (NoDup_lookup hs i (length hs - 1) p (ic_NoDup _ _ _ Hc) Hi El).
      apply lookup_lt_Some in Hi. lia.
  - intros k [Hk1 Hk2]%not_elem_of_app. rewrite list_elem_of_singleton in Hk2.
    rewrite (set_record_ne _ _ _ _ _ _ _ H2) by auto. rewrite <- (ic_absent _ _ _ Hc k Hk1).
    destruct (last hs) as [p|] eqn:El; [|by subst].
    apply (set_record_ne _ _ _ _ _ _ _ H1). right. intros ->. by apply Hk1, last_Some_elem_of.
Qed.

Lemma go_copy_zeros n p : length p = n → go_copy (zeros (n * 2)) p = p ++ zeros n.
Proof.
  intros <-. unfold go_copy, zeros. rewrite length_replicate, take_ge by lia.
  rewrite drop_replicate. do 2 f_equal. lia.
Qed.

Lemma zeros_double n : zeros (n * 2) = zeros n ++ zeros n.
Proof. unfold zeros. rewrite <- replicate_add. f_equal. lia. Qed.

(** An addition behind a hash of the list, up to its two writes. *)
Lemma AddToChain_behind n f hs i h prevHash :
  in_chain n f hs → chain_hash n h → hs !! i = Some prevHash →
  AddToChain h prevHash f =
    if decide (S i = length hs)
    then Update (_ ← Put blockChainBucket prevHash (link n (before hs i) ++ h);
                 Put blockChainBucket h (prevHash ++ zeros n)) f
    else (Err err_prev_has_next, f).
Proof.
  intros Hc [Hl Hz] Hi. pose proof (ic_width _ _ _ Hc) as [Hn _].
  assert (length prevHash = n) as Lp by (by apply (ic_hash _ _ _ Hc), list_elem_of_lookup; eauto).
  unfold AddToChain. rewrite Hl, (proj2 (Z.eqb_neq _ _)), (proj2 (Z.ltb_lt _ _)) by lia.
  destruct (chain_Get n f hs i prevHash Hc Hi) as (b & Eb & Eg).
  pose proof (length_before n f hs i Hc) as Lb. pose proof (length_after n f hs i Hc) as La.
  destruct (record_halves n _ _ Lb La) as (_ & E2 & E3).
  unfold Update, mbind at 1 2 4, st_bind at 1 2 4, ask.
  rewrite Eb, Eg, E3, (proj2 (Z.ltb_ge _ _)) by lia.
  rewrite CopyBytes_id, E2, (link_Gt n f hs), record_set_next
    by (done || intros ?; apply after_elem).
  apply lookup_lt_Some in Hi. unfold after. rewrite go_copy_zeros by done.
  destruct (decide (S i = length hs)) as [Hs|Hs].
  - rewrite bool_decide_eq_false_2 by (rewrite lookup_ge_None_2 by lia; by intros [? ?]).
    unfold mbind, st_bind. by destruct (Put _ prevHash _ f) as [[]?].
  - rewrite bool_decide_eq_true_2 by (apply lookup_lt_is_Some; lia). done.
Qed.

(** Adding a new hash after [prevHash] does to the bucket what [chain_add]
    does to the list: behind the last hash it is appended and no other bucket
    changes; behind another hash, or an unknown one, the error of the case is
    returned and the file is as it was.  An empty [prevHash] is the way the
    first block is added, to an empty list. *)
Lemma AddToChain_refines n f hs h prevHash :
  in_chain n f hs → chain_hash n h → h ∉ hs → (prevHash = [] → hs = []) →
  match chain_add h prevHash hs with
  | Ret hs' => ∃ f', AddToChain h prevHash f = (Ret tt, f') ∧ in_chain n f' hs' ∧
                     only_bucket blockChainBucket f f'
  | Err e => AddToChain h prevHash f = (Err e, f)
  | _ => False
  end.
Proof.
  intros Hc Hh Hnin Hfirst. pose proof (ic_width _ _ _ Hc) as [Hn _]. unfold chain_add.
  destruct (decide (prevHash = [])) as [->|Hne].
  { rewrite (Hfirst eq_refl) in *. rewrite decide_True by by right. simpl app.
    destruct (Put_spec f blockChainBucket h (zeros (n * 2))) as (f' & Hp & Hr);
      [apply Hc|eapply storable_record; [done|apply Hh|apply length_zeros]|].
    exists f'. split; [|split; [|by eapply set_record_only]].
    - unfold AddToChain. rewrite (proj1 Hh), (proj2 (Z.eqb_neq _ _)) by lia. apply Update_Ret.
      destruct (Bucket_in f _ (ic_bucket _ _ _ Hc)) as (b & _ & Eb).
      unfold mbind, st_bind, ask. rewrite Eb. exact Hp.
    - apply (in_chain_snoc n f f f' [] h Hc); [done|done|done|]. simpl. by rewrite <- zeros_double. }
  destruct (decide (prevHash ∈ hs)) as [Hin|Hin].
  - apply list_elem_of_lookup in Hin as [i Hi].
    pose proof (AddToChain_behind n f hs i h prevHash Hc Hh Hi) as Eadd.
    destruct (decide (last hs = Some prevHash)) as [El|El].
    + rewrite decide_True by by left.
      assert (i = length hs - 1) as ->.
      { apply (NoDup_lookup hs _ _ prevHash (ic_NoDup _ _ _ Hc) Hi), lookup_last_index, El. }
      apply lookup_lt_Some in Hi as Hlt. rewrite decide_True in Eadd by lia.
      assert (length prevHash = n) as Lp by (by apply (ic_hash _ _ _ Hc), list_elem_of_lookup; eauto).
      destruct (Put_spec f blockChainBucket prevHash (link n (before hs (length hs - 1)) ++ h))
        as (f1 & Hp1 & Hr1); [apply Hc| |].
      { eapply storable_record; [done|done|]. rewrite length_app, (length_before n f), (proj1 Hh) by done. lia. }
      destruct (Put_spec f1 blockChainBucket h (prevHash ++ zeros n)) as (f2 & Hp2 & Hr2).
      { rewrite (set_record_dom _ _ _ _ _ Hr1). apply Hc. }
      { eapply storable_record; [done|apply Hh|]. rewrite length_app, length_zeros. lia. }
      exists f2. split; [rewrite Eadd; apply Update_Ret, st_bind_Ret; eauto|]. split.
      * apply (in_chain_snoc n f f1 f2 hs h Hc); [done|done|by rewrite El|by rewrite El].
      * eapply only_bucket_trans; eapply set_record_only; eassumption.
    + rewrite decide_False by by intros [?|?].
      rewrite Eadd, decide_False; [done|]. intros Es. apply El. by rewrite last_lookup, <- Es.
  - rewrite decide_False by (intros [?%last_Some_elem_of|?]; done).
    destruct (chain_Get_absent n f hs prevHash Hc Hin) as (b & Eb & Eg).
    unfold AddToChain. rewrite (proj1 Hh), (proj2 (Z.eqb_neq _ _)), (proj2 (Z.ltb_lt _ _))
      by (destruct prevHash; [done|cbn [length]; lia]).
    unfold Update, mbind at 1 2, st_bind at 1 2, ask. rewrite Eb, Eg, (proj2 (Z.ltb_lt _ _)) by (cbn [length]; lia).
    done.
Qed.


(** ** Removals *)

Lemma before_app hs h i : i < length hs → before (hs ++ [h]) i = before hs i.
Proof. intros Hi. rewrite before_snoc by lia. by rewrite decide_False by lia. Qed.

(** The two writes of a removal make the list shorter by one. *)
Lemma in_chain_unsnoc n f f1 f2 hs h :
  in_chain n f (hs ++ [h]) →
  match last hs with
  | Some p => set_record f blockChainBucket p (Some (link n (before hs (length hs - 1)) ++ zeros n)) f1
  | None => f1 = f
  end →
  set_record f1 blockChainBucket h None f2 →
  in_chain n f2 hs.
Proof.
  intros Hc H1 H2. pose proof (ic_NoDup _ _ _ Hc) as Hnd.
  apply NoDup_app in Hnd as (Hnd & Hnin & _).
  assert (h ∉ hs) as Hh by (intros Hx; by apply (Hnin h Hx), list_elem_of_singleton).
  split; [apply Hc| |intros h' Hx; apply (ic_hash _ _ _ Hc), elem_of_app; by left|done| |].
  - rewrite (set_record_dom _ _ _ _ _ H2). destruct (last hs); [|subst; apply Hc].
    rewrite (set_record_dom _ _ _ _ _ H1). apply Hc.
  - intros i h' Hi. assert (i < length hs) as Hlt by by apply lookup_lt_Some in Hi.
    assert (h' ≠ h) by (intros ->; by apply list_elem_of_lookup_2 in Hi).
    rewrite (set_record_ne _ _ _ _ _ _ _ H2) by auto. destruct (decide (S i = length hs)) as [Hs|Hs].
    + assert (last hs = Some h') as El by (rewrite last_lookup, <- Hs; done).
      rewrite El in H1. rewrite (set_record_eq _ _ _ _ _ H1). unfold after.
      rewrite (lookup_ge_None_2 hs (S i)) by lia. by replace (length hs - 1) with i by lia.
    + assert (bget f blockChainBucket h'
              = Some (link n (before hs i) ++ link n (after hs i))) as <-.
      { rewrite (ic_record _ _ _ Hc i h') by (by rewrite lookup_app_l by lia).
        rewrite before_app, after_snoc, decide_False by lia. done. }
      destruct (last hs) as [p|] eqn:El; [|by subst].
      apply (set_record_ne _ _ _ _ _ _ _ H1). right. intros ->. apply lookup_last_index in El.
      apply Hs. pose proof (NoDup_lookup hs i (length hs - 1) p Hnd Hi El). lia.
  - intros k Hk. destruct (decide (k = h)) as [->|Hne]; [by eapply set_record_eq|].
    rewrite (set_record_ne _ _ _ _ _ _ _ H2) by auto.
    rewrite <- (ic_absent _ _ _ Hc k) by (rewrite elem_of_app, list_elem_of_singleton; tauto).
    destruct (last hs) as [p|] eqn:El; [|by subst].
    apply (set_record_ne _ _ _ _ _ _ _ H1). right. intros ->. by apply Hk, last_Some_elem_of.
Qed.

(** A removal of a hash of the list, up to its writes. *)
Lemma RemoveFromChain_at n f hs i h :
  in_chain n f hs → hs !! i = Some h →
  RemoveFromChain h f =
    if decide (S i = length hs)
    then Update (_ ← match before hs i with
                     | Some p => Put blockChainBucket p (link n (before hs (i - 1)) ++ zeros n)
                     | None => mret tt
                     end;
                 Delete blockChainBucket h) f
    else (Err err_not_last, f).
Proof.
  intros Hc Hi. pose proof (ic_width _ _ _ Hc) as [Hn _].
  assert (length h = n) as Lh by (by apply (ic_hash _ _ _ Hc), list_elem_of_lookup; eauto).
  unfold RemoveFromChain. rewrite Lh, (proj2 (Z.eqb_neq _ _)) by lia.
  destruct (chain_Get n f hs i h Hc Hi) as (b & Eb & Eg).
  pose proof (length_before n f hs i Hc) as Lb. pose proof (length_after n f hs i Hc) as La.
  destruct (record_halves n _ _ Lb La) as (E1 & E2 & E3).
  unfold Update, mbind at 1 3, st_bind at 1 3, ask.
  rewrite Eb, Eg, E3, (proj2 (Z.ltb_ge _ _)) by lia.
  rewrite CopyBytes_id, E1, E2, !(link_Gt n f hs)
    by (done || intros ?; apply after_elem || apply before_elem).
  pose proof (lookup_lt_Some _ _ _ Hi) as Hlt. unfold after at 1.
  destruct (decide (S i = length hs)) as [Hs|Hs].
  2: { rewrite bool_decide_eq_true_2 by (apply lookup_lt_is_Some; lia). done. }
  rewrite bool_decide_eq_false_2 by (rewrite lookup_ge_None_2 by lia; by intros [? ?]).
  destruct (before hs i) as [p|] eqn:Ep; [|done]. simpl link.
  rewrite bool_decide_eq_true_2 by eauto.
  destruct i as [|i]; [done|]. simpl in Ep.
  assert (length p = n) as Lp by (apply (ic_hash _ _ _ Hc), list_elem_of_lookup; eauto).
  destruct (chain_Get n f hs i p Hc Ep) as (b' & Eb' & Eg').
  assert (b' = b) as -> by congruence.
  pose proof (length_before n f hs i Hc) as Lb'. pose proof (length_after n f hs i Hc) as La'.
  destruct (record_halves n _ _ Lb' La') as (_ & _ & E3').
  rewrite Eg', E3', (proj2 (Z.ltb_ge _ _)) by lia.
  rewrite CopyBytes_id, record_set_next by (done || apply length_zeros).
  by replace (S i - 1) with i by lia.
Qed.

(** Removing a hash does to the bucket what [chain_remove] does to the
    list: the last hash goes, for another hash of the list or for an unknown
    one the error of the case is returned and the file is as it was. *)
Lemma RemoveFromChain_refines n f hs h :
  in_chain n f hs → length h = n →
  match chain_remove h hs with
  | Ret hs' => ∃ f', RemoveFromChain h f = (Ret tt, f') ∧ in_chain n f' hs' ∧
                     only_bucket blockChainBucket f f'
  | Err e => RemoveFromChain h f = (Err e, f)
  | _ => False
  end.
Proof.
  intros Hc Lh. unfold chain_remove. destruct (decide (last hs = Some h)) as [El|El].
  - apply last_Some in El as [hs' ->].
    rewrite length_app. simpl. replace (length hs' + 1 - 1) with (length hs') by lia.
    rewrite take_app_length.
    assert ((hs' ++ [h]) !! length hs' = Some h) as Hi by by apply list_lookup_middle.
    rewrite (RemoveFromChain_at n f _ _ h Hc Hi), decide_True by (rewrite length_app; simpl; lia).
    rewrite before_snoc, decide_True by lia.
    assert (∃ f1, match last hs' with
                  | Some p => Put blockChainBucket p
                                (link n (before (hs' ++ [h]) (length hs' - 1)) ++ zeros n)
                  | None => mret tt
                  end f = (Ret tt, f1) ∧
              match last hs' with
              | Some p => set_record f blockChainBucket p
                            (Some (link n (before hs' (length hs' - 1)) ++ zeros n)) f1
              | None => f1 = f
              end ∧ only_bucket blockChainBucket f f1) as (f1 & Hp1 & Hr1 & Ho1).
    { destruct (last hs') as [p|] eqn:El; [|by exists f].
      apply lookup_last_index in El as Hp. pose proof (lookup_lt_Some _ _ _ Hp) as Hlt.
      pose proof (length_before n f _ (length hs' - 1) Hc) as Lb. rewrite before_app in * by lia.
      destruct (Put_spec f blockChainBucket p (link n (before hs' (length hs' - 1)) ++ zeros n))
        as (f1 & Hf1 & Hr1); [apply Hc| |].
      - eapply storable_record; [done| |rewrite length_app, length_zeros; lia].
        apply (ic_hash _ _ _ Hc), elem_of_app. left. by apply last_Some_elem_of.
      - exists f1. split; [done|]. split; [done|]. by eapply set_record_only. }
    destruct (Delete_spec f1 blockChainBucket h) as (f2 & Hp2 & Hr2).
    { rewrite (proj1 Ho1). apply Hc. }
    exists f2. split; [apply Update_Ret, st_bind_Ret; eauto|]. split.
    + by eapply in_chain_unsnoc.
    + eapply only_bucket_trans; [done|]. by eapply set_record_only.
  - destruct (decide (h ∈ hs)) as [Hin|Hin].
    + apply list_elem_of_lookup in Hin as [i Hi].
      rewrite (RemoveFromChain_at n f _ _ h Hc Hi), decide_False; [done|].
      intros Es. apply El. by rewrite last_lookup, <- Es.
    + destruct (chain_Get_absent n f hs h Hc Hin) as (b & Eb & Eg).
      pose proof (ic_width _ _ _ Hc) as [Hn _].
      unfold RemoveFromChain. rewrite Lh, (proj2 (Z.eqb_neq _ _)) by lia.
      unfold Update, mbind at 1, st_bind at 1, ask.
      by rewrite Eb, Eg, (proj2 (Z.ltb_lt _ _)) by (cbn [length]; lia).
Qed.


(** ** Runs *)

(** The list determines the records of the bucket. *)
Lemma in_chain_records n f f' hs :
  in_chain n f hs → in_chain n f' hs → ∀ k, bget f blockChainBucket k = bget f' blockChainBucket k.
Proof.
  intros Hc Hc' k. destruct (decide (k ∈ hs)) as [Hk|Hk].
  - apply list_elem_of_lookup in Hk as [i Hi].
    by rewrite (ic_record _ _ _ Hc i k Hi), (ic_record _ _ _ Hc' i k Hi).
  - by rewrite (ic_absent _ _ _ Hc k Hk), (ic_absent _ _ _ Hc' k Hk).
Qed.

(** removing the block that was added last restores every record of the
    file. *)
Theorem RemoveFromChain_AddToChain n f hs h prevHash f1 :
  in_chain n f hs → chain_hash n h → h ∉ hs → default [] (last hs) = prevHash →
  AddToChain h prevHash f = (Ret tt, f1) →
  ∃ f2, RemoveFromChain h f1 = (Ret tt, f2) ∧ dom f2 = dom f ∧
        ∀ name k, bget f2 name k = bget f name k.
Proof.
  intros Hc Hh Hnin Hp Hadd.
  assert (chain_add h prevHash hs = Ret (hs ++ [h])) as Ec.
  { unfold chain_add. rewrite decide_True; [done|]. subst. destruct (last hs); [by left|by right]. }
  assert (prevHash = [] → hs = []) as Hfirst.
  { intros ->. destruct (last hs) as [p|] eqn:El; [|by apply last_None in El]. simpl in Hp. subst.
    apply last_Some_elem_of, (ic_hash _ _ _ Hc) in El as [Hl _]. pose proof (ic_width _ _ _ Hc). simpl in Hl. lia. }
  pose proof (AddToChain_refines n f hs h prevHash Hc Hh Hnin Hfirst) as Ha. rewrite Ec in Ha.
  destruct Ha as (f1' & Ha & Hc1 & Ho1). rewrite Hadd in Ha. injection Ha as <-.
  pose proof (RemoveFromChain_refines n f1 _ h Hc1 (proj1 Hh)) as Hr. unfold chain_remove in Hr.
  rewrite last_snoc, decide_True, length_app in Hr by done. simpl in Hr.
  replace (length hs + 1 - 1) with (length hs) in Hr by lia. rewrite take_app_length in Hr.
  destruct Hr as (f2 & Hr & Hc2 & Ho2). exists f2. split; [done|].
  pose proof (only_bucket_trans _ _ _ _ Ho1 Ho2) as [Hd Ho]. split; [done|].
  intros name k. destruct (decide (name = blockChainBucket)) as [->|]; [|by apply Ho].
  by apply (in_chain_records n _ _ hs).
Qed.

(** The operations that change the chain, and what each does when its error
    is reported and dropped. *)
Inductive chain_op := OpAdd (hash prevHash : bytes) | OpRemove (hash : bytes).

Definition exec_op (op : chain_op) : st boltfile unit :=
  match op with
  | OpAdd hash prevHash => AddToChain hash prevHash
  | OpRemove hash => RemoveFromChain hash
  end.
Definition run_op (op : chain_op) : st boltfile unit := drop_err (exec_op op).
Definition run_ops (ops : list chain_op) : st boltfile unit := sfor ops (λ _ op, run_op op) tt.

Definition spec_result (hs : list bytes) (op : chain_op) : outcome (list bytes) :=
  match op with
  | OpAdd hash prevHash => chain_add hash prevHash hs
  | OpRemove hash => chain_remove hash hs
  end.
Definition spec_op (hs : list bytes) (op : chain_op) : list bytes :=
  match spec_result hs op with Ret hs' => hs' | _ => hs end.

(** What the callers of the operations ensure: a block that is added is new,
    and only the first one is added without a block before it. *)
Definition legal_op (n : nat) (hs : list bytes) (op : chain_op) : Prop :=
  match op with
  | OpAdd hash prevHash => chain_hash n hash ∧ (hash ∉ hs) ∧ (prevHash = [] → hs = [])
  | OpRemove hash => length hash = n
  end.
Fixpoint legal_ops (n : nat) (hs : list bytes) (ops : list chain_op) : Prop :=
  match ops with
  | [] => True
  | op :: ops' => legal_op n hs op ∧ legal_ops n (spec_op hs op) ops'
  end.

(** C18: an addition or a removal does to the bucket what its specification
    does to the list of hashes: where the specification returns a list, the
    operation succeeds, the bucket holds that list, and no other bucket
    changes; where it has an error (the hash before is unknown or is not the
    last, the hash to remove is), the operation returns that error and the file
    is as it was. *)
Theorem chain_op_refines n f hs op :
  in_chain n f hs → legal_op n hs op →
  match spec_result hs op with
  | Ret hs' => ∃ f', exec_op op f = (Ret tt, f') ∧ in_chain n f' hs' ∧
                     only_bucket blockChainBucket f f'
  | Err e => exec_op op f = (Err e, f)
  | _ => False
  end.
Proof.
  intros Hc Hop. destruct op as [h p|h]; simpl in *.
  - destruct Hop as (Hh & Hnin & Hfirst). by apply AddToChain_refines.
  - by apply RemoveFromChain_refines.
Qed.

(** whatever legal additions and removals are made, in whatever order and
    whether each succeeds or fails, the bucket holds the list the abstract
    operations reach, and no other bucket changes. *)
Theorem run_ops_refines n f hs ops :
  in_chain n f hs → legal_ops n hs ops →
  ∃ f', run_ops ops f = (Ret tt, f') ∧ in_chain n f' (fold_left spec_op ops hs) ∧
        only_bucket blockChainBucket f f'.
Proof.
  revert f hs. induction ops as [|op ops IH]; intros f hs Hc Hl; [by exists f|].
  destruct Hl as [Hop Hl].
  assert (∃ f1, run_op op f = (Ret tt, f1) ∧ in_chain n f1 (spec_op hs op) ∧
                only_bucket blockChainBucket f f1) as (f1 & Hr & Hc1 & Ho1).
  { destruct op as [h p|h]; unfold run_op, exec_op, spec_op, spec_result, drop_err.
    - destruct Hop as (Hh & Hnin & Hf). pose proof (AddToChain_refines n f hs h p Hc Hh Hnin Hf) as Ha.
      destruct (chain_add h p hs); try done.
      + destruct Ha as (f1 & -> & ?). by exists f1.
      + rewrite Ha. by exists f.
    - pose proof (RemoveFromChain_refines n f hs h Hc Hop) as Ha. destruct (chain_remove h hs); try done.
      + destruct Ha as (f1 & -> & ?). by exists f1.
      + rewrite Ha. by exists f. }
  destruct (IH f1 (spec_op hs op) Hc1 Hl) as (f2 & Hr2 & Hc2 & Ho2).
  exists f2. split; [|split; [done|by eapply only_bucket_trans]].
  unfold run_ops. simpl. apply st_bind_Ret. eauto.
Qed.

(** The buckets [InitDB] makes hold the empty list. *)
Lemma in_chain_init n f :
  0 < n → (Z.of_nat n ≤ 32768)%Z → blocksBucket ∉ dom f → blockChainBucket ∉ dom f →
  ∃ f', InitDB f = (Ret tt, f') ∧ in_chain n f' [].
Proof.
  intros Hn Hn' Hb Hc. destruct (CreateBucket_spec f blocksBucket Hb) as (f1 & E1 & D1 & R1).
  destruct (CreateBucket_spec f1 blockChainBucket) as (f2 & E2 & D2 & R2).
  { rewrite D1, elem_of_union, elem_of_singleton. by intros [?|?]. }
  exists f2. split; [apply Update_Ret, st_bind_Ret; eauto|]. split; try done.
  - rewrite D2. set_solver.
  - intros h Hh. by apply elem_of_nil in Hh.
  - constructor.
  - intros k _. rewrite R2, R1. unfold bget. apply not_elem_of_dom in Hc. by rewrite Hc.
Qed.
End ChainIndex.

Section Witnesses.
Import MapBolt.

(** A file with the two buckets of the blockchain, and two hashes of two bytes. *)
Definition demo_file : boltfile :=
  {[ blocksBucket := b_empty; blockChainBucket := b_empty ]}.
Definition demo_h1 : bytes := [x01; x02].
Definition demo_h2 : bytes := [x03; x04].

Lemma empty_in_chain : in_chain 2 demo_file [].
Proof.
  split.
  - split; lia.
  - apply elem_of_dom. by eexists.
  - intros h Hh. by apply elem_of_nil in Hh.
  - constructor.
  - done.
  - intros k _. unfold bget. simpl. by case_bool_decide.
Qed.

Lemma two_bytes_hash b1 b2 : b1 ≠ x00 → chain_hash 2 [b1; b2].
Proof. intros Hb. split; [done|]. by intros [= ? ?]. Qed.

Lemma demo_ops_legal :
  legal_ops 2 [] [OpAdd demo_h1 []; OpAdd demo_h2 demo_h1; OpAdd [x05; x06] demo_h1;
                  OpRemove demo_h1; OpRemove demo_h2].
Proof.
  repeat (split; [first [reflexivity
    |split; [by apply two_bytes_hash|split; [by apply (bool_decide_unpack _)|done]]]|]). done.
Qed.

Lemma run_ops_refines_witness :
  ∃ f', run_ops [OpAdd demo_h1 []; OpAdd demo_h2 demo_h1; OpAdd [x05; x06] demo_h1;
                 OpRemove demo_h1; OpRemove demo_h2] demo_file = (Ret tt, f') ∧
        in_chain 2 f' [demo_h1] ∧ only_bucket blockChainBucket demo_file f'.
Proof. exact (run_ops_refines 2 demo_file [] _ empty_in_chain demo_ops_legal). Defined.

Lemma chain_op_refines_witness :
  exec_op (OpRemove demo_h1) demo_file = (Err err_not_in_chain, demo_file).
Proof. exact (chain_op_refines 2 demo_file [] (OpRemove demo_h1) empty_in_chain eq_refl). Defined.

Lemma GetLocationInChain_refines_witness :
  GetLocationInChain demo_h1 demo_file = Ret (false, [], []).
Proof. exact (GetLocationInChain_refines 2 demo_file [] demo_h1 empty_in_chain eq_refl). Defined.

Lemma RemoveFromChain_AddToChain_witness :
  ∃ f2, RemoveFromChain demo_h1 (AddToChain demo_h1 [] demo_file).2 = (Ret tt, f2) ∧
        dom f2 = dom demo_file ∧ ∀ name k, bget f2 name k = bget demo_file name k.
Proof.
  apply (RemoveFromChain_AddToChain 2 demo_file [] demo_h1 [] _ empty_in_chain).
  - by apply two_bytes_hash.
  - by apply not_elem_of_nil.
  - reflexivity.
  - reflexivity.
Defined.

End Witnesses.
