(* ===== verification/Blockchain.v ===== *)
(** * Package [node/blockchain]: the chain of blocks

    [manager.go] and [iterator.go].  Loops that follow the hashes of stored
    blocks take a [fuel]; the theorems of [BlockchainLookup.v] and [BlockchainUpdate.v] say how much
    is enough.
    Messages to the logger are left out, but for the dereferences they make. *)

From Stdlib Require Import Strings.Byte ZifyNat.
From stdpp Require Import base strings numbers gmap list.
From S2P Require Import Prelude Float64 Platform Concrete Utils Structures Database.

Import BlockchainDB.

(** Results of [AddBlock] and of the state checks. *)
Definition BCBAddState_error : Z := 0.
Definition BCBAddState_addedToTop : Z := 1.
Definition BCBAddState_addedToParallelTop : Z := 2.
Definition BCBAddState_addedToParallel : Z := 3.
Definition BCBAddState_notAddedNoPrev : Z := 4.
Definition BCBAddState_notAddedExists : Z := 5.
Definition BCBState_error : Z := -1.
Definition BCBState_canAdd : Z := 0.
Definition BCBState_exists : Z := 1.
Definition BCBState_notExistAndPrevNotExist : Z := 2.

(** [for { ... }] with a state: the body goes on with a new state or leaves
    the loop. *)
Inductive step (S R : Type) := Continue (s : S) | Break (r : R).
Arguments Continue {S R} s.
Arguments Break {S R} r.

Fixpoint loop {S R} (fuel : nat) (body : S → outcome (step S R)) (s : S) : outcome R :=
  match fuel with
  | O => OutOfFuel
  | Datatypes.S fuel' =>
      x ← body s;
      match x with
      | Continue s' => loop fuel' body s'
      | Break r => Ret r
      end
  end.

Section Iterator.
Context `{Bolt} `{!Gob Block}.

(** *** [iterator.go] *)

Record BlockchainIterator := mkBlockchainIterator { currentHash : bytes }.

Definition NewBlockchainIterator (db : DB) : outcome BlockchainIterator :=
  bcdb ← GetBlockchainObject db;
  starttip ← GetTopHash bcdb;
  Ret (mkBlockchainIterator starttip).

Definition NewBlockchainIteratorFrom (startHash : bytes) : BlockchainIterator :=
  mkBlockchainIterator startHash.

Definition Next (i : BlockchainIterator) (db : DB) : outcome (Block * BlockchainIterator) :=
  bcdb ← GetBlockchainObject db;
  encodedBlock ← GetBlock (currentHash i) bcdb;
  block ← DeserializeBlock encodedBlock;
  Ret (block, mkBlockchainIterator (blk_PrevBlockHash block)).

(** A loop over the blocks from an iterator down to the first block, each
    obtained with its error dropped. *)
Definition each_block {S R} (fuel : nat) (db : DB) (i : BlockchainIterator)
    (body : S → Block → outcome (step S R)) (s : S) : outcome R :=
  loop fuel (λ '(i, s),
    '(block, i') ← unchecked (Next i db);
    x ← body s block;
    Ret (match x with Continue s' => Continue (i', s') | Break r => Break r end)) (i, s).
End Iterator.

Section History.
Context `{Crypto} `{Bolt} `{!Gob Block}.

(** The inputs of a transaction, up to the first that uses the key. *)
Fixpoint history_inputs (pubKeyHash : bytes) (vins : list TXInput) (spentaddress : bytes)
    : bool * bytes :=
  match vins with
  | [] => (false, spentaddress)
  | inp :: vins' =>
      let spentaddress := PubKeyToAddres (in_PubKey inp) in
      if UsesKey inp pubKeyHash then (true, spentaddress)
      else history_inputs pubKeyHash vins' spentaddress
  end.

(** The value of the outputs to other keys, and the address of the last. *)
Definition history_outputs (pubKeyHash : bytes) (vouts : list TXOutput) : float64 * bytes :=
  fold_left (λ '(spentvalue, destaddress) out,
    if negb (IsLockedWithKey out pubKeyHash)
    then (f64_add spentvalue (out_Value out), PubKeyHashToAddres (out_PubKeyHash out))
    else (spentvalue, destaddress)) vouts (f64_zero, []).

Definition history_income (pubKeyHash : bytes) (vouts : list TXOutput) : float64 :=
  fold_left (λ income out,
    if IsLockedWithKey out pubKeyHash then f64_add income (out_Value out) else income)
    vouts f64_zero.

(** The records one transaction adds. *)
Definition history_tx (pubKeyHash address : bytes) (tx : Transaction)
    : outcome (list TransactionsHistory) :=
  let '(spent, spentaddress) := history_inputs pubKeyHash (tx_Vin tx) [] in
  if spent then
    let '(spentvalue, destaddress) := history_outputs pubKeyHash (tx_Vout tx) in
    let totalvalue := f64_zero in
    Ret (if f64_gtb spentvalue f64_zero
         then [mkTransactionsHistory false (tx_ID tx) destaddress spentvalue]
         else [mkTransactionsHistory false (tx_ID tx) address totalvalue;
               mkTransactionsHistory true (tx_ID tx) address totalvalue])
  else
    '(income, spentaddress) ←
      (if IsCoinbase tx then
         out ← index (tx_Vout tx) 0;
         Ret (if IsLockedWithKey out pubKeyHash then (out_Value out, str "Coin base")
              else (f64_zero, spentaddress))
       else Ret (history_income pubKeyHash (tx_Vout tx), spentaddress));
    Ret (if f64_gtb income f64_zero
         then [mkTransactionsHistory true (tx_ID tx) spentaddress income] else []).

Definition GetAddressHistory (fuel : nat) (i : BlockchainIterator) (pubKeyHash address : bytes)
    (db : DB) : outcome (list TransactionsHistory) :=
  each_block fuel db i (λ result block,
    result ← mfor (blk_Transactions block) (λ result tx,
      rs ← history_tx pubKeyHash address tx; Ret (result ++ rs)) result;
    Ret (if (Z.of_nat (length (blk_PrevBlockHash block)) =? 0)%Z then Break result
         else Continue result)) [].
End History.

Section Manager.
Context `{Bolt} `{!Gob Block}.

(** *** [manager.go]: reading *)

Definition GetBestHeight (db : DB) : outcome Z :=
  bcdb ← GetBlockchainObject db;
  blockData ← GetTopBlock bcdb;
  lastBlock ← DeserializeBlock blockData;
  Ret (blk_Height lastBlock).

Definition GetState (db : DB) : outcome (bytes * Z) :=
  bcdb ← GetBlockchainObject db;
  blockData ← GetTopBlock bcdb;
  lastBlock ← DeserializeBlock blockData;
  Ret (blk_Hash lastBlock, blk_Height lastBlock).

Definition bc_CheckBlockExists (blockHash : bytes) (db : DB) : outcome bool :=
  bcdb ← GetBlockchainObject db;
  CheckBlockExists blockHash bcdb.

Definition bc_GetBlock (blockHash : bytes) (db : DB) : outcome Block :=
  bcdb ← GetBlockchainObject db;
  blockData ← GetBlock blockHash bcdb;
  if bool_decide (blockData = []) then Err (EMsg "Block is not found.")
  else
    blocktmp ← DeserializeBlock blockData;
    Ret (blk_Copy blocktmp).

Definition GetTransactionFromBlock (txID blockHash : bytes) (db : DB) : outcome Transaction :=
  block ← bc_GetBlock blockHash db;
  match list_find (λ tx, tx_ID tx = txID) (blk_Transactions block) with
  | Some (_, tx) => Ret tx
  | None => Err (EMsg "Transaction is not found")
  end.

Definition err_height : goerror := EMsg "Block with the heigh doesn't exist".

Definition GetBlockAtHeight (fuel : nat) (height : Z) (db : DB) : outcome Block :=
  bci ← NewBlockchainIterator db;
  r ← each_block fuel db bci (λ (_ : unit) block,
    Ret (if (blk_Height block =? height)%Z then Break (Some block)
         else if (blk_Height block <? height)%Z then Break None
         else if (Z.of_nat (length (blk_PrevBlockHash block)) =? 0)%Z then Break None
         else Continue tt)) tt;
  match r with Some block => Ret block | None => Err err_height end.

Definition GetGenesisBlockHash (db : DB) : outcome bytes :=
  bcdb ← GetBlockchainObject db;
  GetFirstHash bcdb.

(** The list of blocks cannot be told to stop by an error: it is empty then. *)
Definition GetBlocksShortInfo (fuel : nat) (startfrom : bytes) (maxcount : Z) (db : DB)
    : outcome (list BlockShort) :=
  match (if (0 <? Z.of_nat (length startfrom))%Z then Ret (NewBlockchainIteratorFrom startfrom)
         else NewBlockchainIterator db) with
  | Err _ => Ret []
  | Ret bci =>
      each_block fuel db bci (λ blocks block,
        let blocks := blocks ++ [GetShortCopy block] in
        Ret (if (Z.of_nat (length (blk_PrevBlockHash block)) =? 0)%Z then Break blocks
             else if (maxcount <? Z.of_nat (length blocks))%Z then Break blocks
             else Continue blocks)) []
  | Panic p => Panic p
  | OutOfFuel => OutOfFuel
  end.

(** The loop that [GetNextBlocks] and [GetFirstBlocks] share: up to [maxcount]
    blocks along the chain bucket; [mk] makes the element kept of a block. *)
Definition blocks_upwards {A} (fuel : nat) (mk : Block → A) (maxcount : Z) (hash : bytes)
    (bcdb : boltfile) (db : DB) : outcome (list A) :=
  loop fuel (λ '(hash, blocks),
    '(_, _, nextHash) ← GetLocationInChain hash bcdb;
    block ← bc_GetBlock hash db;
    let blocks := blocks ++ [mk block] in
    Ret (if (maxcount <=? Z.of_nat (length blocks))%Z then Break blocks
         else if (Z.of_nat (length nextHash) =? 0)%Z then Break blocks
         else Continue (nextHash, blocks))) (hash, []).

Definition GetNextBlocks (fuel : nat) (startfrom : bytes) (db : DB) : outcome (list BlockShort) :=
  bcdb ← GetBlockchainObject db;
  blocks_upwards fuel GetShortCopy 1000 startfrom bcdb db.

Definition GetFirstBlocks (fuel : nat) (maxcount : Z) (db : DB) : outcome (list Block * Z) :=
  '(_, height) ← GetState db;
  genesisHash ← GetGenesisBlockHash db;
  bcdb ← GetBlockchainObject db;
  blocks ← blocks_upwards fuel id maxcount genesisHash bcdb db;
  Ret (blocks, height).

(** The loop of [GetSideBranch] that goes down the higher branch to a given
    height, collecting the blocks above it. *)
Definition descend (fuel : nat) (from : bytes) (height : Z) (db : DB)
    : outcome (Block * list Block) :=
  each_block fuel db (NewBlockchainIteratorFrom from) (λ blocks block,
    Ret (if (blk_Height block =? height)%Z then Break (block, blocks)
         else Continue (blocks ++ [block]))) [].

Definition GetSideBranch (fuel : nat) (hash currentTip : bytes) (db : DB)
    : outcome (list Block * list Block * Block) :=
  sideblock ← bc_GetBlock hash db;
  topblock ← bc_GetBlock currentTip db;
  if ((blk_Height sideblock <? 1) || (blk_Height topblock <? 1))%Z
  then Err (EMsg "Can not do this for genesis block")
  else
    '(sideblock, sideBlocks, topblock, mainBlocks) ←
      (if (blk_Height topblock <? blk_Height sideblock)%Z then
         '(b, bs) ← descend fuel (blk_Hash sideblock) (blk_Height topblock) db;
         Ret (b, bs, topblock, [])
       else if (blk_Height sideblock <? blk_Height topblock)%Z then
         '(b, bs) ← descend fuel (blk_Hash topblock) (blk_Height sideblock) db;
         Ret (sideblock, [], b, bs)
       else Ret (sideblock, [], topblock, []));
    r ← loop fuel (λ '(bcis, bcit, sideBlocks, mainBlocks),
      '(sideblock, bcis) ← unchecked (Next bcis db);
      '(topblock, bcit) ← unchecked (Next bcit db);
      if bytes_eqb (blk_Hash sideblock) (blk_Hash topblock)
      then Ret (Break (Some (sideBlocks, mainBlocks, sideblock)))
      else
        let mainBlocks := mainBlocks ++ [topblock] in
        let sideBlocks := sideBlocks ++ [sideblock] in
        Ret (if ((Z.of_nat (length (blk_PrevBlockHash sideblock)) =? 0)
                 || (Z.of_nat (length (blk_PrevBlockHash topblock)) =? 0))%Z
             then Break None
             else Continue (bcis, bcit, sideBlocks, mainBlocks)))
      (NewBlockchainIteratorFrom (blk_Hash sideblock), NewBlockchainIteratorFrom (blk_Hash topblock),
       sideBlocks, mainBlocks);
    match r with
    | None => Err (EMsg "No connect with main blockchain")
    | Some (sideBlocks, mainBlocks, sideblock) =>
        mainBlocks ← ReverseBlocksSlice mainBlocks;
        Ret (sideBlocks, mainBlocks, sideblock)
    end.

(** The hash of the common block is logged before the error is looked at. *)
Definition GetBranchesReplacement (fuel : nat) (sideBranchHash tip : bytes) (db : DB)
    : outcome (list Block * list Block) :=
  '(sideBlocks, mainBlocks, BCBlock) ← unchecked (GetSideBranch fuel sideBranchHash tip db);
  if bytes_eqb (blk_Hash BCBlock) sideBranchHash then Ret ([], [])
  else Ret (mainBlocks, sideBlocks).

(** The first hash of a list that is in the chain bucket and, for [below],
    whose block is lower than that height. *)
Fixpoint first_in_chain (blockHashes : list bytes) (below : option Z) (bcdb : boltfile) (db : DB)
    : outcome (option bytes) :=
  match blockHashes with
  | [] => Ret None
  | blockHash :: blockHashes' =>
      found ← BlockInChain blockHash bcdb;
      if (found : bool) then
        match below with
        | None => Ret (Some blockHash)
        | Some h =>
            block ← bc_GetBlock blockHash db;
            if (blk_Height block <? h)%Z then Ret (Some blockHash)
            else first_in_chain blockHashes' below bcdb db
        end
      else first_in_chain blockHashes' below bcdb db
  end.

(** The loop of [ChooseHashUnderTip] down a tip that is not in the chain
    bucket: a hash of the list, the block where the branch joins the chain, or
    none of them. *)
Definition down_to_chain (fuel : nat) (topHash : bytes) (blockHashes : list bytes)
    (bcdb : boltfile) (db : DB) : outcome (option (bytes + Block)) :=
  loop fuel (λ bci,
    '(block, bci) ← Next bci db;
    if decide (blk_Hash block ∈ blockHashes) then Ret (Break (Some (inl (blk_Hash block))))
    else
      found ← BlockInChain (blk_Hash block) bcdb;
      Ret (if (found : bool) then Break (Some (inr block))
           else if (Z.of_nat (length (blk_PrevBlockHash block)) =? 0)%Z then Break None
           else Continue bci)) (NewBlockchainIteratorFrom topHash).

Definition ChooseHashUnderTip (fuel : nat) (blockHashes : list bytes) (topHash : bytes) (db : DB)
    : outcome (option bytes) :=
  if (Z.of_nat (length blockHashes) =? 0)%Z then Ret None
  else
    bcdb ← GetBlockchainObject db;
    if (Z.of_nat (length topHash) =? 0)%Z then first_in_chain blockHashes None bcdb db
    else if decide (topHash ∈ blockHashes) then Ret (Some topHash)
    else
      topBlock ← bc_GetBlock topHash db;
      found ← BlockInChain topHash bcdb;
      r ← (if (found : bool) then Ret (Some (inr topBlock))
           else down_to_chain fuel topHash blockHashes bcdb db);
      match r with
      | None => Ret None
      | Some (inl blockHash) => Ret (Some blockHash)
      | Some (inr topBlock) =>
          first_in_chain blockHashes (Some (blk_Height topBlock)) bcdb db
      end.

(** [CheckBlockIsInRange]: the loop gives an answer or the hash where the
    branch of the top joins the chain. *)
Definition CheckBlockIsInRange (fuel : nat) (blockHash bottomHash topHash : bytes) (db : DB)
    : outcome bool :=
  bcdb ← GetBlockchainObject db;
  r ← (if (0 <? Z.of_nat (length topHash))%Z then
         found ← BlockInChain topHash bcdb;
         if (found : bool) then Ret (inr topHash)
         else loop fuel (λ bci,
           '(block, bci) ← Next bci db;
           if bytes_eqb blockHash (blk_Hash block) then Ret (Break (inl true))
           else if bytes_eqb bottomHash (blk_Hash block) then Ret (Break (inl false))
           else
             found ← BlockInChain (blk_Hash block) bcdb;
             Ret (if (found : bool) then Break (inr (blk_Hash block))
                  else if (Z.of_nat (length (blk_PrevBlockHash block)) =? 0)%Z
                  then Break (inl false)
                  else Continue bci)) (NewBlockchainIteratorFrom topHash)
       else topHash ← GetTopHash bcdb; Ret (inr topHash));
  match r with
  | inl b => Ret b
  | inr topHash =>
      topBlock ← bc_GetBlock topHash db;
      bottomBlock ← bc_GetBlock bottomHash db;
      block ← bc_GetBlock blockHash db;
      Ret ((blk_Height bottomBlock <=? blk_Height block)
           && (blk_Height block <=? blk_Height topBlock))%Z
  end.

(** *** [manager.go]: writing *)

(** The three loops of [UpdateChainOnNewBranch]: the blocks of the new branch
    that are not in the chain bucket, with the hash where it joins the chain;
    the removals down to that hash; the additions. *)
Definition new_branch (fuel : nat) (bci : BlockchainIterator) (bcdb : boltfile) (db : DB)
    : outcome (bytes * list BlockShort) :=
  each_block fuel db bci (λ newBlocks block,
    found ← BlockInChain (blk_Hash block) bcdb;
    Ret (if (found : bool) then Break (blk_Hash block, newBlocks)
         else
           let newBlocks := newBlocks ++ [GetShortCopy block] in
           if (Z.of_nat (length (blk_PrevBlockHash block)) =? 0)%Z then Break ([], newBlocks)
           else Continue newBlocks)) [].

Fixpoint remove_down (fuel : nat) (remHash mergePointHash : bytes) : st boltfile unit :=
  match fuel with
  | O => lift OutOfFuel
  | S fuel' =>
      if bytes_eqb remHash mergePointHash then mret tt
      else
        loc ← ask (GetLocationInChain remHash);
        let '(_, prevHash, _) := loc in
        _ ← RemoveFromChain remHash;
        remove_down fuel' prevHash mergePointHash
  end.

Definition add_up (newBlocks : list BlockShort) (mergePointHash : bytes) : st boltfile bytes :=
  sfor newBlocks (λ mergePointHash block,
    _ ← AddToChain (bs_Hash block) mergePointHash;
    mret (bs_Hash block)) mergePointHash.

Definition UpdateChainOnNewBranch (fuel : nat) (prevTopHash : bytes) : st DB unit :=
  bci ← ask NewBlockchainIterator;
  bcdb ← ask GetBlockchainObject;
  r ← ask (new_branch fuel bci bcdb);
  let '(mergePointHash, newBlocks) := r in
  _ ← on_bc (remove_down fuel prevTopHash mergePointHash);
  newBlocks ← lift (ReverseBlocksShortSlice newBlocks);
  _ ← on_bc (add_up newBlocks mergePointHash);
  mret tt.

(** [AddBlock], where the new block is higher than the top [lastHash]. *)
Definition AddBlock_top (fuel : nat) (block : Block) (lastHash : bytes) : st DB Z :=
  _ ← on_bc (SaveTopHash (blk_Hash block));
  if negb (bytes_eqb lastHash (blk_PrevBlockHash block)) then
    _ ← drop_err (UpdateChainOnNewBranch fuel lastHash);
    mret BCBAddState_addedToParallelTop
  else
    _ ← drop_err (on_bc (AddToChain (blk_Hash block) (blk_PrevBlockHash block)));
    mret BCBAddState_addedToTop.

(** [AddBlock], once the block before is known to be stored. *)
Definition AddBlock_store (fuel : nat) (block : Block) : st DB Z :=
  blockData ← lift (blk_Serialize block);
  _ ← on_bc (PutBlock (blk_Hash block) blockData);
  bcdb ← ask GetBlockchainObject;
  lastHash ← lift (GetTopHash bcdb);
  lastBlockData ← lift (GetBlock lastHash bcdb);
  lastBlock ← lift (DeserializeBlock lastBlockData);
  if (blk_Height lastBlock <? blk_Height block)%Z then AddBlock_top fuel block lastHash
  else mret BCBAddState_addedToParallel.

Definition AddBlock (fuel : nat) (block : Block) : st DB Z :=
  bcdb ← ask GetBlockchainObject;
  blockInDb ← lift (GetBlock (blk_Hash block) bcdb);
  if negb (bool_decide (blockInDb = [])) then mret BCBAddState_notAddedExists
  else
    prevBlockData ← lift (GetBlock (blk_PrevBlockHash block) bcdb);
    if bool_decide (prevBlockData = []) then mret BCBAddState_notAddedNoPrev
    else AddBlock_store fuel block.

Definition bc_DeleteBlock : st DB Block :=
  bcdb ← ask GetBlockchainObject;
  blockInDb ← lift (GetTopBlock bcdb);
  if bool_decide (blockInDb = []) then fail (EMsg "Top block is not found!")
  else
    block ← lift (DeserializeBlock blockInDb);
    _ ← on_bc (SaveTopHash (blk_PrevBlockHash block));
    _ ← on_bc (DeleteBlock (blk_Hash block));
    _ ← drop_err (on_bc (RemoveFromChain (blk_Hash block)));
    mret block.
End Manager.
