(* ===== verification/Branches.v ===== *)
(** * Paths of stored blocks

    Facts shared by the theorems on the chain of blocks: a block is stored
    under a hash, a path leads from a hash to the first block along
    [PrevBlockHash], and a loop of the source over the blocks below a hash is a
    walk along the path. *)

From Stdlib Require Import Strings.Byte ZifyNat.
From stdpp Require Import base strings numbers gmap sorting list.
From S2P Require Import Prelude Float64 Platform Concrete Utils Structures Codecs Database.
From S2P Require Import ChainIndex Blockchain.

Import BlockchainDB.

(** A loop body run along a list of blocks.  Past the first block there is
    nothing to decode, and the nil block is dereferenced. *)
Fixpoint walk {S R} (body : S → Block → outcome (step S R)) (s : S) (bs : list Block)
    : outcome R :=
  match bs with
  | [] => Panic PNil
  | b :: bs' =>
      x ← body s b;
      match x with
      | Continue s' => walk body s' bs'
      | Break r => Ret r
      end
  end.

Section Stored.
Context `{BoltLaws} `{!Gob Block} `{!GobLaws Block}.
Implicit Types (f : boltfile) (db : DB) (h : bytes) (b : Block) (bs : list Block).

(** The connection is opened and [f] is the blockchain file. *)
Definition opened f db : Prop :=
  openedConn db = true ∧ bcFile db = Some f ∧ blocksBucket ∈ dom f.

Definition with_bc f db : DB := mkDB (openedConn db) (Some f) (nodesFile db).

Definition stored f h b : Prop :=
  ∃ data, bget f blocksBucket h = Some data ∧ data ≠ [] ∧ DeserializeBlock data = Ret b.

(** [bs] are the blocks from [h] down to a first block. *)
Inductive path f : bytes → list Block → Prop :=
| path_first h b :
    stored f h b → blk_Hash b = h → blk_PrevBlockHash b = [] → path f h [b]
| path_next h b bs :
    stored f h b → blk_Hash b = h → blk_PrevBlockHash b ≠ [] →
    path f (blk_PrevBlockHash b) bs → path f h (b :: bs).

Lemma opened_object f db : opened f db → GetBlockchainObject db = Ret f.
Proof. intros (Ho & Hf & _). unfold GetBlockchainObject, getConnectionBC. by rewrite Ho, Hf. Qed.

Lemma GetBlock_bget f h :
  blocksBucket ∈ dom f → GetBlock h f = Ret (default [] (bget f blocksBucket h)).
Proof.
  intros Hd. unfold GetBlock. rewrite view_get_spec, ret_bind by done.
  rewrite CopyBytes_id. by destruct (_ <? _)%Z.
Qed.

Lemma stored_GetBlock f h b :
  blocksBucket ∈ dom f → stored f h b →
  ∃ data, GetBlock h f = Ret data ∧ data ≠ [] ∧ DeserializeBlock data = Ret b.
Proof.
  intros Hd (data & Hg & Hne & Hb). exists data. rewrite GetBlock_bget by done. by rewrite Hg.
Qed.

Lemma stored_inj f h b b' : stored f h b → stored f h b' → b = b'.
Proof. intros (d & Hd & _ & Hb) (d' & Hd' & _ & Hb'). congruence. Qed.

Lemma Next_stored f db h b :
  opened f db → stored f h b →
  Next (mkBlockchainIterator h) db = Ret (b, mkBlockchainIterator (blk_PrevBlockHash b)).
Proof.
  intros Ho Hs. unfold Next. rewrite (opened_object f db Ho), ret_bind. cbn [currentHash].
  destruct (stored_GetBlock f h b) as (data & -> & _ & Hb); [apply Ho|done|].
  by rewrite ret_bind, Hb.
Qed.

(** Below the first block the iterator fails. *)
Lemma Next_nil f db : opened f db → ∃ e, Next (mkBlockchainIterator []) db = Err e.
Proof.
  intros Ho. unfold Next. rewrite (opened_object f db Ho), ret_bind. cbn [currentHash].
  rewrite GetBlock_bget, ret_bind by apply Ho.
  destruct (Bucket_in f blocksBucket) as (bk & E & _); [apply Ho|].
  rewrite (bget_lookup _ _ _ _ E), b_Get_blank. unfold DeserializeBlock. simpl.
  destruct gob_Decode_empty as [e ->]. by exists e.
Qed.

Lemma bc_GetBlock_stored f db h b : opened f db → stored f h b → bc_GetBlock h db = Ret b.
Proof.
  intros Ho Hs. unfold bc_GetBlock. rewrite (opened_object f db Ho), ret_bind.
  destruct (stored_GetBlock f h b) as (data & -> & Hne & Hb); [apply Ho|done|].
  rewrite ret_bind, bool_decide_eq_false_2, Hb, ret_bind by done. by rewrite blk_Copy_id.
Qed.

(** *** Paths *)

Lemma path_inv f h bs :
  path f h bs → ∃ b bs', bs = b :: bs' ∧ stored f h b ∧ blk_Hash b = h ∧
    ((bs' = [] ∧ blk_PrevBlockHash b = []) ∨
     (blk_PrevBlockHash b ≠ [] ∧ path f (blk_PrevBlockHash b) bs')).
Proof. inversion 1; subst; eexists _, _; split_and!; eauto. Qed.

Lemma path_fun f h bs bs' : path f h bs → path f h bs' → bs = bs'.
Proof.
  intros Hp. revert bs'. induction Hp as [h b Hs Hb Hn|h b bs Hs Hb Hn Hp IH]; intros bs' Hp';
    apply path_inv in Hp' as (b' & bs'' & -> & Hs' & _ & Hc);
    assert (b' = b) as -> by (by eapply stored_inj).
  - by destruct Hc as [[-> _]|[? _]].
  - destruct Hc as [[_ ?]|[_ Hp']]; [done|]. f_equal. by apply IH.
Qed.

Lemma path_suffix f h bs1 b bs2 : path f h (bs1 ++ b :: bs2) → path f (blk_Hash b) (b :: bs2).
Proof.
  revert h. induction bs1 as [|b1 bs1 IH]; intros h Hp; simpl in Hp.
  - apply path_inv in Hp as Hc. destruct Hc as (b' & bs' & [= <- <-] & _ & <- & _). done.
  - apply path_inv in Hp as (b' & bs' & [= <- <-] & _ & _ & [[Hn _]|[_ Hp]]);
      [by destruct bs1|by eapply IH].
Qed.

Lemma path_last f h bs : path f h bs → ∃ g, last bs = Some g ∧ blk_PrevBlockHash g = [].
Proof.
  induction 1 as [h b|h b bs Hs Hb Hn Hp (g & Hl & Hg)]; [by exists b|].
  exists g. split; [|done]. by rewrite last_cons, Hl.
Qed.

(** A path does not meet a block twice. *)
Lemma path_NoDup f h bs : path f h bs → NoDup (blk_Hash <$> bs).
Proof.
  induction 1 as [h b|h b bs Hs Hb Hn Hp IH]; [apply NoDup_singleton|].
  rewrite fmap_cons. constructor; [|done].
  intros (b' & Eb & Hin)%list_elem_of_fmap. apply list_elem_of_split in Hin as (l1 & l2 & ->).
  pose proof (path_suffix _ _ _ _ _ Hp) as Hp'. rewrite <- Eb, Hb in Hp'.
  assert (path f h (b :: l1 ++ b' :: l2)) as Hp2 by (by apply path_next).
  pose proof (path_fun _ _ _ _ Hp2 Hp') as E. apply (f_equal length) in E.
  simpl in E. rewrite length_app in E. simpl in E. lia.
Qed.

Lemma path_stored f h bs b : path f h bs → b ∈ bs → stored f (blk_Hash b) b.
Proof.
  intros Hp Hin. apply list_elem_of_split in Hin as (l1 & l2 & ->).
  apply path_suffix, path_inv in Hp as (b' & bs' & [= <- <-] & Hs & _). done.
Qed.

(** Two branches that end in the same first block part at one block: above it
    they have no block in common, from it on they are the same. *)
Lemma fork f h1 h2 bs1 bs2 :
  path f h1 bs1 → path f h2 bs2 → last bs1 = last bs2 →
  ∃ s1 s2 c rest, bs1 = s1 ++ c :: rest ∧ bs2 = s2 ++ c :: rest ∧
    (∀ b, b ∈ s1 → blk_Hash b ∉ blk_Hash <$> bs2) ∧
    (∀ b, b ∈ s2 → blk_Hash b ∉ blk_Hash <$> bs1).
Proof.
  intros Hp1 Hp2 Hl.
  assert (∃ s1 s2 c rest, bs1 = s1 ++ c :: rest ∧ bs2 = s2 ++ c :: rest ∧
            (∀ b, b ∈ s1 → blk_Hash b ∉ blk_Hash <$> bs2)) as (s1 & s2 & c & rest & E1 & E2 & Hs).
  { revert h1 Hp1 Hl. induction bs1 as [|b bs1 IH]; intros h1 Hp1 Hl.
    { by apply path_inv in Hp1 as (? & ? & ? & _). }
    destruct (decide (blk_Hash b ∈ blk_Hash <$> bs2)) as [Hin|Hin].
    - apply list_elem_of_fmap in Hin as (b' & Eb & Hin).
      apply list_elem_of_split in Hin as (s2 & l2 & ->).
      pose proof (path_suffix _ _ [] b bs1 Hp1) as Hp1'.
      pose proof (path_suffix _ _ _ _ _ Hp2) as Hp2'. rewrite <- Eb in Hp2'.
      pose proof (path_fun _ _ _ _ Hp1' Hp2') as E. injection E as -> ->.
      exists [], s2, b', l2. split_and!; [done|done|]. intros ? Hb. by apply elem_of_nil in Hb.
    - apply path_inv in Hp1 as (b' & bs' & [= <- <-] & _ & _ & [[-> Hn]|[Hn Hp1]]).
      { exfalso. apply Hin. apply list_elem_of_fmap. exists b. split; [done|].
        by apply last_Some_elem_of. }
      destruct (IH _ Hp1) as (s1 & s2 & c & rest & -> & E2 & Hs).
      { rewrite <- Hl, last_cons. by destruct (path_last _ _ _ Hp1) as (g & -> & _). }
      exists (b :: s1), s2, c, rest. split_and!; [done|done|].
      intros b' [->|Hb']%elem_of_cons; [done|by apply Hs]. }
  exists s1, s2, c, rest. split_and!; [done|done|done|]. intros b Hb Hin. subst bs1.
  rewrite fmap_app in Hin. apply elem_of_app in Hin as [Hin|Hin].
  - apply list_elem_of_fmap in Hin as (b' & Eb & Hb'). apply (Hs b' Hb'). rewrite <- Eb.
    apply list_elem_of_fmap. exists b. split; [done|]. rewrite E2, elem_of_app. by left.
  - pose proof (path_NoDup _ _ _ Hp2) as Hnd. rewrite E2, fmap_app in Hnd.
    apply NoDup_app in Hnd as (_ & Hd & _). apply (Hd (blk_Hash b)); [|done].
    by apply list_elem_of_fmap_2.
Qed.

(** *** Loops over the blocks below a hash *)

Lemma each_block_walk {S R} f db fuel h bs (body : S → Block → outcome (step S R)) s :
  opened f db → path f h bs → length bs < fuel →
  each_block fuel db (mkBlockchainIterator h) body s = walk body s bs.
Proof.
  intros Ho Hp. revert fuel s. unfold each_block.
  induction Hp as [h b Hs Hb Hn|h b bs Hs Hb Hn Hp IH]; intros [|fuel] s Hf; simpl in Hf; try lia.
  - simpl. rewrite (Next_stored f db h b Ho Hs). simpl. rewrite Hn.
    destruct (body s b) as [[s'|r]|e|p|]; simpl; [|done..].
    destruct fuel as [|fuel]; [lia|]. simpl. destruct (Next_nil f db Ho) as [e ->]. done.
  - simpl. rewrite (Next_stored f db h b Ho Hs). simpl.
    destruct (body s b) as [[s'|r]|e|p|]; simpl; [|done..]. apply IH. lia.
Qed.

Lemma NewBlockchainIterator_top f db top :
  opened f db → bget f blocksBucket (str "l") = Some top → top ≠ [] →
  NewBlockchainIterator db = Ret (mkBlockchainIterator top).
Proof.
  intros Ho Ht Hne. unfold NewBlockchainIterator. rewrite (opened_object f db Ho), ret_bind.
  unfold GetTopHash. rewrite view_get_spec, ret_bind, Ht by apply Ho. simpl.
  rewrite (proj2 (Z.ltb_lt _ _)) by (destruct top; [done|simpl; lia]). by rewrite CopyBytes_id.
Qed.
End Stored.

(** ** A small stored chain

    A first block [blk_g], a block [blk_a] above it, which is the top, and a
    side block [blk_b]; the witnesses run on it. *)

Module Demo.
Import MapBolt Codecs.

Definition demo_block (h prev : bytes) (height : Z) : Block := mkBlock 0 [] prev h 0 height.
Definition hash_g : bytes := [x01; x01].
Definition hash_a : bytes := [x01; x02].
Definition hash_b : bytes := [x01; x03].
Definition blk_g : Block := demo_block hash_g [] 0.
Definition blk_a : Block := demo_block hash_a hash_g 1.
Definition blk_b : Block := demo_block hash_b hash_g 1.

Definition encoded (b : Block) : bytes := match blk_Serialize b with Ret d => d | _ => [] end.
Definition block_records : list (bytes * bytes) :=
  [(str "l", hash_a); (str "f", hash_g); (hash_g, encoded blk_g); (hash_a, encoded blk_a);
   (hash_b, encoded blk_b)].
Definition chain_records : list (bytes * bytes) :=
  [(hash_g, zeros 2 ++ hash_a); (hash_a, hash_g ++ zeros 2)].
Definition blocks_map : @bucket map_bolt := (list_to_map block_records : gmap bytes bytes).
Definition chain_map : @bucket map_bolt := (list_to_map chain_records : gmap bytes bytes).
Definition demo_chain : boltfile := {[ blocksBucket := blocks_map; blockChainBucket := chain_map ]}.
Definition demo_db : DB := mkDB true (Some demo_chain) None.

Lemma demo_opened : opened demo_chain demo_db.
Proof. split_and!; [done|done|]. apply elem_of_dom. by eexists. Qed.

Lemma demo_stored h b : (h, b) ∈ [(hash_g, blk_g); (hash_a, blk_a); (hash_b, blk_b)] →
  stored demo_chain h b.
Proof.
  intros Hin. exists (encoded b).
  repeat (apply elem_of_cons in Hin as [Hin|Hin]; [simplify_eq; split_and!; vm_compute; done|]).
  by apply elem_of_nil in Hin.
Qed.

Lemma demo_path_g : path demo_chain hash_g [blk_g].
Proof. apply path_first; [by apply demo_stored; left|done|done]. Qed.
Lemma demo_path_a : path demo_chain hash_a [blk_a; blk_g].
Proof. apply path_next; [by apply demo_stored; right; left|done|done|apply demo_path_g]. Qed.
Lemma demo_path_b : path demo_chain hash_b [blk_b; blk_g].
Proof. apply path_next; [by apply demo_stored; right; right; left|done|done|apply demo_path_g]. Qed.

Lemma demo_hash b : b ≠ x00 → chain_hash 2 [x01; b].
Proof. intros Hb. split; [done|]. by intros [= ?]. Qed.

Lemma demo_in_chain : in_chain 2 demo_chain [hash_g; hash_a].
Proof.
  split.
  - split; lia.
  - apply elem_of_dom. by eexists.
  - intros h [->|[->|[]%elem_of_nil]%elem_of_cons]%elem_of_cons; by apply demo_hash.
  - by apply (bool_decide_unpack _).
  - intros [|[|i]] h Hi; [injection Hi as <-; reflexivity..|done].
  - intros k Hk.
    rewrite (bget_lookup _ _ chain_map) by done.
    cbn [b_Get map_bolt]. case_bool_decide; [done|]. by apply not_elem_of_list_to_map_1.
Qed.

(** Every record of the blocks bucket. *)
Lemma demo_records h data : bget demo_chain blocksBucket h = Some data → (h, data) ∈ block_records.
Proof.
  rewrite (bget_lookup _ _ blocks_map) by done.
  cbn [b_Get map_bolt]. case_bool_decide; [done|]. apply elem_of_list_to_map_2.
Qed.

Lemma demo_paths h bs :
  path demo_chain h bs →
  (h, bs) ∈ [(hash_g, [blk_g]); (hash_a, [blk_a; blk_g]); (hash_b, [blk_b; blk_g])].
Proof.
  intros Hp. apply path_inv in Hp as Hc. destruct Hc as (b & bs' & _ & (d & Hd & _ & Hb) & _).
  apply demo_records in Hd. unfold block_records in Hd.
  repeat (apply elem_of_cons in Hd as [Hd|Hd]; [injection Hd as -> ->|]).
  - vm_compute in Hb. discriminate.
  - vm_compute in Hb. discriminate.
  - rewrite (path_fun _ _ _ _ Hp demo_path_g). left.
  - rewrite (path_fun _ _ _ _ Hp demo_path_a). right. left.
  - rewrite (path_fun _ _ _ _ Hp demo_path_b). right. right. left.
  - by apply elem_of_nil in Hd.
Qed.
End Demo.
