(* ===== verification/BlockchainLookup.v ===== *)
(** * Theorems on reading the chain of blocks

    What the loops of [node/blockchain/manager.go] that read the chain return,
    on a file whose blocks are linked down to a first block: the block at a
    height, short copies from a block down, blocks from a block up, and the
    fork point of two branches.  Each theorem also says how much fuel is
    enough. *)

From Stdlib Require Import Strings.Byte ZifyNat.
From stdpp Require Import base strings numbers gmap sorting list.
From S2P Require Import Prelude Float64 Platform Concrete Utils Structures Codecs Database.
From S2P Require Import ChainIndex Blockchain Branches.

Import BlockchainDB.

(** ** Heights along a path *)

(** Heights fall by one from block to block. *)
Fixpoint consecutive (bs : list Block) : Prop :=
  match bs with
  | b :: (b' :: _) as bs' => blk_Height b = (blk_Height b' + 1)%Z ∧ consecutive bs'
  | _ => True
  end.

Lemma consecutive_app bs1 bs2 : consecutive (bs1 ++ bs2) → consecutive bs2.
Proof.
  induction bs1 as [|b bs1 IH]; [done|]. simpl. destruct (bs1 ++ bs2) eqn:E.
  - by apply app_eq_nil in E as [-> ->].
  - intros [_ Hc]. by apply IH.
Qed.

Lemma consecutive_lookup bs i b b0 :
  consecutive bs → head bs = Some b0 → bs !! i = Some b →
  blk_Height b = (blk_Height b0 - Z.of_nat i)%Z.
Proof.
  revert i b0. induction bs as [|b1 bs IH]; intros i b0 Hc Hh Hi; [done|]. injection Hh as ->.
  destruct i as [|i]; simpl in Hi. { simplify_eq. lia. }
  destruct bs as [|b2 bs]; [done|]. destruct Hc as [Hb Hc].
  rewrite (IH i b2 Hc eq_refl Hi). lia.
Qed.

(** Below a height there is no block of that height. *)
Lemma consecutive_below bs b0 height :
  consecutive bs → head bs = Some b0 → (blk_Height b0 < height)%Z →
  list_find (λ b, blk_Height b = height) bs = None.
Proof.
  intros Hc Hh Hlt. apply list_find_None, Forall_lookup. intros i b Hi.
  rewrite (consecutive_lookup bs i b b0 Hc Hh Hi). lia.
Qed.

Section Lookup.
Context `{BoltLaws} `{!Gob Block} `{!GobLaws Block}.
Implicit Types (f : boltfile) (db : DB) (h top : bytes) (b : Block) (bs : list Block).

Lemma is_first_nil (p : bytes) : (Z.of_nat (length p) =? 0)%Z = bool_decide (p = []).
Proof. destruct p; case_bool_decide; simpl; try done. Qed.

(** [GetBlockAtHeight] returns the block of the main chain that has the
    height, and its error when there is none. *)
Theorem GetBlockAtHeight_spec f db top bs height fuel :
  opened f db → bget f blocksBucket (str "l") = Some top → top ≠ [] →
  path f top bs → consecutive bs → length bs < fuel →
  GetBlockAtHeight fuel height db =
    match list_find (λ b, blk_Height b = height) bs with
    | Some (_, b) => Ret b
    | None => Err err_height
    end.
Proof.
  intros Ho Ht Hne Hp Hc Hf. unfold GetBlockAtHeight.
  rewrite (NewBlockchainIterator_top f db top), ret_bind by done.
  rewrite (each_block_walk f db fuel top bs) by done. clear Ht Hne Hf.
  induction Hp as [h b Hs Hb Hn|h b bs Hs Hb Hn Hp IH]; simpl; rewrite is_first_nil.
  - rewrite Hn, bool_decide_eq_true_2 by done. destruct (Z.eqb_spec (blk_Height b) height).
    + by rewrite decide_True.
    + rewrite decide_False by done. by destruct (_ <? _)%Z.
  - rewrite bool_decide_eq_false_2 by done. destruct (Z.eqb_spec (blk_Height b) height).
    { by rewrite decide_True. }
    rewrite decide_False by done.
    destruct bs as [|b' bs]; [by apply path_inv in Hp as (? & ? & ? & _)|].
    destruct Hc as [Hbb' Hc]. destruct (Z.ltb_spec (blk_Height b) height).
    + rewrite (consecutive_below (b' :: bs) b') by (done || lia). done.
    + cbv match. rewrite (IH Hc). by destruct (list_find _ _) as [[]|].
Qed.

(** The hash a listing starts from: the top when none is given. *)
Definition listing_from top (startfrom : bytes) : bytes :=
  if bool_decide (startfrom = []) then top else startfrom.

(** [GetBlocksShortInfo] returns short copies of the blocks from
    [startfrom] down, or from the top when it is empty: one more than
    [maxcount] where the chain is long enough. *)
Theorem GetBlocksShortInfo_spec f db top startfrom bs maxcount fuel :
  opened f db → bget f blocksBucket (str "l") = Some top → top ≠ [] →
  path f (listing_from top startfrom) bs →
  (0 ≤ maxcount)%Z → length bs < fuel →
  GetBlocksShortInfo fuel startfrom maxcount db
  = Ret (GetShortCopy <$> take (S (Z.to_nat maxcount)) bs).
Proof.
  intros Ho Ht Hne Hp Hm Hf. unfold GetBlocksShortInfo.
  set (from := listing_from top startfrom) in *.
  assert ((if (0 <? Z.of_nat (length startfrom))%Z then Ret (NewBlockchainIteratorFrom startfrom)
           else NewBlockchainIterator db) = Ret (mkBlockchainIterator from)) as ->.
  { destruct (Z.ltb_spec 0 (Z.of_nat (length startfrom))) as [Hl|Hl].
    - unfold from, listing_from. rewrite bool_decide_eq_false_2; [done|]. intros ->. simpl in Hl. lia.
    - destruct startfrom; [|simpl in Hl; lia]. by apply (NewBlockchainIterator_top f). }
  rewrite (each_block_walk f db fuel from bs) by done.
  assert (∀ bs1, length bs1 ≤ Z.to_nat maxcount →
    walk (λ blocks block,
        let blocks := blocks ++ [GetShortCopy block] in
        Ret (if (Z.of_nat (length (blk_PrevBlockHash block)) =? 0)%Z then Break blocks
             else if (maxcount <? Z.of_nat (length blocks))%Z then Break blocks
             else Continue blocks)) (GetShortCopy <$> bs1) bs
    = Ret (GetShortCopy <$> take (S (Z.to_nat maxcount)) (bs1 ++ bs))) as Hw;
    [|apply (Hw []); simpl; lia].
  clear Hf. induction Hp as [h b Hs Hb Hn|h b bs Hs Hb Hn Hp IH]; intros bs1 H1;
    cbn [walk]; cbv zeta; rewrite is_first_nil.
  - rewrite Hn, bool_decide_eq_true_2 by done.
    rewrite take_ge by (rewrite length_app; simpl; lia). by rewrite fmap_app.
  - rewrite bool_decide_eq_false_2 by done. rewrite length_app, length_fmap. cbn [length].
    rewrite ret_bind. destruct (Z.ltb_spec maxcount (Z.of_nat (length bs1 + 1))).
    + replace (S (Z.to_nat maxcount)) with (length bs1 + 1) by lia.
      replace (bs1 ++ b :: bs) with ((bs1 ++ [b]) ++ bs) by (by rewrite <- app_assoc).
      rewrite take_app_le by (rewrite length_app; simpl; lia).
      rewrite take_ge by (rewrite length_app; simpl; lia). by rewrite fmap_app.
    + replace ((GetShortCopy <$> bs1) ++ [GetShortCopy b]) with (GetShortCopy <$> bs1 ++ [b])
        by by rewrite fmap_app.
      rewrite IH by (rewrite length_app; simpl; lia). by rewrite <- app_assoc.
Qed.

(** *** Upwards along the chain bucket *)

(** Every block of a list is stored under its hash. *)
Definition all_stored f bs : Prop := Forall (λ b, stored f (blk_Hash b) b) bs.

Lemma hash_lookup_middle low b high :
  (blk_Hash <$> low ++ b :: high) !! length low = Some (blk_Hash b).
Proof. rewrite fmap_app, fmap_cons. apply list_lookup_middle. by rewrite length_fmap. Qed.

Lemma blocks_upwards_spec {A} n f db (mk : Block → A) maxcount low b high acc fuel :
  opened f db → in_chain n f (blk_Hash <$> low ++ b :: high) →
  all_stored f (low ++ b :: high) →
  (Z.of_nat (length acc) < maxcount)%Z → length high < fuel →
  loop fuel (λ '(hash, blocks),
    '(_, _, nextHash) ← GetLocationInChain hash f;
    block ← bc_GetBlock hash db;
    Ret (if (maxcount <=? Z.of_nat (length (blocks ++ [mk block])))%Z
         then Break (blocks ++ [mk block])
         else if (Z.of_nat (length nextHash) =? 0)%Z then Break (blocks ++ [mk block])
         else Continue (nextHash, blocks ++ [mk block]))) (blk_Hash b, acc)
  = Ret (acc ++ (mk <$> take (Z.to_nat maxcount - length acc) (b :: high))).
Proof.
  intros Ho. revert low b acc fuel. induction high as [|b' high IH];
    intros low b acc fuel Hc Hst Hm Hf; (destruct fuel as [|fuel]; [simpl in Hf; lia|]);
    cbn [loop].
  all: rewrite (GetLocationInChain_at n f _ (length low) (blk_Hash b) Hc (hash_lookup_middle low b _)),
    ret_bind.
  all: rewrite (bc_GetBlock_stored f db (blk_Hash b) b), ret_bind by
    (done || (unfold all_stored in Hst; rewrite Forall_forall in Hst; apply Hst, elem_of_app; right; left)).
  all: rewrite ret_bind, length_app; cbn [length].
  all: replace (Z.to_nat maxcount - length acc) with (S (Z.to_nat maxcount - length acc - 1)) by lia.
  all: rewrite firstn_cons, fmap_cons.
  all: destruct (Z.leb_spec maxcount (Z.of_nat (length acc + 1)));
    [replace (Z.to_nat maxcount - length acc - 1) with 0 by lia; by rewrite take_0|].
  - assert (after (blk_Hash <$> low ++ [b]) (length low) = None) as ->.
    { apply lookup_ge_None_2. rewrite length_fmap, length_app. simpl. lia. }
    simpl. by rewrite firstn_nil.
  - assert (after (blk_Hash <$> low ++ b :: b' :: high) (length low) = Some (blk_Hash b')) as ->.
    { unfold after. rewrite list_lookup_fmap, lookup_app_r by lia.
      by replace (S (length low) - length low) with 1 by lia. }
    assert (blk_Hash b' ≠ []) as Hne.
    { pose proof (ic_width _ _ _ Hc) as [Hn _]. intros E.
      destruct (ic_hash _ _ _ Hc (blk_Hash b')) as [Hl _].
      - rewrite fmap_app, !fmap_cons, !elem_of_app. right. right. left.
      - rewrite E in Hl. simpl in Hl. lia. }
    change (default [] (Some (blk_Hash b'))) with (blk_Hash b').
    rewrite is_first_nil, bool_decide_eq_false_2 by done. cbv match.
    specialize (IH (low ++ [b]) b' (acc ++ [mk b]) fuel). rewrite <- app_assoc in IH.
    rewrite IH by (done || rewrite ?length_app; simpl in *; lia).
    rewrite <- app_assoc, length_app. simpl length. do 3 f_equal.
    replace (Z.to_nat maxcount - (length acc + 1)) with (Z.to_nat maxcount - length acc - 1) by lia.
    done.
Qed.

(** [GetNextBlocks] returns short copies of the blocks of the main chain
    from a block upwards, at most a thousand. *)
Theorem GetNextBlocks_spec n f db low b high fuel :
  opened f db → in_chain n f (blk_Hash <$> low ++ b :: high) →
  all_stored f (low ++ b :: high) → length high < fuel →
  GetNextBlocks fuel (blk_Hash b) db = Ret (GetShortCopy <$> take 1000 (b :: high)).
Proof.
  intros Ho Hc Hst Hf. unfold GetNextBlocks, blocks_upwards. rewrite (opened_object f db Ho), ret_bind.
  by apply (blocks_upwards_spec n f db GetShortCopy 1000 low b high []).
Qed.

(** *** The fork of two branches *)

Lemma walk_descend l1 b l2 acc :
  consecutive (l1 ++ b :: l2) →
  walk (λ blocks block,
    Ret (if (blk_Height block =? blk_Height b)%Z then Break (block, blocks)
         else Continue (blocks ++ [block]))) acc (l1 ++ b :: l2) = Ret (b, acc ++ l1).
Proof.
  revert acc. induction l1 as [|b1 l1 IH]; intros acc Hc; simpl.
  - by rewrite Z.eqb_refl, app_nil_r.
  - destruct (Z.eqb_spec (blk_Height b1) (blk_Height b)) as [E|E].
    + pose proof (consecutive_lookup ((b1 :: l1) ++ b :: l2) (length (b1 :: l1)) b b1 Hc eq_refl) as Hh.
      rewrite (list_lookup_middle (b1 :: l1)) in Hh by done. specialize (Hh eq_refl). simpl in Hh. lia.
    + cbv match. rewrite IH by (by apply (consecutive_app [b1])). by rewrite <- app_assoc.
Qed.

Lemma descend_spec f db h l1 b l2 fuel :
  opened f db → path f h (l1 ++ b :: l2) → consecutive (l1 ++ b :: l2) →
  length (l1 ++ b :: l2) < fuel → descend fuel h (blk_Height b) db = Ret (b, l1).
Proof.
  intros Ho Hp Hc Hf. unfold descend, NewBlockchainIteratorFrom.
  rewrite (each_block_walk f db fuel h _ _ _ Ho Hp Hf). by rewrite walk_descend.
Qed.

(** The loop of [GetSideBranch] down two branches of the same length to their
    common block. *)
Lemma parallel_spec f db hs hm s m c rest sa ma fuel :
  opened f db → path f hs (s ++ c :: rest) → path f hm (m ++ c :: rest) →
  Forall2 (λ x y, blk_Hash x ≠ blk_Hash y) s m → length s < fuel →
  loop fuel (λ '(bcis, bcit, sideBlocks, mainBlocks),
    '(sideblock, bcis) ← unchecked (Next bcis db);
    '(topblock, bcit) ← unchecked (Next bcit db);
    if bytes_eqb (blk_Hash sideblock) (blk_Hash topblock)
    then Ret (Break (Some (sideBlocks, mainBlocks, sideblock)))
    else
      Ret (if ((Z.of_nat (length (blk_PrevBlockHash sideblock)) =? 0)
               || (Z.of_nat (length (blk_PrevBlockHash topblock)) =? 0))%Z
           then Break None
           else Continue (bcis, bcit, sideBlocks ++ [sideblock], mainBlocks ++ [topblock])))
    (mkBlockchainIterator hs, mkBlockchainIterator hm, sa, ma)
  = Ret (Some (sa ++ s, ma ++ m, c)).
Proof.
  intros Ho Hps Hpm Hne. revert hs hm sa ma fuel Hps Hpm.
  induction Hne as [|x y s m Hxy Hne IH]; intros hs hm sa ma [|fuel] Hps Hpm Hf; simpl in Hf; try lia;
    cbn [loop].
  - apply path_inv in Hps as (b & bs & [= <- <-] & Hs & _ & _).
    apply path_inv in Hpm as (b & bs & [= <- <-] & Hm & _ & _).
    rewrite (Next_stored f db hs c Ho Hs), (Next_stored f db hm c Ho Hm). simpl.
    by rewrite bytes_eqb_refl, !app_nil_r.
  - apply path_inv in Hps as (b & bs & [= <- <-] & Hs & _ & [[E _]|[Hns Hps]]); [by destruct s|].
    apply path_inv in Hpm as (b & bs & [= <- <-] & Hm & _ & [[E _]|[Hnm Hpm]]); [by destruct m|].
    rewrite (Next_stored f db hs x Ho Hs), (Next_stored f db hm y Ho Hm). simpl.
    rewrite (proj2 (bytes_eqb_false _ _)), !is_first_nil, !bool_decide_eq_false_2 by done. simpl.
    rewrite IH by (done || lia). by rewrite <- !app_assoc.
Qed.

Lemma distinct_same_length s m :
  length s = length m → (∀ b, b ∈ s → blk_Hash b ∉ blk_Hash <$> m) →
  Forall2 (λ x y, blk_Hash x ≠ blk_Hash y) s m.
Proof.
  intros Hl Hd. apply Forall2_same_length_lookup. split; [done|]. intros i x y Hx Hy E.
  apply (Hd x); [by eapply list_elem_of_lookup_2|]. rewrite E.
  apply list_elem_of_fmap_2. by eapply list_elem_of_lookup_2.
Qed.

(** Going down a branch to the block [k] above the block [c]. *)
Lemma descend_at f db h l c rest k fuel :
  opened f db → path f h (l ++ c :: rest) → consecutive (l ++ c :: rest) → k ≤ length l →
  length (l ++ c :: rest) < fuel →
  ∃ b l1 l2, l = l1 ++ l2 ∧ length l2 = k ∧ path f (blk_Hash b) (l2 ++ c :: rest) ∧
    descend fuel h (blk_Height c + Z.of_nat k) db = Ret (b, l1).
Proof.
  intros Ho Hp Hc Hk Hf. pose proof (take_drop (length l - k) l) as E.
  assert (length (drop (length l - k) l) = k) as Hl2 by (rewrite length_drop; lia).
  set (l1 := take _ l) in *. set (l2 := drop _ l) in *. clearbody l1 l2. subst l.
  rewrite <- app_assoc in *.
  assert (∃ b tl, l2 ++ c :: rest = b :: tl) as (b & tl & Eb) by (destruct l2; simpl; eauto).
  exists b, l1, l2. split_and!; [done|done| |].
  - rewrite Eb in *. by eapply path_suffix.
  - pose proof (consecutive_lookup _ (length l2) c b (consecutive_app _ _ Hc)) as Hh.
    rewrite Eb in Hh. specialize (Hh eq_refl). rewrite <- Eb in Hh.
    specialize (Hh (list_lookup_middle _ _ _ _ eq_refl)).
    replace (blk_Height c + Z.of_nat k)%Z with (blk_Height b) by lia.
    rewrite Eb in *. by apply (descend_spec f db h l1 b tl).
Qed.

(** The parts of [GetSideBranch] for branches that part at [c]. *)
Lemma GetSideBranch_at f db side top s m c rest fuel :
  opened f db → path f side (s ++ c :: rest) → path f top (m ++ c :: rest) →
  consecutive (s ++ c :: rest) → consecutive (m ++ c :: rest) →
  (∀ b, head (s ++ c :: rest) = Some b ∨ head (m ++ c :: rest) = Some b → (1 ≤ blk_Height b)%Z) →
  (∀ b, b ∈ s → blk_Hash b ∉ blk_Hash <$> m ++ c :: rest) →
  length (s ++ c :: rest) < fuel → length (m ++ c :: rest) < fuel →
  GetSideBranch fuel side top db = Ret (s, reverse m, c).
Proof.
  intros Ho Hps Hpm Hcs Hcm Hh Hd Hfs Hfm.
  assert (∀ h l b0, path f h (l ++ c :: rest) → head (l ++ c :: rest) = Some b0 →
            bc_GetBlock h db = Ret b0 ∧ blk_Hash b0 = h) as Hget.
  { intros h l b0 Hp Hh0. apply path_inv in Hp as (b & bs & E & Hs & Hb & _).
    rewrite E in Hh0. injection Hh0 as ->. split; [by apply (bc_GetBlock_stored f)|done]. }
  assert (∃ s0, head (s ++ c :: rest) = Some s0) as [s0 Hs0] by (destruct s; eauto).
  assert (∃ m0, head (m ++ c :: rest) = Some m0) as [m0 Hm0] by (destruct m; eauto).
  destruct (Hget _ _ _ Hps Hs0) as [Es Hs], (Hget _ _ _ Hpm Hm0) as [Em Hm].
  pose proof (Hh s0 (or_introl Hs0)) as H1s. pose proof (Hh m0 (or_intror Hm0)) as H1m.
  pose proof (consecutive_lookup _ (length s) c s0 Hcs Hs0 (list_lookup_middle _ _ _ _ eq_refl)) as Hhs.
  pose proof (consecutive_lookup _ (length m) c m0 Hcm Hm0 (list_lookup_middle _ _ _ _ eq_refl)) as Hhm.
  unfold GetSideBranch. rewrite Es, ret_bind, Em, ret_bind.
  rewrite !(proj2 (Z.ltb_ge _ 1)) by done. change (false || false) with false. cbv beta iota.
  assert (∃ sa s' ma m' sb tb, s = sa ++ s' ∧ m = ma ++ m' ∧ length s' = length m' ∧
    path f (blk_Hash sb) (s' ++ c :: rest) ∧ path f (blk_Hash tb) (m' ++ c :: rest) ∧
    (if (blk_Height m0 <? blk_Height s0)%Z then
       '(b, bs) ← descend fuel (blk_Hash s0) (blk_Height m0) db; Ret (b, bs, m0, [])
     else if (blk_Height s0 <? blk_Height m0)%Z then
       '(b, bs) ← descend fuel (blk_Hash m0) (blk_Height s0) db; Ret (s0, [], b, bs)
     else Ret (s0, [], m0, [])) = Ret (sb, sa, tb, ma))
    as (sa & s' & ma & m' & sb & tb & -> & -> & Hl & Hps' & Hpm' & ->).
  { destruct (Z.ltb_spec (blk_Height m0) (blk_Height s0)) as [Hlt|Hge];
      [|destruct (Z.ltb_spec (blk_Height s0) (blk_Height m0)) as [Hlt|Hge']].
    - destruct (descend_at f db side s c rest (length m) fuel) as (b & l1 & l2 & -> & Hl2 & Hp & Hds);
        [done..|lia|done|].
      exists l1, l2, [], m, b, m0. rewrite Hs, Hm. split_and!; try done.
      replace (blk_Height m0) with (blk_Height c + Z.of_nat (length m))%Z by lia. by rewrite Hds.
    - destruct (descend_at f db top m c rest (length s) fuel) as (b & l1 & l2 & -> & Hl2 & Hp & Hds);
        [done..|lia|done|].
      exists [], s, l1, l2, s0, b. rewrite Hs, Hm. split_and!; try done.
      replace (blk_Height s0) with (blk_Height c + Z.of_nat (length s))%Z by lia. by rewrite Hds.
    - exists [], s, [], m, s0, m0. rewrite Hs, Hm. split_and!; try done. lia. }
  rewrite ret_bind. unfold NewBlockchainIteratorFrom.
  pose proof (parallel_spec f db _ _ s' m' c rest sa ma fuel Ho Hps' Hpm') as Hpar.
  cbv beta iota zeta. rewrite Hpar.
  - by rewrite ret_bind, ReverseBlocksSlice_reverse.
  - apply distinct_same_length; [done|]. intros b Hb Hin. apply (Hd b); [apply elem_of_app; by right|].
    rewrite <- app_assoc, !fmap_app, !elem_of_app. right. by left.
  - rewrite !length_app in Hfs. simpl in Hfs. lia.
Qed.

(** for two stored branches that end in the same first block and whose
    heights count their blocks, [GetSideBranch] returns the block where they
    part, the blocks of the side branch above it from the top down, and those
    of the other branch from the bottom up; neither list has a block of the
    other branch. *)
Theorem GetSideBranch_fork f db side top bs_side bs_top fuel :
  opened f db → path f side bs_side → path f top bs_top → last bs_side = last bs_top →
  consecutive bs_side → consecutive bs_top →
  (∀ b, head bs_side = Some b ∨ head bs_top = Some b → (1 ≤ blk_Height b)%Z) →
  length bs_side < fuel → length bs_top < fuel →
  ∃ s m c rest, bs_side = s ++ c :: rest ∧ bs_top = m ++ c :: rest ∧
    (∀ b, b ∈ s → blk_Hash b ∉ blk_Hash <$> bs_top) ∧
    (∀ b, b ∈ m → blk_Hash b ∉ blk_Hash <$> bs_side) ∧
    GetSideBranch fuel side top db = Ret (s, reverse m, c).
Proof.
  intros Ho Hps Hpm Hl Hcs Hcm Hh Hfs Hfm.
  destruct (fork f side top _ _ Hps Hpm Hl) as (s & m & c & rest & -> & -> & Hs & Hm).
  exists s, m, c, rest. split_and!; try done. by apply (GetSideBranch_at f db side top s m c rest).
Qed.

(** [GetBranchesReplacement] returns the blocks to take back, from the
    bottom up, and the blocks to apply, from the top down; nothing is replaced
    by a tip that is in the current branch already. *)
Theorem GetBranchesReplacement_spec f db side top s m c rest fuel :
  opened f db → path f side (s ++ c :: rest) → path f top (m ++ c :: rest) →
  consecutive (s ++ c :: rest) → consecutive (m ++ c :: rest) →
  (∀ b, head (s ++ c :: rest) = Some b ∨ head (m ++ c :: rest) = Some b → (1 ≤ blk_Height b)%Z) →
  (∀ b, b ∈ s → blk_Hash b ∉ blk_Hash <$> m ++ c :: rest) →
  length (s ++ c :: rest) < fuel → length (m ++ c :: rest) < fuel →
  GetBranchesReplacement fuel side top db
  = if bool_decide (s = []) then Ret ([], []) else Ret (reverse m, s).
Proof.
  intros Ho Hps Hpm Hcs Hcm Hh Hd Hfs Hfm. unfold GetBranchesReplacement.
  rewrite (GetSideBranch_at f db side top s m c rest) by done. simpl.
  destruct s as [|b s].
  - apply path_inv in Hps as (b & bs & [= <- <-] & _ & <- & _). by rewrite bytes_eqb_refl.
  - rewrite (proj2 (bytes_eqb_false _ _)); [done|]. intros E.
    apply path_inv in Hps as (b' & bs & [= <- <-] & _ & <- & _).
    apply (Hd b); [by left|]. rewrite <- E, fmap_app, fmap_cons, !elem_of_app. right. left.
Qed.
End Lookup.

Section Witnesses.
Import MapBolt Codecs Demo.

Lemma GetBlockAtHeight_spec_witness : GetBlockAtHeight 4 0 demo_db = Ret blk_g.
Proof.
  apply (GetBlockAtHeight_spec demo_chain demo_db hash_a [blk_a; blk_g] 0 4);
    [apply demo_opened|reflexivity|discriminate|apply demo_path_a|done|simpl; lia].
Defined.

Lemma GetBlocksShortInfo_spec_witness :
  GetBlocksShortInfo 4 [] 0 demo_db = Ret [GetShortCopy blk_a].
Proof.
  apply (GetBlocksShortInfo_spec demo_chain demo_db hash_a [] [blk_a; blk_g] 0 4);
    [apply demo_opened|reflexivity|discriminate|apply demo_path_a|lia|simpl; lia].
Defined.

Lemma GetNextBlocks_spec_witness :
  GetNextBlocks 4 hash_g demo_db = Ret [GetShortCopy blk_g; GetShortCopy blk_a].
Proof.
  apply (GetNextBlocks_spec 2 demo_chain demo_db [] blk_g [blk_a] 4);
    [apply demo_opened|apply demo_in_chain| |simpl; lia].
  constructor; [|constructor; [|constructor]]; apply demo_stored; [left|right; left].
Defined.

Lemma demo_heights b :
  head [blk_b; blk_g] = Some b ∨ head [blk_a; blk_g] = Some b → (1 ≤ blk_Height b)%Z.
Proof. by intros [[= <-]|[= <-]]. Qed.

Lemma GetSideBranch_fork_witness :
  ∃ s m c rest, [blk_b; blk_g] = s ++ c :: rest ∧ [blk_a; blk_g] = m ++ c :: rest ∧
    (∀ b, b ∈ s → blk_Hash b ∉ blk_Hash <$> [blk_a; blk_g]) ∧
    (∀ b, b ∈ m → blk_Hash b ∉ blk_Hash <$> [blk_b; blk_g]) ∧
    GetSideBranch 4 hash_b hash_a demo_db = Ret (s, reverse m, c).
Proof.
  apply (GetSideBranch_fork demo_chain demo_db hash_b hash_a [blk_b; blk_g] [blk_a; blk_g] 4);
    [apply demo_opened|apply demo_path_b|apply demo_path_a|done|done|done|apply demo_heights
    |simpl; lia|simpl; lia].
Defined.

Lemma GetBranchesReplacement_spec_witness :
  GetBranchesReplacement 4 hash_b hash_a demo_db = Ret ([blk_a], [blk_b]).
Proof.
  apply (GetBranchesReplacement_spec demo_chain demo_db hash_b hash_a [blk_b] [blk_a] blk_g [] 4);
    [apply demo_opened|apply demo_path_b|apply demo_path_a|done|done|apply demo_heights
    | |simpl; lia|simpl; lia].
  intros b [->|[]%elem_of_nil]%elem_of_cons. by apply (bool_decide_unpack _).
Defined.
End Witnesses.
