(* ===== verification/BlockchainUpdate.v ===== *)
(** * Theorems on changing the chain of blocks

    The invariant of the blockchain file: every stored block is linked down to
    the first block, the top hash names a stored block, and the chain bucket
    lists the hashes from the first block to the top.  [AddBlock] keeps it in
    every case, a change of the main branch included, and [DeleteBlock] when
    the top has no block above it. *)

From Stdlib Require Import Strings.Byte ZifyNat.
From stdpp Require Import base strings numbers gmap sorting list.
From S2P Require Import Prelude Float64 Platform Concrete Utils Structures Codecs Database.
From S2P Require Import ChainIndex Blockchain Branches.

Import BlockchainDB.

Section Update.
Context `{BoltLaws} `{!Gob Block} `{!GobLaws Block}.
Implicit Types (f : boltfile) (db : DB) (h top : bytes) (b : Block) (bs : list Block).

(** ** The invariant *)

Definition key_l : bytes := str "l".
Definition key_f : bytes := str "f".

Definition hashes bs : list bytes := blk_Hash <$> bs.

(** A path of blocks whose hashes have [n] bytes. *)
Definition npath (n : nat) f h bs : Prop :=
  path f h bs ∧ Forall (λ b, chain_hash n (blk_Hash b)) bs.

Record chain_state (n : nat) f top bs : Prop := {
  cs_width : 2 ≤ n;
  cs_dom : blocksBucket ∈ dom f;
  cs_top : bget f blocksBucket key_l = Some top;
  cs_path : npath n f top bs;
  cs_chain : in_chain n f (reverse (hashes bs));
  cs_first : bget f blocksBucket key_f = blk_Hash <$> last bs;
  cs_rooted h data : bget f blocksBucket h = Some data → h ≠ key_l → h ≠ key_f →
    ∃ bs', npath n f h bs' ∧ last bs' = last bs
}.

(** *** What a change of one bucket leaves *)

Lemma only_bucket_record name f f' name' k :
  only_bucket name f f' → name' ≠ name → bget f' name' k = bget f name' k.
Proof. intros [_ Ho] Hn. by apply Ho. Qed.

Lemma in_chain_blocks n f f' hs :
  only_bucket blocksBucket f f' → in_chain n f hs → in_chain n f' hs.
Proof.
  intros Ho Hc. split; try apply Hc.
  - rewrite (proj1 Ho). apply Hc.
  - intros i h Hi. rewrite (only_bucket_record _ _ _ _ _ Ho) by done. by apply (ic_record _ _ _ Hc).
  - intros k Hk. rewrite (only_bucket_record _ _ _ _ _ Ho) by done. by apply (ic_absent _ _ _ Hc).
Qed.

Lemma path_transport f f' h bs :
  path f h bs →
  (∀ b, b ∈ bs → bget f' blocksBucket (blk_Hash b) = bget f blocksBucket (blk_Hash b)) →
  path f' h bs.
Proof.
  assert (∀ h b, stored f h b → bget f' blocksBucket h = bget f blocksBucket h → stored f' h b) as Hst.
  { intros h' b (data & Hd & ?) E. exists data. by rewrite E. }
  induction 1 as [h b Hs Hb Hn|h b bs Hs Hb Hn Hp IH]; intros He.
  - apply path_first; [|done|done]. apply Hst; [done|]. subst h. apply He. by left.
  - apply path_next; [|done|done|].
    + apply Hst; [done|]. subst h. apply He. by left.
    + apply IH. intros b' Hb'. apply He. by right.
Qed.

(** A change of one record keeps the paths that avoid it. *)
Lemma npath_set_record n f f' k o h bs :
  set_record f blocksBucket k o f' → npath n f h bs → k ∉ hashes bs → npath n f' h bs.
Proof.
  intros Hr [Hp Hh] Hk. split; [|done]. eapply path_transport; [done|]. intros b Hb.
  apply (set_record_ne _ _ _ _ _ _ _ Hr). right. intros <-. by apply Hk, list_elem_of_fmap_2.
Qed.

Lemma npath_only_chain n f f' h bs :
  only_bucket blockChainBucket f f' → npath n f h bs → npath n f' h bs.
Proof.
  intros Ho [Hp Hh]. split; [|done]. eapply path_transport; [done|]. intros b _.
  by apply (only_bucket_record _ _ _ _ _ Ho).
Qed.

Lemma not_special n f h bs k :
  2 ≤ n → npath n f h bs → length k ≤ 1 → k ∉ hashes bs.
Proof.
  intros Hn [_ Hh] Hk (b & -> & Hb)%list_elem_of_fmap.
  rewrite Forall_forall in Hh. destruct (Hh b Hb) as [Hl _]. lia.
Qed.

(** ** The three loops of [UpdateChainOnNewBranch] *)

Lemma new_branch_spec n f db h new c rest old fuel :
  opened f db → path f h (new ++ c :: rest) → in_chain n f old →
  (∀ b, b ∈ new → chain_hash n (blk_Hash b) ∧ blk_Hash b ∉ old) →
  blk_Hash c ∈ old → length (new ++ c :: rest) < fuel →
  new_branch fuel (mkBlockchainIterator h) f db = Ret (blk_Hash c, GetShortCopy <$> new).
Proof.
  intros Ho Hp Hc Hnew Hcin Hf. unfold new_branch.
  rewrite (each_block_walk f db fuel h _ _ _ Ho Hp Hf). clear Hf.
  assert (∀ acc h, path f h (new ++ c :: rest) →
    walk (λ newBlocks block,
      found ← BlockInChain (blk_Hash block) f;
      Ret (if (found : bool) then Break (blk_Hash block, newBlocks)
           else if (Z.of_nat (length (blk_PrevBlockHash block)) =? 0)%Z
                then Break ([], newBlocks ++ [GetShortCopy block])
                else Continue (newBlocks ++ [GetShortCopy block]))) acc (new ++ c :: rest)
    = Ret (blk_Hash c, acc ++ (GetShortCopy <$> new))) as Hw; [|by apply (Hw [] h)].
  clear Hp h. induction new as [|b new IH]; intros acc h Hp; cbn [walk app].
  - rewrite (BlockInChain_refines n f old) by (done || apply (ic_hash _ _ _ Hc), Hcin).
    rewrite bool_decide_eq_true_2 by done. simpl. by rewrite app_nil_r.
  - destruct (Hnew b) as [[Hl _] Hnin]; [by left|].
    rewrite (BlockInChain_refines n f old), bool_decide_eq_false_2 by done.
    apply path_inv in Hp as (b' & bs & [= <- <-] & _ & _ & [[E _]|[Hne Hp]]); [by destruct new|].
    rewrite !ret_bind. destruct (blk_PrevBlockHash b) as [|x p]; [done|].
    cbv match. change (Z.of_nat (length (x :: p)) =? 0)%Z with false. cbv match.
    rewrite (IH (λ b Hb, Hnew b (list_elem_of_further _ _ _ Hb)) _ _ Hp).
    by rewrite <- app_assoc.
Qed.

Lemma remove_down_spec n f base m old fuel :
  in_chain n f (base ++ [m] ++ old) → length old < fuel →
  ∃ f', remove_down fuel (default [] (last ([m] ++ old))) m f = (Ret tt, f') ∧
        in_chain n f' (base ++ [m]) ∧ only_bucket blockChainBucket f f'.
Proof.
  revert f fuel. induction old as [|x old IH] using rev_ind; intros f [|fuel] Hc Hf;
    rewrite ?length_app in Hf; simpl in Hf; try lia; cbn [remove_down].
  - rewrite app_nil_r in Hc. simpl. rewrite bytes_eqb_refl. exists f. split_and!; [done|done|].
    apply only_bucket_refl.
  - assert (base ++ [m] ++ old ++ [x] = (base ++ [m] ++ old) ++ [x]) as E by by rewrite <- !app_assoc.
    rewrite E in Hc. rewrite app_assoc, last_snoc. change (default [] (Some x)) with x.
    pose proof (ic_NoDup _ _ _ Hc) as Hnd. apply NoDup_app in Hnd as (_ & Hnd & _).
    rewrite (proj2 (bytes_eqb_false x m)).
    2: { intros ->. apply (Hnd m); [|by left]. rewrite !elem_of_app. right. left. by left. }
    assert (((base ++ [m] ++ old) ++ [x]) !! length (base ++ [m] ++ old) = Some x) as Hx
      by by apply list_lookup_middle.
    pose proof (GetLocationInChain_at n f _ _ x Hc Hx) as Hloc.
    rewrite before_snoc, decide_True in Hloc by lia.
    pose proof (RemoveFromChain_refines n f _ x Hc) as Hrem.
    unfold chain_remove in Hrem. rewrite last_snoc, decide_True, length_app in Hrem by done.
    simpl in Hrem. replace (length (base ++ m :: old) + 1 - 1) with (length (base ++ m :: old)) in Hrem by lia.
    rewrite take_app_length in Hrem.
    destruct Hrem as (f1 & Hrem & Hc1 & Ho1).
    { apply (ic_hash _ _ _ Hc), elem_of_app. right. by left. }
    destruct (IH f1 fuel Hc1) as (f2 & Hr2 & Hc2 & Ho2); [lia|].
    exists f2. split; [|split; [done|by eapply only_bucket_trans]].
    apply st_bind_Ret. eexists _, f. unfold ask. split; [by rewrite Hloc|]. cbv beta iota.
    apply st_bind_Ret. exists tt, f1. split; [done|].
    replace (last (base ++ [m] ++ old)) with (last ([m] ++ old)); [done|].
    rewrite (last_app base). by destruct (last ([m] ++ old)) eqn:El; [|apply last_None in El].
Qed.

Lemma add_up_spec n f hs m new :
  in_chain n f hs → last hs = Some m → NoDup (bs_Hash <$> new) →
  (∀ s, s ∈ new → chain_hash n (bs_Hash s) ∧ bs_Hash s ∉ hs) →
  ∃ f' r, add_up new m f = (Ret r, f') ∧ in_chain n f' (hs ++ (bs_Hash <$> new)) ∧
          only_bucket blockChainBucket f f'.
Proof.
  revert f hs m. induction new as [|s new IH]; intros f hs m Hc Hl Hnd Hnew.
  { exists f, m. rewrite app_nil_r. split_and!; [done|done|apply only_bucket_refl]. }
  rewrite fmap_cons in Hnd. apply NoDup_cons in Hnd as [Hs Hnd].
  destruct (Hnew s) as [Hh Hnin]; [by left|].
  pose proof (AddToChain_refines n f hs (bs_Hash s) m Hc Hh Hnin) as Ha.
  unfold chain_add in Ha. rewrite decide_True in Ha by by left.
  destruct Ha as (f1 & Ha & Hc1 & Ho1).
  { intros ->. apply last_Some_elem_of, (ic_hash _ _ _ Hc) in Hl as [Hl _].
    pose proof (ic_width _ _ _ Hc). simpl in Hl. lia. }
  destruct (IH f1 (hs ++ [bs_Hash s]) (bs_Hash s) Hc1) as (f2 & r & Hr & Hc2 & Ho2).
  - by rewrite last_snoc.
  - done.
  - intros s' Hs'. destruct (Hnew s') as [Hh' Hnin']; [by right|]. split; [done|].
    rewrite elem_of_app, list_elem_of_singleton. intros [?|E]; [done|]. apply Hs. rewrite <- E.
    by apply list_elem_of_fmap_2.
  - exists f2, r. split; [|split; [|by eapply only_bucket_trans]].
    + unfold add_up. cbn [sfor]. apply st_bind_Ret. exists (bs_Hash s), f1. split; [|done].
      apply st_bind_Ret. eauto.
    + by rewrite fmap_cons, cons_middle, app_assoc.
Qed.

(** *** Running on the node's database *)

Lemma opened_with_bc f f' db :
  opened f db → blocksBucket ∈ dom f' → opened f' (with_bc f' db).
Proof. by intros (Ho & _ & _). Qed.

Lemma with_bc_twice f f' db : with_bc f' (with_bc f db) = with_bc f' db.
Proof. done. Qed.

Lemma with_bc_same f db : opened f db → with_bc f db = db.
Proof. intros (_ & E & _). destruct db as [o b nd]. simpl in E. unfold with_bc. simpl. by rewrite E. Qed.

Lemma on_bc_Ret {A} (op : st boltfile A) f db a f' :
  opened f db → op f = (Ret a, f') → on_bc op db = (Ret a, with_bc f' db).
Proof. intros (Ho & E & _) Hop. unfold on_bc. by rewrite E, Hop. Qed.

Lemma ask_Ret {S A} (g : S → outcome A) s a : g s = Ret a → ask g s = (Ret a, s).
Proof. intros E. unfold ask. by rewrite E. Qed.

Lemma drop_err_Ret {S A} (m : st S A) s a s' : m s = (Ret a, s') → drop_err m s = (Ret tt, s').
Proof. intros E. unfold drop_err. by rewrite E. Qed.

(** The chain bucket after [UpdateChainOnNewBranch] lists the new branch. *)
Lemma UpdateChainOnNewBranch_spec n f db h new c rest old oldTop fuel :
  opened f db → bget f blocksBucket key_l = Some h → h ≠ [] →
  path f h (new ++ c :: rest) → Forall (λ b, chain_hash n (blk_Hash b)) new →
  in_chain n f (reverse (hashes (old ++ c :: rest))) →
  blk_Hash <$> head (old ++ c :: rest) = Some oldTop →
  (∀ b, b ∈ new → blk_Hash b ∉ hashes (old ++ c :: rest)) →
  length (new ++ c :: rest) < fuel → length old < fuel →
  ∃ f', UpdateChainOnNewBranch fuel oldTop db = (Ret tt, with_bc f' db) ∧
        in_chain n f' (reverse (hashes (new ++ c :: rest))) ∧
        only_bucket blockChainBucket f f'.
Proof.
  intros Ho Htop Hne Hp Hh Hc Hold Hnew Hf1 Hf2.
  assert (reverse (hashes (old ++ c :: rest))
          = reverse (hashes rest) ++ [blk_Hash c] ++ reverse (hashes old)) as Erev.
  { unfold hashes. by rewrite fmap_app, fmap_cons, reverse_app, reverse_cons, <- app_assoc. }
  assert (new_branch fuel (mkBlockchainIterator h) f db = Ret (blk_Hash c, GetShortCopy <$> new)) as Hnb.
  { apply (new_branch_spec n f db h new c rest _ fuel Ho Hp Hc); [|rewrite Erev; set_solver|done].
    intros b Hb. rewrite Forall_forall in Hh. rewrite elem_of_reverse. auto. }
  rewrite Erev in Hc.
  destruct (remove_down_spec n f _ (blk_Hash c) (reverse (hashes old)) fuel Hc) as (f1 & Hr1 & Hc1 & Ho1).
  { unfold hashes. by rewrite length_reverse, length_fmap. }
  assert (default [] (last ([blk_Hash c] ++ reverse (hashes old))) = oldTop) as El.
  { destruct old as [|b old]; simpl in Hold; [by simplify_eq|]. injection Hold as <-.
    unfold hashes. by rewrite fmap_cons, reverse_cons, app_assoc, last_snoc. }
  rewrite El in Hr1.
  assert (bs_Hash <$> reverse (GetShortCopy <$> new) = reverse (hashes new)) as Eshort.
  { by rewrite fmap_reverse, <- list_fmap_compose. }
  destruct (add_up_spec n f1 (reverse (hashes rest) ++ [blk_Hash c]) (blk_Hash c)
              (reverse (GetShortCopy <$> new))) as (f2 & r & Hr2 & Hc2 & Ho2).
  { done. } { by rewrite last_snoc. }
  { rewrite Eshort, reverse_Permutation. pose proof (path_NoDup _ _ _ Hp) as Hnd.
    rewrite fmap_app in Hnd. by apply NoDup_app in Hnd as [? _]. }
  { intros s. rewrite elem_of_reverse. intros (b & -> & Hb)%list_elem_of_fmap. simpl.
    rewrite Forall_forall in Hh. split; [by apply Hh|]. intros Hin. apply (Hnew b Hb).
    unfold hashes in *. rewrite fmap_app, fmap_cons. set_solver. }
  rewrite Eshort in Hc2. exists f2. split.
  - unfold UpdateChainOnNewBranch.
    apply st_bind_Ret. exists (mkBlockchainIterator h), db.
    split; [by apply ask_Ret, (NewBlockchainIterator_top f)|].
    apply st_bind_Ret. exists f, db. split; [by apply ask_Ret, opened_object|].
    apply st_bind_Ret. exists (blk_Hash c, GetShortCopy <$> new), db. split; [by apply ask_Ret|].
    cbv beta iota. apply st_bind_Ret. exists tt, (with_bc f1 db). split; [by apply (on_bc_Ret _ f)|].
    apply st_bind_Ret. exists (reverse (GetShortCopy <$> new)), (with_bc f1 db).
    split; [unfold lift; by rewrite ReverseBlocksShortSlice_reverse|].
    apply st_bind_Ret. exists r, (with_bc f2 db). split; [|done].
    change (with_bc f2 db) with (with_bc f2 (with_bc f1 db)). apply (on_bc_Ret _ f1); [|done].
    eapply opened_with_bc; [done|]. rewrite (proj1 Ho1). apply Ho.
  - split; [|by eapply only_bucket_trans]. unfold hashes in *.
    by rewrite fmap_app, fmap_cons, reverse_app, reverse_cons.
Qed.

(** ** Adding a block *)

Lemma cs_head n f top bs :
  chain_state n f top bs → ∃ b bs', bs = b :: bs' ∧ stored f top b ∧ blk_Hash b = top.
Proof. intros Hs. destruct (cs_path _ _ _ _ Hs) as [Hp _]. apply path_inv in Hp as (b & bs' & ? & ? & ? & _). eauto. Qed.

Lemma npath_head_hash n f h bs : npath n f h bs → chain_hash n h.
Proof.
  intros [Hp Hh]. apply path_inv in Hp as (b & bs' & -> & _ & <- & _).
  by apply Forall_cons in Hh as [? _].
Qed.

Lemma chain_hash_special n h : 2 ≤ n → chain_hash n h → h ≠ key_l ∧ h ≠ key_f ∧ h ≠ [].
Proof. intros Hn [Hl _]. split_and!; intros ->; simpl in Hl; lia. Qed.

(** A new block whose block before is stored leaves the invariant as it is. *)
Lemma chain_state_put n f f' top bs block data prev_bs :
  chain_state n f top bs → chain_hash n (blk_Hash block) →
  bget f blocksBucket (blk_Hash block) = None →
  blk_PrevBlockHash block ≠ [] →
  npath n f (blk_PrevBlockHash block) prev_bs → last prev_bs = last bs →
  blk_Serialize block = Ret data →
  set_record f blocksBucket (blk_Hash block) (Some data) f' →
  chain_state n f' top bs ∧ npath n f' (blk_Hash block) (block :: prev_bs).
Proof.
  intros Hs Hh Hnew Hprev Hpp Hl Hser Hr. pose proof (cs_width _ _ _ _ Hs) as Hn.
  destruct (chain_hash_special n _ Hn Hh) as (Hkl & Hkf & _).
  assert (∀ h bs', npath n f h bs' → npath n f' h bs') as Hkeep.
  { intros h bs' Hp. eapply npath_set_record; [done|done|].
    intros (b & Eb & Hb)%list_elem_of_fmap.
    destruct (path_stored f h bs' b (proj1 Hp) Hb) as (d & Hd & _). congruence. }
  assert (npath n f' (blk_Hash block) (block :: prev_bs)) as Hpath.
  { destruct (Hkeep _ _ Hpp) as [Hp' Hf]. split; [|by constructor].
    apply path_next; [|done|done|done]. exists data.
    destruct (gob_roundtrip block data Hser). split_and!; [by eapply set_record_eq|done|done]. }
  split; [|done]. split; [done| | | | | |].
  - rewrite (set_record_dom _ _ _ _ _ Hr). apply Hs.
  - rewrite (set_record_ne _ _ _ _ _ _ _ Hr) by auto. apply Hs.
  - apply Hkeep, Hs.
  - eapply in_chain_blocks; [by eapply set_record_only|]. apply Hs.
  - rewrite (set_record_ne _ _ _ _ _ _ _ Hr) by auto. apply Hs.
  - intros h d Hd Hh1 Hh2. destruct (decide (h = blk_Hash block)) as [->|Hne].
    + exists (block :: prev_bs). split; [done|]. rewrite last_cons, Hl.
      by destruct (path_last _ _ _ (proj1 (cs_path _ _ _ _ Hs))) as (g & -> & _).
    + rewrite (set_record_ne _ _ _ _ _ _ _ Hr) in Hd by auto.
      destruct (cs_rooted _ _ _ _ Hs h d Hd Hh1 Hh2) as (bs' & Hp & Hl'). eauto.
Qed.

(** A stored block becomes the top: its hash is saved and the chain bucket
    made to list its branch. *)
Lemma chain_state_top n f f1 f2 top bs h bs' :
  chain_state n f top bs → npath n f h bs' → last bs' = last bs →
  set_record f blocksBucket key_l (Some h) f1 → only_bucket blockChainBucket f1 f2 →
  in_chain n f2 (reverse (hashes bs')) →
  chain_state n f2 h bs'.
Proof.
  intros Hs Hp Hl Hr Ho Hc. pose proof (cs_width _ _ _ _ Hs) as Hn.
  assert (∀ h bs', npath n f h bs' → npath n f2 h bs') as Hkeep.
  { intros h' bs1 Hp1. eapply npath_only_chain; [done|]. eapply npath_set_record; [done|done|].
    by eapply not_special. }
  assert (∀ k, k ≠ key_l → bget f2 blocksBucket k = bget f blocksBucket k) as Hsame.
  { intros k Hk. rewrite (only_bucket_record _ _ _ _ _ Ho) by done.
    apply (set_record_ne _ _ _ _ _ _ _ Hr). by right. }
  split; [done| | |by apply Hkeep|done| |].
  - rewrite (proj1 Ho), (set_record_dom _ _ _ _ _ Hr). apply Hs.
  - rewrite (only_bucket_record _ _ _ _ _ Ho) by done. by eapply set_record_eq.
  - rewrite Hsame, Hl by done. apply Hs.
  - intros k d Hd Hk1 Hk2. rewrite Hsame in Hd by done.
    destruct (cs_rooted _ _ _ _ Hs k d Hd Hk1 Hk2) as (bs1 & Hp1 & Hl1).
    exists bs1. split; [by apply Hkeep|]. by rewrite Hl1, Hl.
Qed.

(** The result [AddBlock] is to have. *)
Definition add_state f top (topHeight : Z) block : Z :=
  if bool_decide (is_Some (bget f blocksBucket (blk_Hash block))) then BCBAddState_notAddedExists
  else if bool_decide (bget f blocksBucket (blk_PrevBlockHash block) = None)
  then BCBAddState_notAddedNoPrev
  else if (blk_Height block <=? topHeight)%Z then BCBAddState_addedToParallel
  else if bool_decide (top = blk_PrevBlockHash block) then BCBAddState_addedToTop
  else BCBAddState_addedToParallelTop.

(** A record of the blocks bucket that is not special is not empty. *)
Lemma cs_record_nonempty n f top bs h data :
  chain_state n f top bs → bget f blocksBucket h = Some data → h ≠ key_l → h ≠ key_f →
  data ≠ [].
Proof.
  intros Hs Hd H1 H2. destruct (cs_rooted _ _ _ _ Hs h data Hd H1 H2) as (bs' & [Hp _] & _).
  apply path_inv in Hp as (b & ? & _ & (d & Hd' & Hne & _) & _). congruence.
Qed.

(** The part of [AddBlock] that makes a higher block the top. *)
Lemma AddBlock_new_top n f db top bs block prev_bs fuel :
  opened f db → chain_state n f top bs →
  npath n f (blk_Hash block) (block :: prev_bs) → last prev_bs = last bs →
  blk_PrevBlockHash block ≠ [] → blk_Hash block ∉ hashes bs →
  path f (blk_PrevBlockHash block) prev_bs →
  S (length prev_bs) < fuel → length bs < fuel →
  ∃ f', AddBlock_top fuel block top db
        = (Ret (if bool_decide (top = blk_PrevBlockHash block) then BCBAddState_addedToTop
                else BCBAddState_addedToParallelTop), with_bc f' db) ∧
        chain_state n f' (blk_Hash block) (block :: prev_bs).
Proof.
  intros Ho Hs Hp Hl Hprev Hnew Hpp Hf1 Hf2. pose proof (cs_width _ _ _ _ Hs) as Hn.
  unfold AddBlock_top.
  pose proof (npath_head_hash _ _ _ _ Hp) as Hh.
  destruct (update_put_spec f blocksBucket key_l (blk_Hash block)) as (f1 & Hput & Hr1).
  { apply Hs. }
  { pose proof (ic_width _ _ _ (cs_chain _ _ _ _ Hs)). destruct Hh as [Hlen _].
    split_and!; [done|simpl; lia|lia]. }
  assert (opened f1 (with_bc f1 db)) as Ho1.
  { eapply opened_with_bc; [done|]. rewrite (set_record_dom _ _ _ _ _ Hr1). apply Hs. }
  assert (in_chain n f1 (reverse (hashes bs))) as Hc1.
  { eapply in_chain_blocks; [by eapply set_record_only|]. apply Hs. }
  assert (last (block :: prev_bs) = last bs) as Hl'.
  { rewrite last_cons, Hl. by destruct (path_last _ _ _ (proj1 (cs_path _ _ _ _ Hs))) as (g & -> & _). }
  destruct (cs_head _ _ _ _ Hs) as (tb & tbs & Ebs & Htb & Etb).
  destruct (decide (top = blk_PrevBlockHash block)) as [Et|Et].
  - rewrite <- Et, bytes_eqb_refl, bool_decide_eq_true_2 by done. simpl negb.
    assert (prev_bs = bs) as ->.
    { eapply path_fun; [done|]. rewrite <- Et. apply (cs_path _ _ _ _ Hs). }
    pose proof (AddToChain_refines n f1 _ (blk_Hash block) top Hc1 Hh) as Ha.
    unfold chain_add in Ha. rewrite decide_True in Ha.
    2: { left. rewrite Ebs. unfold hashes. by rewrite fmap_cons, reverse_cons, last_snoc, Etb. }
    destruct Ha as (f2 & Ha & Hc2 & Ho2); [by rewrite elem_of_reverse|by rewrite Et|].
    exists f2. split.
    + apply st_bind_Ret. exists tt, (with_bc f1 db). split; [by apply (on_bc_Ret _ f)|]. cbv iota.
      apply st_bind_Ret. exists tt, (with_bc f2 db). split; [|done].
      apply (drop_err_Ret _ _ tt). change (with_bc f2 db) with (with_bc f2 (with_bc f1 db)).
      by apply (on_bc_Ret _ f1).
    + eapply chain_state_top; [done..|]. unfold hashes in *. by rewrite fmap_cons, reverse_cons.
  - rewrite (proj2 (bytes_eqb_false _ _)), bool_decide_eq_false_2 by done. simpl negb.
    assert (npath n f1 (blk_Hash block) (block :: prev_bs)) as Hp1.
    { eapply npath_set_record; [done|done|]. by eapply not_special. }
    destruct (fork f _ _ _ _ (proj1 Hp) (proj1 (cs_path _ _ _ _ Hs)) Hl')
      as (new & old & c & rest & En & Eo & Hnew' & _).
    destruct (UpdateChainOnNewBranch_spec n f1 (with_bc f1 db) (blk_Hash block) new c rest old top fuel)
      as (f2 & Hup & Hc2 & Ho2); try done.
    + by eapply set_record_eq.
    + by apply (chain_hash_special n).
    + rewrite <- En. apply Hp1.
    + destruct Hp1 as [_ Hp1]. rewrite En in Hp1. by apply Forall_app in Hp1 as [? _].
    + by rewrite <- Eo.
    + rewrite <- Eo, Ebs. simpl. by rewrite Etb.
    + rewrite <- Eo. done.
    + rewrite <- En. simpl. lia.
    + rewrite Eo, length_app in Hf2. lia.
    + exists f2. split.
      * apply st_bind_Ret. exists tt, (with_bc f1 db). split; [by apply (on_bc_Ret _ f)|]. cbv iota.
        apply st_bind_Ret. exists tt, (with_bc f2 db). split; [|done]. by apply (drop_err_Ret _ _ tt).
      * rewrite <- En in Hc2. by eapply chain_state_top.
Qed.

Lemma nil_bool_decide (o : option bytes) :
  (∀ d, o = Some d → d ≠ []) → bool_decide (default [] o = []) = bool_decide (o = None).
Proof. intros Ho. destruct o as [d|]; simpl; [|done]. by rewrite !bool_decide_eq_false_2 by naive_solver. Qed.

Lemma GetTopHash_state n f top bs : chain_state n f top bs → GetTopHash f = Ret top.
Proof.
  intros Hs. unfold GetTopHash. change (str "l") with key_l.
  rewrite view_get_spec, (cs_top _ _ _ _ Hs), ret_bind by apply Hs. simpl.
  destruct (chain_hash_special n top (cs_width _ _ _ _ Hs)) as (_ & _ & Hne).
  { by eapply npath_head_hash, Hs. }
  rewrite (proj2 (Z.ltb_lt _ _)) by (destruct top; [done|simpl; lia]). by rewrite CopyBytes_id.
Qed.

(** The checks [AddBlock] makes before it writes. *)
Lemma AddBlock_checks n f db top bs block fuel :
  opened f db → chain_state n f top bs → chain_hash n (blk_Hash block) →
  blk_PrevBlockHash block ≠ key_l → blk_PrevBlockHash block ≠ key_f →
  AddBlock fuel block db =
    if bool_decide (is_Some (bget f blocksBucket (blk_Hash block)))
    then (Ret BCBAddState_notAddedExists, db)
    else if bool_decide (bget f blocksBucket (blk_PrevBlockHash block) = None)
    then (Ret BCBAddState_notAddedNoPrev, db)
    else AddBlock_store fuel block db.
Proof.
  intros Ho Hs Hh Hpl Hpf.
  destruct (chain_hash_special n _ (cs_width _ _ _ _ Hs) Hh) as (Hkl & Hkf & _).
  assert (∀ k, k ≠ key_l → k ≠ key_f → ∀ d, bget f blocksBucket k = Some d → d ≠ []) as Hne.
  { intros k H1 H2 d Hd. by eapply cs_record_nonempty. }
  unfold AddBlock, mbind at 1 2, st_bind at 1 2, ask, lift at 1.
  rewrite (opened_object f db Ho), GetBlock_bget, nil_bool_decide by (apply Ho || eauto).
  destruct (bget f blocksBucket (blk_Hash block)) as [d|]; simpl; [done|].
  unfold mbind at 1, st_bind at 1, lift.
  rewrite GetBlock_bget, nil_bool_decide by (apply Ho || eauto). by case_bool_decide.
Qed.

(** Storing a block: the record is written and the new block compared with the
    top. *)
Lemma AddBlock_store_spec n f f1 db top bs block data fuel tb :
  opened f db → chain_state n f1 top bs → stored f1 top tb →
  blk_Serialize block = Ret data → PutBlock (blk_Hash block) data f = (Ret tt, f1) →
  AddBlock_store fuel block db =
    (if (blk_Height tb <? blk_Height block)%Z then AddBlock_top fuel block top
     else mret BCBAddState_addedToParallel) (with_bc f1 db).
Proof.
  intros Ho Hs1 Htb Hser Hput.
  destruct (stored_GetBlock f1 top tb) as (td & Etd & _ & Hdec); [apply Hs1|done|].
  assert (opened f1 (with_bc f1 db)) as Ho1 by (eapply opened_with_bc; [done|apply Hs1]).
  unfold AddBlock_store, mbind, st_bind, lift, ask. rewrite Hser, (on_bc_Ret _ f db tt f1 Ho Hput).
  by rewrite (opened_object f1 _ Ho1), (GetTopHash_state n f1 top bs Hs1), Etd, Hdec.
Qed.

(** The result of [AddBlock] and the state it leaves, in every case. *)
Lemma AddBlock_spec n f db top bs block fuel :
  opened f db → chain_state n f top bs →
  chain_hash n (blk_Hash block) →
  blk_PrevBlockHash block ≠ key_l → blk_PrevBlockHash block ≠ key_f →
  (∀ data, blk_Serialize block = Ret data → storable (blk_Hash block) data) →
  (∀ h bs', path f h bs' → S (length bs') < fuel) →
  let code := add_state f top (default 0%Z (blk_Height <$> head bs)) block in
  ∃ f' top' bs',
    AddBlock fuel block db = (Ret code, with_bc f' db) ∧ chain_state n f' top' bs' ∧
    (code = BCBAddState_notAddedExists ∨ code = BCBAddState_notAddedNoPrev → f' = f) ∧
    if bool_decide (code = BCBAddState_addedToTop ∨ code = BCBAddState_addedToParallelTop)
    then top' = blk_Hash block ∧
         ∃ prev_bs, bs' = block :: prev_bs ∧ path f (blk_PrevBlockHash block) prev_bs
    else top' = top ∧ bs' = bs.
Proof.
  intros Ho Hs Hh Hpl Hpf Hstor Hfuel code. pose proof (cs_width _ _ _ _ Hs) as Hn.
  destruct (cs_head _ _ _ _ Hs) as (tb & tbs & Ebs & Htb & Etb).
  assert (default 0%Z (blk_Height <$> head bs) = blk_Height tb) as Eh by by rewrite Ebs.
  unfold code, add_state. clear code. rewrite Eh.
  rewrite (AddBlock_checks n f db top bs) by done.
  case_bool_decide as Hex.
  { exists f, top, bs. rewrite (with_bc_same f db Ho). by split_and!. }
  apply eq_None_not_Some in Hex. case_bool_decide as Hprev.
  { exists f, top, bs. rewrite (with_bc_same f db Ho). by split_and!. }
  destruct (bget f blocksBucket (blk_PrevBlockHash block)) as [pd|] eqn:Epd; [|done]. clear Hprev.
  destruct (cs_rooted _ _ _ _ Hs _ _ Epd Hpl Hpf) as (prev_bs & Hpp & Hlast).
  destruct (chain_hash_special n _ Hn (npath_head_hash _ _ _ _ Hpp)) as (_ & _ & Hpne).
  destruct (gob_total block) as [data Hser].
  destruct (update_put_spec f blocksBucket (blk_Hash block) data) as (f1 & Hput & Hr1);
    [apply Hs|by apply Hstor|].
  destruct (chain_state_put n f f1 top bs block data prev_bs) as [Hs1 Hp1]; try done.
  assert (opened f1 (with_bc f1 db)) as Ho1 by (eapply opened_with_bc; [done|apply Hs1]).
  assert (stored f1 top tb) as Htb1.
  { destruct (cs_head _ _ _ _ Hs1) as (tb' & tbs' & E & ? & _). rewrite Ebs in E. by simplify_eq. }
  rewrite (AddBlock_store_spec n f f1 db top bs block data fuel tb) by done.
  destruct (Z.leb_spec (blk_Height block) (blk_Height tb)) as [Hle|Hgt].
  { rewrite (proj2 (Z.ltb_ge _ _)) by done. exists f1, top, bs. split_and!; try done. by intros [?|?]. }
  rewrite (proj2 (Z.ltb_lt _ _)) by done.
  destruct (AddBlock_new_top n f1 (with_bc f1 db) top bs block prev_bs fuel) as (f2 & E2 & Hs2); try done.
  - intros (b & Eb & Hb)%list_elem_of_fmap.
    destruct (path_stored f _ _ b (proj1 (cs_path _ _ _ _ Hs)) Hb) as (d & Hd & _). congruence.
  - destruct Hp1 as [Hp1 _]. apply path_inv in Hp1 as (b & bs1 & [= <- <-] & _ & _ & [[_ ?]|[_ ?]]); done.
  - apply (Hfuel _ _ (proj1 Hpp)).
  - pose proof (Hfuel _ _ (proj1 (cs_path _ _ _ _ Hs))). lia.
  - exists f2, (blk_Hash block), (block :: prev_bs). split; [done|]. split; [done|].
    destruct (bool_decide (top = _)); simpl;
      (split; [by intros [?|?]|split; [done|exists prev_bs; split; [done|apply Hpp]]]).
Qed.

(** C19: on a file that satisfies the invariant, [AddBlock] returns its result
    without an error and keeps the invariant.  A known block and a block whose
    block before is unknown leave the file as it is; a block that is not above
    the top is stored beside the main branch; a higher block becomes the top,
    and the chain bucket lists its branch, also where the main branch is
    replaced by another.  More fuel than the longest branch is enough. *)
Theorem AddBlock_invariant n f db top bs block fuel :
  opened f db → chain_state n f top bs →
  chain_hash n (blk_Hash block) →
  blk_PrevBlockHash block ≠ key_l → blk_PrevBlockHash block ≠ key_f →
  (∀ data, blk_Serialize block = Ret data → storable (blk_Hash block) data) →
  (∀ h bs', path f h bs' → S (length bs') < fuel) →
  let code := add_state f top (default 0%Z (blk_Height <$> head bs)) block in
  ∃ f' top' bs',
    AddBlock fuel block db = (Ret code, with_bc f' db) ∧ chain_state n f' top' bs' ∧
    (code = BCBAddState_notAddedExists ∨ code = BCBAddState_notAddedNoPrev → f' = f) ∧
    if bool_decide (code = BCBAddState_addedToTop ∨ code = BCBAddState_addedToParallelTop)
    then top' = blk_Hash block ∧
         ∃ prev_bs, bs' = block :: prev_bs ∧ path f (blk_PrevBlockHash block) prev_bs
    else top' = top ∧ bs' = bs.
Proof. apply AddBlock_spec. Qed.

(** ** Deleting the top *)

Lemma RemoveFromChain_last n f h hs :
  in_chain n f (reverse (h :: hs)) →
  ∃ f', RemoveFromChain h f = (Ret tt, f') ∧ in_chain n f' (reverse hs) ∧
        only_bucket blockChainBucket f f'.
Proof.
  rewrite reverse_cons. intros Hc.
  pose proof (RemoveFromChain_refines n f _ h Hc) as Hr. unfold chain_remove in Hr.
  rewrite last_snoc, decide_True, length_app in Hr by done. simpl in Hr.
  replace (length (reverse hs) + 1 - 1) with (length (reverse hs)) in Hr by lia.
  rewrite take_app_length in Hr. apply Hr, (ic_hash _ _ _ Hc), elem_of_app. right. by left.
Qed.

(** The blocks bucket without the top block. *)
Lemma chain_state_delete n f f1 f2 f3 top b b2 bs :
  chain_state n f top (b :: b2 :: bs) →
  (∀ h bs', npath n f h bs' → b ∈ bs' → h = top) →
  set_record f blocksBucket key_l (Some (blk_Hash b2)) f1 →
  set_record f1 blocksBucket top None f2 →
  only_bucket blockChainBucket f2 f3 → in_chain n f3 (reverse (hashes (b2 :: bs))) →
  chain_state n f3 (blk_Hash b2) (b2 :: bs).
Proof.
  intros Hs Hleaf Hr1 Hr2 Ho Hc. pose proof (cs_width _ _ _ _ Hs) as Hn.
  destruct (cs_path _ _ _ _ Hs) as [Hp Hh]. pose proof (path_NoDup _ _ _ Hp) as Hnd.
  assert (blk_Hash b = top) as Eb by (by apply path_inv in Hp as (? & ? & [= <- <-] & _ & ? & _)).
  destruct (chain_hash_special n top Hn) as (Hl & Hf & _); [by eapply npath_head_hash, Hs|].
  assert (∀ k, k ≠ key_l → k ≠ top → bget f3 blocksBucket k = bget f blocksBucket k) as Hsame.
  { intros k H1 H2. rewrite (only_bucket_record _ _ _ _ _ Ho) by done.
    rewrite (set_record_ne _ _ _ _ _ _ _ Hr2) by auto.
    apply (set_record_ne _ _ _ _ _ _ _ Hr1). by right. }
  assert (∀ h bs', npath n f h bs' → top ∉ hashes bs' → npath n f3 h bs') as Hkeep.
  { intros h bs' Hp' Hnin. eapply npath_only_chain; [done|].
    eapply npath_set_record; [done| |done].
    eapply npath_set_record; [done|done|]. by eapply not_special. }
  split; [done| | | |done| |].
  - rewrite (proj1 Ho), (set_record_dom _ _ _ _ _ Hr2), (set_record_dom _ _ _ _ _ Hr1). apply Hs.
  - rewrite (only_bucket_record _ _ _ _ _ Ho) by done.
    rewrite (set_record_ne _ _ _ _ _ _ _ Hr2) by auto. by eapply set_record_eq.
  - apply Hkeep.
    + split; [|by apply Forall_cons in Hh as [_ ?]]. by apply (path_suffix _ _ [b]) in Hp.
    + rewrite fmap_cons, Eb in Hnd. by apply NoDup_cons in Hnd as [? _].
  - rewrite Hsame by auto. rewrite (cs_first _ _ _ _ Hs), !last_cons. by destruct (last bs).
  - intros h d Hd H1 H2. assert (h ≠ top) as Ht.
    { intros ->. rewrite (only_bucket_record _ _ _ _ _ Ho) in Hd by done.
      by rewrite (set_record_eq _ _ _ _ _ Hr2) in Hd. }
    rewrite Hsame in Hd by done. destruct (cs_rooted _ _ _ _ Hs h d Hd H1 H2) as (bs' & Hp' & Hl').
    exists bs'. split; [|rewrite Hl', !last_cons; by destruct (last bs)].
    apply Hkeep; [done|]. intros (b' & Eb' & Hb')%list_elem_of_fmap. apply Ht, (Hleaf _ _ Hp').
    pose proof (path_stored _ _ _ _ (proj1 Hp') Hb') as Hst. rewrite <- Eb' in Hst.
    pose proof (path_stored _ _ _ b Hp (list_elem_of_here _ _)) as Hst'. rewrite Eb in Hst'.
    by rewrite (stored_inj _ _ _ _ Hst' Hst).
Qed.

(** C20: [DeleteBlock] takes the top block off: it returns that block, its
    record is gone, the block before it is the top and the chain bucket ends
    with it, and the invariant holds, provided the top is not the first block
    and no stored branch goes through it. *)
Theorem DeleteBlock_invariant n f db top b b2 bs :
  opened f db → chain_state n f top (b :: b2 :: bs) →
  (∀ h bs', npath n f h bs' → b ∈ bs' → h = top) →
  ∃ f', bc_DeleteBlock db = (Ret b, with_bc f' db) ∧
        chain_state n f' (blk_PrevBlockHash b) (b2 :: bs) ∧ bget f' blocksBucket top = None.
Proof.
  intros Ho Hs Hleaf. pose proof (cs_width _ _ _ _ Hs) as Hn.
  pose proof (cs_path _ _ _ _ Hs) as [Hp Hh]. pose proof (cs_chain _ _ _ _ Hs) as Hc.
  apply path_inv in Hp as Hp'. destruct Hp' as (b' & bs' & [= <- <-] & Hb & Eb & [[? _]|[Hprev Hp2]]); [done|].
  assert (blk_PrevBlockHash b = blk_Hash b2) as E2.
  { by apply path_inv in Hp2 as (? & ? & [= <- <-] & _ & ? & _). }
  apply Forall_cons in Hh as [Hh1 [Hh2 _]%Forall_cons]. rewrite Eb in Hh1.
  destruct (chain_hash_special n top Hn Hh1) as (Hl & Hf & _).
  destruct (update_put_spec f blocksBucket key_l (blk_PrevBlockHash b)) as (f1 & Hput & Hr1); [apply Hs| |].
  { pose proof (ic_width _ _ _ Hc). destruct Hh2. split_and!; [done|simpl; lia|rewrite E2; lia]. }
  assert (blocksBucket ∈ dom f1) as Hd1 by (rewrite (set_record_dom _ _ _ _ _ Hr1); apply Hs).
  destruct (update_delete_spec f1 blocksBucket top Hd1) as (f2 & Hdel & Hr2).
  assert (blocksBucket ∈ dom f2) as Hd2 by by rewrite (set_record_dom _ _ _ _ _ Hr2).
  destruct (RemoveFromChain_last n f2 top (hashes (b2 :: bs))) as (f3 & Hrem & Hc3 & Ho3).
  { apply (in_chain_blocks n f).
    - exact (only_bucket_trans _ _ _ _ (set_record_only _ _ _ _ _ Hr1) (set_record_only _ _ _ _ _ Hr2)).
    - by rewrite <- Eb. }
  destruct (stored_GetBlock f top b) as (data & Ed & Hne & Hdec); [apply Hs|done|].
  exists f3. split_and!.
  - unfold bc_DeleteBlock, mbind, st_bind, ask, lift, GetTopBlock.
    rewrite (opened_object f db Ho), (GetTopHash_state n f top _ Hs), ret_bind, Ed.
    rewrite bool_decide_eq_false_2, Hdec, Eb,
      (on_bc_Ret (SaveTopHash (blk_PrevBlockHash b)) f db tt f1 Ho Hput) by done.
    rewrite (on_bc_Ret (DeleteBlock top) f1 (with_bc f1 db) tt f2 (opened_with_bc _ _ _ Ho Hd1) Hdel).
    unfold drop_err. by rewrite (on_bc_Ret (RemoveFromChain top) f2 (with_bc f2 (with_bc f1 db)) tt f3 (opened_with_bc _ _ _ Ho Hd2) Hrem).
  - rewrite E2 in *. by eapply chain_state_delete.
  - rewrite (only_bucket_record _ _ _ _ _ Ho3) by done. by eapply set_record_eq.
Qed.
End Update.

Section Witnesses.
Import MapBolt Codecs Demo.

Lemma demo_state : chain_state 2 demo_chain hash_a [blk_a; blk_g].
Proof.
  assert (∀ h bs, path demo_chain h bs → npath 2 demo_chain h bs ∧ last bs = Some blk_g) as Hn.
  { intros h bs Hp. apply demo_paths in Hp as Hin.
    repeat (apply elem_of_cons in Hin as [Hin|Hin]; [injection Hin as -> ->|]);
      [..|by apply elem_of_nil in Hin];
      (split; [split; [done|]|done]); repeat constructor; discriminate. }
  split; [done|apply demo_opened|reflexivity|apply Hn, demo_path_a|apply demo_in_chain|reflexivity|].
  intros h data Hd H1 H2. apply demo_records in Hd.
  repeat (apply elem_of_cons in Hd as [Hd|Hd]; [injection Hd as -> ->|]); try done.
  - exists [blk_g]. apply Hn, demo_path_g.
  - exists [blk_a; blk_g]. apply Hn, demo_path_a.
  - exists [blk_b; blk_g]. apply Hn, demo_path_b.
  - by apply elem_of_nil in Hd.
Qed.

(** A block above the side block replaces the main branch. *)
Definition blk_c : Block := demo_block [x01; x04] hash_b 2.

Lemma AddBlock_invariant_witness :
  ∃ f' top' bs',
    AddBlock 4 blk_c demo_db = (Ret BCBAddState_addedToParallelTop, with_bc f' demo_db) ∧
    chain_state 2 f' top' bs' ∧
    (BCBAddState_addedToParallelTop = BCBAddState_notAddedExists ∨
     BCBAddState_addedToParallelTop = BCBAddState_notAddedNoPrev → f' = demo_chain) ∧
    (top' = [x01; x04] ∧ ∃ prev_bs, bs' = blk_c :: prev_bs ∧ path demo_chain hash_b prev_bs).
Proof.
  apply (AddBlock_invariant 2 demo_chain demo_db hash_a [blk_a; blk_g] blk_c 4).
  - apply demo_opened.
  - apply demo_state.
  - by apply demo_hash.
  - discriminate.
  - discriminate.
  - intros data [= <-]. split; [done|]. split; vm_compute; discriminate.
  - intros h bs Hp. apply demo_paths in Hp.
    repeat (apply elem_of_cons in Hp as [Hp|Hp]; [injection Hp as -> ->; simpl; lia|]).
    by apply elem_of_nil in Hp.
Defined.

Lemma DeleteBlock_invariant_witness :
  ∃ f', bc_DeleteBlock demo_db = (Ret blk_a, with_bc f' demo_db) ∧
        chain_state 2 f' hash_g [blk_g] ∧ bget f' blocksBucket hash_a = None.
Proof.
  apply (DeleteBlock_invariant 2 demo_chain demo_db hash_a blk_a blk_g []).
  - apply demo_opened.
  - apply demo_state.
  - intros h bs [Hp _] Hb. apply demo_paths in Hp.
    repeat (apply elem_of_cons in Hp as [Hp|Hp]; [injection Hp as -> ->|]); try done.
    + repeat (apply elem_of_cons in Hb as [Hb|Hb]; [discriminate Hb|]). by apply elem_of_nil in Hb.
    + repeat (apply elem_of_cons in Hb as [Hb|Hb]; [discriminate Hb|]). by apply elem_of_nil in Hb.
    + by apply elem_of_nil in Hp.
Defined.
End Witnesses.
