(* ===== verification/UnderTip.v ===== *)
(** * Blocks under a tip

    [ChooseHashUnderTip] and [CheckBlockIsInRange] ([node/blockchain/manager.go])
    answer questions about the branch of a tip, which need not be the top of the
    main chain: which of several blocks is on the branch, and whether a block
    is between two others.  A branch goes down from its tip over side blocks
    [s] to a block [m] of the main chain and then over the main chain. *)

From Stdlib Require Import Strings.Byte ZifyNat.
From stdpp Require Import base strings numbers gmap sorting list.
From S2P Require Import Prelude Float64 Platform Concrete Utils Structures Codecs Database.
From S2P Require Import ChainIndex Blockchain Branches BlockchainLookup BlockchainUpdate.

Import BlockchainDB.

(** ** Heights along a chain *)

Lemma consecutive_split u m rest b :
  consecutive (u ++ m :: rest) → b ∈ u ++ m :: rest →
  ((blk_Height b < blk_Height m)%Z ↔ b ∈ rest) ∧ ((blk_Height b ≤ blk_Height m)%Z ↔ b ∈ m :: rest).
Proof.
  intros Hc Hb. destruct (u ++ m :: rest) as [|b0 l] eqn:E; [by destruct u|].
  assert (∀ x, x ∈ rest → (blk_Height x < blk_Height m)%Z) as Hlow.
  { intros x [i Hi]%list_elem_of_lookup. rewrite <- E in Hc. apply consecutive_app in Hc.
    rewrite (consecutive_lookup _ (S i) x m Hc) by done. lia. }
  assert (∀ x, x ∈ u → (blk_Height m < blk_Height x)%Z) as Hup.
  { intros x [i Hi]%list_elem_of_lookup. pose proof (lookup_lt_Some _ _ _ Hi).
    rewrite (consecutive_lookup _ i x b0 Hc), (consecutive_lookup _ (length u) m b0 Hc); try done.
    - lia.
    - rewrite <- E, lookup_app_r, Nat.sub_diag by lia. done.
    - rewrite <- E. by apply lookup_app_l_Some. }
  rewrite <- E in Hb. apply elem_of_app in Hb as [Hu|[->|Hr]%elem_of_cons].
  - specialize (Hup b Hu). split; (split; [lia|]); [intros Hr|intros [->|Hr]%elem_of_cons]; try lia;
      specialize (Hlow b Hr); lia.
  - split; (split; [|lia || intros Hr; specialize (Hlow m Hr); lia]); [lia|by left].
  - specialize (Hlow b Hr). split; split; intros; [done|done|by right|lia].
Qed.

Lemma head_snoc {A} (l : list A) m x : head (l ++ [m]) = Some x → x ∉ l → l = [] ∧ x = m.
Proof. destruct l as [|y l]; intros [= ->] Hn; [done|]. destruct Hn. left. Qed.

Section Branch.
Context `{BoltLaws} `{!Gob Block} `{!GobLaws Block}.
Implicit Types (f : boltfile) (db : DB) (b : Block) (bs : list Block) (h : bytes).

Record branch_of (n : nat) f bs (tip : bytes) s m rest : Prop := {
  br_path : npath n f tip (s ++ m :: rest);
  br_side b : b ∈ s → blk_Hash b ∉ hashes bs;
  br_main : blk_Hash m ∈ hashes bs
}.

(** Every stored tip has a branch. *)
Lemma branch_exists n f top bs tip data :
  chain_state n f top bs → bget f blocksBucket tip = Some data → tip ≠ key_l → tip ≠ key_f →
  ∃ s m rest, branch_of n f bs tip s m rest.
Proof.
  intros Hs Hd Hl Hf. destruct (cs_rooted _ _ _ _ Hs tip data Hd Hl Hf) as (bst & Hp & Hlast).
  destruct (fork f tip top bst bs) as (s & u & m & rest & -> & -> & Hside & _);
    [apply Hp|apply (cs_path _ _ _ _ Hs)|done|].
  exists s, m, rest. split; [done|done|]. unfold hashes. apply list_elem_of_fmap_2, elem_of_app.
  right. left.
Qed.

Lemma in_path f tip bst b : path f tip bst → stored f (blk_Hash b) b → blk_Hash b ∈ hashes bst → b ∈ bst.
Proof.
  intros Hp Hst (b' & E & Hin)%list_elem_of_fmap. rewrite E in Hst.
  by rewrite (stored_inj f _ b b' Hst (path_stored f tip bst b' Hp Hin)).
Qed.

(** A loop that goes down a path and ends at [m] at the latest. *)
Lemma walk_branch {R} f (body : BlockchainIterator → outcome (step BlockchainIterator R))
    (step_of : Block → option R) l m rest tip r fuel :
  path f tip (l ++ m :: rest) →
  (∀ b, b ∈ l ++ [m] → body (mkBlockchainIterator (blk_Hash b))
     = Ret (match step_of b with
            | Some r => Break r
            | None => Continue (mkBlockchainIterator (blk_PrevBlockHash b))
            end)) →
  head (omap step_of (l ++ [m])) = Some r → length l < fuel →
  loop fuel body (NewBlockchainIteratorFrom tip) = Ret r.
Proof.
  unfold NewBlockchainIteratorFrom. intros Hp Hb Hr. revert tip l Hp Hb Hr.
  induction fuel as [|fuel IH]; intros tip l Hp Hb Hr Hf; [lia|].
  apply path_inv in Hp as (b & l' & E & Hst & <- & Hrest). cbn [loop].
  assert (b ∈ l ++ [m]) as Hin by (destruct l; injection E as -> _; left).
  rewrite Hb, ret_bind by done. destruct l as [|b' l]; injection E as <- <-; cbn [app omap list_omap] in Hr.
  - destruct (step_of m); [by injection Hr as ->|done].
  - destruct (step_of b'); [by injection Hr as ->|].
    destruct Hrest as [[E _]|[_ Hrest]]; [by destruct l|].
    apply (IH _ l); [done| |done|simpl in Hf; lia]. intros x Hx. apply Hb. by right.
Qed.

(** The first block of a list with a property. *)
Definition find_block (P : Block → Prop) `{∀ b, Decision (P b)} bs : option Block := snd <$> list_find P bs.

Lemma first_step (hs : list bytes) m rest l :
  (∀ b, b ∈ l → b ∉ m :: rest) →
  head (omap (λ b, if decide (blk_Hash b ∈ hs) then Some (Some (inl (blk_Hash b)))
                   else if decide (b ∈ m :: rest) then Some (Some (inr b)) else None) (l ++ [m]))
  = Some (Some (match find_block (λ b, blk_Hash b ∈ hs) (l ++ [m]) with
                | Some b => inl (blk_Hash b)
                | None => inr m
                end)).
Proof.
  intros Hside. unfold find_block. induction l as [|b l IH]; simpl.
  - destruct (decide (blk_Hash m ∈ hs)); [done|]. by rewrite decide_True by left.
  - destruct (decide (blk_Hash b ∈ hs)); [done|]. rewrite decide_False by (apply Hside; left).
    etrans; [apply IH; intros x Hx; apply Hside; by right|]. by destruct (list_find _ _) as [[]|].
Qed.

Lemma first_range (h hb : bytes) m rest l :
  (∀ b, b ∈ l → b ∉ m :: rest) →
  head (omap (λ b, if bytes_eqb h (blk_Hash b) then Some (inl true)
                   else if bytes_eqb hb (blk_Hash b) then Some (inl false)
                   else if decide (b ∈ m :: rest) then Some (inr (blk_Hash b)) else None) (l ++ [m]))
  = Some (match find_block (λ b, blk_Hash b = h ∨ blk_Hash b = hb) (l ++ [m]) with
          | Some b => inl (bool_decide (blk_Hash b = h))
          | None => inr (blk_Hash m)
          end).
Proof.
  intros Hside. unfold find_block.
  assert (∀ b, bytes_eqb h (blk_Hash b) = bool_decide (blk_Hash b = h)) as Eh by (intros b; by apply bool_decide_ext).
  assert (∀ b, bytes_eqb hb (blk_Hash b) = bool_decide (blk_Hash b = hb)) as Ehb by (intros b; by apply bool_decide_ext).
  induction l as [|b l IH]; simpl; rewrite Eh, Ehb.
  - rewrite (decide_True (P := m ∈ m :: rest)) by left.
    destruct (decide (blk_Hash m = h ∨ blk_Hash m = hb)) as [Ho|Ho]; simpl; repeat case_bool_decide; naive_solver.
  - rewrite (decide_False (P := b ∈ m :: rest)) by (apply Hside; left).
    destruct (decide (blk_Hash b = h ∨ blk_Hash b = hb)) as [Ho|Ho]; simpl.
    + repeat case_bool_decide; naive_solver.
    + rewrite !bool_decide_eq_false_2 by naive_solver.
      etrans; [apply IH; intros x Hx; apply Hside; by right|]. by destruct (list_find _ _) as [[]|].
Qed.

Context (n : nat) (f : boltfile) (db : DB) (top : bytes) (bs : list Block).
Hypothesis Hopened : opened f db.
Hypothesis Hstate : chain_state n f top bs.
Hypothesis Hcons : consecutive bs.

Context (tip : bytes) (s : list Block) (m : Block) (rest : list Block).
Hypothesis Hbranch : branch_of n f bs tip s m rest.

(** From [m] on the branch is the main chain. *)
Lemma branch_joins : ∃ u, bs = u ++ m :: rest.
Proof.
  destruct Hbranch as [[Hp _] _ Hm]. pose proof (proj1 (cs_path _ _ _ _ Hstate)) as Hpt.
  apply path_suffix in Hp as Hpm.
  assert (m ∈ bs) as Hin.
  { eapply in_path; [done| |done]. eapply path_stored; [done|]. left. }
  apply list_elem_of_split in Hin as (u & l & E). exists u. rewrite E. f_equal.
  rewrite E in Hpt. apply path_suffix in Hpt. by eapply path_fun.
Qed.

Lemma branch_NoDup : NoDup (hashes (s ++ m :: rest)).
Proof. eapply path_NoDup, (br_path _ _ _ _ _ _ _ Hbranch). Qed.

Lemma branch_stored b : b ∈ s ++ m :: rest → stored f (blk_Hash b) b.
Proof. intros Hb. eapply path_stored; [apply (br_path _ _ _ _ _ _ _ Hbranch)|done]. Qed.

Lemma branch_width b : b ∈ s ++ m :: rest → chain_hash n (blk_Hash b).
Proof. intros Hb. pose proof (proj2 (br_path _ _ _ _ _ _ _ Hbranch)) as Hw. rewrite Forall_forall in Hw. by apply Hw. Qed.

Lemma branch_in_chain b :
  b ∈ s ++ m :: rest → BlockInChain (blk_Hash b) f = Ret (bool_decide (b ∈ m :: rest)).
Proof.
  intros Hb. rewrite (BlockInChain_refines n f (reverse (hashes bs))); [|apply Hstate|by apply branch_width].
  f_equal. apply bool_decide_ext. rewrite elem_of_reverse. destruct branch_joins as [u E].
  split; [|intros Hin; rewrite E; apply list_elem_of_fmap_2, elem_of_app; by right].
  intros Hin. apply elem_of_app in Hb as [Hb|Hb]; [|done]. by destruct (br_side _ _ _ _ _ _ _ Hbranch b Hb).
Qed.

(** The tip is a block of the main chain when there are no side blocks. *)
Lemma branch_tip : ∃ b, head (s ++ [m]) = Some b ∧ blk_Hash b = tip ∧ stored f tip b.
Proof.
  destruct (path_inv f tip _ (proj1 (br_path _ _ _ _ _ _ _ Hbranch))) as (b & l & E & Hst & Hh & _).
  exists b. split; [|done]. by destruct s; injection E as ->.
Qed.

Lemma branch_side_main b : b ∈ s → b ∉ m :: rest.
Proof.
  intros Hb Hm. apply (br_side _ _ _ _ _ _ _ Hbranch b Hb). destruct branch_joins as [u ->].
  apply list_elem_of_fmap_2, elem_of_app. by right.
Qed.

(** A side block is not a first block. *)
Lemma branch_above b : b ∈ s ++ m :: rest → b ∉ m :: rest → blk_PrevBlockHash b ≠ [].
Proof.
  intros [Hb|Hb]%elem_of_app Hn; [|done]. apply list_elem_of_split in Hb as (l1 & l2 & E).
  pose proof (proj1 (br_path _ _ _ _ _ _ _ Hbranch)) as Hp. rewrite E, <- app_assoc in Hp. simpl in Hp.
  apply path_suffix, path_inv in Hp as (x & l & [= <- <-] & _ & _ & [[El _]|[Hne _]]); [by destruct l2|done].
Qed.

(** *** [ChooseHashUnderTip] *)

Lemma down_to_chain_branch hs fuel :
  length s < fuel →
  down_to_chain fuel tip hs f db = Ret (Some (
    match find_block (λ b, blk_Hash b ∈ hs) (s ++ [m]) with
    | Some b => inl (blk_Hash b)
    | None => inr m
    end)).
Proof.
  intros Hf. unfold down_to_chain.
  apply (walk_branch f _ (λ b, if decide (blk_Hash b ∈ hs) then Some (Some (inl (blk_Hash b)))
    else if decide (b ∈ m :: rest) then Some (Some (inr b)) else None) s m rest); [apply Hbranch| | |done].
  - intros b Hb. assert (b ∈ s ++ m :: rest) as Hb' by set_solver.
    rewrite (Next_stored f db _ b Hopened (branch_stored b Hb')), ret_bind.
    destruct (decide (blk_Hash b ∈ hs)); [done|]. rewrite (branch_in_chain b Hb'), ret_bind.
    case_bool_decide as Hm; [by rewrite decide_True|]. rewrite decide_False by done.
    rewrite is_first_nil, bool_decide_eq_false_2; [done|]. by eapply branch_above.
  - apply first_step, branch_side_main.
Qed.

(** Of the hashes of a list those below [m] on the main chain. *)
Lemma first_in_chain_below (hs : list bytes) :
  (∀ h, h ∈ hs → length h = n) →
  first_in_chain hs (Some (blk_Height m)) f db = Ret (head (filter (.∈ hashes rest) hs)).
Proof.
  intros Hw. destruct branch_joins as [u E].
  induction hs as [|h hs IH]; cbn [first_in_chain]; [done|].
  rewrite (BlockInChain_refines n f (reverse (hashes bs)));
    [rewrite ret_bind|apply Hstate|apply Hw; by left].
  rewrite IH by (intros h' ?; apply Hw; by right). rewrite filter_cons.
  case_bool_decide as Hin; [rewrite elem_of_reverse in Hin|].
  - apply list_elem_of_fmap in Hin as (b & -> & Hb).
    assert (stored f (blk_Hash b) b) as Hst by (by eapply path_stored; [apply (cs_path _ _ _ _ Hstate)|]).
    rewrite (bc_GetBlock_stored f db _ b Hopened Hst), ret_bind.
    destruct (consecutive_split u m rest b) as [Hlt _]; [by rewrite <- E..|].
    destruct (Z.ltb_spec (blk_Height b) (blk_Height m)) as [Hz|Hz].
    + rewrite decide_True; [done|]. by apply list_elem_of_fmap_2, Hlt.
    + rewrite decide_False; [done|]. intros (b' & Eb & Hb')%list_elem_of_fmap.
      assert (stored f (blk_Hash b') b') as Hst'.
      { apply branch_stored, elem_of_app. right. by right. }
      rewrite Eb in Hst. rewrite <- (stored_inj f _ _ _ Hst Hst') in Hb'. apply Hlt in Hb'. lia.
  - rewrite decide_False; [done|]. intros Hr. apply Hin, elem_of_reverse. rewrite E.
    unfold hashes in *. rewrite fmap_app. apply elem_of_app. right. by right.
Qed.

Lemma head_filter_unique (P : bytes → Prop) `{∀ h, Decision (P h)} hs h :
  h ∈ hs → P h → (∀ h', h' ∈ hs → P h' → h' = h) → head (filter P hs) = Some h.
Proof.
  intros Hin HP Hu. destruct (filter P hs) as [|h' l] eqn:Ef.
  - exfalso. apply elem_of_nil with h. rewrite <- Ef. by apply list_elem_of_filter.
  - assert (h' ∈ filter P hs) as Hh by (rewrite Ef; left).
    apply list_elem_of_filter in Hh as [HP' Hin']. simpl. by rewrite (Hu h').
Qed.

(** Nothing but [rest] is left when no hash is above. *)
Lemma filter_rest (hs : list bytes) :
  (∀ b, b ∈ s ++ [m] → blk_Hash b ∉ hs) →
  filter (.∈ hashes rest) hs = filter (.∈ hashes (s ++ m :: rest)) hs.
Proof.
  intros Hn. induction hs as [|h hs IH]; [done|]. rewrite !filter_cons.
  rewrite IH by (intros b Hb Hin; apply (Hn b Hb); by right).
  assert (h ∈ hashes rest ↔ h ∈ hashes (s ++ m :: rest)) as E; [|by repeat case_decide; naive_solver].
  unfold hashes. rewrite fmap_app, fmap_cons, elem_of_app, elem_of_cons. split; [auto|].
  intros [(b & -> & Hb)%list_elem_of_fmap|[->|]]; [| |done].
  - destruct (Hn b); [apply elem_of_app; by left|left].
  - destruct (Hn m); [apply elem_of_app; right; by left|left].
Qed.

(** of the blocks with the given hashes [ChooseHashUnderTip] finds the one
    on the branch of the tip, whether the tip is the top, another block of the
    main chain or a side block, and no hash when none is on the branch.  At most
    one of the hashes may be on the branch. *)
Theorem ChooseHashUnderTip_branch (hs : list bytes) fuel :
  (∀ h, h ∈ hs → length h = n) →
  (∀ h h', h ∈ hs → h' ∈ hs → h ∈ hashes (s ++ m :: rest) → h' ∈ hashes (s ++ m :: rest) → h = h') →
  length s < fuel →
  ChooseHashUnderTip fuel hs tip db = Ret (head (filter (.∈ hashes (s ++ m :: rest)) hs)).
Proof.
  intros Hw Hu Hf. unfold ChooseHashUnderTip. rewrite (opened_object f db Hopened), ret_bind.
  destruct (decide (hs = [])) as [->|Hne]; [done|].
  rewrite (proj2 (Z.eqb_neq _ _)) by (destruct hs; [done|simpl; lia]).
  destruct branch_tip as (bt & Ebt & Htip & Hst).
  assert (bt ∈ s ++ [m]) as Hbt by (destruct (s ++ [m]); [done|injection Ebt as ->; left]).
  assert (∀ b, b ∈ s ++ [m] → b ∈ s ++ m :: rest) as Hsub by set_solver.
  assert (∀ b, b ∈ s ++ [m] → blk_Hash b ∈ hs →
    head (filter (.∈ hashes (s ++ m :: rest)) hs) = Some (blk_Hash b)) as Hpick.
  { intros b Hb Hin. pose proof (list_elem_of_fmap_2 blk_Hash _ _ (Hsub b Hb)) as Hh.
    apply head_filter_unique; [done|done|]. intros h' Hin' Hh'. by apply Hu. }
  destruct (branch_width bt (Hsub bt Hbt)) as [Hlen _]. pose proof (cs_width _ _ _ _ Hstate) as Hn.
  rewrite Htip in Hlen. rewrite (proj2 (Z.eqb_neq _ _)) by lia.
  destruct (decide (tip ∈ hs)) as [Hin|Hin].
  { rewrite <- Htip in Hin |- * at 1. by rewrite (Hpick bt Hbt Hin). }
  rewrite (bc_GetBlock_stored f db tip bt Hopened Hst), ret_bind.
  rewrite <- Htip at 1. rewrite (branch_in_chain bt (Hsub bt Hbt)), ret_bind.
  case_bool_decide as Hm.
  - destruct (head_snoc _ _ _ Ebt) as [Es ->]; [intros Hs; by apply (branch_side_main bt)|].
    rewrite ret_bind, first_in_chain_below by done. f_equal. f_equal.
    apply filter_rest. rewrite Es. intros b ->%list_elem_of_singleton. by rewrite Htip.
  - rewrite down_to_chain_branch, ret_bind by done.
    unfold find_block. destruct (list_find _ _) as [[i b]|] eqn:Ef; cbn [fmap option_fmap option_map snd].
    + apply list_find_Some in Ef as (Hi & Hb & _). by rewrite (Hpick b) by eauto using list_elem_of_lookup_2.
    + rewrite first_in_chain_below by done. f_equal. f_equal. apply filter_rest. intros b Hb.
      apply list_find_None in Ef. rewrite Forall_forall in Ef. by apply Ef.
Qed.

(** *** [CheckBlockIsInRange] *)

Lemma branch_NoDup_blocks : NoDup (s ++ m :: rest).
Proof. eapply NoDup_fmap_1, branch_NoDup. Qed.

(** A block of the branch is at or above [b0], or below it. *)
Lemma branch_cut b b0 hi lo :
  s ++ m :: rest = hi ++ b0 :: lo → b ∈ s ++ m :: rest → b ∈ hi ++ [b0] ↔ b ∉ lo.
Proof.
  intros E Hb. pose proof branch_NoDup_blocks as Hnd. rewrite E in Hb, Hnd.
  apply NoDup_app in Hnd as (_ & Hd & [Hn _]%NoDup_cons). split.
  - intros [Hh| ->%list_elem_of_singleton]%elem_of_app; [|done]. intros Hl. apply (Hd b Hh). by right.
  - intros Hl. apply elem_of_app in Hb as [Hb|Hb]; [apply elem_of_app; by left|].
    apply elem_of_cons in Hb as [->|Hb]; [|done]. apply elem_of_app. right. left.
Qed.

(** On the main chain the heights tell. *)
Lemma heights_cut b b0 hi lo :
  s ++ m :: rest = hi ++ b0 :: lo → b ∈ m :: rest → b0 ∈ m :: rest →
  ((blk_Height b0 <=? blk_Height b) && (blk_Height b <=? blk_Height m))%Z = bool_decide (b ∈ hi ++ [b0]).
Proof.
  intros E Hb Hb0. destruct branch_joins as [u Eu].
  destruct (consecutive_split u m rest b) as [_ Hm].
  { by rewrite <- Eu. }
  { apply elem_of_app. by right. }
  rewrite (proj2 (Z.leb_le _ _) (proj2 Hm Hb)), andb_true_r.
  apply list_elem_of_split in Hb0 as (hi' & lo' & E').
  assert (hi' ++ b0 :: lo' = m :: rest) as E2 by done.
  assert (lo' = lo) as ->.
  { pose proof branch_NoDup_blocks as Hnd. rewrite E', app_assoc in E. rewrite E', app_assoc in Hnd.
    clear -E Hnd. revert hi E. induction (s ++ hi') as [|x l IH]; intros [|y hi] E; simplify_eq/=; [done|..].
    - apply NoDup_cons in Hnd as [Hn _]. destruct Hn. apply elem_of_app. right. left.
    - apply NoDup_cons in Hnd as [Hn _]. destruct Hn. apply elem_of_app. right. left.
    - apply NoDup_cons in Hnd as [_ Hnd]. by eapply IH. }
  destruct (consecutive_split (u ++ hi') b0 lo b) as [Hlt _].
  { rewrite <- app_assoc, E2, <- Eu. done. }
  { rewrite <- app_assoc, E2. apply elem_of_app. by right. }
  assert (b ∈ s ++ m :: rest) as Hbr by (apply elem_of_app; by right).
  apply eq_bool_prop_intro. rewrite bool_decide_spec, (branch_cut b b0 hi lo E Hbr), <- Hlt.
  destruct (Z.leb_spec (blk_Height b0) (blk_Height b)); split; intros; try done; lia.
Qed.

(** What the loop finds on side blocks, or [m]. *)
Lemma range_loop h hb fuel :
  length s < fuel →
  loop fuel (λ bci,
    '(block, bci) ← Next bci db;
    if bytes_eqb h (blk_Hash block) then Ret (Break (inl true))
    else if bytes_eqb hb (blk_Hash block) then Ret (Break (inl false))
    else
      found ← BlockInChain (blk_Hash block) f;
      Ret (if (found : bool) then Break (inr (blk_Hash block))
           else if (Z.of_nat (length (blk_PrevBlockHash block)) =? 0)%Z then Break (inl false)
           else Continue bci)) (NewBlockchainIteratorFrom tip)
  = Ret (match find_block (λ b, blk_Hash b = h ∨ blk_Hash b = hb) (s ++ [m]) with
         | Some b => inl (bool_decide (blk_Hash b = h))
         | None => inr (blk_Hash m)
         end).
Proof.
  intros Hf. eapply (walk_branch f _ _ s m rest); [apply Hbranch| |apply first_range, branch_side_main|done].
  intros b Hb. assert (b ∈ s ++ m :: rest) as Hb' by set_solver.
  rewrite (Next_stored f db _ b Hopened (branch_stored b Hb')), ret_bind.
  destruct (bytes_eqb h (blk_Hash b)); [done|]. destruct (bytes_eqb hb (blk_Hash b)); [done|].
  rewrite (branch_in_chain b Hb'), ret_bind. case_bool_decide as Hm; [by rewrite decide_True|].
  rewrite decide_False by done. rewrite is_first_nil, bool_decide_eq_false_2; [done|]. by eapply branch_above.
Qed.

(** The comparison of heights at the end. *)
Lemma range_heights b b0 :
  stored f (blk_Hash b) b → b0 ∈ s ++ m :: rest →
  (topBlock ← bc_GetBlock (blk_Hash m) db;
   bottomBlock ← bc_GetBlock (blk_Hash b0) db;
   block ← bc_GetBlock (blk_Hash b) db;
   Ret ((blk_Height bottomBlock <=? blk_Height block) && (blk_Height block <=? blk_Height topBlock))%Z)
  = Ret ((blk_Height b0 <=? blk_Height b) && (blk_Height b <=? blk_Height m))%Z.
Proof.
  intros Hb Hb0.
  rewrite (bc_GetBlock_stored f db (blk_Hash m) m Hopened), ret_bind by (apply branch_stored, elem_of_app; right; left).
  rewrite (bc_GetBlock_stored f db (blk_Hash b0) b0 Hopened), ret_bind by (by apply branch_stored).
  by rewrite (bc_GetBlock_stored f db _ b Hopened Hb), ret_bind.
Qed.

(** A block that the loop stops at decides. *)
Lemma range_found b b0 hi lo x :
  stored f (blk_Hash b) b → s ++ m :: rest = hi ++ b0 :: lo →
  find_block (λ x, blk_Hash x = blk_Hash b ∨ blk_Hash x = blk_Hash b0) (s ++ [m]) = Some x →
  b0 ∈ s ++ [m] ∧ (b ∉ s ++ m :: rest ∨ b ∉ hi ++ [b0]) ∧ blk_Hash x ≠ blk_Hash b ∨
  b ∈ s ++ m :: rest ∧ b ∈ hi ++ [b0] ∧ blk_Hash x = blk_Hash b.
Proof.
  unfold find_block. intros Hst E Hx. destruct (list_find _ _) as [[i y]|] eqn:Ef; [injection Hx as ->|done].
  apply list_find_Some in Ef as (Hi & HP & Hmin). pose proof branch_NoDup_blocks as Hnd.
  assert (∀ j y, (s ++ [m]) !! j = Some y → (s ++ m :: rest) !! j = Some y) as Hup.
  { intros j y Hj. rewrite (cons_middle m s rest), app_assoc. by apply lookup_app_l_Some. }
  assert (x ∈ s ++ m :: rest) as Hxin by (by eapply list_elem_of_lookup_2, Hup).
  assert ((s ++ m :: rest) !! length hi = Some b0) as Hb0.
  { by rewrite E, lookup_app_r, Nat.sub_diag by lia. }
  assert (b0 ∈ s ++ m :: rest) as Hb0in by (by eapply list_elem_of_lookup_2).
  assert (∀ j y, (s ++ m :: rest) !! j = Some y → j < i → (s ++ [m]) !! j = Some y) as Hdown.
  { intros j y Hj Hlt. apply lookup_lt_Some in Hi. rewrite (cons_middle m s rest), app_assoc in Hj.
    by rewrite lookup_app_l in Hj by lia. }
  destruct (decide (blk_Hash x = blk_Hash b)) as [Eb|Hne].
  - right. assert (x = b) as ->.
    { rewrite <- Eb in Hst. apply (stored_inj f _ _ _ (branch_stored x Hxin) Hst). }
    split_and!; [done| |done]. apply (branch_cut b b0 hi lo E Hxin). intros [k Hk]%list_elem_of_lookup.
    assert (i = length hi + S k) as Ei.
    { eapply NoDup_lookup; [done|by apply Hup|]. rewrite E, lookup_app_r by lia.
      by replace (length hi + S k - length hi) with (S k) by lia. }
    apply (Hmin (length hi) b0); [apply Hdown; [done|lia]|lia|by right].
  - left. destruct HP as [|Eb]; [done|]. assert (x = b0) as ->.
    { pose proof (branch_stored b0 Hb0in) as H0'. rewrite <- Eb in H0'.
      apply (stored_inj f _ _ _ (branch_stored x Hxin) H0'). }
    split_and!; [by eapply list_elem_of_lookup_2| |done]. right.
    intros [[k Hk]%list_elem_of_lookup| ->%list_elem_of_singleton]%elem_of_app; [|done].
    assert (i = length hi) as -> by (eapply NoDup_lookup; [done|by apply Hup|done]).
    pose proof (lookup_lt_Some _ _ _ Hk). apply (Hmin k b); [apply Hdown; [|done]|done|by left].
    rewrite E. by apply lookup_app_l_Some.
Qed.

(** whether a block is between [b0] and the tip of a branch, [b0] included.
    The answer is right for a block of the branch.  A block of another branch
    is reported as soon as its height fits, when [b0] and the tip are both on
    the main chain: the branch of the block is not looked at. *)
Theorem CheckBlockIsInRange_branch b b0 hi lo fuel :
  stored f (blk_Hash b) b → s ++ m :: rest = hi ++ b0 :: lo → length s < fuel →
  CheckBlockIsInRange fuel (blk_Hash b) (blk_Hash b0) tip db = Ret (
    if decide (b ∈ s ++ m :: rest) then bool_decide (b ∈ hi ++ [b0])
    else bool_decide (s = [] ∨ b0 ∈ rest)
         && ((blk_Height b0 <=? blk_Height b) && (blk_Height b <=? blk_Height m))%Z).
Proof.
  intros Hb E Hf. unfold CheckBlockIsInRange. rewrite (opened_object f db Hopened), ret_bind.
  destruct branch_tip as (bt & Ebt & Htip & Hst).
  assert (bt ∈ s ++ [m]) as Hbt by (destruct (s ++ [m]); [done|injection Ebt as ->; left]).
  assert (bt ∈ s ++ m :: rest) as Hbt' by set_solver.
  destruct (branch_width bt Hbt') as [Hlen _]. pose proof (cs_width _ _ _ _ Hstate) as Hn.
  rewrite Htip in Hlen. rewrite (proj2 (Z.ltb_lt _ _)) by lia.
  rewrite <- Htip at 1. rewrite (branch_in_chain bt Hbt'), ret_bind.
  assert (b0 ∈ s ++ m :: rest) as Hb0 by (rewrite E; apply elem_of_app; right; left).
  case_bool_decide as Hm.
  - destruct (head_snoc _ _ _ Ebt) as [Es ->]; [intros Hs; by apply (branch_side_main bt)|].
    rewrite ret_bind. rewrite <- Htip, (range_heights b b0) by done. f_equal.
    rewrite (bool_decide_eq_true_2 (s = [] ∨ _)) by by left. simpl.
    case_decide as Hin; [|done]. rewrite Es in Hin, Hb0. by apply (heights_cut b b0 hi lo).
  - assert (s ≠ []) as Hne.
    { intros Es. apply Hm. rewrite Es in Hbt. by apply list_elem_of_singleton in Hbt as ->; left. }
    rewrite range_loop, ret_bind by done.
    destruct (find_block _ (s ++ [m])) as [x|] eqn:Ex.
    + f_equal. destruct (range_found b b0 hi lo x Hb E Ex) as [(H0in & Hnot & Hx)|(Hin & Hhi & Hx)].
      * rewrite bool_decide_eq_false_2 by done. case_decide as Hin.
        { rewrite bool_decide_eq_false_2; [done|]. by destruct Hnot. }
        rewrite bool_decide_eq_false_2; [done|]. intros [|Hr]; [done|].
        pose proof branch_NoDup_blocks as Hnd. rewrite (cons_middle m s rest), app_assoc in Hnd.
        apply NoDup_app in Hnd as (_ & Hd & _). by apply (Hd b0).
      * rewrite decide_True by done. by rewrite !bool_decide_eq_true_2.
    + rewrite (range_heights b b0) by done. f_equal.
      assert (∀ y, y = b ∨ y = b0 → y ∈ s ++ m :: rest → y ∈ rest) as Hrest.
      { intros y Hy Hin. rewrite (cons_middle m s rest), app_assoc in Hin.
        apply elem_of_app in Hin as [Hin|]; [|done]. exfalso. unfold find_block in Ex.
        destruct (list_find _ _) as [[]|] eqn:Ef; [done|]. apply list_find_None in Ef.
        rewrite Forall_forall in Ef. apply (Ef y Hin). destruct Hy as [->| ->]; [by left|by right]. }
      rewrite (bool_decide_eq_true_2 (s = [] ∨ _)) by (right; apply Hrest; auto). simpl.
      case_decide as Hin; [|done]. apply (heights_cut b b0 hi lo); [done|right; apply Hrest; auto..].
Qed.
End Branch.

(** ** Witnesses *)

Section Witnesses.
Import MapBolt Codecs Demo.

Lemma demo_branch_a : branch_of 2 demo_chain [blk_a; blk_g] hash_a [] blk_a [blk_g].
Proof.
  split; [split; [apply demo_path_a|]|by intros b ?%elem_of_nil|by left].
  repeat constructor; by apply demo_hash.
Qed.
Lemma demo_branch_b : branch_of 2 demo_chain [blk_a; blk_g] hash_b [blk_b] blk_g [].
Proof.
  split; [split; [apply demo_path_b|]| |by right; left].
  - repeat constructor; by apply demo_hash.
  - intros b ->%list_elem_of_singleton. apply (bool_decide_unpack (_ ∉ _)). vm_compute. exact I.
Qed.

Lemma demo_consecutive : consecutive [blk_a; blk_g].
Proof. by split. Qed.

(** On the side branch only the first block is under the tip. *)
Lemma ChooseHashUnderTip_branch_witness :
  ChooseHashUnderTip 2 [hash_a; hash_g] hash_b demo_db = Ret (Some hash_g).
Proof.
  rewrite (ChooseHashUnderTip_branch 2 demo_chain demo_db hash_a [blk_a; blk_g] demo_opened demo_state
    demo_consecutive hash_b [blk_b] blk_g [] demo_branch_b [hash_a; hash_g] 2).
  - vm_compute. reflexivity.
  - intros h [->|[->|[]%elem_of_nil]%elem_of_cons]%elem_of_cons; reflexivity.
  - assert (∀ h, h ∈ [hash_a; hash_g] → h ∈ hashes ([blk_b] ++ [blk_g]) → h = hash_g) as Hu.
    { intros h [->|[->|[]%elem_of_nil]%elem_of_cons]%elem_of_cons Hin; [|done].
      apply (bool_decide_pack _) in Hin. vm_compute in Hin. done. }
    intros h h' H1 H2 H3 H4. by rewrite (Hu h H1 H3), (Hu h' H2 H4).
  - simpl. lia.
Defined.

(** The side block is reported to be on the main chain. *)
Lemma CheckBlockIsInRange_branch_witness :
  CheckBlockIsInRange 1 hash_b hash_g hash_a demo_db = Ret true.
Proof.
  apply (CheckBlockIsInRange_branch 2 demo_chain demo_db hash_a [blk_a; blk_g] demo_opened demo_state
    demo_consecutive hash_a [] blk_a [blk_g] demo_branch_a blk_b blk_g [blk_a] [] 1).
  - apply demo_stored. right. right. left.
  - reflexivity.
  - simpl. lia.
Defined.
End Witnesses.
