(* ===== verification/Tables.v ===== *)
(** * Tables of stored lists

    The transactions index and the set of unspent outputs keep, in a bucket,
    the gob text of a list under each key.  [table f name T] says that the
    bucket [name] of [f] stores the lists [T]; reading, writing and deleting a
    record are characterised by what they do to [T]. *)

From Stdlib Require Import Strings.Byte ZifyNat.
From stdpp Require Import base strings numbers gmap list.
From S2P Require Import Prelude Platform Concrete Utils Database ChainIndex.

(** [T] with the list of one key replaced. *)
Definition upd {A} (k : bytes) (l : list A) (T : bytes → list A) : bytes → list A :=
  λ k', if bool_decide (k' = k) then l else T k'.

Lemma upd_eq {A} k l (T : bytes → list A) : upd k l T k = l.
Proof. unfold upd. by rewrite bool_decide_eq_true_2. Qed.
Lemma upd_ne {A} k k' l (T : bytes → list A) : k' ≠ k → upd k l T k' = T k'.
Proof. intros Hk. unfold upd. by rewrite bool_decide_eq_false_2. Qed.

(** Nothing but the buckets [names] differs. *)
Definition only `{Bolt} (names : list string) (f f' : boltfile) : Prop :=
  dom f' = dom f ∧ ∀ name k, name ∉ names → bget f' name k = bget f name k.

Lemma only_refl `{Bolt} names f : only names f f.
Proof. by split. Qed.

Lemma only_trans `{Bolt} names f1 f2 f3 : only names f1 f2 → only names f2 f3 → only names f1 f3.
Proof. intros [D1 R1] [D2 R2]. split; [congruence|]. intros. by rewrite R2, R1. Qed.

Lemma only_weaken `{Bolt} names names' f f' : names ⊆ names' → only names f f' → only names' f f'.
Proof. intros Hn [D R]. split; [done|]. intros name k Hk. apply R. set_solver. Qed.

Lemma set_record_only_in `{Bolt} f name k o f' names :
  set_record f name k o f' → name ∈ names → only names f f'.
Proof.
  intros [Hd Hr] Hn. split; [done|]. intros name' k' Hn'. rewrite Hr.
  rewrite bool_decide_eq_false_2; [done|]. intros [-> _]. done.
Qed.

Section Tables.
Context `{BoltLaws} {A : Type} `{!Gob (list A)} `{!GobLaws (list A)}.
Implicit Types (f : boltfile) (name : string) (k : bytes) (l : list A) (T : bytes → list A).

(** What a record stands for; no record stands for the empty list. *)
Definition stores (o : option bytes) l : Prop :=
  match o with None => l = [] | Some d => gob_Decode d = Ret l end.

Definition table f name T : Prop := name ∈ dom f ∧ ∀ k, stores (bget f name k) (T k).

(** The list can be stored under the key. *)
Definition fits k l : Prop := ∀ d, gob_Encode l = Ret d → storable k d.

Lemma stores_encode l d : gob_Encode l = Ret d → stores (Some d) l.
Proof. intros E. by apply gob_roundtrip. Qed.

Lemma stores_decode (o : option bytes) l :
  stores o l → match o with None => Ret [] | Some d => gob_Decode d end = Ret l.
Proof. by destruct o; simpl; [|intros ->]. Qed.

Lemma table_ext f name T T' : (∀ k, T k = T' k) → table f name T → table f name T'.
Proof. intros HT [Hd Hs]. split; [done|]. intros k. rewrite <- HT. apply Hs. Qed.

Lemma table_upd f f' name k o l T :
  table f name T → set_record f name k o f' → stores o l → table f' name (upd k l T).
Proof.
  intros [Hd Hs] Hr Ho. split; [by rewrite (set_record_dom _ _ _ _ _ Hr)|]. intros k'.
  destruct (decide (k' = k)) as [->|Hk].
  - by rewrite upd_eq, (set_record_eq _ _ _ _ _ Hr).
  - rewrite upd_ne by done. rewrite (set_record_ne _ _ _ _ _ _ _ Hr) by auto. apply Hs.
Qed.

Lemma table_only f f' name name' T :
  table f name T → only_bucket name' f f' → name ≠ name' → table f' name T.
Proof.
  intros [Hd Hs] [Hd' Hr] Hn. split; [by rewrite Hd'|]. intros k. rewrite Hr by done. apply Hs.
Qed.

Lemma table_kept f f' name names T :
  table f name T → only names f f' → name ∉ names → table f' name T.
Proof.
  intros [Hd Hs] [Hd' Hr] Hn. split; [by rewrite Hd'|]. intros k. by rewrite Hr.
Qed.

(** An executable test for [fits]. *)
Definition fitsb k l : bool :=
  match gob_Encode l with
  | Ret d => bool_decide (k ≠ []) && (Z.of_nat (length k) <=? 32768)%Z
             && (Z.of_nat (length d) <=? 2 ^ 31 - 2)%Z
  | _ => true
  end.

Lemma fitsb_fits k l : fitsb k l = true → fits k l.
Proof.
  unfold fitsb. intros E d Ed. rewrite Ed in E.
  apply andb_prop in E as [[E1 E2]%andb_prop E3]. apply bool_decide_eq_true in E1.
  split_and!; [done|lia..].
Qed.

(** Storing a list, and removing one. *)
Lemma table_put f name k l T :
  table f name T → fits k l →
  ∃ d f', gob_Encode l = Ret d ∧ update_put name k d f = (Ret tt, f') ∧
          set_record f name k (Some d) f' ∧ table f' name (upd k l T).
Proof.
  intros Ht Hf. destruct (gob_total l) as [d Ed].
  destruct (update_put_spec f name k d) as (f' & Hp & Hr); [apply Ht|by apply Hf|].
  exists d, f'. split_and!; [done..|]. eapply table_upd; [done..|]. by apply stores_encode.
Qed.

Lemma table_delete f name k T :
  table f name T →
  ∃ f', update_delete name k f = (Ret tt, f') ∧ set_record f name k None f' ∧
        table f' name (upd k [] T).
Proof.
  intros Ht. destruct (update_delete_spec f name k) as (f' & Hp & Hr); [apply Ht|].
  exists f'. split_and!; [done..|]. by eapply table_upd.
Qed.

Lemma table_find f name k T :
  table f name T → ∃ o, view_find name k f = Ret o ∧ stores o (T k).
Proof. intros [Hd Hs]. eexists. split; [by apply view_find_spec|apply Hs]. Qed.

(** A bucket with no record stores empty lists. *)
Lemma table_empty f name : name ∈ dom f → (∀ k, bget f name k = None) → table f name (λ _, []).
Proof. intros Hd He. split; [done|]. intros k. by rewrite He. Qed.
End Tables.

(** Deleting a bucket and creating it again empties it. *)
Lemma recreate_spec `{BoltLaws} f name :
  name ∈ dom f →
  ∃ f', (_ ← DeleteBucket name; CreateBucket name) f = (Ret tt, f') ∧ only [name] f f' ∧
        ∀ k, bget f' name k = None.
Proof.
  intros [b E]%elem_of_dom. exists (<[name := b_empty]> (delete name f)).
  unfold mbind, st_bind, DeleteBucket, CreateBucket. rewrite E, lookup_delete_eq.
  split_and!; [done|split|].
  - rewrite dom_insert_L, dom_delete_L. apply elem_of_dom_2 in E. apply set_eq. intros name'.
    destruct (decide (name' = name)); set_solver.
  - intros name' k Hn. unfold bget. rewrite lookup_insert_ne, lookup_delete_ne; set_solver.
  - intros k. unfold bget. rewrite lookup_insert_eq. apply b_Get_empty.
Qed.

Lemma truncate_spec `{BoltLaws} f name :
  name ∈ dom f →
  ∃ f', Update (_ ← delete_bucket_if_exists name; CreateBucket name) f = (Ret tt, f') ∧
        only [name] f f' ∧ ∀ k, bget f' name k = None.
Proof.
  intros Hn. destruct (recreate_spec f name Hn) as (f' & Hr & Ho). exists f'. split; [|done].
  apply Update_Ret. apply st_bind_Ret in Hr as ([] & f1 & Hd & Hc). apply st_bind_Ret.
  exists tt, f1. split; [|done]. unfold delete_bucket_if_exists. by rewrite Hd.
Qed.

(** Tables of the concrete buckets, for the witnesses. *)
Section Concrete_tables.
Import MapBolt.
Context {A : Type} `{!Gob (list A)} `{!GobLaws (list A)}.

Lemma empty_table (f : boltfile) name :
  f !! name = Some (∅ : gmap bytes bytes) → table f name (λ _ : bytes, @nil A).
Proof.
  intros E. split; [by eapply elem_of_dom_2|]. intros k. rewrite (bget_lookup f name _ k E).
  cbn [b_Get map_bolt]. by case_bool_decide.
Qed.

Lemma single_table (f : boltfile) name k d (l : list A) :
  f !! name = Some ({[ k := d ]} : gmap bytes bytes) → k ≠ [] → gob_Decode d = Ret l →
  table f name (upd k l (λ _, [])).
Proof.
  intros E Hk Hd. split; [by eapply elem_of_dom_2|]. intros k'. rewrite (bget_lookup f name _ k' E).
  cbn [b_Get map_bolt]. unfold upd. destruct (decide (k' = k)) as [->|Hn].
  - rewrite bool_decide_eq_false_2, bool_decide_eq_true_2 by done. simpl. by rewrite lookup_singleton_eq.
  - rewrite (bool_decide_eq_false_2 (k' = k)) by done. case_bool_decide; [done|].
    by rewrite lookup_singleton_ne by congruence.
Qed.
End Concrete_tables.
