(* ===== verification/TxIndex.v ===== *)
(** * The transactions index: [node/transactions/index.go] and [error.go]

    Two tables: for a transaction, the hashes of the blocks it is in, and the
    inputs that spent its outputs, on every branch.  The lists are stored as
    gob texts; the theorems say what adding and removing a block does to them. *)

From Stdlib Require Import Strings.Byte ZifyNat.
From stdpp Require Import base strings numbers gmap sorting list.
From S2P Require Import Prelude Float64 Platform Concrete Utils Structures Codecs Database.
From S2P Require Import ChainIndex Tables Blockchain Branches BlockchainUpdate.

Import TranactionsDB.

(** ** [error.go] *)

Definition TXNotFoundErrorUnspent : string := "inunspent".
Definition NewTXVerifyError (err kind : string) (TX : bytes) : goerror := ETXVerify err kind TX.
Definition NewTXNotFoundError (err kind : string) : goerror := ETXNotFound err kind.
Definition NewTXNotFoundUOTError (err : string) : goerror := ETXNotFound err TXNotFoundErrorUnspent.
Definition TXVerifyError_GetKind (e : goerror) : option string :=
  match e with ETXVerify _ k _ => Some k | _ => None end.
Definition TXNotFoundError_GetKind (e : goerror) : option string :=
  match e with ETXNotFound _ k => Some k | _ => None end.

(** ** [index.go] *)

Record TransactionsIndexSpentOutputs := mkSpent {
  so_OutInd : Z;
  so_TXWhereUsed : bytes;
  so_InInd : Z;
  so_BlockHash : bytes
}.
#[export] Instance spent_eq_dec : EqDecision TransactionsIndexSpentOutputs.
Proof. solve_decision. Defined.

Section Index.
Context `{Bolt} `{!Gob Block} `{!Gob (list bytes)} `{!Gob (list TransactionsIndexSpentOutputs)}.

Definition SerializeOutputs (outs : list TransactionsIndexSpentOutputs) : outcome bytes :=
  gob_Encode outs.
Definition DeserializeOutputs (data : bytes) : outcome (list TransactionsIndexSpentOutputs) :=
  gob_Decode data.
Definition SerializeHashes (hashes : list bytes) : outcome bytes := gob_Encode hashes.
Definition DeserializeHashes (data : bytes) : outcome (list bytes) := gob_Decode data.

(** The list of a record, empty where there is no record. *)
Definition hashes_or_none (blocksHashes : option bytes) : outcome (list bytes) :=
  match blocksHashes with None => Ret [] | Some d => DeserializeHashes d end.
Definition outputs_or_none (to : option bytes) : outcome (list TransactionsIndexSpentOutputs) :=
  match to with None => Ret [] | Some d => DeserializeOutputs d end.

(** The body of the loops over the transactions and over the inputs of
    [BlockAdded]. *)
Definition add_link (blockHash txID : bytes) : st boltfile unit :=
  blocksHashes ← ask (GetBlockHashForTX txID);
  hashes ← lift (hashes_or_none blocksHashes);
  let hashes := hashes ++ [blockHash] in
  blocksHashes ← lift (SerializeHashes hashes);
  PutTXToBlockLink txID blocksHashes.

Definition add_spent (inTxid : bytes) (o : TransactionsIndexSpentOutputs) : st boltfile unit :=
  to ← ask (GetTXSpentOutputs inTxid);
  outs ← lift (outputs_or_none to);
  let outs := outs ++ [o] in
  to ← lift (SerializeOutputs outs);
  PutTXSpentOutputs inTxid to.

Definition add_tx (blockHash : bytes) (tx : Transaction) : st boltfile unit :=
  _ ← add_link blockHash (tx_ID tx);
  if IsCoinbase tx then mret tt
  else sfor (indexed (tx_Vin tx)) (λ _ '(inInd, vin),
    add_spent (in_Txid vin) (mkSpent (in_Vout vin) (tx_ID tx) inInd blockHash)) tt.

Definition ti_BlockAdded (block : Block) : st DB unit :=
  _ ← ask GetTransactionsObject;
  on_bc (sfor (blk_Transactions block) (λ _ tx, add_tx (blk_Hash block) tx) tt).

Definition BlocksAdded (blocks : list Block) : st DB unit :=
  sfor blocks (λ _ block, ti_BlockAdded block) tt.

(** The body of the loops of [BlockRemoved]. *)
Definition remove_link (blockHash txID : bytes) : st boltfile unit :=
  blocksHashes ← ask (GetBlockHashForTX txID);
  hashes ← lift (hashes_or_none blocksHashes);
  let newHashes := filter (λ hash, hash ≠ blockHash) hashes in
  if (0 <? Z.of_nat (length newHashes))%Z then
    blocksHashes ← lift (SerializeHashes newHashes);
    PutTXToBlockLink txID blocksHashes
  else drop_err (DeleteTXToBlockLink txID).

Definition remove_spent (inTxid : bytes) (inVout : Z) : st boltfile unit :=
  to ← ask (GetTXSpentOutputs inTxid);
  match to with
  | None => mret tt
  | Some to =>
      outs ← lift (DeserializeOutputs to);
      let outs := filter (λ o, so_OutInd o ≠ inVout) outs in
      if (0 <? Z.of_nat (length outs))%Z then
        to ← lift (SerializeOutputs outs);
        drop_err (PutTXSpentOutputs inTxid to)
      else drop_err (DeleteTXSpentData inTxid)
  end.

Definition remove_tx (blockHash : bytes) (tx : Transaction) : st boltfile unit :=
  _ ← remove_link blockHash (tx_ID tx);
  if IsCoinbase tx then mret tt
  else sfor (tx_Vin tx) (λ _ vin, remove_spent (in_Txid vin) (in_Vout vin)) tt.

Definition ti_BlockRemoved (block : Block) : st DB unit :=
  _ ← ask GetTransactionsObject;
  on_bc (sfor (blk_Transactions block) (λ _ tx, remove_tx (blk_Hash block) tx) tt).

Definition BlocksRemoved (blocks : list Block) : st DB unit :=
  sfor blocks (λ _ block, ti_BlockRemoved block) tt.

(** [Reindex]: the tables are emptied and every block of the main chain added,
    from the top down. *)
Fixpoint reindex_blocks (fuel : nat) (bci : BlockchainIterator) : st DB unit :=
  match fuel with
  | O => lift OutOfFuel
  | S fuel' =>
      r ← ask (Next bci);
      let '(block, bci) := r in
      _ ← ti_BlockAdded block;
      if (Z.of_nat (length (blk_PrevBlockHash block)) =? 0)%Z then mret tt
      else reindex_blocks fuel' bci
  end.
Definition ti_Reindex (fuel : nat) : st DB unit :=
  _ ← ask GetTransactionsObject;
  _ ← on_bc TruncateDB;
  bci ← ask NewBlockchainIterator;
  reindex_blocks fuel bci.

Definition GetTranactionBlocks (txID : bytes) (db : DB) : outcome (list bytes) :=
  txdb ← GetTransactionsObject db;
  blockHashBytes ← GetBlockHashForTX txID txdb;
  hashes_or_none blockHashBytes.

Definition filterTranactionOutputsSpent (fuel : nat) (outPuts : list TransactionsIndexSpentOutputs)
    (blockHash topHash : bytes) (db : DB) : outcome (list TransactionsIndexSpentOutputs) :=
  mfor outPuts (λ res o,
    present ← CheckBlockIsInRange fuel (so_BlockHash o) blockHash topHash db;
    Ret (if (present : bool) then res ++ [o] else res)) [].

Definition GetTranactionOutputsSpent (fuel : nat) (txID blockHash topHash : bytes) (db : DB)
    : outcome (list TransactionsIndexSpentOutputs) :=
  txdb ← GetTransactionsObject db;
  to ← GetTXSpentOutputs txID txdb;
  tmpres ← outputs_or_none to;
  filterTranactionOutputsSpent fuel tmpres blockHash topHash db.

(** No transaction, and no error, where the transaction is in no block under
    the tip. *)
Definition GetTransactionAllInfo (fuel : nat) (txID topHash : bytes) (db : DB)
    : outcome (option (Transaction * list TransactionsIndexSpentOutputs * bytes)) :=
  blockHashes ← GetTranactionBlocks txID db;
  blockHash ← ChooseHashUnderTip fuel blockHashes topHash db;
  match blockHash with
  | None => Ret None
  | Some blockHash =>
      spentOuts ← GetTranactionOutputsSpent fuel txID blockHash topHash db;
      tx ← GetTransactionFromBlock txID blockHash db;
      Ret (Some (tx, spentOuts, blockHash))
  end.
End Index.


(** ** The two tables as functions

    [L k] are the hashes of the blocks with the transaction [k], [S k] the
    inputs that spend its outputs. *)

Inductive index_op :=
| Link (k h : bytes)
| Spent (k : bytes) (o : TransactionsIndexSpentOutputs).

Definition links_of (k : bytes) (ops : list index_op) : list bytes :=
  omap (λ op, match op with Link k' h => if bool_decide (k' = k) then Some h else None
                          | Spent _ _ => None end) ops.
Definition spent_of (k : bytes) (ops : list index_op) : list TransactionsIndexSpentOutputs :=
  omap (λ op, match op with Spent k' o => if bool_decide (k' = k) then Some o else None
                          | Link _ _ => None end) ops.

(** What a transaction and a block have to record. *)
Definition tx_ops (blockHash : bytes) (tx : Transaction) : list index_op :=
  Link (tx_ID tx) blockHash ::
  (if IsCoinbase tx then [] else
   (λ p, Spent (in_Txid p.2) (mkSpent (in_Vout p.2) (tx_ID tx) p.1 blockHash)) <$> indexed (tx_Vin tx)).
Definition block_ops (block : Block) : list index_op :=
  mjoin (tx_ops (blk_Hash block) <$> blk_Transactions block).

Lemma links_of_app k ops1 ops2 : links_of k (ops1 ++ ops2) = links_of k ops1 ++ links_of k ops2.
Proof. apply omap_app. Qed.
Lemma spent_of_app k ops1 ops2 : spent_of k (ops1 ++ ops2) = spent_of k ops1 ++ spent_of k ops2.
Proof. apply omap_app. Qed.

(** One hash for each transaction with the identifier. *)
Lemma links_of_block k block :
  links_of k (block_ops block)
  = (λ _, blk_Hash block) <$> filter (λ tx, tx_ID tx = k) (blk_Transactions block).
Proof.
  unfold block_ops. induction (blk_Transactions block) as [|tx txs IH]; [done|].
  csimpl. rewrite links_of_app, IH.
  assert (∀ {X} (g : X → bytes * TransactionsIndexSpentOutputs) l,
    links_of k ((λ p, Spent (g p).1 (g p).2) <$> l) = []) as Hs.
  { intros X g l. by induction l. }
  rewrite filter_cons. destruct (IsCoinbase tx); csimpl.
  - by destruct (decide (tx_ID tx = k)) as [E|E]; [rewrite bool_decide_eq_true_2|rewrite bool_decide_eq_false_2].
  - rewrite (Hs _ (λ p : Z * TXInput, (in_Txid p.2, mkSpent (in_Vout p.2) (tx_ID tx) p.1 (blk_Hash block)))).
    by destruct (decide (tx_ID tx = k)) as [E|E]; [rewrite bool_decide_eq_true_2|rewrite bool_decide_eq_false_2].
Qed.

Section IndexTables.
Context `{BoltLaws} `{!Gob Block}.
Context `{!Gob (list bytes)} `{!GobLaws (list bytes)}.
Context `{!Gob (list TransactionsIndexSpentOutputs)} `{!GobLaws (list TransactionsIndexSpentOutputs)}.

Abbreviation lists := ((bytes → list bytes) * (bytes → list TransactionsIndexSpentOutputs))%type.

Definition index_rep (f : boltfile) (m : lists) : Prop :=
  table f transactionsBucket m.1 ∧ table f transactionsOutputsBucket m.2.

(** Only the two tables change. *)
Definition index_buckets : list string := [transactionsBucket; transactionsOutputsBucket].
Definition index_only (f f' : boltfile) : Prop := only index_buckets f f'.

Lemma set_record_index f name k o f' :
  set_record f name k o f' → name = transactionsBucket ∨ name = transactionsOutputsBucket →
  index_only f f'.
Proof. intros Hr Hn. eapply set_record_only_in; [done|]. destruct Hn as [->| ->]; set_solver. Qed.

(** *** Adding *)

Definition add_op (op : index_op) : st boltfile unit :=
  match op with Link k h => add_link h k | Spent k o => add_spent k o end.
Definition add_eff (m : lists) (op : index_op) : lists :=
  match op with
  | Link k h => (upd k (m.1 k ++ [h]) m.1, m.2)
  | Spent k o => (m.1, upd k (m.2 k ++ [o]) m.2)
  end.
Definition add_ok (m : lists) (op : index_op) : Prop :=
  match op with
  | Link k h => fits k (m.1 k ++ [h])
  | Spent k o => fits k (m.2 k ++ [o])
  end.
Definition rep_from (f0 f : boltfile) (m : lists) : Prop := index_rep f m ∧ index_only f0 f.

Lemma add_op_spec f0 f m op :
  rep_from f0 f m → add_ok m op →
  ∃ f', add_op op f = (Ret tt, f') ∧ rep_from f0 f' (add_eff m op).
Proof.
  intros [[HL HS] Ho] Hok. destruct op as [k h|k o]; simpl in *.
  - destruct (table_find f _ k _ HL) as (r & Hf & Hr).
    destruct (table_put f _ k _ _ HL Hok) as (d & f' & Ed & Hp & Hs & Ht).
    exists f'. split.
    { unfold add_link, mbind, st_bind, ask, lift, GetBlockHashForTX. rewrite Hf.
      unfold hashes_or_none, DeserializeHashes. rewrite (stores_decode r _ Hr).
      unfold SerializeHashes. by rewrite Ed. }
    split; [split; [done|]|].
    + eapply table_only; [done|by eapply set_record_only|done].
    + eapply only_trans; [done|]. eapply set_record_index; [done|auto].
  - destruct (table_find f _ k _ HS) as (r & Hf & Hr).
    destruct (table_put f _ k _ _ HS Hok) as (d & f' & Ed & Hp & Hs & Ht).
    exists f'. split.
    { unfold add_spent, mbind, st_bind, ask, lift, GetTXSpentOutputs. rewrite Hf.
      unfold outputs_or_none, DeserializeOutputs. rewrite (stores_decode r _ Hr).
      unfold SerializeOutputs. by rewrite Ed. }
    split; [split; [|done]|].
    + eapply table_only; [done|by eapply set_record_only|done].
    + eapply only_trans; [done|]. eapply set_record_index; [done|auto].
Qed.

Lemma add_eff_all ops m k :
  (fold_left add_eff ops m).1 k = m.1 k ++ links_of k ops ∧
  (fold_left add_eff ops m).2 k = m.2 k ++ spent_of k ops.
Proof.
  revert m. induction ops as [|op ops IH]; intros m; simpl; [by rewrite !app_nil_r|].
  destruct (IH (add_eff m op)) as [-> ->]. destruct op as [k' h|k' o]; csimpl; unfold upd.
  - destruct (decide (k = k')) as [->|Hk].
    + rewrite !bool_decide_eq_true_2 by done. by rewrite <- app_assoc.
    + by rewrite !bool_decide_eq_false_2 by congruence.
  - destruct (decide (k = k')) as [->|Hk].
    + rewrite !bool_decide_eq_true_2 by done. by rewrite <- app_assoc.
    + by rewrite !bool_decide_eq_false_2 by congruence.
Qed.

(** Everything that is stored on the way fits. *)
Definition add_fits (ops : list index_op) (m : lists) : Prop :=
  ∀ k, (∀ l, l ≠ [] → l `prefix_of` links_of k ops → fits k (m.1 k ++ l)) ∧
       (∀ l, l ≠ [] → l `prefix_of` spent_of k ops → fits k (m.2 k ++ l)).

Lemma add_fits_cons op ops m :
  add_fits (op :: ops) m → add_ok m op ∧ add_fits ops (add_eff m op).
Proof.
  intros Hf. split.
  - destruct op as [k h|k o]; [apply (proj1 (Hf k) [h]); [done|]|apply (proj2 (Hf k) [o]); [done|]];
      csimpl; rewrite bool_decide_eq_true_2 by done; apply prefix_cons, prefix_nil.
  - intros k. destruct (Hf k) as [HL HS]. destruct op as [k' h|k' o]; csimpl in *; unfold upd.
    + split; [|done]. intros l Hl Hp. destruct (decide (k = k')) as [->|Hk].
      * rewrite bool_decide_eq_true_2 in * by done. rewrite <- app_assoc.
        apply (HL (h :: l)); [done|]. by apply prefix_cons.
      * rewrite bool_decide_eq_false_2 in * by congruence. by apply HL.
    + split; [done|]. intros l Hl Hp. destruct (decide (k = k')) as [->|Hk].
      * rewrite bool_decide_eq_true_2 in * by done. rewrite <- app_assoc.
        apply (HS (o :: l)); [done|]. by apply prefix_cons.
      * rewrite bool_decide_eq_false_2 in * by congruence. by apply HS.
Qed.

Lemma add_fits_ok ops m : add_fits ops m → all_ok add_ok add_eff m ops.
Proof.
  revert m. induction ops as [|op ops IH]; intros m Hf; [done|].
  apply add_fits_cons in Hf as [Hok Hf]. split; [done|]. by apply IH.
Qed.

Lemma add_tx_ops h tx f :
  add_tx h tx f = sfor (tx_ops h tx) (λ _ op, add_op op) tt f.
Proof.
  unfold add_tx, tx_ops. simpl. unfold mbind, st_bind.
  destruct (add_link h (tx_ID tx) f) as [[[]|e|p|] f']; try done.
  destruct (IsCoinbase tx); [done|]. rewrite sfor_fmap. simpl. revert f'.
  induction (indexed (tx_Vin tx)) as [|[i vin] l IH]; intros f'; simpl; [done|].
  unfold mbind, st_bind. by destruct (add_spent _ _ _) as [[[]|e|p|] f2].
Qed.

Lemma BlockAdded_ops f db block m :
  opened f db → index_rep f m → add_fits (block_ops block) m →
  ∃ f', ti_BlockAdded block db = (Ret tt, with_bc f' db) ∧
        index_rep f' (fold_left add_eff (block_ops block) m) ∧ index_only f f'.
Proof.
  intros Ho Hm Hf.
  destruct (sfor_sim (rep_from f) add_op add_eff add_ok (block_ops block) f m) as (f' & Hs & Hr & Hi).
  - split; [done|apply only_refl].
  - by apply add_fits_ok.
  - apply add_op_spec.
  - exists f'. split_and!; [|done..]. unfold ti_BlockAdded, mbind, st_bind, ask.
    change (GetTransactionsObject db) with (GetBlockchainObject db).
    rewrite (opened_object f db Ho). apply (on_bc_Ret _ f db); [done|].
    rewrite <- Hs. by apply sfor_flatten, add_tx_ops.
Qed.

(** *** Removing *)

Definition remove_op (op : index_op) : st boltfile unit :=
  match op with Link k h => remove_link h k | Spent k o => remove_spent k (so_OutInd o) end.
Definition remove_eff (m : lists) (op : index_op) : lists :=
  match op with
  | Link k h => (upd k (filter (λ h', h' ≠ h) (m.1 k)) m.1, m.2)
  | Spent k o => (m.1, upd k (filter (λ o', so_OutInd o' ≠ so_OutInd o) (m.2 k)) m.2)
  end.

(** Every shorter list fits. *)
Definition remove_fits (m : lists) : Prop :=
  ∀ k, (∀ l, l ≠ [] → l `sublist_of` m.1 k → fits k l) ∧
       (∀ l, l ≠ [] → l `sublist_of` m.2 k → fits k l).

Lemma length_pos {A} (l : list A) : (0 <? Z.of_nat (length l))%Z = bool_decide (l ≠ []).
Proof. by destruct l. Qed.

Lemma sublist_upd {A} k k' l (T : bytes → list A) :
  l `sublist_of` T k → upd k l T k' `sublist_of` T k'.
Proof.
  intros Hl. unfold upd. by destruct (decide (k' = k)) as [->|Hk];
    [rewrite bool_decide_eq_true_2|rewrite bool_decide_eq_false_2].
Qed.

Lemma remove_fits_eff m op : remove_fits m → remove_fits (remove_eff m op).
Proof.
  intros Hf k. destruct (Hf k) as [HL HS].
  assert (∀ X (P : X → Prop) `{!∀ x, Decision (P x)} (l : list X), filter P l `sublist_of` l) as Hsub.
  { intros. apply sublist_filter. }
  destruct op as [k' h|k' o]; simpl; (split; [|try done]); try done; intros l Hl Hs.
  - apply HL; [done|]. etrans; [done|]. apply sublist_upd, Hsub.
  - apply HS; [done|]. etrans; [done|]. apply sublist_upd, Hsub.
Qed.

Lemma remove_link_spec f k h m :
  index_rep f m → remove_fits m →
  ∃ o f', remove_link h k f = (Ret tt, f') ∧ set_record f transactionsBucket k o f' ∧
          table f' transactionsBucket (upd k (filter (λ h', h' ≠ h) (m.1 k)) m.1).
Proof.
  intros [HL HS] Hf. destruct (table_find f _ k _ HL) as (r & Hr & Hst).
  assert (∀ q, remove_link h k f = q →
    (if (0 <? Z.of_nat (length (filter (λ h', h' ≠ h) (m.1 k))))%Z
     then blocksHashes ← lift (SerializeHashes (filter (λ h', h' ≠ h) (m.1 k)));
          PutTXToBlockLink k blocksHashes
     else drop_err (DeleteTXToBlockLink k)) f = q) as Heq.
  { intros q <-. unfold remove_link, mbind, st_bind, ask, lift, GetBlockHashForTX. rewrite Hr.
    unfold hashes_or_none, DeserializeHashes. by rewrite (stores_decode r _ Hst). }
  rewrite length_pos in Heq. case_bool_decide as Hl.
  - destruct (table_put f _ k (filter (λ h', h' ≠ h) (m.1 k)) _ HL) as (d & f' & Ed & Hp & Hs & Ht).
    { by apply (proj1 (Hf k)), sublist_filter. }
    exists (Some d), f'. split; [|done]. rewrite <- (Heq _ eq_refl).
    unfold mbind, st_bind, lift, SerializeHashes. by rewrite Ed.
  - destruct (table_delete f _ k _ HL) as (f' & Hp & Hs & Ht).
    exists None, f'. rewrite Hl. split; [|done]. rewrite <- (Heq _ eq_refl).
    by apply (drop_err_Ret (DeleteTXToBlockLink k) f tt).
Qed.

Lemma remove_spent_spec f k i m :
  index_rep f m → remove_fits m →
  ∃ f', remove_spent k i f = (Ret tt, f') ∧ index_only f f' ∧
        only_bucket transactionsOutputsBucket f f' ∧
        table f' transactionsOutputsBucket (upd k (filter (λ o, so_OutInd o ≠ i) (m.2 k)) m.2).
Proof.
  intros [HL HS] Hf. destruct (table_find f _ k _ HS) as (r & Hr & Hst).
  destruct r as [d|].
  2:{ exists f. split_and!; [|apply only_refl|apply only_bucket_refl|].
      - unfold remove_spent, mbind, st_bind, ask, GetTXSpentOutputs. by rewrite Hr.
      - eapply table_ext; [|exact HS]. intros k'. simpl in Hst. unfold upd.
        destruct (decide (k' = k)) as [->|Hk]; [by rewrite bool_decide_eq_true_2, Hst|].
        by rewrite bool_decide_eq_false_2. }
  assert (∀ q, remove_spent k i f = q →
    (if (0 <? Z.of_nat (length (filter (λ o, so_OutInd o ≠ i) (m.2 k))))%Z
     then to ← lift (SerializeOutputs (filter (λ o, so_OutInd o ≠ i) (m.2 k)));
          drop_err (PutTXSpentOutputs k to)
     else drop_err (DeleteTXSpentData k)) f = q) as Heq.
  { intros q <-. unfold remove_spent, mbind, st_bind, ask, lift, GetTXSpentOutputs. rewrite Hr.
    unfold DeserializeOutputs. simpl in Hst. by rewrite Hst. }
  assert (∃ o f', remove_spent k i f = (Ret tt, f') ∧ set_record f transactionsOutputsBucket k o f' ∧
    table f' transactionsOutputsBucket (upd k (filter (λ o, so_OutInd o ≠ i) (m.2 k)) m.2))
    as (o & f' & ? & Hs & ?).
  { rewrite length_pos in Heq. case_bool_decide as Hl.
    - destruct (table_put f _ k (filter (λ o, so_OutInd o ≠ i) (m.2 k)) _ HS)
        as (d' & f' & Ed & Hp & Hs & Ht).
      { by apply (proj2 (Hf k)), sublist_filter. }
      exists (Some d'), f'. split; [|done]. rewrite <- (Heq _ eq_refl).
      unfold mbind, st_bind, lift, SerializeOutputs. rewrite Ed.
      by apply (drop_err_Ret (PutTXSpentOutputs k d') f tt).
    - destruct (table_delete f _ k _ HS) as (f' & Hp & Hs & Ht).
      exists None, f'. rewrite Hl. split; [|done]. rewrite <- (Heq _ eq_refl).
      by apply (drop_err_Ret (DeleteTXSpentData k) f tt). }
  exists f'. split_and!; [done| |by eapply set_record_only|done].
  eapply set_record_index; [done|auto].
Qed.

Lemma remove_op_spec f0 f m op :
  rep_from f0 f m → remove_fits m →
  ∃ f', remove_op op f = (Ret tt, f') ∧ rep_from f0 f' (remove_eff m op).
Proof.
  intros [Hm Ho] Hf. destruct op as [k h|k o]; simpl.
  - destruct (remove_link_spec f k h m Hm Hf) as (r & f' & Hr & Hs & Ht). exists f'.
    split; [done|]. split; [split; [done|]|].
    + eapply table_only; [apply Hm|by eapply set_record_only|done].
    + eapply only_trans; [done|]. eapply set_record_index; [done|auto].
  - destruct (remove_spent_spec f k (so_OutInd o) m Hm Hf) as (f' & Hr & Hi & Hb & Ht). exists f'.
    split; [done|]. split; [split; [|done]|by eapply only_trans].
    eapply table_only; [apply Hm|done|done].
Qed.

Lemma remove_fits_ok ops m : remove_fits m → all_ok (λ m _, remove_fits m) remove_eff m ops.
Proof.
  revert m. induction ops as [|op ops IH]; intros m Hf; [done|].
  split; [done|]. by apply IH, remove_fits_eff.
Qed.

Lemma remove_eff_all ops m k :
  (fold_left remove_eff ops m).1 k = filter (λ h, h ∉ links_of k ops) (m.1 k) ∧
  (fold_left remove_eff ops m).2 k
  = filter (λ o, so_OutInd o ∉ so_OutInd <$> spent_of k ops) (m.2 k).
Proof.
  assert (∀ X (P Q R : X → Prop) `{!∀ x, Decision (P x)} `{!∀ x, Decision (Q x)} `{!∀ x, Decision (R x)} (l : list X),
    (∀ x, R x ↔ P x ∧ Q x) → filter P (filter Q l) = filter R l) as Hff.
  { intros X P Q R ??? l HR. rewrite list_filter_filter. apply list_filter_iff. intros x. by rewrite HR. }
  revert m. induction ops as [|op ops IH]; intros m; simpl.
  { split; symmetry; apply filter_all, Forall_true; intros ?; apply not_elem_of_nil. }
  destruct (IH (remove_eff m op)) as [-> ->]. destruct op as [k' h|k' o]; csimpl; unfold upd.
  - destruct (decide (k = k')) as [->|Hk].
    + rewrite !bool_decide_eq_true_2 by done. split; [|done]. apply Hff. set_solver.
    + by rewrite !bool_decide_eq_false_2 by congruence.
  - destruct (decide (k = k')) as [->|Hk].
    + rewrite !bool_decide_eq_true_2 by done. split; [done|]. csimpl. apply Hff. set_solver.
    + by rewrite !bool_decide_eq_false_2 by congruence.
Qed.

Lemma remove_tx_ops h tx f :
  remove_tx h tx f = sfor (tx_ops h tx) (λ _ op, remove_op op) tt f.
Proof.
  unfold remove_tx, tx_ops. simpl. unfold mbind, st_bind.
  destruct (remove_link h (tx_ID tx) f) as [[[]|e|p|] f']; try done.
  destruct (IsCoinbase tx); [done|]. rewrite sfor_fmap. simpl. revert f'.
  unfold indexed. generalize 0. induction (tx_Vin tx) as [|vin l IH]; intros n f'; [done|].
  rewrite indexed_from_cons. simpl. unfold mbind, st_bind.
  by destruct (remove_spent _ _ _) as [[[]|e|p|] f2].
Qed.

Lemma BlockRemoved_ops f db block m :
  opened f db → index_rep f m → remove_fits m →
  ∃ f', ti_BlockRemoved block db = (Ret tt, with_bc f' db) ∧
        index_rep f' (fold_left remove_eff (block_ops block) m) ∧ index_only f f'.
Proof.
  intros Ho Hm Hf.
  destruct (sfor_sim (rep_from f) remove_op remove_eff (λ m _, remove_fits m) (block_ops block) f m)
    as (f' & Hs & Hr & Hi).
  - split; [done|apply only_refl].
  - by apply remove_fits_ok.
  - apply remove_op_spec.
  - exists f'. split_and!; [|done..]. unfold ti_BlockRemoved, mbind, st_bind, ask.
    change (GetTransactionsObject db) with (GetBlockchainObject db).
    rewrite (opened_object f db Ho). apply (on_bc_Ret _ f db); [done|].
    rewrite <- Hs. by apply sfor_flatten, remove_tx_ops.
Qed.


(** *** Tests for the size conditions *)

Definition op_key (op : index_op) : bytes := match op with Link k _ | Spent k _ => k end.

Lemma other_key k ops : k ∉ op_key <$> ops → links_of k ops = [] ∧ spent_of k ops = [].
Proof.
  induction ops as [|op ops IH]; [done|]. csimpl. intros [Hk Hks]%not_elem_of_cons.
  destruct (IH Hks) as [E1 E2]. destruct op as [k' h|k' o]; csimpl in *;
    rewrite bool_decide_eq_false_2 by congruence; done.
Qed.

Definition prefixes_fit {A} `{!Gob (list A)} (k : bytes) (l0 l : list A) : bool :=
  forallb (λ n, fitsb k (l0 ++ take n l)) (seq 1 (length l)).
Definition add_fitsb (ops : list index_op) (m : lists) : bool :=
  forallb (λ k, prefixes_fit k (m.1 k) (links_of k ops) && prefixes_fit k (m.2 k) (spent_of k ops))
    (op_key <$> ops).

Lemma prefixes_fit_spec {A} `{!Gob (list A)} k (l0 l l' : list A) :
  prefixes_fit k l0 l = true → l' ≠ [] → l' `prefix_of` l → fits k (l0 ++ l').
Proof.
  unfold prefixes_fit. rewrite forallb_forall. intros Hf Hl [l2 ->].
  specialize (Hf (length l')). rewrite take_app_length in Hf. apply fitsb_fits, Hf.
  apply list_elem_of_In. rewrite elem_of_seq, length_app. destruct l'; [done|]. simpl. lia.
Qed.

Lemma add_fitsb_fits ops m : add_fitsb ops m = true → add_fits ops m.
Proof.
  unfold add_fitsb. rewrite forallb_forall. intros Hf k.
  destruct (decide (k ∈ op_key <$> ops)) as [Hk|Hk].
  - apply list_elem_of_In, Hf, andb_prop in Hk as [H1 H2].
    split; intros l; by apply prefixes_fit_spec.
  - destruct (other_key k ops Hk) as [-> ->]. by split; intros l Hl ->%prefix_nil_inv.
Qed.

Definition short_fits {A} `{!Gob (list A)} (k : bytes) (l : list A) : bool :=
  (length l <=? 1) && (bool_decide (l = []) || fitsb k l).

Lemma short_fits_spec {A} `{!Gob (list A)} k (l l' : list A) :
  short_fits k l = true → l' ≠ [] → l' `sublist_of` l → fits k l'.
Proof.
  unfold short_fits. intros [Hl Hf]%andb_prop Hne Hs. apply Nat.leb_le in Hl.
  assert (l' = l) as ->.
  { destruct l as [|x [|]]; simpl in Hl; [by apply sublist_nil_r in Hs| |lia].
    apply sublist_cons_r in Hs as [->%sublist_nil_r|(l2 & -> & ->%sublist_nil_r)]; done. }
  rewrite bool_decide_eq_false_2 in Hf by done. by apply fitsb_fits.
Qed.

(** After [ops] on empty tables, if no list got more than one entry. *)
Lemma remove_fitsb_fits ops :
  forallb (λ k, short_fits k (links_of k ops) && short_fits k (spent_of k ops)) (op_key <$> ops) = true →
  remove_fits (fold_left add_eff ops (λ _, [], λ _, [])).
Proof.
  rewrite forallb_forall. intros Hf k.
  destruct (add_eff_all ops (λ _, [], λ _, []) k) as [-> ->]. simpl.
  destruct (decide (k ∈ op_key <$> ops)) as [Hk|Hk].
  - apply list_elem_of_In, Hf, andb_prop in Hk as [H1 H2].
    split; intros l; by apply short_fits_spec.
  - destruct (other_key k ops Hk) as [-> ->]. by split; intros l Hl ->%sublist_nil_r.
Qed.

(** ** Correctness *)

(** [BlockAdded] appends, for every transaction of the block, the hash of
    the block to the blocks of the transaction, and for every input of a
    transaction that is not a coinbase the input and the block to the spendings
    of the transaction it spends; it touches no other table. *)
Theorem BlockAdded_index f db block L S :
  opened f db → index_rep f (L, S) → add_fits (block_ops block) (L, S) →
  ∃ f', ti_BlockAdded block db = (Ret tt, with_bc f' db) ∧
    index_rep f' (λ k, L k ++ ((λ _, blk_Hash block) <$>
                               filter (λ tx, tx_ID tx = k) (blk_Transactions block)),
                  λ k, S k ++ spent_of k (block_ops block)) ∧
    index_only f f'.
Proof.
  intros Ho Hm Hf. destruct (BlockAdded_ops f db block _ Ho Hm Hf) as (f' & Hr & [HL HS] & Hi).
  exists f'. split_and!; [done| |done]. split; (eapply table_ext; [|done]); intros k; simpl.
  - by rewrite (proj1 (add_eff_all _ _ _)), links_of_block.
  - apply add_eff_all.
Qed.

Lemma links_of_elem k h block :
  h ∈ links_of k (block_ops block) ↔ h = blk_Hash block ∧ k ∈ tx_ID <$> blk_Transactions block.
Proof.
  rewrite links_of_block, list_elem_of_fmap. split.
  - intros (tx & -> & [<- Hin]%list_elem_of_filter). split; [done|]. by apply list_elem_of_fmap_2.
  - intros [-> (tx & -> & Hin)%list_elem_of_fmap]. exists tx. split; [done|].
    by apply list_elem_of_filter.
Qed.

(** The tables after [BlockRemoved]. *)
Definition links_without (block : Block) (L : bytes → list bytes) (k : bytes) : list bytes :=
  filter (λ h, ¬ (h = blk_Hash block ∧ k ∈ tx_ID <$> blk_Transactions block)) (L k).
Definition spendings_without (block : Block) (S : bytes → list TransactionsIndexSpentOutputs)
    (k : bytes) : list TransactionsIndexSpentOutputs :=
  filter (λ o, so_OutInd o ∉ so_OutInd <$> spent_of k (block_ops block)) (S k).

Lemma BlockRemoved_rep f db block L S :
  opened f db → index_rep f (L, S) → remove_fits (L, S) →
  ∃ f', ti_BlockRemoved block db = (Ret tt, with_bc f' db) ∧
    index_rep f' (links_without block L, spendings_without block S) ∧ index_only f f'.
Proof.
  intros Ho Hm Hf. destruct (BlockRemoved_ops f db block _ Ho Hm Hf) as (f' & Hr & [HL HS] & Hi).
  exists f'. split_and!; [done| |done]. split; (eapply table_ext; [|done]); intros k; simpl.
  - rewrite (proj1 (remove_eff_all _ _ _)). apply list_filter_iff. intros h.
    by rewrite links_of_elem.
  - apply remove_eff_all.
Qed.

(** [BlockRemoved] takes the hash of the block from the blocks of its
    transactions and every spending of an output that one of its inputs spends,
    whichever block that spending is in. *)
Theorem BlockRemoved_index f db block L S :
  opened f db → index_rep f (L, S) → remove_fits (L, S) →
  ∃ f', ti_BlockRemoved block db = (Ret tt, with_bc f' db) ∧
    index_rep f' (links_without block L, spendings_without block S) ∧ index_only f f' ∧
    (∀ k h, h ∈ links_without block L k → h ∈ L k) ∧
    (∀ k o o', o ∈ spent_of k (block_ops block) → so_OutInd o' = so_OutInd o →
       o' ∉ spendings_without block S k).
Proof.
  intros Ho Hm Hf. destruct (BlockRemoved_rep f db block L S Ho Hm Hf) as (f' & Hr & Hi & Hn).
  exists f'. split_and!; [done..| |].
  - intros k h [_ Hh]%list_elem_of_filter. done.
  - intros k o o' Hin Eo [Hno _]%list_elem_of_filter. apply Hno. rewrite Eo.
    by apply list_elem_of_fmap_2.
Qed.

Lemma remove_fits_add ops L S :
  remove_fits (fold_left add_eff ops (L, S)) → add_fits ops (L, S).
Proof.
  intros Hf k. destruct (Hf k) as [HL HS]. destruct (add_eff_all ops (L, S) k) as [E1 E2].
  rewrite E1 in HL. rewrite E2 in HS. split; intros l Hl [l' E]; simpl in *.
  - apply HL; [by destruct (L k)|]. apply sublist_app; [done|]. rewrite E. by apply sublist_inserts_r.
  - apply HS; [by destruct (S k)|]. apply sublist_app; [done|]. rewrite E. by apply sublist_inserts_r.
Qed.

(** C22: removing the block that was just added restores the blocks of every
    transaction, if no transaction listed the block before; of the spendings it
    leaves those of outputs that the block does not spend, so a spending of the
    same output that a block of another branch had recorded is lost. *)
Theorem BlockRemoved_BlockAdded f db block L S :
  opened f db → index_rep f (L, S) → (∀ k, blk_Hash block ∉ L k) →
  remove_fits (fold_left add_eff (block_ops block) (L, S)) →
  ∃ f1 f2, ti_BlockAdded block db = (Ret tt, with_bc f1 db) ∧
    ti_BlockRemoved block (with_bc f1 db) = (Ret tt, with_bc f2 db) ∧
    index_rep f2 (L, spendings_without block S) ∧ index_only f f2.
Proof.
  intros Ho Hm Hnew Hf.
  destruct (BlockAdded_ops f db block _ Ho Hm (remove_fits_add _ _ _ Hf)) as (f1 & H1 & Hm1 & Hi1).
  assert (opened f1 (with_bc f1 db)) as Ho1.
  { eapply opened_with_bc; [done|]. rewrite (proj1 Hi1). apply Ho. }
  destruct (fold_left add_eff _ _) as [L1 S1] eqn:E.
  assert (∀ k, L1 k = L k ++ links_of k (block_ops block) ∧ S1 k = S k ++ spent_of k (block_ops block)) as HLS.
  { intros k. pose proof (add_eff_all (block_ops block) (L, S) k) as Hk. by rewrite E in Hk. }
  destruct (BlockRemoved_rep f1 _ block L1 S1 Ho1 Hm1 Hf) as (f2 & H2 & [HL HS] & Hi2).
  exists f1, f2. split_and!; [done|done| |by eapply only_trans].
  split; (eapply table_ext; [|done]); intros k; simpl;
    [unfold links_without; rewrite (proj1 (HLS k))|unfold spendings_without; rewrite (proj2 (HLS k))];
    rewrite filter_app.
  - rewrite filter_all, filter_none; [by rewrite app_nil_r|..]; apply Forall_forall.
    + intros h Hh Hn. by apply Hn, links_of_elem.
    + intros h Hh [-> _]. by apply (Hnew k).
  - rewrite (filter_none _ (spent_of _ _)); [by rewrite app_nil_r|]. apply Forall_forall.
    intros o Hin Hn. by apply Hn, list_elem_of_fmap_2.
Qed.

(** *** [Reindex] *)

Lemma path_index_only `{!GobLaws Block} f f' h bs : index_only f f' → path f h bs → path f' h bs.
Proof.
  intros [_ Hi] Hp. eapply path_transport; [done|]. intros b _. apply Hi. set_solver.
Qed.

Lemma add_fits_app ops1 ops2 m :
  add_fits (ops1 ++ ops2) m → add_fits ops1 m ∧ add_fits ops2 (fold_left add_eff ops1 m).
Proof.
  revert m. induction ops1 as [|op ops1 IH]; intros m Hf; simpl.
  - split; [|done]. intros k. split; intros l Hl Hp; by apply prefix_nil_inv in Hp.
  - split; [|by apply IH, add_fits_cons].
    intros k. destruct (Hf k) as [HL HS]. split; intros l Hl Hp.
    + apply HL; [done|]. rewrite links_of_app. by apply prefix_app_r.
    + apply HS; [done|]. rewrite spent_of_app. by apply prefix_app_r.
Qed.

Lemma reindex_blocks_spec `{!GobLaws Block} f db h bs fuel m :
  opened f db → path f h bs → length bs ≤ fuel → index_rep f m →
  add_fits (mjoin (block_ops <$> bs)) m →
  ∃ f', reindex_blocks fuel (mkBlockchainIterator h) db = (Ret tt, with_bc f' db) ∧
        index_rep f' (fold_left add_eff (mjoin (block_ops <$> bs)) m) ∧ index_only f f'.
Proof.
  intros Ho Hp Hfuel. revert f db h fuel m Ho Hp Hfuel. induction bs as [|b bs IH];
    intros f db h fuel m Ho Hp Hfuel Hm Hf; apply path_inv in Hp as (b' & bs' & E & Hs & Eh & Hc);
    [done|]. injection E as <- <-.
  destruct fuel as [|fuel]; simpl in Hfuel; [lia|].
  simpl in Hf. apply add_fits_app in Hf as [Hf1 Hf2].
  destruct (BlockAdded_ops f db b m Ho Hm Hf1) as (f1 & Hr1 & Hm1 & Hi1).
  assert (opened f1 (with_bc f1 db)) as Ho1.
  { eapply opened_with_bc; [done|]. rewrite (proj1 Hi1). apply Ho. }
  simpl. rewrite fold_left_app.
  destruct Hc as [[-> Hn]|[Hn Hp]].
  - exists f1. split_and!; [|done..].
    unfold mbind, st_bind, ask. by rewrite (Next_stored f db h b Ho Hs), Hr1, Hn.
  - destruct (IH f1 (with_bc f1 db) _ fuel _ Ho1 (path_index_only _ _ _ _ Hi1 Hp)
      ltac:(lia) Hm1 Hf2) as (f2 & Hr2 & Hm2 & Hi2).
    exists f2. split_and!; [|done|by eapply only_trans].
    unfold mbind, st_bind, ask. rewrite (Next_stored f db h b Ho Hs), Hr1.
    replace (Z.of_nat (length (blk_PrevBlockHash b)) =? 0)%Z with false
      by (by destruct (blk_PrevBlockHash b)).
    exact Hr2.
Qed.

Lemma ti_TruncateDB_spec f :
  transactionsBucket ∈ dom f → transactionsOutputsBucket ∈ dom f →
  ∃ f', TruncateDB f = (Ret tt, f') ∧ index_rep f' (λ _, [], λ _, []) ∧ index_only f f'.
Proof.
  intros H1 H2. destruct (truncate_spec f _ H1) as (f1 & Hr1 & Ho1 & He1).
  destruct (truncate_spec f1 transactionsOutputsBucket) as (f2 & Hr2 & Ho2 & He2).
  { by rewrite (proj1 Ho1). }
  exists f2. split_and!; [| |].
  - unfold TruncateDB, mbind at 1, st_bind at 1. by rewrite Hr1.
  - split; apply table_empty; try done.
    + by rewrite (proj1 Ho2), (proj1 Ho1).
    + intros k. rewrite (proj2 Ho2) by set_solver. apply He1.
    + by rewrite (proj1 Ho2), (proj1 Ho1).
  - eapply only_trans; (eapply only_weaken; [|done]); set_solver.
Qed.

(** C23: [Reindex] empties the two tables and records every block of the main
    chain, from the top down; it ends, with fuel for one round per block. *)
Theorem Reindex_spec `{!GobLaws Block} f db top bs fuel :
  opened f db → bget f blocksBucket (str "l") = Some top → top ≠ [] → path f top bs →
  transactionsBucket ∈ dom f → transactionsOutputsBucket ∈ dom f →
  length bs ≤ fuel → add_fits (mjoin (block_ops <$> bs)) (λ _, [], λ _, []) →
  ∃ f', ti_Reindex fuel db = (Ret tt, with_bc f' db) ∧
    index_rep f' (λ k, links_of k (mjoin (block_ops <$> bs)),
                  λ k, spent_of k (mjoin (block_ops <$> bs))) ∧ index_only f f'.
Proof.
  intros Ho Ht Hne Hp H1 H2 Hfuel Hf.
  destruct (ti_TruncateDB_spec f H1 H2) as (f1 & Hr1 & Hm1 & Hi1).
  assert (opened f1 (with_bc f1 db)) as Ho1.
  { eapply opened_with_bc; [done|]. rewrite (proj1 Hi1). apply Ho. }
  destruct (reindex_blocks_spec f1 _ top bs fuel _ Ho1 (path_index_only _ _ _ _ Hi1 Hp) Hfuel Hm1 Hf)
    as (f2 & Hr2 & [HL HS] & Hi2).
  exists f2. split_and!; [| |by eapply only_trans].
  - unfold ti_Reindex, mbind, st_bind, ask.
    change (GetTransactionsObject db) with (GetBlockchainObject db).
    rewrite (opened_object f db Ho), (on_bc_Ret _ f db tt f1 Ho Hr1).
    by rewrite (NewBlockchainIterator_top f1 (with_bc f1 db) top Ho1)
      by (done || by rewrite (proj2 Hi1) by set_solver).
  - split; (eapply table_ext; [|done]); intros k; apply (add_eff_all _ (λ _, [], λ _, [])).
Qed.

End IndexTables.

(** ** Witnesses

    A chain of one block with a coinbase and a transaction that spends its
    output, and empty tables. *)

Module IndexDemo.
Import MapBolt Codecs Demo.

Definition spent_codec : codec TransactionsIndexSpentOutputs :=
  codec_iso (codec_prod (codec_prod codec_Z codec_bytes) (codec_prod codec_Z codec_bytes))
    (λ o, ((so_OutInd o, so_TXWhereUsed o), (so_InInd o, so_BlockHash o)))
    (λ p, mkSpent p.1.1 p.1.2 p.2.1 p.2.2) (λ '(mkSpent _ _ _ _), eq_refl).
#[export] Instance spent_gob : Gob (list TransactionsIndexSpentOutputs) :=
  codec_gob (codec_list spent_codec).
#[export] Instance spent_gob_laws : GobLaws (list TransactionsIndexSpentOutputs) :=
  codec_gob_laws _.

Definition tx_base : Transaction :=
  mkTransaction [x11] [mkTXInput [] (-1) [] [x01]] [mkTXOutput (f64_of_Z 10) [x21]] 1.
Definition tx_pay : Transaction :=
  mkTransaction [x12] [mkTXInput [x11] 0 [x03] [x02]]
    [mkTXOutput (f64_of_Z 4) [x22]; mkTXOutput (f64_of_Z 6) [x21]] 2.
Definition blk_t : Block := mkBlock 0 [tx_base; tx_pay] [] [x02; x01] 0 0.

Definition index_blocks : @bucket map_bolt :=
  (list_to_map [(str "l", [x02; x01]); ([x02; x01], encoded blk_t)] : gmap bytes bytes).
Definition index_file : boltfile :=
  {[ blocksBucket := index_blocks; transactionsBucket := b_empty;
     transactionsOutputsBucket := b_empty ]}.
Definition index_db : DB := mkDB true (Some index_file) None.

Lemma index_opened : opened index_file index_db.
Proof. split_and!; [done|done|]. apply elem_of_dom. by eexists. Qed.

Lemma index_rep_empty : index_rep index_file (λ _, [], λ _, []).
Proof. split; (split; [apply elem_of_dom; by eexists|]); intros k; by destruct k. Qed.

Lemma index_path : path index_file [x02; x01] [blk_t].
Proof. apply path_first; [|done|done]. exists (encoded blk_t). split_and!; vm_compute; done. Qed.

Lemma BlockAdded_index_witness :
  ∃ f', ti_BlockAdded blk_t index_db = (Ret tt, with_bc f' index_db) ∧
    index_rep f' (λ k, [] ++ ((λ _, [x02; x01]) <$> filter (λ tx, tx_ID tx = k) [tx_base; tx_pay]),
                  λ k, [] ++ spent_of k (block_ops blk_t)) ∧
    index_only index_file f'.
Proof.
  apply (BlockAdded_index index_file index_db blk_t (λ _, []) (λ _, [])).
  - apply index_opened.
  - apply index_rep_empty.
  - by apply add_fitsb_fits.
Defined.

Lemma BlockRemoved_index_witness :
  ∃ f', ti_BlockRemoved blk_t index_db = (Ret tt, with_bc f' index_db) ∧
    index_rep f' (links_without blk_t (λ _, []), spendings_without blk_t (λ _, [])) ∧
    index_only index_file f' ∧
    (∀ k h, h ∈ links_without blk_t (λ _, []) k → h ∈ []) ∧
    (∀ k o o', o ∈ spent_of k (block_ops blk_t) → so_OutInd o' = so_OutInd o →
       o' ∉ spendings_without blk_t (λ _, []) k).
Proof.
  apply (BlockRemoved_index index_file index_db blk_t (λ _, []) (λ _, [])).
  - apply index_opened.
  - apply index_rep_empty.
  - apply (remove_fitsb_fits []). reflexivity.
Defined.

Lemma BlockRemoved_BlockAdded_witness :
  ∃ f1 f2, ti_BlockAdded blk_t index_db = (Ret tt, with_bc f1 index_db) ∧
    ti_BlockRemoved blk_t (with_bc f1 index_db) = (Ret tt, with_bc f2 index_db) ∧
    index_rep f2 (λ _, [], spendings_without blk_t (λ _, [])) ∧ index_only index_file f2.
Proof.
  apply (BlockRemoved_BlockAdded index_file index_db blk_t (λ _, []) (λ _, [])).
  - apply index_opened.
  - apply index_rep_empty.
  - intros k. apply not_elem_of_nil.
  - by apply remove_fitsb_fits.
Defined.

Lemma Reindex_spec_witness :
  ∃ f', ti_Reindex 1 index_db = (Ret tt, with_bc f' index_db) ∧
    index_rep f' (λ k, links_of k (mjoin (block_ops <$> [blk_t])),
                  λ k, spent_of k (mjoin (block_ops <$> [blk_t]))) ∧ index_only index_file f'.
Proof.
  apply (Reindex_spec index_file index_db [x02; x01] [blk_t] 1).
  - apply index_opened.
  - reflexivity.
  - done.
  - apply index_path.
  - apply elem_of_dom. by eexists.
  - apply elem_of_dom. by eexists.
  - done.
  - by apply add_fitsb_fits.
Defined.
End IndexDemo.
