(* ===== verification/Pending.v ===== *)
(** * The pool of pending transactions: [node/transactions/pending.go]

    Transactions wait in a bucket, under their identifiers, until a block takes
    them.  The pool holds no two transactions that spend one output.  A loop
    over a Go map takes the entries in the order it is given as a list. *)

From Stdlib Require Import Strings.Byte ZifyNat.
From stdpp Require Import base strings numbers gmap sorting list.
From S2P Require Import Prelude Float64 Platform Concrete Utils Structures Codecs Signing.
From S2P Require Import Database ChainIndex Tables Branches BlockchainUpdate TxIndex.

Import UnapprovedTransactionsDB.

(** The maps [checked] and [usedoutputs], keyed by the text of an identifier. *)
Abbreviation outputs_map := (gmap string (list Z)).

(** [txstr] and [vout] are in the map. *)
Definition in_outputs (m : outputs_map) (txstr : string) (vout : Z) : bool :=
  match m !! txstr with
  | Some outs => existsb (Z.eqb vout) outs
  | None => false
  end.
(** [m[txstr] = append(m[txstr], vout)]. *)
Definition append_output (m : outputs_map) (txstr : string) (vout : Z) : outputs_map :=
  <[txstr := default [] (m !! txstr) ++ [vout]]> m.

Section Pending.
Context `{Crypto} `{Bolt} `{GoSort} `{!Gob Transaction}.

Definition pend_GetIfExists (txid : bytes) (db : DB) : outcome (option Transaction) :=
  utdb ← GetUnapprovedTransactionsObject db;
  txBytes ← GetTransaction txid utdb;
  if (Z.of_nat (length txBytes) =? 0)%Z then Ret None
  else tx ← DeserializeTransaction txBytes; Ret (Some tx).

Definition err_no_input (txid : bytes) : goerror :=
  NewTXVerifyError "Input transaction is not found in prepared to approve"
    TXVerifyErrorNoInput txid.

(** [inputTXs] is the map of the caller, which the function extends. *)
Definition CheckInputsArePrepared (inputs : list (Z * TXInput)) (inputTXs : prevmap) (db : DB)
    : outcome prevmap :=
  r ← mfor inputs (λ '(checked, inputTXs) '(vinInd, vin),
    let txstr := hex_EncodeToString (in_Txid vin) in
    if in_outputs checked txstr (in_Vout vin)
    then Err (EFmt "Duplicate usage of transaction output: %s - %d"
                [AStr txstr; AInt (in_Vout vin)])
    else
      tx ← pend_GetIfExists (in_Txid vin) db;
      match tx with
      | None => Err (err_no_input (in_Txid vin))
      | Some tx =>
          Ret (append_output checked txstr (in_Vout vin), <[vinInd := Some tx]> inputTXs)
      end) (∅, inputTXs);
  Ret r.2.

Definition CheckInputsWereBefore (inputs : list (Z * TXInput)) (prevTXs : list Transaction)
    (inputTXs : prevmap) : outcome prevmap :=
  r ← mfor inputs (λ '(checked, inputTXs) '(vind, vin),
    let txstr := hex_EncodeToString (in_Txid vin) in
    if in_outputs checked txstr (in_Vout vin)
    then Err (EMsg "Duplicate usage of transaction output")
    else
      match list_find (λ tx, in_Txid vin = tx_ID tx) prevTXs with
      | None => Err (err_no_input (in_Txid vin))
      | Some (_, tx) =>
          Ret (append_output checked txstr (in_Vout vin), <[vind := Some tx]> inputTXs)
      end) (∅, inputTXs);
  Ret r.2.

(** The two loops of a [GetPreparedBy] record over its inputs and outputs. *)
Definition prepared_inputs (PubKeyHash : bytes) (tx : Transaction) : list TXInput :=
  if IsCoinbase tx then [] else filter (λ vin, UsesKey vin PubKeyHash = true) (tx_Vin tx).
Definition prepared_outputs (PubKeyHash sender txBytes : bytes) (tx : Transaction)
    : list TXOutputIndependent :=
  (λ p, LoadFromSimple p.2 (tx_ID tx) p.1 sender (IsCoinbase tx) txBytes) <$>
    filter (λ p, IsLockedWithKey p.2 PubKeyHash = true) (indexed (tx_Vout tx)).
Definition is_output_of (vin : TXInput) (vout : TXOutputIndependent) : bool :=
  bytes_eqb (in_Txid vin) (uo_TXID vout) && (in_Vout vin =? uo_OIndex vout)%Z.

(** The callback of [GetPreparedBy], over the captured [inputs] and
    [outputs]. *)
Definition prepared_callback (PubKeyHash k txBytes : bytes)
    : st (list TXInput * list TXOutputIndependent) unit :=
  tx ← lift (DeserializeTransaction txBytes);
  sender ← lift (if IsCoinbase tx then Ret []
                 else vin0 ← index (tx_Vin tx) 0; Ret (in_PubKey vin0));
  effect (λ '(inputs, outputs),
    (Ret tt, (inputs ++ prepared_inputs PubKeyHash tx,
              outputs ++ prepared_outputs PubKeyHash sender txBytes tx))).

Definition GetPreparedBy (PubKeyHash : bytes) (db : DB)
    : outcome (list TXInput * list TXOutputIndependent * list TXInput) :=
  utdb ← GetUnapprovedTransactionsObject db;
  let '(r, (inputs, outputs)) := ForEach (prepared_callback PubKeyHash) utdb ([], []) in
  _ ← r;
  let realoutputs := filter (λ vout, existsb (λ vin, is_output_of vin vout) inputs = false) outputs in
  let approvedinputs := filter (λ vin, existsb (is_output_of vin) outputs = false) inputs in
  Ret (inputs, realoutputs, approvedinputs).

Definition pend_GetInputValue (input : TXInput) (db : DB) : outcome float64 :=
  tx ← pend_GetIfExists (in_Txid input) db;
  match tx with
  | None => Err (EMsg "TX not found in cache of unapproved")
  | Some tx => out ← index (tx_Vout tx) (in_Vout input); Ret (out_Value out)
  end.

(** The callback of [GetTransactions], over [txset] and [totalnumber]. *)
Definition take_callback (number : Z) (k txBytes : bytes) : st (list Transaction * Z) unit :=
  tx ← lift (DeserializeTransaction txBytes);
  effect (λ '(txset, totalnumber),
    (if (number <=? totalnumber + 1)%Z then Err NewDBCursorStopError else Ret tt,
     (txset ++ [tx], (totalnumber + 1)%Z))).

Definition GetTransactions (number : Z) (db : DB) : outcome (list Transaction) :=
  utdb ← GetUnapprovedTransactionsObject db;
  let '(r, (txset, _)) := ForEach (take_callback number) utdb ([], 0%Z) in
  _ ← r;
  Ret (go_Sort tx_Less txset).

Definition pend_GetCount (db : DB) : outcome Z :=
  utdb ← GetUnapprovedTransactionsObject db;
  GetCount utdb.

(** The transactions share an input. *)
Definition conflicts_with (txcheck txexi : Transaction) : bool :=
  existsb (λ vin, existsb (λ vine,
    bytes_eqb (in_Txid vin) (in_Txid vine) && (in_Vout vin =? in_Vout vine)%Z)
    (tx_Vin txexi)) (tx_Vin txcheck).

(** The callback of [DetectConflictsForNew], over [txconflicts]. *)
Definition conflict_callback (txcheck : Transaction) (txID txBytes : bytes)
    : st (option Transaction) unit :=
  txexi ← lift (DeserializeTransaction txBytes);
  effect (λ txconflicts,
    if conflicts_with txcheck txexi then (Err NewDBCursorStopError, Some txexi)
    else (Ret tt, txconflicts)).

Definition DetectConflictsForNew (txcheck : Transaction) (db : DB) : outcome (option Transaction) :=
  utdb ← GetUnapprovedTransactionsObject db;
  let '(r, txconflicts) := ForEach (conflict_callback txcheck) utdb None in
  _ ← r;
  Ret txconflicts.

Definition err_conflict (id : bytes) : goerror :=
  EFmt "The transaction conflicts with other prepared transaction: %x" [ABytes id].

(** [errors.New(prefix + err.Error())]. *)
Definition wrap_err {S A} (what : string) (m : st S A) : st S A := λ s,
  match m s with
  | (Err e, s') => (Err (EWrap what e), s')
  | r => r
  end.

Definition pend_Add (txadd : Transaction) : st DB unit :=
  conflicts ← ask (DetectConflictsForNew txadd);
  match conflicts with
  | Some c => fail (err_conflict (tx_ID c))
  | None =>
      _ ← ask GetUnapprovedTransactionsObject;
      txser ← lift (tx_Serialize txadd);
      wrap_err "Adding new transaction to unapproved cache: "
        (on_bc (PutTransaction (tx_ID txadd) txser))
  end.

Definition pend_Delete (txid : bytes) : st DB bool :=
  utdb ← ask GetUnapprovedTransactionsObject;
  txBytes ← lift (GetTransaction txid utdb);
  if (0 <? Z.of_nat (length txBytes))%Z then
    _ ← on_bc (DeleteTransaction txid);
    mret true
  else mret false.

Definition DeleteFromBlock (block : Block) : st DB unit :=
  sfor (blk_Transactions block) (λ _ tx,
    if IsCoinbase tx then mret tt else drop_err (pend_Delete (tx_ID tx))) tt.

Definition DeleteFromBlocks (blocks : list Block) : st DB unit :=
  sfor blocks (λ _ block, DeleteFromBlock block) tt.

(** The caller's callback works on a state [C] of its own; its result is
    dropped. *)
Definition print_callback {C} (callback : string → string → st C unit) (txID txBytes : bytes)
    : st (Z * C) unit :=
  tx ← lift (DeserializeTransaction txBytes);
  s ← lift (tx_String tx);
  effect (λ '(total, c),
    let '(r, c) := drop_err (callback (hex_EncodeToString txID) s) c in (r, ((total + 1)%Z, c))).

Definition forEachUnapprovedTransaction {C} (callback : string → string → st C unit) (db : DB)
    : st C Z := λ c,
  match GetUnapprovedTransactionsObject db with
  | Ret utdb =>
      let '(r, (total, c)) := ForEach (print_callback callback) utdb (0%Z, c) in
      ((_ ← r; Ret total), c)
  | Err e => (Err e, c)
  | Panic p => (Panic p, c)
  | OutOfFuel => (OutOfFuel, c)
  end.

(** The loop over the inputs of a transaction in [DetectConflicts]: whether an
    output was used before, and the map, extended by the inputs before it. *)
Fixpoint use_inputs (usedoutputs : outputs_map) (vins : list TXInput) : bool * outputs_map :=
  match vins with
  | [] => (false, usedoutputs)
  | txi :: vins' =>
      let txinhax := hex_EncodeToString (in_Txid txi) in
      if in_outputs usedoutputs txinhax (in_Vout txi) then (true, usedoutputs)
      else use_inputs (append_output usedoutputs txinhax (in_Vout txi)) vins'
  end.

Definition DetectConflicts (txs : list Transaction) : list Transaction * list Transaction :=
  let '(goodtransactions, conflicts, _) :=
    fold_left (λ '(good, conflicts, usedoutputs) tx,
      let '(used, usedoutputs) := use_inputs usedoutputs (tx_Vin tx) in
      if (used : bool) then (good, conflicts ++ [tx], usedoutputs)
      else (good ++ [tx], conflicts, usedoutputs)) txs ([], [], ∅) in
  (goodtransactions, conflicts).

Definition AddFromCanceled (txs : list Transaction) : st DB unit :=
  sfor txs (λ _ tx, if IsCoinbase tx then mret tt else drop_err (pend_Add tx)) tt.

Definition CleanUnapprovedCache : st DB unit :=
  _ ← ask GetUnapprovedTransactionsObject;
  on_bc TruncateDB.
End Pending.

(** ** Outputs used by inputs *)

Abbreviation outpoint := (bytes * Z)%type.
Definition outpoint_of (vin : TXInput) : outpoint := (in_Txid vin, in_Vout vin).
Definition outpoints (tx : Transaction) : list outpoint := outpoint_of <$> tx_Vin tx.

(** The map has the output. *)
Definition marked (m : outputs_map) (p : outpoint) : Prop :=
  in_outputs m (hex_EncodeToString p.1) p.2 = true.

#[export] Instance marked_dec m p : Decision (marked m p).
Proof. unfold marked. apply _. Defined.

Lemma marked_empty p : ¬ marked ∅ p.
Proof. done. Qed.

Lemma marked_append m vin p :
  marked (append_output m (hex_EncodeToString (in_Txid vin)) (in_Vout vin)) p ↔
  marked m p ∨ p = outpoint_of vin.
Proof.
  destruct p as [t v]. unfold marked, in_outputs, append_output, outpoint_of. simpl.
  destruct (decide (t = in_Txid vin)) as [->|Hn].
  - rewrite lookup_insert_eq, existsb_app. simpl.
    destruct (m !! _) as [l|]; simpl; rewrite ?orb_false_r, ?orb_true_iff, Z.eqb_eq.
    + naive_solver.
    + split; [by intros ->; right|]. by intros [?|[= ->]].
  - rewrite lookup_insert_ne; [|intros E%hex_EncodeToString_inj; done].
    split; [by left|]. intros [?|[= ? ?]]; done.
Qed.

Lemma not_marked m vin :
  in_outputs m (hex_EncodeToString (in_Txid vin)) (in_Vout vin) = false ↔
  ¬ marked m (outpoint_of vin).
Proof. unfold marked. simpl. by rewrite not_true_iff_false. Qed.

(** ** [DetectConflicts] *)

(** The outputs a call marks, and when it finds none of them used. *)
Lemma use_inputs_spec m vins b m' :
  use_inputs m vins = (b, m') →
  (b = false ↔ NoDup (outpoint_of <$> vins) ∧ ∀ p, p ∈ outpoint_of <$> vins → ¬ marked m p) ∧
  (∀ p, marked m' p → marked m p ∨ p ∈ outpoint_of <$> vins) ∧
  (∀ p, marked m p ∨ b = false ∧ p ∈ outpoint_of <$> vins → marked m' p).
Proof.
  revert m. induction vins as [|vin vins IH]; intros m; simpl.
  { intros [= <- <-]. split_and!; [|by left|by intros p [?|[_ ?%elem_of_nil]]].
    split; [intros _; split; [constructor|by intros p ?%elem_of_nil]|done]. }
  destruct (in_outputs _ _ _) eqn:E.
  - intros [= <- <-]. split_and!; [|by left|by intros p [?|[? _]]].
    split; [done|]. intros [_ Hn]. exfalso. by apply (Hn (outpoint_of vin)); [left|].
  - intros Hu. apply not_marked in E. destruct (IH _ Hu) as (Hb & Hm & Hk). split_and!.
    + rewrite Hb. rewrite NoDup_cons. setoid_rewrite elem_of_cons. setoid_rewrite marked_append.
      split.
      * intros [Hnd Hn]. split_and!; [|done|].
        -- intros Hin. apply (Hn _ Hin). by right.
        -- intros p [->|Hp]; [done|]. intros Hmp. apply (Hn _ Hp). by left.
      * intros [[Hni Hnd] Hn]. split; [done|]. intros p Hp [Hmp| ->]; [|done].
        apply (Hn p); [by right|done].
    + intros p [Hp|Hp]%Hm; [|right; by right]. apply marked_append in Hp as [Hp| ->]; [by left|].
      right. left.
    + intros p Hp. apply Hk. rewrite marked_append. rewrite elem_of_cons in Hp.
      destruct Hp as [?|[? [->|?]]]; tauto.
Qed.

(** The loop of [DetectConflicts] after the transactions [txs]. *)
Record detected (txs good bad : list Transaction) (m : outputs_map) : Prop := {
  dt_perm : good ++ bad ≡ₚ txs;
  dt_good : good `sublist_of` txs;
  dt_bad : bad `sublist_of` txs;
  dt_free : NoDup (mjoin (outpoints <$> good));
  dt_marked tx p : tx ∈ good → p ∈ outpoints tx → marked m p;
  dt_known p : marked m p → ∃ tx, tx ∈ txs ∧ p ∈ outpoints tx;
  dt_reason tx : tx ∈ bad → ∃ l1 l2, txs = l1 ++ tx :: l2 ∧
    (¬ NoDup (outpoints tx) ∨ ∃ tx' p, tx' ∈ l1 ∧ p ∈ outpoints tx' ∧ p ∈ outpoints tx)
}.

Lemma detected_step txs good bad m tx used m' :
  detected txs good bad m → use_inputs m (tx_Vin tx) = (used, m') →
  if used then detected (txs ++ [tx]) good (bad ++ [tx]) m'
  else detected (txs ++ [tx]) (good ++ [tx]) bad m'.
Proof.
  intros D Hu. destruct (use_inputs_spec _ _ _ _ Hu) as (Hb & Hm & Hk).
  fold (outpoints tx) in *.
  assert (∀ p, marked m' p → ∃ t, t ∈ txs ++ [tx] ∧ p ∈ outpoints t) as Hknown.
  { intros p [Hp|Hp]%Hm; [destruct (dt_known _ _ _ _ D p Hp) as (t & ? & ?); exists t|exists tx];
      set_solver. }
  assert (∀ t, t ∈ bad → ∃ l1 l2, txs ++ [tx] = l1 ++ t :: l2 ∧
    (¬ NoDup (outpoints t) ∨ ∃ tx' p, tx' ∈ l1 ∧ p ∈ outpoints tx' ∧ p ∈ outpoints t)) as Hold.
  { intros t Ht. destruct (dt_reason _ _ _ _ D t Ht) as (l1 & l2 & -> & Hr).
    exists l1, (l2 ++ [tx]). by rewrite <- app_assoc. }
  destruct used.
  - split; try apply D; try done.
    + rewrite app_assoc. by rewrite (dt_perm _ _ _ _ D).
    + apply sublist_inserts_r, D.
    + apply sublist_app; [apply D|done].
    + intros t p Ht Hp. apply Hk. left. by eapply dt_marked.
    + intros t [Ht|Ht]%elem_of_app; [by apply Hold|]. apply list_elem_of_singleton in Ht as ->.
      exists txs, []. split; [done|]. destruct (decide (NoDup (outpoints tx))) as [Hnd|]; [right|by left].
      destruct (decide (Exists (marked m) (outpoints tx))) as [Hex|Hex].
      * apply Exists_exists in Hex as (p & Hp & Hmp).
        destruct (dt_known _ _ _ _ D p Hmp) as (t & ? & ?). eauto.
      * exfalso. apply not_true_iff_false with true; [|done]. apply Hb. split; [done|].
        intros p Hp Hmp. apply Hex, Exists_exists. eauto.
  - destruct (proj1 Hb eq_refl) as [Hnd Hn]. split; try done.
    + rewrite <- (dt_perm _ _ _ _ D). rewrite <- !app_assoc. by rewrite (Permutation_app_comm [tx]).
    + apply sublist_app; [apply D|done].
    + apply sublist_inserts_r, D.
    + rewrite fmap_app, join_app. apply NoDup_app. split_and!; [apply D| |].
      * intros p (t & Hp & Ht)%list_elem_of_join Hp'. simpl in Hp'. rewrite app_nil_r in Hp'.
        apply list_elem_of_fmap in Ht as (t' & -> & Ht). apply (Hn p Hp').
        by eapply dt_marked.
      * simpl. by rewrite app_nil_r.
    + intros t p [Ht|Ht]%elem_of_app Hp; apply Hk.
      * left. by eapply dt_marked.
      * apply list_elem_of_singleton in Ht as ->. by right.
Qed.

Lemma DetectConflicts_detected txs :
  ∃ m, detected txs (DetectConflicts txs).1 (DetectConflicts txs).2 m.
Proof.
  unfold DetectConflicts.
  assert (∀ done good bad m rest, detected done good bad m →
    ∃ m', let r := fold_left (λ '(good, conflicts, usedoutputs) tx,
      let '(used, usedoutputs) := use_inputs usedoutputs (tx_Vin tx) in
      if (used : bool) then (good, conflicts ++ [tx], usedoutputs)
      else (good ++ [tx], conflicts, usedoutputs)) rest (good, bad, m) in
    detected (done ++ rest) r.1.1 r.1.2 m') as Hfold.
  { intros dn good bad m rest. revert dn good bad m. induction rest as [|tx rest IH];
      intros dn good bad m D; simpl; [rewrite app_nil_r; by exists m|].
    destruct (use_inputs m (tx_Vin tx)) as [used m'] eqn:E.
    pose proof (detected_step _ _ _ _ _ _ _ D E) as Hs.
    replace (dn ++ tx :: rest) with ((dn ++ [tx]) ++ rest) by by rewrite <- app_assoc.
    destruct used; by apply IH. }
  destruct (Hfold [] [] [] ∅ txs) as [m' D].
  { split; try done; [constructor|by intros ?? ?%elem_of_nil|by intros ? ?%elem_of_nil]. }
  exists m'. by destruct (fold_left _ _ _) as [[good bad] m].
Qed.

(** Transactions that share no output are all good. *)
Lemma DetectConflicts_free txs :
  NoDup (mjoin (outpoints <$> txs)) → DetectConflicts txs = (txs, []).
Proof.
  intros Hnd. destruct (DetectConflicts_detected txs) as [m D].
  destruct (DetectConflicts txs) as [good bad]. simpl in D. assert (bad = []) as ->.
  { destruct bad as [|tx bad]; [done|]. exfalso.
    destruct (dt_reason _ _ _ _ D tx) as (l1 & l2 & E & Hr); [by left|]. subst txs.
    rewrite fmap_app, join_app in Hnd. csimpl in Hnd. apply NoDup_app in Hnd as (_ & Hd & [Hn _]%NoDup_app).
    destruct Hr as [Hr|(tx' & p & Hin & Hp' & Hp)]; [done|].
    apply (Hd p); [|apply elem_of_app; by left].
    apply list_elem_of_join. exists (outpoints tx'). split; [done|]. by apply list_elem_of_fmap_2. }
  f_equal. pose proof (dt_perm _ _ _ _ D) as Hp. rewrite app_nil_r in Hp.
  pose proof (dt_good _ _ _ _ D) as Hg.
  assert (length good = length txs) as Hl by by rewrite Hp.
  clear - Hg Hl. induction Hg as [|x l1 l2 Hs IH|x l1 l2 Hs IH]; simpl in *; [done| |].
  - f_equal. apply IH. lia.
  - apply sublist_length in Hs. lia.
Qed.

(** [DetectConflicts] splits its list into good and conflicting
    transactions, both in the order of the list; no two inputs of the good ones
    spend one output; and a transaction is conflicting only if two of its own
    inputs spend one output or it shares an output with a transaction before
    it.  A list without shared outputs is good as it is. *)
Theorem DetectConflicts_spec txs :
  let '(good, bad) := DetectConflicts txs in
  good ++ bad ≡ₚ txs ∧ good `sublist_of` txs ∧ bad `sublist_of` txs ∧
  NoDup (mjoin (outpoints <$> good)) ∧
  (∀ tx, tx ∈ bad → ∃ l1 l2, txs = l1 ++ tx :: l2 ∧
     (¬ NoDup (outpoints tx) ∨ ∃ tx' p, tx' ∈ l1 ∧ p ∈ outpoints tx' ∧ p ∈ outpoints tx)) ∧
  (NoDup (mjoin (outpoints <$> txs)) → good = txs ∧ bad = []).
Proof.
  destruct (DetectConflicts_detected txs) as [m D]. pose proof (DetectConflicts_free txs) as Hfree.
  destruct (DetectConflicts txs) as [good bad]. simpl in D. split_and!; try apply D.
  intros Hnd. by injection (Hfree Hnd).
Qed.

(** The outputs of a rejected transaction stay marked up to the input that was
    found used: here the third transaction shares no output with the good one
    and is rejected all the same. *)
Definition spending (id : bytes) (ps : list outpoint) : Transaction :=
  mkTransaction id ((λ p, mkTXInput p.1 p.2 [] []) <$> ps) [] 0.
Example DetectConflicts_over :
  let t1 := spending [x01] [([x0a], 0%Z)] in
  let t2 := spending [x02] [([x0b], 0%Z); ([x0a], 0%Z)] in
  let t3 := spending [x03] [([x0b], 0%Z)] in
  DetectConflicts [t1; t2; t3] = ([t1], [t2; t3]).
Proof. reflexivity. Qed.

(** ** The checks of inputs *)

Section Checks.
Context `{Crypto} `{Bolt} `{!Gob Transaction}.
Implicit Types (inputs : list (Z * TXInput)) (inputTXs : prevmap).

(** The body both checks share: [find] looks the transaction of an input up. *)
Definition check_step (find : bytes → outcome (option Transaction)) (dup : TXInput → goerror)
    (acc : outputs_map * prevmap) (e : Z * TXInput) : outcome (outputs_map * prevmap) :=
  let txstr := hex_EncodeToString (in_Txid e.2) in
  if in_outputs acc.1 txstr (in_Vout e.2) then Err (dup e.2)
  else
    tx ← find (in_Txid e.2);
    match tx with
    | None => Err (err_no_input (in_Txid e.2))
    | Some tx => Ret (append_output acc.1 txstr (in_Vout e.2), <[e.1 := Some tx]> acc.2)
    end.

(** Each input has a transaction, and the map that results. *)
Definition all_found (find : bytes → outcome (option Transaction)) inputs
    (found : list (Z * Transaction)) : Prop :=
  Forall2 (λ e r, e.1 = r.1 ∧ find (in_Txid e.2) = Ret (Some r.2)) inputs found.
Definition add_found (m : prevmap) (r : Z * Transaction) : prevmap := <[r.1 := Some r.2]> m.

Lemma check_loop find dup inputs chk m chk' m' :
  mfor inputs (check_step find dup) (chk, m) = Ret (chk', m') →
  NoDup (outpoint_of <$> inputs.*2) ∧ (∀ p, p ∈ outpoint_of <$> inputs.*2 → ¬ marked chk p) ∧
  ∃ found, all_found find inputs found ∧ m' = fold_left add_found found m.
Proof.
  revert chk m. induction inputs as [|[i vin] inputs IH]; intros chk m; simpl.
  { intros [= <- <-]. split_and!; [constructor|by intros p ?%elem_of_nil|].
    exists []. by split; [constructor|]. }
  intros Hl. go_inv Hl. unfold check_step in E. simpl in E.
  destruct (in_outputs _ _ _) eqn:Em; [done|]. apply not_marked in Em. go_inv E.
  destruct v0 as [tx|]; [|done]. injection E as <-.
  destruct (IH _ _ Hl) as (Hnd & Hn & found & Hf & ->). split_and!.
  - constructor; [|done]. intros Hin. apply (Hn _ Hin), marked_append. by right.
  - intros p [->|Hp]%elem_of_cons; [done|]. intros Hmp. apply (Hn p Hp), marked_append. by left.
  - exists ((i, tx) :: found). split; [by constructor|done].
Qed.

Lemma check_loop_Ret find dup inputs chk m found :
  NoDup (outpoint_of <$> inputs.*2) → (∀ p, p ∈ outpoint_of <$> inputs.*2 → ¬ marked chk p) →
  all_found find inputs found →
  ∃ chk', mfor inputs (check_step find dup) (chk, m) = Ret (chk', fold_left add_found found m).
Proof.
  intros Hnd Hn Hf. revert chk m Hnd Hn. induction Hf as [|[i vin] [j tx] inputs found [E Htx] _ IH];
    intros chk m Hnd Hn; [by exists chk|]. simpl in E, Htx. subst j.
  apply NoDup_cons in Hnd as [Hni Hnd].
  assert (check_step find dup (chk, m) (i, vin)
    = Ret (append_output chk (hex_EncodeToString (in_Txid vin)) (in_Vout vin), add_found m (i, tx))) as Hc.
  { unfold check_step. simpl. rewrite (proj2 (not_marked chk vin)) by (apply Hn; left).
    by rewrite Htx. }
  simpl. rewrite Hc. simpl. apply IH; [done|].
  intros p Hp [Hmp| ->]%marked_append; [|done]. apply (Hn p); [by right|done].
Qed.

(** What a check that succeeds returns, whatever the order of the inputs. *)
Definition checked_map (find : bytes → outcome (option Transaction)) inputs m r : Prop :=
  NoDup (outpoint_of <$> inputs.*2) ∧ ∃ found, all_found find inputs found ∧ r = fold_left add_found found m.

Lemma check_iff find dup inputs m r :
  (x ← mfor inputs (check_step find dup) (∅, m); Ret x.2) = Ret r ↔ checked_map find inputs m r.
Proof.
  rewrite outcome_bind_Ret. split.
  - intros ([chk' m'] & Hl & [= <-]). destruct (check_loop _ _ _ _ _ _ _ Hl) as (? & _ & ?).
    by split.
  - intros (Hnd & found & Hf & ->).
    destruct (check_loop_Ret find dup inputs ∅ m found Hnd) as [chk' Hl]; [|done|by eexists].
    intros p _. apply marked_empty.
Qed.

Lemma all_found_keys find inputs found : all_found find inputs found → found.*1 = inputs.*1.
Proof. induction 1 as [|e r l k [E _] _ IH]; [done|]. by rewrite !fmap_cons, IH, E. Qed.

Lemma fold_add_found found m k :
  NoDup found.*1 →
  fold_left add_found found m !! k
  = match (list_to_map found : gmap Z Transaction) !! k with Some tx => Some (Some tx) | None => m !! k end.
Proof.
  revert m. induction found as [|[i tx] found IH]; intros m; csimpl; [done|].
  intros [Hi Hnd]%NoDup_cons. rewrite IH by done. unfold add_found. simpl.
  destruct (decide (k = i)) as [->|Hk].
  - rewrite lookup_insert_eq, (not_elem_of_list_to_map_1 found i Hi). by rewrite lookup_insert_eq.
  - by rewrite !lookup_insert_ne by done.
Qed.

Lemma checked_map_perm find inputs inputs' m r :
  inputs ≡ₚ inputs' → NoDup inputs.*1 → checked_map find inputs m r → checked_map find inputs' m r.
Proof.
  intros Hp Hk (Hnd & found & Hf & ->). split; [by rewrite <- Hp|].
  destruct (Forall2_perm _ inputs inputs' found Hp Hf) as (found' & Hf' & Hpf).
  exists found'. split; [done|]. apply map_eq. intros k.
  assert (NoDup found.*1) as Hkf by by rewrite (all_found_keys _ _ _ Hf).
  rewrite !fold_add_found by (done || by rewrite <- Hpf).
  by rewrite (list_to_map_proper (M := gmap Z) found found').
Qed.

Lemma checked_map_lookup find inputs m r :
  NoDup inputs.*1 → checked_map find inputs m r →
  (∀ i vin, (i, vin) ∈ inputs → ∃ tx, find (in_Txid vin) = Ret (Some tx) ∧ r !! i = Some (Some tx)) ∧
  (∀ i, i ∉ inputs.*1 → r !! i = m !! i).
Proof.
  intros Hk (_ & found & Hf & ->).
  assert (NoDup found.*1) as Hkf by by rewrite (all_found_keys _ _ _ Hf).
  split.
  - intros i vin Hin. apply list_elem_of_lookup in Hin as [n Hn].
    destruct (Forall2_lookup_l _ _ _ _ _ Hf Hn) as ([j tx] & Hj & E & Htx). simpl in E, Htx. subst j.
    exists tx. split; [done|]. rewrite fold_add_found by done.
    by rewrite (elem_of_list_to_map_1 (M := gmap Z) found i tx Hkf (list_elem_of_lookup_2 _ _ _ Hj)).
  - intros i Hi. rewrite <- (all_found_keys _ _ _ Hf) in Hi. rewrite fold_add_found by done.
    by rewrite (not_elem_of_list_to_map_1 (M := gmap Z) found i Hi).
Qed.

Lemma checked_map_intro find inputs m :
  NoDup (outpoint_of <$> inputs.*2) →
  (∀ i vin, (i, vin) ∈ inputs → ∃ tx, find (in_Txid vin) = Ret (Some tx)) →
  ∃ r, checked_map find inputs m r.
Proof.
  intros Hnd Hf. assert (∃ found, all_found find inputs found) as [found Hfound].
  { clear Hnd. induction inputs as [|[i vin] inputs IH]; [by exists []; constructor|].
    destruct (Hf i vin) as [tx Htx]; [left|]. destruct IH as [found ?]; [intros; eapply Hf; by right|].
    exists ((i, tx) :: found). by constructor. }
  exists (fold_left add_found found m). split; [done|by exists found].
Qed.

Definition find_before (prevTXs : list Transaction) (txid : bytes) : outcome (option Transaction) :=
  Ret (snd <$> list_find (λ tx, txid = tx_ID tx) prevTXs).

Lemma CheckInputsWereBefore_iff inputs prevTXs inputTXs r :
  CheckInputsWereBefore inputs prevTXs inputTXs = Ret r ↔
  checked_map (find_before prevTXs) inputs inputTXs r.
Proof.
  rewrite <- (check_iff _ (λ _, EMsg "Duplicate usage of transaction output")).
  unfold CheckInputsWereBefore. erewrite mfor_ext; [reflexivity|].
  intros [chk m] [i vin]. unfold check_step, find_before. simpl.
  destruct (in_outputs _ _ _); [done|]. by destruct (list_find _ _) as [[n tx]|].
Qed.

Lemma CheckInputsArePrepared_iff inputs inputTXs db r :
  CheckInputsArePrepared inputs inputTXs db = Ret r ↔
  checked_map (λ txid, pend_GetIfExists txid db) inputs inputTXs r.
Proof.
  rewrite <- (check_iff _ (λ vin, EFmt "Duplicate usage of transaction output: %s - %d"
    [AStr (hex_EncodeToString (in_Txid vin)); AInt (in_Vout vin)])).
  unfold CheckInputsArePrepared. erewrite mfor_ext; [reflexivity|].
  by intros [chk m] [i vin].
Qed.

(** what the two checks of the inputs that are not in the chain accept does
    not depend on the order in which Go visits the map of the inputs: they
    succeed exactly when no two of the inputs spend one output and the
    transaction of each is found, and then give the same map. *)
Theorem CheckInputs_order inputs inputs' inputTXs prevTXs db r :
  inputs ≡ₚ inputs' → NoDup inputs.*1 →
  (CheckInputsWereBefore inputs prevTXs inputTXs = Ret r ↔
   CheckInputsWereBefore inputs' prevTXs inputTXs = Ret r) ∧
  (CheckInputsArePrepared inputs inputTXs db = Ret r ↔
   CheckInputsArePrepared inputs' inputTXs db = Ret r) ∧
  (CheckInputsWereBefore inputs prevTXs inputTXs = Ret r →
   NoDup (outpoint_of <$> inputs.*2) ∧
   ∀ i vin, (i, vin) ∈ inputs → ∃ tx, tx ∈ prevTXs ∧ tx_ID tx = in_Txid vin ∧ r !! i = Some (Some tx)).
Proof.
  intros Hp Hk. assert (NoDup inputs'.*1) as Hk' by by rewrite <- Hp.
  rewrite !CheckInputsWereBefore_iff, !CheckInputsArePrepared_iff. split_and!.
  - split; apply checked_map_perm; done.
  - split; apply checked_map_perm; done.
  - intros Hc. split; [apply Hc|]. intros i vin Hin.
    destruct (checked_map_lookup _ _ _ _ Hk Hc) as [Hall _].
    destruct (Hall i vin Hin) as (tx & [= Htx] & Hr).
    apply fmap_Some in Htx as ([k t] & Hl & ->).
    apply list_find_Some in Hl as (Hl & Heq & _). exists t.
    split_and!; [by eapply list_elem_of_lookup_2|done|done].
Qed.

(** *** Inputs that are looked up, and those that are not found *)

(** The body of the loops that classify the inputs of a transaction: [look]
    gives the transaction an input spends from, if there is one. *)
Definition classify_step (look : TXInput → outcome (option Transaction))
    (acc : gmap Z TXInput * prevmap) (e : Z * TXInput) : outcome (gmap Z TXInput * prevmap) :=
  r ← look e.2;
  Ret (match r with
       | None => (<[e.1 := e.2]> acc.1, <[e.1 := None]> acc.2)
       | Some tx => (acc.1, <[e.1 := Some tx]> acc.2)
       end).

Definition classified (look : TXInput → outcome (option Transaction)) (nf : gmap Z TXInput)
    (m : prevmap) (z : Z) (vin : TXInput) : Prop :=
  match look vin with
  | Ret (Some tx) => nf !! z = None ∧ m !! z = Some (Some tx)
  | Ret None => nf !! z = Some vin ∧ m !! z = Some None
  | _ => False
  end.

Lemma classify_from look vins (n : nat) nf m :
  Forall (λ vin, ∃ r, look vin = Ret r) vins → (∀ z, (Z.of_nat n ≤ z)%Z → nf !! z = None) →
  ∃ nf' m', mfor (indexed_from n vins) (classify_step look) (nf, m) = Ret (nf', m') ∧
    (∀ z, (z < Z.of_nat n)%Z → nf' !! z = nf !! z ∧ m' !! z = m !! z) ∧
    (∀ (i : nat) vin, vins !! i = Some vin → classified look nf' m' (Z.of_nat (n + i)) vin) ∧
    (∀ z, (Z.of_nat (n + length vins) ≤ z)%Z → nf' !! z = None).
Proof.
  intros Hf. revert n nf m. induction Hf as [|vin vins [r Hr] _ IH]; intros n nf m Hn.
  { exists nf, m. split_and!; try done. intros z Hz. apply Hn. simpl in Hz. lia. }
  assert (∃ nf1 m1, classify_step look (nf, m) (Z.of_nat n, vin) = Ret (nf1, m1) ∧
    (∀ z, z ≠ Z.of_nat n → nf1 !! z = nf !! z ∧ m1 !! z = m !! z) ∧
    classified look nf1 m1 (Z.of_nat n) vin) as (nf1 & m1 & Hs & Hne & Hc).
  { unfold classify_step, classified. simpl. rewrite Hr, ret_bind.
    destruct r as [tx|]; eexists _, _; (split; [done|]); split.
    - intros z Hz. by rewrite lookup_insert_ne.
    - rewrite Hn by lia. by rewrite lookup_insert_eq.
    - intros z Hz. by rewrite !lookup_insert_ne.
    - by rewrite !lookup_insert_eq. }
  destruct (IH (S n) nf1 m1) as (nf2 & m2 & Hr2 & Hlow & Hall & Hhigh).
  { intros z Hz. rewrite (proj1 (Hne z ltac:(lia))). apply Hn. lia. }
  exists nf2, m2. split; [rewrite indexed_from_cons; simpl; rewrite Hs; exact Hr2|]. split_and!.
  - intros z Hz. destruct (Hlow z) as [-> ->]; [lia|]. apply Hne. lia.
  - intros [|i] vin' Hi; simpl in Hi.
    + injection Hi as <-. rewrite Nat.add_0_r. unfold classified in *.
      by destruct (Hlow (Z.of_nat n)) as [-> ->]; [lia|].
    + rewrite <- Nat.add_succ_comm. by apply Hall.
  - intros z Hz. apply Hhigh. simpl in Hz. lia.
Qed.

Lemma classify_loop look vins :
  Forall (λ vin, ∃ r, look vin = Ret r) vins →
  ∃ nf m, mfor (indexed vins) (classify_step look) (∅, ∅) = Ret (nf, m) ∧
    (∀ (i : nat) vin, vins !! i = Some vin → classified look nf m (Z.of_nat i) vin) ∧
    (∀ z vin, nf !! z = Some vin → ∃ i : nat, z = Z.of_nat i ∧ vins !! i = Some vin).
Proof.
  intros Hf. destruct (classify_from look vins 0 ∅ ∅ Hf) as (nf & m & Hr & Hlow & Hall & Hhigh); [done|].
  exists nf, m. split; [done|]. split; [done|]. intros z vin Hz.
  destruct (decide (0 ≤ z < Z.of_nat (length vins))%Z) as [Hin|Hout].
  - destruct (lookup_lt_is_Some_2 vins (Z.to_nat z)) as [vin' Hv]; [lia|].
    exists (Z.to_nat z). split; [lia|]. specialize (Hall _ _ Hv). simpl in Hall.
    rewrite Z2Nat.id in Hall by lia. unfold classified in Hall. rewrite Hz in Hall.
    destruct (look vin') as [[?|]| | |]; try done; [by destruct Hall|]. destruct Hall. congruence.
  - exfalso. destruct (decide (z < 0)%Z) as [Hneg|Hneg].
    + destruct (Hlow z) as [E _]; [lia|]. by rewrite E in Hz.
    + rewrite Hhigh in Hz by lia. done.
Qed.

Lemma classify_inv look vins acc res :
  mfor vins (classify_step look) acc = Ret res → Forall (λ e, ∃ r, look e.2 = Ret r) vins.
Proof.
  revert acc. induction vins as [|e vins IH]; intros acc; simpl; [constructor|].
  intros Hl. go_inv Hl. unfold classify_step in E. go_inv E. constructor; [by eexists|by eapply IH].
Qed.

Definition is_missing (r : outcome (option Transaction)) : bool :=
  match r with Ret None => true | _ => false end.
(** The inputs that are not found. *)
Definition missing (look : TXInput → outcome (option Transaction)) (vins : list TXInput) : list TXInput :=
  filter (λ vin, is_missing (look vin) = true) vins.

(** [m] gives each input the transaction [look] finds, or else the one [find]
    does; inputs that are left to [find] spend different outputs. *)
Definition resolved (look : TXInput → outcome (option Transaction))
    (find : bytes → outcome (option Transaction)) (vins : list TXInput) (m : prevmap) : Prop :=
  NoDup (outpoint_of <$> missing look vins) ∧
  ∀ (i : nat) vin, vins !! i = Some vin → ∃ tx, m !! Z.of_nat i = Some (Some tx) ∧
    (look vin = Ret (Some tx) ∨ look vin = Ret None ∧ find (in_Txid vin) = Ret (Some tx)).

Section Resolve.
Context `{GoRangeLaws}.
Context (look : TXInput → outcome (option Transaction)) (find : bytes → outcome (option Transaction)).

(** The classification of the inputs, and the check of those not found. *)
Definition resolve (vins : list TXInput)
    (check : list (Z * TXInput) → prevmap → outcome prevmap) : outcome prevmap :=
  '(nf, m) ← mfor (indexed vins) (classify_step look) (∅, ∅);
  if (0 <? Z.of_nat (size nf))%Z then check (go_range nf) m else Ret m.

Lemma range_missing vins nf m :
  (∀ (i : nat) vin, vins !! i = Some vin → classified look nf m (Z.of_nat i) vin) →
  (∀ z vin, nf !! z = Some vin → ∃ i : nat, z = Z.of_nat i ∧ vins !! i = Some vin) →
  go_range nf ≡ₚ filter (λ p, is_missing (look p.2) = true) (indexed vins).
Proof.
  intros Hall Hin. rewrite go_range_Permutation. apply NoDup_Permutation.
  - apply NoDup_map_to_list.
  - apply NoDup_filter. apply (NoDup_fmap_1 fst), NoDup_indexed.
  - intros [z vin]. rewrite elem_of_map_to_list, list_elem_of_filter, elem_of_indexed. simpl. split.
    + intros Hz. destruct (Hin z vin Hz) as (i & -> & Hi). split; [|by exists i].
      specialize (Hall i vin Hi). unfold classified in Hall. rewrite Hz in Hall.
      by destruct (look vin) as [[?|]| | |]; try done; destruct Hall.
    + intros [Hm (i & -> & Hi)]. specialize (Hall i vin Hi). unfold classified in Hall.
      by destruct (look vin) as [[?|]| | |]; try done; destruct Hall.
Qed.

Lemma range_nodup vins nf :
  go_range nf ≡ₚ filter (λ p, is_missing (look p.2) = true) (indexed vins) →
  (go_range nf).*2 ≡ₚ missing look vins ∧ NoDup (go_range nf).*1.
Proof.
  intros E. split.
  - rewrite E. unfold missing.
    by rewrite <- (fmap_snd_indexed_filter (λ vin, is_missing (look vin) = true) 0 vins).
  - rewrite go_range_Permutation. apply NoDup_fst_map_to_list.
Qed.

Lemma resolve_iff vins check :
  (∀ inputs m r, check inputs m = Ret r ↔ checked_map find inputs m r) →
  (∀ m, resolve vins check = Ret m → resolved look find vins m) ∧
  (∀ m0, resolved look find vins m0 → ∃ m, resolve vins check = Ret m).
Proof.
  intros Hck.
  assert (∀ nf m r, (if (0 <? Z.of_nat (size nf))%Z then check (go_range nf) m else Ret m) = Ret r ↔
    checked_map find (go_range nf) m r) as Hif.
  { intros nf m r. destruct (Z.ltb_spec 0 (Z.of_nat (size nf))); [apply Hck|].
    assert (nf = ∅) as -> by (apply map_size_empty_inv; lia).
    pose proof (go_range_Permutation (∅ : gmap Z TXInput)) as Hp. rewrite map_to_list_empty in Hp.
    apply Permutation_nil_r in Hp. rewrite Hp. split.
    - intros [= <-]. split; [constructor|]. exists []. split; [constructor|done].
    - intros (_ & found & Hf & ->). inversion Hf. done. }
  unfold resolve. split.
  - intros m Hr. go_inv Hr. destruct v as [nf m1]. apply Hif in Hr.
    assert (Forall (λ vin, ∃ r, look vin = Ret r) vins) as Hall.
    { apply classify_inv in E. apply Forall_lookup. intros i vin Hi.
      rewrite Forall_forall in E. apply (E (Z.of_nat i, vin)), elem_of_indexed. by exists i. }
    destruct (classify_loop look vins Hall) as (nf' & m' & E' & Hc & Hin).
    rewrite E in E'. injection E' as <- <-. pose proof (range_missing _ _ _ Hc Hin) as Hp.
    destruct (range_nodup _ _ Hp) as [Hp2 Hk]. split; [rewrite <- Hp2; apply Hr|].
    destruct (checked_map_lookup _ _ _ _ Hk Hr) as [Hfound Hkeep]. intros i vin Hi.
    specialize (Hc i vin Hi). unfold classified in Hc.
    destruct (look vin) as [[tx|]| | |] eqn:El; try done; destruct Hc as [Hnf Hm].
    + exists tx. rewrite Hkeep; [by auto|]. rewrite go_range_Permutation.
      intros ([z v] & Ez & Hz%elem_of_map_to_list)%list_elem_of_fmap. simpl in Ez. congruence.
    + destruct (Hfound (Z.of_nat i) vin) as (tx & Hf & Hr'); [|by exists tx; auto].
      rewrite go_range_Permutation. by apply elem_of_map_to_list.
  - intros m0 [Hnd Hres].
    destruct (classify_loop look vins) as (nf & m & E & Hc & Hin).
    { apply Forall_lookup. intros i vin Hi. destruct (Hres i vin Hi) as (tx & _ & [?|[? _]]); eauto. }
    rewrite E, ret_bind. pose proof (range_missing _ _ _ Hc Hin) as Hp.
    destruct (range_nodup _ _ Hp) as [Hp2 Hk].
    destruct (checked_map_intro find (go_range nf) m) as [r Hr].
    + by rewrite Hp2.
    + intros z vin Hz. rewrite Hp, list_elem_of_filter, elem_of_indexed in Hz.
      destruct Hz as [Hm (i & -> & Hi)]. destruct (Hres i vin Hi) as (tx & _ & [El|[_ Hf]]); [|eauto].
      simpl in Hm. by rewrite El in Hm.
    + exists r. by apply Hif.
Qed.
End Resolve.
End Checks.

(** ** The pool *)

Section Pool.
Context `{Crypto} `{BoltLaws} `{GoSortLaws} `{!Gob Transaction} `{!GobLaws Transaction}.
Implicit Types (f : boltfile) (db : DB) (tx : Transaction) (txs : list Transaction).

Abbreviation pending := unapprovedTransactionsBucket.

(** The records of the pool are [txs], in the order of their identifiers. *)
Definition is_record (r : bytes * bytes) tx : Prop :=
  r.2 ≠ [] ∧ DeserializeTransaction r.2 = Ret tx ∧ tx_ID tx = r.1.
Definition pool f txs : Prop :=
  ∃ b, f !! pending = Some b ∧ Forall2 is_record (b_Cursor b) txs.

(** No two of the transactions spend one output. *)
Definition conflict_free txs : Prop :=
  ∀ tx1 tx2 p, tx1 ∈ txs → tx2 ∈ txs → p ∈ outpoints tx1 → p ∈ outpoints tx2 → tx1 = tx2.

Lemma pool_dom f txs : pool f txs → pending ∈ dom f.
Proof. intros (b & E & _). by apply elem_of_dom_2 in E. Qed.

Lemma pool_elem f txs tx :
  pool f txs → tx ∈ txs ↔ ∃ d, bget f pending (tx_ID tx) = Some d ∧ d ≠ [] ∧
                              DeserializeTransaction d = Ret tx.
Proof.
  intros (b & E & Hf). rewrite (bget_lookup f pending b _ E). setoid_rewrite <- b_Cursor_Get. split.
  - intros [n Hn]%list_elem_of_lookup.
    destruct (Forall2_lookup_r _ _ _ _ _ Hf Hn) as ([k d] & Hk & Hd & Hdec & Hid). simpl in *.
    exists d. rewrite Hid. split; [by eapply list_elem_of_lookup_2|done].
  - intros (d & [n Hn]%list_elem_of_lookup & Hne & Hd).
    destruct (Forall2_lookup_l _ _ _ _ _ Hf Hn) as (tx' & Htx & _ & Hd' & _). simpl in *.
    replace tx with tx' by congruence. by eapply list_elem_of_lookup_2.
Qed.

Lemma pool_inj f txs tx1 tx2 :
  pool f txs → tx1 ∈ txs → tx2 ∈ txs → tx_ID tx1 = tx_ID tx2 → tx1 = tx2.
Proof.
  intros Hp (d1 & Hd1 & _ & E1)%(pool_elem f) (d2 & Hd2 & _ & E2)%(pool_elem f) E; [|done..].
  rewrite E in Hd1. congruence.
Qed.

(** A file whose records all decode to a transaction with their key is a pool. *)
Lemma pool_intro f :
  pending ∈ dom f →
  (∀ k d, bget f pending k = Some d → ∃ tx, is_record (k, d) tx) →
  ∃ txs, pool f txs.
Proof.
  intros [b E]%elem_of_dom Hr. assert (∃ txs, Forall2 is_record (b_Cursor b) txs) as [txs Hf].
  { assert (∀ r, r ∈ b_Cursor b → ∃ tx, is_record r tx) as Hc.
    { intros [k d] Hin%b_Cursor_Get. apply Hr. by rewrite (bget_lookup f pending b _ E). }
    induction (b_Cursor b) as [|r rs IH]; [by exists []|].
    destruct (Hc r) as [tx Htx]; [left|]. destruct IH as [txs Hf]; [intros; apply Hc; by right|].
    exists (tx :: txs). by constructor. }
  exists txs, b. done.
Qed.

Lemma pool_record f txs k d : pool f txs → bget f pending k = Some d → ∃ tx, is_record (k, d) tx.
Proof.
  intros (b & E & Hf). rewrite (bget_lookup f pending b _ E), <- b_Cursor_Get.
  intros [n Hn]%list_elem_of_lookup. destruct (Forall2_lookup_l _ _ _ _ _ Hf Hn) as (tx & _ & ?).
  by exists tx.
Qed.

(** Writing and deleting a record. *)
Lemma pool_put f f' txs tx d :
  pool f txs → set_record f pending (tx_ID tx) (Some d) f' → tx_Serialize tx = Ret d →
  ∃ txs', pool f' txs' ∧ ∀ t, t ∈ txs' ↔ t = tx ∨ t ∈ txs ∧ tx_ID t ≠ tx_ID tx.
Proof.
  intros Hp Hr Hs. destruct (DeserializeTransaction_Serialize tx d Hs) as [Hne Hd].
  destruct (pool_intro f') as [txs' Hp'].
  - rewrite (set_record_dom _ _ _ _ _ Hr). by eapply pool_dom.
  - intros k d'. destruct (decide (k = tx_ID tx)) as [->|Hk].
    + rewrite (set_record_eq _ _ _ _ _ Hr). intros [= <-]. by exists tx.
    + rewrite (set_record_ne _ _ _ _ _ _ _ Hr) by auto. by eapply pool_record.
  - exists txs'. split; [done|]. intros t. rewrite (pool_elem f'), (pool_elem f) by done.
    destruct (decide (tx_ID t = tx_ID tx)) as [E|Hk].
    + rewrite E, (set_record_eq _ _ _ _ _ Hr). split; [|intros [->|[_ ?]]; [by exists d|done]].
      intros (d' & [= <-] & _ & Hd'). left. congruence.
    + rewrite (set_record_ne _ _ _ _ _ _ _ Hr) by auto. naive_solver.
Qed.

Lemma pool_delete f f' txs k :
  pool f txs → set_record f pending k None f' →
  ∃ txs', pool f' txs' ∧ ∀ t, t ∈ txs' ↔ t ∈ txs ∧ tx_ID t ≠ k.
Proof.
  intros Hp Hr. destruct (pool_intro f') as [txs' Hp'].
  - rewrite (set_record_dom _ _ _ _ _ Hr). by eapply pool_dom.
  - intros k' d'. destruct (decide (k' = k)) as [->|Hk].
    + by rewrite (set_record_eq _ _ _ _ _ Hr).
    + rewrite (set_record_ne _ _ _ _ _ _ _ Hr) by auto. by eapply pool_record.
  - exists txs'. split; [done|]. intros t. rewrite (pool_elem f'), (pool_elem f) by done.
    destruct (decide (tx_ID t = k)) as [<-|Hk].
    + rewrite (set_record_eq _ _ _ _ _ Hr). naive_solver.
    + rewrite (set_record_ne _ _ _ _ _ _ _ Hr) by auto. naive_solver.
Qed.

(** A loop over the pool whose callback decodes the record. *)
Lemma pool_scan {B} f txs (callback : bytes → bytes → st B unit)
    (step : B → Transaction → B * bool) s :
  pool f txs →
  (∀ k d tx s, is_record (k, d) tx →
     callback k d s = (if (step s tx).2 then Err NewDBCursorStopError else Ret tt, (step s tx).1)) →
  ForEach callback f s = (Ret tt, scan step s txs).
Proof.
  intros (b & E & Hf) Hc. unfold ForEach, forEachInBucket, mbind, st_bind, lift, Bucket. rewrite E.
  revert s. induction Hf as [|[k d] tx rs txs Hr _ IH]; intros s; simpl; [done|].
  rewrite (Hc k d tx s Hr). destruct (step s tx) as [s' []]; simpl; [done|apply IH].
Qed.

Lemma conflicts_with_spec tx1 tx2 :
  conflicts_with tx1 tx2 = true ↔ ∃ p, p ∈ outpoints tx1 ∧ p ∈ outpoints tx2.
Proof.
  unfold conflicts_with, bytes_eqb, outpoints. rewrite existsb_exists. setoid_rewrite existsb_exists. split.
  - intros (v1 & Hv1 & v2 & Hv2 & [E1%bool_decide_eq_true E2%Z.eqb_eq]%andb_prop).
    exists (outpoint_of v1). split; [apply list_elem_of_fmap_2; by apply list_elem_of_In|].
    replace (outpoint_of v1) with (outpoint_of v2) by (unfold outpoint_of; congruence).
    apply list_elem_of_fmap_2. by apply list_elem_of_In.
  - intros (p & (v1 & -> & Hv1)%list_elem_of_fmap & (v2 & [= E1 E2] & Hv2)%list_elem_of_fmap).
    exists v1. split; [by apply list_elem_of_In|]. exists v2. split; [by apply list_elem_of_In|].
    apply andb_true_intro. split; [by apply bool_decide_eq_true|by apply Z.eqb_eq].
Qed.

(** Another table changed. *)
Lemma pool_kept f f' txs names :
  pool f txs → only names f f' → pending ∉ names →
  ∃ txs', pool f' txs' ∧ ∀ t, t ∈ txs' ↔ t ∈ txs.
Proof.
  intros Hp [Hd Hr] Hn. destruct (pool_intro f') as [txs' Hp'].
  - rewrite Hd. by eapply pool_dom.
  - intros k d. rewrite Hr by done. by eapply pool_record.
  - exists txs'. split; [done|]. intros t. rewrite (pool_elem f'), (pool_elem f) by done.
    by rewrite Hr.
Qed.

Lemma pool_ID_nonempty f txs tx : pool f txs → tx ∈ txs → tx_ID tx ≠ [].
Proof.
  intros Hp Hin E. destruct Hp as (b & Eb & Hf).
  assert (∃ d, bget f pending (tx_ID tx) = Some d) as [d Hd].
  { apply (pool_elem f txs) in Hin as (d & Hd & _); [by exists d|by exists b]. }
  rewrite E, (bget_lookup f pending b _ Eb), b_Get_blank in Hd. done.
Qed.

Lemma opened_pool f db : opened f db → GetUnapprovedTransactionsObject db = Ret f.
Proof. apply opened_object. Qed.

Lemma pend_GetIfExists_spec f db txs id :
  opened f db → pool f txs →
  ∃ r, pend_GetIfExists id db = Ret r ∧
    match r with Some tx => tx ∈ txs ∧ tx_ID tx = id | None => id ∉ tx_ID <$> txs end.
Proof.
  intros Ho Hp. unfold pend_GetIfExists. rewrite (opened_pool f db Ho), ret_bind.
  unfold GetTransaction. rewrite view_get_spec, ret_bind by by eapply pool_dom.
  destruct (bget f pending id) as [d|] eqn:Ed; simpl.
  - destruct (pool_record f txs id d Hp Ed) as (tx & Hne & Hd & Hid). simpl in *.
    replace (Z.of_nat (length d) =? 0)%Z with false by (by destruct d).
    rewrite Hd. exists (Some tx). split_and!; [done| |done].
    apply (pool_elem f); [done|]. rewrite Hid. eauto.
  - exists None. split; [done|]. intros (t & -> & Ht)%list_elem_of_fmap.
    apply (pool_elem f) in Ht as (d & Hb & _); [congruence|done].
Qed.

(** The first transaction of the pool that shares an output. *)
Lemma DetectConflictsForNew_find f db txs tx :
  opened f db → pool f txs →
  DetectConflictsForNew tx db = Ret (snd <$> list_find (λ t, conflicts_with tx t = true) txs).
Proof.
  intros Ho Hp. unfold DetectConflictsForNew. rewrite (opened_pool f db Ho), ret_bind.
  rewrite (pool_scan f txs _ (λ c t, if conflicts_with tx t then (Some t, true) else (c, false)));
    [|done|].
  - simpl. f_equal. clear. induction txs as [|t txs IH]; simpl; [done|].
    destruct (conflicts_with tx t) eqn:E.
    + by rewrite decide_True by done.
    + rewrite decide_False by done. rewrite IH. by destruct (list_find _ txs) as [[]|].
  - intros k d t s (_ & Hd & _). unfold conflict_callback, mbind, st_bind, lift. simpl in Hd. rewrite Hd.
    unfold effect. by destruct (conflicts_with tx t).
Qed.

(** The transaction can be stored. *)
Definition tx_fits tx : Prop := ∀ d, tx_Serialize tx = Ret d → storable (tx_ID tx) d.

(** The pool after [tx] was written to it. *)
Definition with_tx tx txs txs' : Prop :=
  ∀ t, t ∈ txs' ↔ t = tx ∨ t ∈ txs ∧ tx_ID t ≠ tx_ID tx.

Lemma opened_only f f' db names : opened f db → only names f f' → opened f' (with_bc f' db).
Proof. intros Ho Hn. eapply opened_with_bc; [done|]. rewrite (proj1 Hn). apply Ho. Qed.

Lemma pend_Add_cases f db txs tx :
  opened f db → pool f txs → tx_fits tx →
  (∃ c, c ∈ txs ∧ conflicts_with tx c = true ∧ pend_Add tx db = (Err (err_conflict (tx_ID c)), db)) ∨
  ((∀ c, c ∈ txs → conflicts_with tx c = false) ∧
   ∃ f' txs', pend_Add tx db = (Ret tt, with_bc f' db) ∧ pool f' txs' ∧ only [pending] f f' ∧
              with_tx tx txs txs').
Proof.
  intros Ho Hp Hfit. unfold pend_Add, mbind, st_bind, ask.
  rewrite (DetectConflictsForNew_find f db txs tx Ho Hp).
  destruct (list_find _ txs) as [[n c]|] eqn:Ef; simpl.
  - apply list_find_Some in Ef as (Hn & Hc & _). left. exists c.
    split_and!; [by eapply list_elem_of_lookup_2|done|done].
  - right. apply list_find_None in Ef. rewrite Forall_forall in Ef.
    split; [intros c Hc; by apply not_true_iff_false, Ef|].
    rewrite (opened_pool f db Ho). destruct (tx_Serialize_total tx) as [d Ed].
    destruct (update_put_spec f pending (tx_ID tx) d) as (f' & Hput & Hr);
      [by eapply pool_dom|by apply Hfit|].
    destruct (pool_put f f' txs tx d Hp Hr Ed) as (txs' & Hp' & Hin).
    exists f', txs'. split_and!; [|done|by eapply set_record_only_in; [|left]|done].
    unfold lift. rewrite Ed. unfold wrap_err.
    by rewrite (on_bc_Ret (PutTransaction (tx_ID tx) d) f db tt f' Ho Hput).
Qed.

Lemma conflict_free_with tx txs txs' :
  conflict_free txs → (∀ c, c ∈ txs → conflicts_with tx c = false) → with_tx tx txs txs' →
  conflict_free txs'.
Proof.
  intros Hc Hn Hw. assert (∀ c p, c ∈ txs → p ∈ outpoints tx → p ∉ outpoints c) as Hd.
  { intros c p Hin Hp Hp'. apply (not_true_iff_false (conflicts_with tx c)); [by apply Hn|].
    apply conflicts_with_spec. eauto. }
  intros t1 t2 p [->|[Hin1 _]]%Hw [->|[Hin2 _]]%Hw Hp1 Hp2; [done|..].
  - by destruct (Hd t2 p).
  - by destruct (Hd t1 p).
  - by apply (Hc t1 t2 p).
Qed.

(** [Add] refuses a transaction that spends an output some pending
    transaction spends, and then changes nothing; any other transaction it
    stores, in place of one with the same identifier. The pool stays free of
    conflicts and no other table is touched. *)
Theorem Add_spec f db txs tx :
  opened f db → pool f txs → conflict_free txs → tx_fits tx →
  (∃ c p, c ∈ txs ∧ p ∈ outpoints tx ∧ p ∈ outpoints c ∧
          pend_Add tx db = (Err (err_conflict (tx_ID c)), db)) ∨
  ((∀ c p, c ∈ txs → p ∈ outpoints tx → p ∉ outpoints c) ∧
   ∃ f' txs', pend_Add tx db = (Ret tt, with_bc f' db) ∧ pool f' txs' ∧ only [pending] f f' ∧
              with_tx tx txs txs' ∧ conflict_free txs').
Proof.
  intros Ho Hp Hc Hfit. destruct (pend_Add_cases f db txs tx Ho Hp Hfit)
    as [(c & Hin & (p & Hp1 & Hp2)%conflicts_with_spec & Ha)|(Hn & f' & txs' & Ha & Hp' & Hb & Hw)].
  - left. by exists c, p.
  - right. split.
    + intros c p Hin Hp1 Hp2. apply (not_true_iff_false (conflicts_with tx c)); [by apply Hn|].
      apply conflicts_with_spec. eauto.
    + exists f', txs'. split_and!; try done. by eapply conflict_free_with.
Qed.

(** *** Blocks come and go *)

Lemma pend_Delete_spec f db txs id :
  opened f db → pool f txs →
  ∃ f' txs', pend_Delete id db = (Ret (bool_decide (id ∈ tx_ID <$> txs)), with_bc f' db) ∧
    pool f' txs' ∧ only [pending] f f' ∧ ∀ t, t ∈ txs' ↔ t ∈ txs ∧ tx_ID t ≠ id.
Proof.
  intros Ho Hp. unfold pend_Delete, mbind at 1, st_bind at 1, ask. rewrite (opened_pool f db Ho).
  unfold GetTransaction. rewrite view_get_spec by by eapply pool_dom.
  unfold mbind at 1, st_bind at 1, lift.
  destruct (bget f pending id) as [d|] eqn:Ed; simpl.
  - destruct (pool_record f txs id d Hp Ed) as (tx & Hne & Hd & Hid). simpl in *.
    assert (tx ∈ txs) as Hin by (apply (pool_elem f); [done|]; rewrite Hid; eauto).
    rewrite bool_decide_eq_true_2 by (rewrite <- Hid; by apply list_elem_of_fmap_2).
    destruct (update_delete_spec f pending id) as (f' & Hdel & Hr); [by eapply pool_dom|].
    destruct (pool_delete f f' txs id Hp Hr) as (txs' & Hp' & Hin').
    exists f', txs'. split_and!; [|done|by eapply set_record_only_in; [|left]|done].
    rewrite length_pos, bool_decide_eq_true_2 by done. unfold mbind, st_bind.
    by rewrite (on_bc_Ret (DeleteTransaction id) f db tt f' Ho Hdel).
  - assert (∀ t, t ∈ txs → tx_ID t ≠ id) as Hno.
    { intros t (d & Hb & _)%(pool_elem f) <-; [congruence|done]. }
    exists f, txs. rewrite bool_decide_eq_false_2, with_bc_same;
      [|done|by intros (t & -> & Ht)%list_elem_of_fmap; apply (Hno t)].
    split_and!; [done..|apply only_refl|]. naive_solver.
Qed.

(** The identifiers of the transactions of a block that were in the pool. *)
Definition block_ids (block : Block) : list bytes :=
  tx_ID <$> filter (λ tx, IsCoinbase tx = false) (blk_Transactions block).

Lemma DeleteFromBlock_pool f db txs block :
  opened f db → pool f txs →
  ∃ f' txs', DeleteFromBlock block db = (Ret tt, with_bc f' db) ∧ pool f' txs' ∧
    only [pending] f f' ∧ ∀ t, t ∈ txs' ↔ t ∈ txs ∧ tx_ID t ∉ block_ids block.
Proof.
  unfold DeleteFromBlock, block_ids. induction (blk_Transactions block) as [|tx l IH] in f, db, txs |- *;
    intros Ho Hp; simpl.
  { exists f, txs. split_and!; [by rewrite with_bc_same|done|apply only_refl|]. set_solver. }
  destruct (IsCoinbase tx) eqn:Ec.
  - destruct (IH f db txs Ho Hp) as (f' & txs' & Hr & ?). exists f', txs'.
    rewrite filter_cons_False by congruence. by split.
  - destruct (pend_Delete_spec f db txs (tx_ID tx) Ho Hp) as (f1 & txs1 & H1' & Hp1 & Ho1 & Hin1).
    destruct (IH f1 (with_bc f1 db) txs1 (opened_only _ _ _ _ Ho Ho1) Hp1) as (f2 & txs2 & H2' & Hp2 & Ho2 & Hin2).
    exists f2, txs2. split_and!; [|done|by eapply only_trans|].
    + unfold mbind, st_bind. by rewrite (drop_err_Ret _ _ _ _ H1').
    + intros t. rewrite Hin2, Hin1, filter_cons_True by done. csimpl. rewrite not_elem_of_cons. tauto.
Qed.

(** [DeleteFromBlock] takes from the pool exactly the transactions with the
    identifier of a transaction of the block that is not a coinbase. *)
Theorem DeleteFromBlock_spec f db txs block :
  opened f db → pool f txs → conflict_free txs →
  ∃ f' txs', DeleteFromBlock block db = (Ret tt, with_bc f' db) ∧ pool f' txs' ∧ conflict_free txs' ∧
    only [pending] f f' ∧ ∀ t, t ∈ txs' ↔ t ∈ txs ∧ tx_ID t ∉ block_ids block.
Proof.
  intros Ho Hp Hc. destruct (DeleteFromBlock_pool f db txs block Ho Hp) as (f' & txs' & Hr & Hp' & Hb & Hin).
  exists f', txs'. split_and!; try done.
  intros t1 t2 p [H1' _]%Hin [H2' _]%Hin. by apply Hc.
Qed.

(** Another transaction of which [P] holds spends an output that [t] spends. *)
Definition rival (P : Transaction → Prop) (t : Transaction) : Prop :=
  ∃ c p, P c ∧ c ≠ t ∧ p ∈ outpoints t ∧ p ∈ outpoints c.

Lemma rival_mono (P Q : Transaction → Prop) t : (∀ c, P c → Q c) → rival P t → rival Q t.
Proof. intros HPQ (c & p & Hc & Hr). exists c, p. split; [by apply HPQ|done]. Qed.

Lemma AddFromCanceled_pool f db txs l :
  opened f db → pool f txs → conflict_free txs → Forall tx_fits l → NoDup (tx_ID <$> l) →
  ∃ f' txs', AddFromCanceled l db = (Ret tt, with_bc f' db) ∧ pool f' txs' ∧ conflict_free txs' ∧
    only [pending] f f' ∧
    (∀ t, t ∈ txs' → t ∈ txs ∨ t ∈ l ∧ IsCoinbase t = false) ∧
    (∀ t, t ∈ txs → t ∈ txs' ∨ tx_ID t ∈ tx_ID <$> l) ∧
    (∀ t, t ∈ l → IsCoinbase t = false → t ∈ txs' ∨ rival (λ c, c ∈ txs ∨ c ∈ l) t).
Proof.
  unfold AddFromCanceled. induction l as [|tx l IH] in f, db, txs |- *; intros Ho Hp Hc Hfit Hnd; simpl.
  { exists f, txs. split_and!; [by rewrite with_bc_same|done|done|apply only_refl|..]; set_solver. }
  apply Forall_cons in Hfit as [Hfx Hfit]. csimpl in Hnd. apply NoDup_cons in Hnd as [Hni Hnd].
  destruct (IsCoinbase tx) eqn:Ec;
    [|destruct (pend_Add_cases f db txs tx Ho Hp Hfx)
        as [(c & Hin & (p & Hp1 & Hp2)%conflicts_with_spec & Ha)|(Hn & f1 & txs1 & Ha & Hp1 & Ho1 & Hw)]].
  - destruct (IH f db txs Ho Hp Hc Hfit Hnd) as (f' & txs' & Hr & ? & ? & ? & Hsub & Hkeep & Hall).
    exists f', txs'. split_and!; [done..| | |].
    + intros t Ht. destruct (Hsub t Ht) as [?|[? ?]]; [by left|right; split; [by right|done]].
    + intros t Ht. destruct (Hkeep t Ht); [by left|by right; right].
    + intros t [->|Ht]%elem_of_cons Hct; [congruence|].
      destruct (Hall t Ht Hct) as [?|Hr']; [by left|right].
      eapply rival_mono; [|exact Hr']. intros c [?|?]; [by left|by right; right].
  - destruct (IH f db txs Ho Hp Hc Hfit Hnd) as (f' & txs' & Hr & ? & ? & ? & Hsub & Hkeep & Hall).
    exists f', txs'. split_and!; [|done..| | |].
    + unfold mbind, st_bind, drop_err at 1. by rewrite Ha.
    + intros t Ht. destruct (Hsub t Ht) as [?|[? ?]]; [by left|right; split; [by right|done]].
    + intros t Ht. destruct (Hkeep t Ht); [by left|by right; right].
    + intros t [->|Ht]%elem_of_cons Hct.
      * destruct (decide (c = tx)) as [->|Hne]; [left; by destruct (Hkeep tx Hin)|].
        right. exists c, p. split; [by left|done].
      * destruct (Hall t Ht Hct) as [?|Hr']; [by left|right].
        eapply rival_mono; [|exact Hr']. intros c' [?|?]; [by left|by right; right].
  - destruct (IH f1 (with_bc f1 db) txs1) as (f' & txs' & Hr & ? & ? & ? & Hsub & Hkeep & Hall);
      [by eapply opened_only|done|by eapply conflict_free_with|done..|].
    exists f', txs'. split_and!; [|done..|by eapply only_trans| | |].
    + unfold mbind, st_bind. by rewrite (drop_err_Ret _ _ _ _ Ha).
    + intros t Ht. destruct (Hsub t Ht) as [[->|[? _]]%Hw|[? ?]];
        [right; by split; [left|]|by left|right; split; [by right|done]].
    + intros t Ht. destruct (decide (tx_ID t = tx_ID tx)) as [E|E]; [right; csimpl; rewrite E; left|].
      destruct (Hkeep t) as [?|?]; [apply Hw; auto|by left|right; by right].
    + intros t [->|Ht]%elem_of_cons Hct.
      * left. destruct (Hkeep tx) as [?|?]; [apply Hw; by left|done|done].
      * destruct (Hall t Ht Hct) as [?|Hr']; [by left|right].
        eapply rival_mono; [|exact Hr']. intros c' [[->|[? _]]%Hw|?]; [right; left|by left|by right; right].
Qed.

(** [AddFromCanceled] keeps the pool free of conflicts. Afterwards a
    transaction of the canceled block that is not a coinbase is in the pool,
    unless it spends an output that another transaction of the pool or of the
    block spends; a transaction that was in the pool is lost only to one with
    its identifier, and nothing else got in. *)
Theorem AddFromCanceled_spec f db txs block :
  opened f db → pool f txs → conflict_free txs → Forall tx_fits (blk_Transactions block) →
  NoDup (tx_ID <$> blk_Transactions block) →
  ∃ f' txs', AddFromCanceled (blk_Transactions block) db = (Ret tt, with_bc f' db) ∧
    pool f' txs' ∧ conflict_free txs' ∧ only [pending] f f' ∧
    (∀ t, t ∈ txs' → t ∈ txs ∨ t ∈ blk_Transactions block ∧ IsCoinbase t = false) ∧
    (∀ t, t ∈ txs → t ∈ txs' ∨ tx_ID t ∈ tx_ID <$> blk_Transactions block) ∧
    (∀ t, t ∈ blk_Transactions block → IsCoinbase t = false → t ∈ txs' ∨
       rival (λ c, c ∈ txs ∨ c ∈ blk_Transactions block) t).
Proof. intros. by apply AddFromCanceled_pool. Qed.

(** *** What is read from the pool *)

Lemma tx_Less_orders txs : orders tx_Less txs.
Proof.
  split; unfold tx_Less; intros *; [intros _ _ ?%Z.ltb_lt|intros _ _ _ ?%Z.ltb_ge ?%Z.ltb_ge];
    apply Z.ltb_ge; lia.
Qed.

Lemma scan_take number acc n txs :
  (0 ≤ n)%Z → (n < number ∨ n = 0)%Z →
  (scan (λ '(set, k) tx, ((set ++ [tx], (k + 1)%Z), (number <=? k + 1)%Z)) (acc, n) txs).1
  = acc ++ take (Z.to_nat (Z.max 1 (number - n))) txs.
Proof.
  revert acc n. induction txs as [|tx txs IH]; intros acc n Hn Hlt; simpl.
  { by rewrite take_nil, app_nil_r. }
  destruct (number <=? n + 1)%Z eqn:E.
  - replace (Z.to_nat _) with 1 by lia. by destruct txs.
  - rewrite IH by lia. rewrite <- app_assoc. simpl.
    replace (Z.to_nat (Z.max 1 (number - n))) with (S (Z.to_nat (Z.max 1 (number - (n + 1))))) by lia.
    done.
Qed.

Lemma GetTransactions_sorted f db txs number :
  opened f db → pool f txs →
  ∃ r, GetTransactions number db = Ret r ∧
       r ≡ₚ take (Z.to_nat (Z.max 1 number)) txs ∧
       StronglySorted (λ a b, (tx_Time a ≤ tx_Time b)%Z) r.
Proof.
  intros Ho Hp. unfold GetTransactions. rewrite (opened_pool f db Ho), ret_bind.
  rewrite (pool_scan f txs _ (λ '(set, k) tx, ((set ++ [tx], (k + 1)%Z), (number <=? k + 1)%Z)));
    [|done|].
  2:{ intros k d tx [set n] (_ & Hd & _). simpl in Hd.
      unfold take_callback, mbind, st_bind, lift. rewrite Hd. unfold effect. by destruct (_ <=? _)%Z. }
  pose proof (scan_take number [] 0 txs ltac:(lia) ltac:(lia)) as Hs.
  destruct (scan _ _ _) as [set n]. simpl in Hs |- *. subst set. rewrite Z.sub_0_r.
  eexists. split_and!; [done|apply go_Sort_Permutation|].
  eapply StronglySorted_mono; [|apply go_Sort_sorted, tx_Less_orders].
  intros a b. unfold tx_Less. lia.
Qed.

(** [GetTransactions] reads the first [number] transactions of the pool in
    the order of their identifiers, but one for a [number] below one, and
    returns them by time. *)
Theorem GetTransactions_spec f db txs number :
  opened f db → pool f txs →
  ∃ r, GetTransactions number db = Ret r ∧
       r ≡ₚ take (Z.to_nat (Z.max 1 number)) txs ∧
       StronglySorted (λ a b, (tx_Time a ≤ tx_Time b)%Z) r.
Proof.
  intros Ho Hp. destruct (GetTransactions_sorted f db txs number Ho Hp) as (r & Hr & Hperm & Hs).
  exists r. by split.
Qed.

(** [o] stands for the output [i] of [tx], which the key unlocks; the text of
    the transaction is in place of the hash of its block. *)
Definition output_for (PubKeyHash : bytes) tx (i : Z) (o : TXOutputIndependent) : Prop :=
  ∃ out, index (tx_Vout tx) i = Ret out ∧ IsLockedWithKey out PubKeyHash = true ∧
    uo_TXID o = tx_ID tx ∧ uo_OIndex o = i ∧ uo_Value o = out_Value out ∧
    DeserializeTransaction (uo_BlockHash o) = Ret tx.

Lemma prepared_outputs_spec h sender d tx o :
  DeserializeTransaction d = Ret tx →
  o ∈ prepared_outputs h sender d tx → ∃ i, output_for h tx i o.
Proof.
  intros Hd ([i out] & -> & [Hl Hin]%list_elem_of_filter)%list_elem_of_fmap. simpl in *.
  apply list_elem_of_lookup in Hin as [n Hn]. rewrite lookup_indexed in Hn.
  apply fmap_Some in Hn as (out' & Hn & [= -> ->]). exists (Z.of_nat n), out'.
  split_and!; try done. by rewrite index_nat, Hn.
Qed.

Lemma prepared_outputs_all h sender d tx i out :
  DeserializeTransaction d = Ret tx → index (tx_Vout tx) i = Ret out → IsLockedWithKey out h = true →
  ∃ o, o ∈ prepared_outputs h sender d tx ∧ output_for h tx i o.
Proof.
  intros Hd Hi Hl. exists (LoadFromSimple out (tx_ID tx) i sender (IsCoinbase tx) d). split.
  - apply list_elem_of_fmap. exists (i, out). split; [done|]. apply list_elem_of_filter.
    split; [done|]. apply index_Ret in Hi as [Hi Hn]. apply list_elem_of_lookup.
    exists (Z.to_nat i). rewrite lookup_indexed, Hn. simpl. do 2 f_equal. lia.
  - by exists out.
Qed.

Lemma pool_IDs f txs : pool f txs → NoDup (tx_ID <$> txs).
Proof.
  intros (b & _ & Hf). replace (tx_ID <$> txs) with ((b_Cursor b).*1); [apply b_Cursor_NoDup|].
  induction Hf as [|r tx rs txs (_ & _ & E) _ IH]; [done|]. by rewrite !fmap_cons, IH, E.
Qed.

(** The output of the ledger that a record stands for. *)
Definition uo_outpoint (o : TXOutputIndependent) : bytes * Z := (uo_TXID o, uo_OIndex o).

Lemma prepared_outputs_NoDup h sender d tx :
  NoDup (uo_outpoint <$> prepared_outputs h sender d tx) ∧
  ∀ p, p ∈ uo_outpoint <$> prepared_outputs h sender d tx → p.1 = tx_ID tx.
Proof.
  unfold prepared_outputs. rewrite <- list_fmap_compose. split.
  - apply NoDup_fmap_filter. apply (NoDup_fmap_1 snd). rewrite <- list_fmap_compose. apply NoDup_indexed.
  - by intros p ([i out] & -> & _)%list_elem_of_fmap.
Qed.

Lemma prepared_loop h rs txs ins outs :
  Forall2 is_record rs txs → Forall (λ tx, tx_Vin tx ≠ []) txs → NoDup (tx_ID <$> txs) →
  ∃ outs', forEach_loop rs (prepared_callback h) (ins, outs)
           = (Ret tt, (ins ++ mjoin (prepared_inputs h <$> txs), outs ++ outs')) ∧
    (∀ o, o ∈ outs' → ∃ tx i, tx ∈ txs ∧ output_for h tx i o) ∧
    (∀ tx i out, tx ∈ txs → index (tx_Vout tx) i = Ret out → IsLockedWithKey out h = true →
       ∃ o, o ∈ outs' ∧ output_for h tx i o) ∧
    NoDup (uo_outpoint <$> outs').
Proof.
  intros Hf Hv Hnd. revert ins outs. induction Hf as [|[k d] tx rs txs (_ & Hd & _) _ IH]; intros ins outs.
  { exists []. simpl. rewrite !app_nil_r. split_and!; [done|by intros o ?%elem_of_nil| |constructor].
    by intros tx i out ?%elem_of_nil. }
  apply Forall_cons in Hv as [Hv1 Hv]. apply NoDup_cons in Hnd as [Hid Hnd]. simpl in Hd.
  assert (∃ sender, (if IsCoinbase tx then Ret []
            else vin0 ← index (tx_Vin tx) 0; Ret (in_PubKey vin0)) = Ret sender) as [sender Es].
  { destruct (IsCoinbase tx); [by eexists|]. destruct (tx_Vin tx); [done|]. by eexists. }
  destruct (IH Hv Hnd (ins ++ prepared_inputs h tx) (outs ++ prepared_outputs h sender d tx))
    as (outs' & Hl & H1' & H2' & H3').
  exists (prepared_outputs h sender d tx ++ outs'). split_and!.
  - assert (prepared_callback h k d (ins, outs)
      = (Ret tt, (ins ++ prepared_inputs h tx, outs ++ prepared_outputs h sender d tx))) as Hc.
    { apply st_bind_Ret. exists tx, (ins, outs). split; [unfold lift; by rewrite Hd|].
      apply st_bind_Ret. exists sender, (ins, outs). split; [unfold lift; by rewrite Es|done]. }
    simpl. rewrite Hc, Hl. by rewrite <- !app_assoc.
  - intros o [Ho|Ho]%elem_of_app.
    + destruct (prepared_outputs_spec h sender d tx o Hd Ho) as [i Hi]. exists tx, i. split; [left|done].
    + destruct (H1' o Ho) as (t & i & ? & ?). exists t, i. split; [by right|done].
  - intros t i out [->|Ht]%elem_of_cons Hi Hlk.
    + destruct (prepared_outputs_all h sender d tx i out Hd Hi Hlk) as (o & ? & ?).
      exists o. rewrite elem_of_app. auto.
    + destruct (H2' t i out Ht Hi Hlk) as (o & ? & ?). exists o. rewrite elem_of_app. auto.
  - destruct (prepared_outputs_NoDup h sender d tx) as [Hnd1 Hid1]. rewrite fmap_app. apply NoDup_app.
    split; [done|]. split; [|done]. intros p Hp%Hid1 (o & -> & Ho)%list_elem_of_fmap.
    destruct (H1' o Ho) as (t & i & Ht & (_ & _ & _ & E & _)). simpl in Hp. apply Hid, list_elem_of_fmap.
    exists t. split; [congruence|done].
Qed.

Lemma is_output_of_spec vin o :
  is_output_of vin o = true ↔ outpoint_of vin = (uo_TXID o, uo_OIndex o).
Proof.
  unfold is_output_of, bytes_eqb, outpoint_of. rewrite andb_true_iff, bool_decide_eq_true, Z.eqb_eq.
  split; [by intros [-> ->]|by intros [= -> ->]].
Qed.

Lemma existsb_false {A} (g : A → bool) l : existsb g l = false ↔ ∀ x, x ∈ l → g x ≠ true.
Proof.
  rewrite <- not_true_iff_false, existsb_exists. setoid_rewrite <- list_elem_of_In. naive_solver.
Qed.

(** [GetPreparedBy] returns the inputs of pending transactions that a key
    signs, the outputs of pending transactions locked with the key that none of
    these inputs spends, and the inputs that spend none of the outputs of the
    pool that the key unlocks. *)
Theorem GetPreparedBy_spec f db txs h :
  opened f db → pool f txs → Forall (λ tx, tx_Vin tx ≠ []) txs →
  ∃ reals approved,
    GetPreparedBy h db = Ret (mjoin (prepared_inputs h <$> txs), reals, approved) ∧
    (∀ o, o ∈ reals → ∃ tx i, tx ∈ txs ∧ output_for h tx i o) ∧
    NoDup (uo_outpoint <$> reals) ∧
    (∀ tx i out, tx ∈ txs → index (tx_Vout tx) i = Ret out → IsLockedWithKey out h = true →
       (tx_ID tx, i) ∉ outpoint_of <$> mjoin (prepared_inputs h <$> txs) ↔
       ∃ o, o ∈ reals ∧ output_for h tx i o) ∧
    (∀ vin, vin ∈ approved ↔ vin ∈ mjoin (prepared_inputs h <$> txs) ∧
       ∀ tx out, tx ∈ txs → tx_ID tx = in_Txid vin → index (tx_Vout tx) (in_Vout vin) = Ret out →
         IsLockedWithKey out h = false).
Proof.
  intros Ho Hp Hv. pose proof (pool_IDs f txs Hp) as Hids. destruct Hp as (b & E & Hf).
  destruct (prepared_loop h (b_Cursor b) txs [] [] Hf Hv Hids) as (outs & Hl & H1' & H2' & H3').
  set (ins := mjoin (prepared_inputs h <$> txs)) in *. simpl in Hl.
  exists (filter (λ vout, existsb (λ vin, is_output_of vin vout) ins = false) outs),
    (filter (λ vin, existsb (is_output_of vin) outs = false) ins). split_and!.
  - unfold GetPreparedBy. rewrite (opened_pool f db Ho), ret_bind.
    unfold ForEach, forEachInBucket, mbind at 1, st_bind, lift, Bucket. rewrite E. by rewrite Hl.
  - intros o [_ Hin]%list_elem_of_filter. by apply H1'.
  - by apply NoDup_fmap_filter.
  - intros tx i out Ht Hi Hlk. setoid_rewrite list_elem_of_filter. setoid_rewrite existsb_false.
    setoid_rewrite is_output_of_spec. rewrite list_elem_of_fmap. split.
    + intros Hno. destruct (H2' tx i out Ht Hi Hlk) as (o & Hin & Hof). exists o. split; [|done].
      split; [|done]. intros vin Hvin Eo. apply Hno. exists vin. split; [|done].
      destruct Hof as (? & _ & _ & <- & <- & _). done.
    + intros (o & [Hno _] & (? & _ & _ & <- & <- & _)) (vin & Eo & Hvin). by apply (Hno vin).
  - intros vin. rewrite list_elem_of_filter, existsb_false. setoid_rewrite is_output_of_spec.
    rewrite (and_comm _ (vin ∈ ins)). apply and_iff_compat_l. split.
    + intros Hno tx out Ht Hid Hi. apply not_true_iff_false. intros Hlk.
      destruct (H2' tx _ out Ht Hi Hlk) as (o & Hin & (? & _ & _ & E1 & E2 & _)). apply (Hno o Hin).
      unfold outpoint_of. congruence.
    + intros Hno o Hin [= E1 E2]. destruct (H1' o Hin) as (tx & i & Ht & (out & Hi & Hlk & Eid & Ei & _)).
      specialize (Hno tx out Ht). rewrite <- Ei, <- E2 in Hi. rewrite Hno in Hlk; [done|congruence|done].
Qed.
End Pool.

(** ** Witnesses

    A pool with one transaction. *)

Module PendingDemo.
Import ToyCrypto MapBolt InsertionSort Codecs IndexDemo.

(** Spends an output of [tx_base]; [tx_other] spends another output. *)
Definition tx_pend : Transaction :=
  mkTransaction [x31] [mkTXInput [x11] 0 [x03] [x02]] [mkTXOutput (f64_of_Z 4) [x22]] 5.
Definition tx_other : Transaction :=
  mkTransaction [x32] [mkTXInput [x12] 1 [x03] [x02]] [mkTXOutput (f64_of_Z 6) [x21]] 6.

Definition pend_records : list (bytes * bytes) :=
  [([x31], match tx_Serialize tx_pend with Ret d => d | _ => [] end)].
Definition pend_map : @bucket map_bolt := (list_to_map pend_records : gmap bytes bytes).
Definition pend_file : boltfile :=
  {[ blocksBucket := b_empty; unapprovedTransactionsBucket := pend_map ]}.
Definition pend_db : DB := mkDB true (Some pend_file) None.

Lemma pend_opened : opened pend_file pend_db.
Proof. split_and!; [done|done|]. apply elem_of_dom. by eexists. Qed.

Lemma pend_pool : pool pend_file [tx_pend].
Proof.
  exists pend_map. split; [done|].
  assert (b_Cursor pend_map = pend_records) as -> by (vm_compute; reflexivity).
  constructor; [|constructor]. split_and!; vm_compute; done.
Qed.

Lemma pend_free : conflict_free [tx_pend].
Proof. by intros t1 t2 p ->%list_elem_of_singleton ->%list_elem_of_singleton. Qed.

Lemma small_fits tx :
  (∀ d, tx_Serialize tx = Ret d → (Z.of_nat (length d) ≤ 2 ^ 31 - 2)%Z) →
  tx_ID tx ≠ [] → (Z.of_nat (length (tx_ID tx)) ≤ 32768)%Z → tx_fits tx.
Proof. intros Hd Hk Hl d E. split_and!; auto. Qed.

Lemma other_fits : tx_fits tx_other.
Proof.
  apply small_fits; [|done|vm_compute; discriminate].
  intros d E. vm_compute in E. injection E as <-. vm_compute. discriminate.
Qed.

Lemma CheckInputs_order_witness :
  let v0 := mkTXInput [x31] 0 [] [] in
  let v1 := mkTXInput [x31] 1 [] [] in
  let r : prevmap := {[ 0%Z := Some tx_pend; 1%Z := Some tx_pend ]} in
  CheckInputsWereBefore [(0%Z, v0); (1%Z, v1)] [tx_pend] ∅ = Ret r ↔
  CheckInputsWereBefore [(1%Z, v1); (0%Z, v0)] [tx_pend] ∅ = Ret r.
Proof.
  intros v0 v1 r.
  apply (CheckInputs_order [(0%Z, v0); (1%Z, v1)] [(1%Z, v1); (0%Z, v0)] ∅ [tx_pend] pend_db r).
  - apply perm_swap.
  - by apply (bool_decide_unpack _).
Defined.

Lemma Add_spec_witness :
  (∃ c p, c ∈ [tx_pend] ∧ p ∈ outpoints tx_other ∧ p ∈ outpoints c ∧
          pend_Add tx_other pend_db = (Err (err_conflict (tx_ID c)), pend_db)) ∨
  ((∀ c p, c ∈ [tx_pend] → p ∈ outpoints tx_other → p ∉ outpoints c) ∧
   ∃ f' txs', pend_Add tx_other pend_db = (Ret tt, with_bc f' pend_db) ∧ pool f' txs' ∧
              only [unapprovedTransactionsBucket] pend_file f' ∧
              with_tx tx_other [tx_pend] txs' ∧ conflict_free txs').
Proof.
  apply (Add_spec pend_file pend_db [tx_pend] tx_other).
  - apply pend_opened.
  - apply pend_pool.
  - apply pend_free.
  - apply other_fits.
Defined.

Definition pend_block : Block := mkBlock 0 [tx_base; tx_pend] [] [x02; x01] 0 0.
Definition other_block : Block := mkBlock 0 [tx_other] [] [x02; x02] 0 0.

Lemma DeleteFromBlock_spec_witness :
  ∃ f' txs', DeleteFromBlock pend_block pend_db = (Ret tt, with_bc f' pend_db) ∧ pool f' txs' ∧
    conflict_free txs' ∧ only [unapprovedTransactionsBucket] pend_file f' ∧
    ∀ t, t ∈ txs' ↔ t ∈ [tx_pend] ∧ tx_ID t ∉ block_ids pend_block.
Proof.
  apply (DeleteFromBlock_spec pend_file pend_db [tx_pend] pend_block).
  - apply pend_opened.
  - apply pend_pool.
  - apply pend_free.
Defined.

Lemma AddFromCanceled_spec_witness :
  ∃ f' txs', AddFromCanceled [tx_other] pend_db = (Ret tt, with_bc f' pend_db) ∧
    pool f' txs' ∧ conflict_free txs' ∧ only [unapprovedTransactionsBucket] pend_file f' ∧
    (∀ t, t ∈ txs' → t ∈ [tx_pend] ∨ t ∈ [tx_other] ∧ IsCoinbase t = false) ∧
    (∀ t, t ∈ [tx_pend] → t ∈ txs' ∨ tx_ID t ∈ tx_ID <$> [tx_other]) ∧
    (∀ t, t ∈ [tx_other] → IsCoinbase t = false → t ∈ txs' ∨
       rival (λ c, c ∈ [tx_pend] ∨ c ∈ [tx_other]) t).
Proof.
  apply (AddFromCanceled_spec pend_file pend_db [tx_pend] other_block).
  - apply pend_opened.
  - apply pend_pool.
  - apply pend_free.
  - constructor; [apply other_fits|constructor].
  - by apply (bool_decide_unpack _).
Defined.

Lemma GetTransactions_spec_witness :
  ∃ r, GetTransactions 3 pend_db = Ret r ∧ r ≡ₚ [tx_pend] ∧
       StronglySorted (λ a b, (tx_Time a ≤ tx_Time b)%Z) r.
Proof.
  apply (GetTransactions_spec pend_file pend_db [tx_pend] 3).
  - apply pend_opened.
  - apply pend_pool.
Defined.

Lemma GetPreparedBy_spec_witness :
  ∃ reals approved,
    GetPreparedBy [x22] pend_db
    = Ret (mjoin (prepared_inputs [x22] <$> [tx_pend]), reals, approved) ∧
    (∀ o, o ∈ reals → ∃ tx i, tx ∈ [tx_pend] ∧ output_for [x22] tx i o) ∧
    NoDup (uo_outpoint <$> reals) ∧
    (∀ tx i out, tx ∈ [tx_pend] → index (tx_Vout tx) i = Ret out → IsLockedWithKey out [x22] = true →
       (tx_ID tx, i) ∉ outpoint_of <$> mjoin (prepared_inputs [x22] <$> [tx_pend]) ↔
       ∃ o, o ∈ reals ∧ output_for [x22] tx i o) ∧
    (∀ vin, vin ∈ approved ↔ vin ∈ mjoin (prepared_inputs [x22] <$> [tx_pend]) ∧
       ∀ tx out, tx ∈ [tx_pend] → tx_ID tx = in_Txid vin →
         index (tx_Vout tx) (in_Vout vin) = Ret out → IsLockedWithKey out [x22] = false).
Proof.
  apply (GetPreparedBy_spec pend_file pend_db [tx_pend] [x22]).
  - apply pend_opened.
  - apply pend_pool.
  - by repeat constructor.
Defined.
End PendingDemo.
