(* ===== verification/Unspent.v ===== *)
(** * The set of unspent outputs: [node/transactions/unspent.go]

    A table keeps, under the identifier of each transaction of the main chain,
    its outputs that no transaction of the chain spends. *)

From Stdlib Require Import Strings.Byte ZifyNat.
From stdpp Require Import base strings numbers gmap sorting list.
From S2P Require Import Prelude Float64 Platform Concrete Utils Structures Codecs Signing.
From S2P Require Import Database ChainIndex Tables Blockchain Branches BlockchainUpdate TxIndex Pending.

Import UnspentOutputsDB.

Abbreviation utxo_map := (gmap string (list TXOutputIndependent)).
Abbreviation txmap := (gmap string Transaction).

Section Unspent.
Context `{Crypto} `{Bolt} `{GoSort} `{GoRange} `{!Gob Transaction} `{!Gob Block}.
Context `{!Gob (list TXOutputIndependent)}.
Context `{!Gob (list bytes)} `{!Gob (list TransactionsIndexSpentOutputs)}.

Definition un_serializeOutputs (outs : list TXOutputIndependent) : outcome bytes := gob_Encode outs.
Definition un_deserializeOutputs (data : bytes) : outcome (list TXOutputIndependent) :=
  gob_Decode data.

(** *** Outputs of an address *)

Definition err_no_address : goerror := EMsg "Address is missed".
Definition err_bad_address : goerror := EMsg "Address is not valid".

(** The callback of [GetunspentTransactionsOutputs], over [UTXOs]. *)
Definition locked_callback (pubKeyHash txID txData : bytes) : st (list TXOutputIndependent) unit :=
  outs ← lift (un_deserializeOutputs txData);
  effect (λ UTXOs, (Ret tt, UTXOs ++ filter (λ out, uo_IsLockedWithKey out pubKeyHash = true) outs)).

Definition GetunspentTransactionsOutputs (address : bytes) (db : DB)
    : outcome (list TXOutputIndependent) :=
  if bool_decide (address = []) then Err err_no_address
  else
    valid ← ValidateAddress address;
    if negb valid then Err err_bad_address
    else
      pubKeyHash ← AddresToPubKeyHash address;
      uodb ← GetUnspentOutputsObject db;
      let '(r, UTXOs) := ForEach (locked_callback pubKeyHash) uodb [] in
      _ ← r;
      Ret UTXOs.

Definition un_GetAddressBalance (address : bytes) (db : DB) : outcome float64 :=
  if bool_decide (address = []) then Err err_no_address
  else
    valid ← ValidateAddress address;
    if negb valid then Err err_bad_address
    else
      UnspentTXs ← GetunspentTransactionsOutputs address db;
      Ret (fold_left (λ balance out, f64_add balance (uo_Value out)) UnspentTXs f64_zero).

(** The callback of [forEachUnspentOutput]; the errors of the caller's callback
    leave the loop. *)
Definition each_output_callback {C}
    (callback : bytes → float64 → bytes → Z → bool → st C unit) (pubKeyHash txID txData : bytes)
    : st C unit :=
  outs ← lift (un_deserializeOutputs txData);
  sfor outs (λ _ out,
    if uo_IsLockedWithKey out pubKeyHash then
      let fromaddr := if (0 <? Z.of_nat (length (uo_SendPubKeyHash out)))%Z
                      then PubKeyHashToAddres (uo_SendPubKeyHash out) else str "Coin base" in
      callback fromaddr (uo_Value out) (uo_TXID out) (uo_OIndex out) (uo_IsBase out)
    else mret tt) tt.

Definition forEachUnspentOutput {C} (address : bytes)
    (callback : bytes → float64 → bytes → Z → bool → st C unit) (db : DB) : st C unit :=
  pubKeyHash ← lift (AddresToPubKeyHash address);
  uodb ← lift (GetUnspentOutputsObject db);
  ForEach (each_output_callback callback pubKeyHash) uodb.

(** *** Lookups and counts *)

Definition un_GetInputValue (input : TXInput) (db : DB) : outcome float64 :=
  uodb ← GetUnspentOutputsObject db;
  outsBytes ← GetDataForTransaction (in_Txid input) uodb;
  match outsBytes with
  | None => Err (NewTXNotFoundUOTError "Input TX is not found in unspent outputs")
  | Some outsBytes =>
      outs ← un_deserializeOutputs outsBytes;
      match list_find (λ o, uo_OIndex o = in_Vout input) outs with
      | Some (_, o) => Ret (uo_Value o)
      | None => Err (EMsg "Output index is not found in unspent outputs")
      end
  end.

Definition CountTransactions (db : DB) : outcome Z :=
  uodb ← GetUnspentOutputsObject db;
  GetCount uodb.

Definition count_callback (txID txData : bytes) : st Z unit :=
  outs ← lift (un_deserializeOutputs txData);
  effect (λ counter, (Ret tt, (counter + Z.of_nat (length outs))%Z)).

Definition CountUnspentOutputs (db : DB) : outcome Z :=
  uodb ← GetUnspentOutputsObject db;
  let '(r, counter) := ForEach count_callback uodb 0%Z in
  _ ← r;
  Ret counter.

(** *** Choosing outputs to spend *)

(** The outputs of a record that can be spent. *)
Definition spendable (pubKeyHash : bytes) (pendinguse : list TXInput)
    (outs : list TXOutputIndependent) : list TXOutputIndependent :=
  filter (λ out, uo_IsLockedWithKey out pubKeyHash = true ∧
                 existsb (λ pin, is_output_of pin out) pendinguse = false) outs.

(** The callback of [ChooseSpendableOutputs], over [accumulated] and
    [unspentOutputs]. *)
Definition choose_callback (pubKeyHash : bytes) (pendinguse : list TXInput) (txID txData : bytes)
    : st (float64 * list TXOutputIndependent) unit :=
  outs ← lift (un_deserializeOutputs txData);
  effect (λ '(accumulated, unspentOutputs),
    (Ret tt, fold_left (λ '(accumulated, unspentOutputs) out,
               (f64_add accumulated (uo_Value out), unspentOutputs ++ [out]))
               (spendable pubKeyHash pendinguse outs) (accumulated, unspentOutputs))).

(** The last loop: outputs are taken until the amount is reached. *)
Fixpoint take_reaching (amount accumulated : float64) (outs : list TXOutputIndependent)
    : float64 * list TXOutputIndependent :=
  match outs with
  | [] => (accumulated, [])
  | out :: outs' =>
      let accumulated := f64_add accumulated (uo_Value out) in
      if f64_geb accumulated amount then (accumulated, [out])
      else let '(accumulated, uo) := take_reaching amount accumulated outs' in
           (accumulated, out :: uo)
  end.

Definition ChooseSpendableOutputs (pubKeyHash : bytes) (amount : float64)
    (pendinguse : list TXInput) (db : DB) : outcome (float64 * list TXOutputIndependent) :=
  uodb ← GetUnspentOutputsObject db;
  let '(r, (accumulated, unspentOutputs)) :=
    ForEach (choose_callback pubKeyHash pendinguse) uodb (f64_zero, []) in
  _ ← r;
  if f64_geb accumulated amount
  then Ret (take_reaching amount f64_zero (go_Sort uo_Less unspentOutputs))
  else Ret (accumulated, unspentOutputs).

Definition GetNewTransactionInputs (PubKey to : bytes) (amount : float64)
    (pendinguse : list TXInput) (db : DB) : outcome (list TXInput * txmap * float64) :=
  let pubKeyHash := HashPubKey PubKey in
  '(totalamount, validOutputs) ← ChooseSpendableOutputs pubKeyHash amount pendinguse db;
  '(inputs, prevTXs) ← mfor validOutputs (λ '(inputs, prevTXs) out,
    let inputs := inputs ++ [mkTXInput (uo_TXID out) (uo_OIndex out) [] PubKey] in
    prevTX ← GetTransactionFromBlock (uo_TXID out) (uo_BlockHash out) db;
    Ret (inputs, <[hex_EncodeToString (tx_ID prevTX) := prevTX]> prevTXs)) ([], ∅);
  Ret (inputs, prevTXs, totalamount).

Fixpoint ExtendNewTransactionInputs (PubKey : bytes) (amount totalamount : float64)
    (inputs : list TXInput) (prevTXs : txmap) (pendingoutputs : list TXOutputIndependent)
    : outcome (list TXInput * txmap * float64) :=
  match pendingoutputs with
  | [] => Ret (inputs, prevTXs, totalamount)
  | out :: pendingoutputs' =>
      let inputs := inputs ++ [mkTXInput (uo_TXID out) (uo_OIndex out) [] PubKey] in
      prevTX ← DeserializeTransaction (uo_BlockHash out);
      let prevTXs := <[hex_EncodeToString (tx_ID prevTX) := prevTX]> prevTXs in
      let totalamount := f64_add totalamount (uo_Value out) in
      if f64_geb totalamount amount then Ret (inputs, prevTXs, totalamount)
      else ExtendNewTransactionInputs PubKey amount totalamount inputs prevTXs pendingoutputs'
  end.

(** *** Inputs against the set *)

(** The record of an input: the transaction it spends from, if the output is
    unspent. *)
Definition unspent_input (txi : TXInput) (uodb : boltfile) (db : DB) : outcome (option Transaction) :=
  txdata ← GetDataForTransaction (in_Txid txi) uodb;
  match txdata with
  | None => Ret None
  | Some txdata =>
      outs ← un_deserializeOutputs txdata;
      match list_find (λ out, uo_OIndex out = in_Vout txi) outs with
      | None => Ret None
      | Some (_, out) =>
          prevTX ← GetTransactionFromBlock (in_Txid txi) (uo_BlockHash out) db;
          Ret (Some prevTX)
      end
  end.

Definition VerifyTransactionsOutputsAreNotSpent (txilist : list TXInput) (db : DB)
    : outcome (gmap Z TXInput * prevmap) :=
  uodb ← GetUnspentOutputsObject db;
  mfor (indexed txilist) (λ '(notFoundInputs, inputTX) '(txiInd, txi),
    prevTX ← unspent_input txi uodb db;
    Ret (match prevTX with
         | None => (<[txiInd := txi]> notFoundInputs, <[txiInd := None]> inputTX)
         | Some prevTX => (notFoundInputs, <[txiInd := Some prevTX]> inputTX)
         end)) (∅, ∅).

(** *** Blocks added to and removed from the top *)

(** The outputs of a transaction as the set keeps them, but those [spent]
    tells of. *)
Definition kept_outputs (tx : Transaction) (sender : bytes) (base : bool) (blockHash : bytes)
    (spent : Z → bool) : list TXOutputIndependent :=
  (λ p, LoadFromSimple p.2 (tx_ID tx) p.1 sender base blockHash) <$>
    filter (λ p, spent p.1 = false) (indexed (tx_Vout tx)).

(** One input of a transaction of an added block. *)
Definition spend_input (vin : TXInput) : st boltfile unit :=
  outsBytes ← ask (GetDataForTransaction (in_Txid vin));
  match outsBytes with
  | None => mret tt
  | Some outsBytes =>
      outs ← lift (un_deserializeOutputs outsBytes);
      let updatedOuts := filter (λ out, uo_OIndex out ≠ in_Vout vin) outs in
      if (Z.of_nat (length updatedOuts) =? 0)%Z then DeleteDataForTransaction (in_Txid vin)
      else
        d ← lift (un_serializeOutputs updatedOuts);
        PutDataForTransaction (in_Txid vin) d
  end.

Definition add_outputs (blockHash : bytes) (tx : Transaction) : st boltfile unit :=
  sender ← (if IsCoinbase tx then mret []
            else sfor (tx_Vin tx) (λ _ vin,
              _ ← spend_input vin; mret (HashPubKey (in_PubKey vin))) []);
  let newOutputs := kept_outputs tx sender (IsCoinbase tx) blockHash (λ _, false) in
  d ← lift (un_serializeOutputs newOutputs);
  PutDataForTransaction (tx_ID tx) d.

Definition UpdateOnBlockAdd (block : Block) : st DB unit :=
  _ ← ask GetUnspentOutputsObject;
  on_bc (sfor (blk_Transactions block) (λ _ tx, add_outputs (blk_Hash block) tx) tt).

(** One input of a transaction of a canceled block; [None] leaves the loop over
    the inputs.  [base] is whether the canceled transaction is a coinbase. *)
Definition restore_input (fuel : nat) (prevHash : bytes) (base : bool) (vin : TXInput)
    : st DB (option unit) :=
  r ← ask (GetTransactionAllInfo fuel (in_Txid vin) prevHash);
  match r with
  | None => mret None
  | Some (txi, spending, blockHash) =>
      vin0 ← lift (index (tx_Vin txi) 0);
      let sender := HashPubKey (in_PubKey vin0) in
      let UnspentOuts := kept_outputs txi sender base blockHash
                           (λ outInd, existsb (λ so, so_OutInd so =? outInd)%Z spending) in
      _ ← (if (0 <? Z.of_nat (length UnspentOuts))%Z then
             txData ← lift (un_serializeOutputs UnspentOuts);
             on_bc (PutDataForTransaction (in_Txid vin) txData)
           else drop_err (on_bc (DeleteDataForTransaction (in_Txid vin))));
      mret (Some tt)
  end.
Fixpoint restore_inputs (fuel : nat) (prevHash : bytes) (base : bool) (vins : list TXInput)
    : st DB unit :=
  match vins with
  | [] => mret tt
  | vin :: vins' =>
      r ← restore_input fuel prevHash base vin;
      match r with
      | None => mret tt
      | Some _ => restore_inputs fuel prevHash base vins'
      end
  end.

Definition cancel_tx (fuel : nat) (prevHash : bytes) (tx : Transaction) : st DB unit :=
  _ ← drop_err (on_bc (DeleteDataForTransaction (tx_ID tx)));
  if IsCoinbase tx then mret tt
  else restore_inputs fuel prevHash (IsCoinbase tx) (tx_Vin tx).

Definition UpdateOnBlockCancel (fuel : nat) (block : Block) : st DB unit :=
  _ ← ask GetUnspentOutputsObject;
  sfor (blk_Transactions block) (λ _ tx, cancel_tx fuel (blk_PrevBlockHash block) tx) tt.

(** *** Rebuilding *)

(** One transaction in the loop of [FindunspentTransactions], which goes from
    the top down and through each block from its last transaction. *)
Definition find_tx (blockHash : bytes) (acc : utxo_map * outputs_map) (tx : Transaction)
    : outcome (utxo_map * outputs_map) :=
  let '(UTXO, spentTXOs) := acc in
  let txID := hex_EncodeToString (tx_ID tx) in
  sender ← (if IsCoinbase tx then Ret []
            else vin0 ← index (tx_Vin tx) 0; Ret (HashPubKey (in_PubKey vin0)));
  let outs := kept_outputs tx sender (IsCoinbase tx) blockHash (in_outputs spentTXOs txID) in
  let UTXO := if bool_decide (outs = []) then UTXO
              else <[txID := default [] (UTXO !! txID) ++ outs]> UTXO in
  let spentTXOs := if IsCoinbase tx then spentTXOs
                   else fold_left (λ spentTXOs vin,
                     append_output spentTXOs (hex_EncodeToString (in_Txid vin)) (in_Vout vin))
                     (tx_Vin tx) spentTXOs in
  Ret (UTXO, spentTXOs).

Definition FindunspentTransactions (fuel : nat) (db : DB) : outcome utxo_map :=
  bci ← NewBlockchainIterator db;
  each_block fuel db bci (λ acc block,
    acc ← mfor (reverse (blk_Transactions block)) (find_tx (blk_Hash block)) acc;
    Ret (if (Z.of_nat (length (blk_PrevBlockHash block)) =? 0)%Z
         then Break acc.1 else Continue acc)) (∅, ∅).

Definition un_Reindex (fuel : nat) : st DB Z :=
  _ ← ask GetUnspentOutputsObject;
  _ ← on_bc TruncateDB;
  UTXO ← ask (FindunspentTransactions fuel);
  _ ← sfor (go_range UTXO) (λ _ '(txID, outs),
    key ← lift (hex_DecodeString txID);
    outsData ← lift (un_serializeOutputs outs);
    on_bc (PutDataForTransaction key outsData)) tt;
  ask CountUnspentOutputs.
End Unspent.

(** ** The set as a table *)

Section Set_.
Context `{Crypto} `{BoltLaws} `{GoSortLaws} `{!Gob Transaction} `{!Gob Block} `{!GobLaws Block}.
Context `{!Gob (list TXOutputIndependent)} `{!GobLaws (list TXOutputIndependent)}.

Abbreviation utxo := (bytes → list TXOutputIndependent).
Implicit Types (f : boltfile) (db : DB) (T : utxo) (p : outpoint) (tx : Transaction).

Definition utxo_table f T : Prop := table f unspentTransactionsBucket T.

(** The set has the output. *)
Definition unspent T p : Prop := ∃ o, o ∈ T p.1 ∧ uo_OIndex o = p.2.

(** What one input and one transaction do. *)
Definition spend T (vin : TXInput) : utxo :=
  upd (in_Txid vin) (filter (λ out, uo_OIndex out ≠ in_Vout vin) (T (in_Txid vin))) T.
Definition tx_inputs tx : list TXInput := if IsCoinbase tx then [] else tx_Vin tx.
Definition tx_sender tx : bytes :=
  match last (tx_inputs tx) with Some vin => HashPubKey (in_PubKey vin) | None => [] end.
Definition tx_outputs (blockHash : bytes) tx : list TXOutputIndependent :=
  kept_outputs tx (tx_sender tx) (IsCoinbase tx) blockHash (λ _, false).
Definition apply_tx (blockHash : bytes) T tx : utxo :=
  upd (tx_ID tx) (tx_outputs blockHash tx) (fold_left spend (tx_inputs tx) T).
Definition apply_block T (block : Block) : utxo :=
  fold_left (apply_tx (blk_Hash block)) (blk_Transactions block) T.

(** Every list that is stored on the way can be stored. *)
Definition spend_ok T (vin : TXInput) : Prop := fits (in_Txid vin) (spend T vin (in_Txid vin)).
Definition tx_ok (blockHash : bytes) T tx : Prop :=
  all_ok spend_ok spend T (tx_inputs tx) ∧ fits (tx_ID tx) (tx_outputs blockHash tx).
Definition block_ok T (block : Block) : Prop :=
  all_ok (tx_ok (blk_Hash block)) (apply_tx (blk_Hash block)) T (blk_Transactions block).

Definition unspent_only f f' : Prop := only [unspentTransactionsBucket] f f'.

Lemma spend_input_spec f0 f T vin :
  utxo_table f T ∧ unspent_only f0 f → spend_ok T vin →
  ∃ f', spend_input vin f = (Ret tt, f') ∧ utxo_table f' (spend T vin) ∧ unspent_only f0 f'.
Proof.
  intros [Ht Ho] Hok. destruct (table_find f _ (in_Txid vin) _ Ht) as (r & Hf & Hst).
  unfold spend_input, mbind at 1, st_bind at 1, ask, GetDataForTransaction. rewrite Hf.
  destruct r as [d|].
  2:{ exists f. split_and!; [done| |done]. eapply table_ext; [|exact Ht]. intros k. simpl in Hst.
      unfold spend, upd. case_bool_decide as E; [by rewrite E, Hst|done]. }
  simpl in Hst. unfold mbind at 1, st_bind at 1, lift at 1, un_deserializeOutputs. rewrite Hst.
  unfold spend_ok, spend in Hok. rewrite upd_eq in Hok.
  destruct (Z.eqb_spec (Z.of_nat (length (filter (λ out, uo_OIndex out ≠ in_Vout vin) (T (in_Txid vin))))) 0)
    as [E|_].
  - assert (filter (λ out, uo_OIndex out ≠ in_Vout vin) (T (in_Txid vin)) = []) as En
      by (apply length_zero_iff_nil; lia).
    destruct (table_delete f _ (in_Txid vin) _ Ht) as (f' & Hd & Hs & Ht'). exists f'.
    split_and!; [done| |eapply only_trans; [done|eapply set_record_only_in; [done|by left]]].
    unfold spend. by rewrite En.
  - destruct (table_put f _ (in_Txid vin) _ _ Ht Hok) as (d' & f' & Ed & Hp & Hs & Ht'). exists f'.
    split_and!; [|done|eapply only_trans; [done|eapply set_record_only_in; [done|by left]]].
    unfold mbind, st_bind, lift, un_serializeOutputs. by rewrite Ed.
Qed.

(** The loop over the inputs keeps the key hash of the last one. *)
Lemma spend_inputs_spec f0 f T vins s :
  utxo_table f T ∧ unspent_only f0 f → all_ok spend_ok spend T vins →
  ∃ f', sfor vins (λ _ vin, _ ← spend_input vin; mret (HashPubKey (in_PubKey vin))) s f
        = (Ret (match last vins with Some vin => HashPubKey (in_PubKey vin) | None => s end), f') ∧
        utxo_table f' (fold_left spend vins T) ∧ unspent_only f0 f'.
Proof.
  revert f T s. induction vins as [|vin vins IH]; intros f T s HR Hok; [by exists f|].
  destruct Hok as [Hv Hok]. destruct (spend_input_spec f0 f T vin HR Hv) as (f1 & H1' & HR1).
  destruct (IH f1 _ (HashPubKey (in_PubKey vin)) HR1 Hok) as (f2 & H2' & HR2). exists f2.
  split; [|done]. simpl. apply st_bind_Ret. exists (HashPubKey (in_PubKey vin)), f1. split.
  - apply st_bind_Ret. by exists tt, f1.
  - rewrite H2', last_cons. by destruct (last vins).
Qed.

Lemma add_outputs_spec f0 f T h tx :
  utxo_table f T ∧ unspent_only f0 f → tx_ok h T tx →
  ∃ f', add_outputs h tx f = (Ret tt, f') ∧ utxo_table f' (apply_tx h T tx) ∧ unspent_only f0 f'.
Proof.
  intros HR [Hin Hout].
  assert (∃ f1, (if IsCoinbase tx then mret [] else sfor (tx_Vin tx) (λ _ vin,
      _ ← spend_input vin; mret (HashPubKey (in_PubKey vin))) []) f = (Ret (tx_sender tx), f1) ∧
    utxo_table f1 (fold_left spend (tx_inputs tx) T) ∧ unspent_only f0 f1) as (f1 & H1' & HT1 & Ho1).
  { unfold tx_sender, tx_inputs in *. destruct (IsCoinbase tx); [by exists f|].
    by apply spend_inputs_spec. }
  destruct (table_put f1 _ (tx_ID tx) _ _ HT1 Hout) as (d & f2 & Ed & Hp & Hs & Ht). exists f2.
  split_and!; [|done|eapply only_trans; [done|eapply set_record_only_in; [done|by left]]].
  apply st_bind_Ret. exists (tx_sender tx), f1. split; [done|].
  apply st_bind_Ret. exists d, f1. split; [unfold lift, un_serializeOutputs; by f_equal|done].
Qed.

Lemma UpdateOnBlockAdd_apply f db T block :
  opened f db → utxo_table f T → block_ok T block →
  ∃ f', UpdateOnBlockAdd block db = (Ret tt, with_bc f' db) ∧ utxo_table f' (apply_block T block) ∧
        unspent_only f f'.
Proof.
  intros Ho Ht Hok.
  destruct (sfor_sim (λ f' T, utxo_table f' T ∧ unspent_only f f') (add_outputs (blk_Hash block))
    (apply_tx (blk_Hash block)) (tx_ok (blk_Hash block)) (blk_Transactions block) f T) as (f' & Hr & HR).
  - split; [done|apply only_refl].
  - done.
  - intros. by apply add_outputs_spec.
  - exists f'. split; [|done]. unfold UpdateOnBlockAdd, mbind, st_bind, ask.
    change (GetUnspentOutputsObject db) with (GetBlockchainObject db).
    rewrite (opened_object f db Ho). by apply (on_bc_Ret _ f db).
Qed.

(** *** Which outputs are in the set *)

Lemma unspent_spend T vins p :
  unspent (fold_left spend vins T) p ↔ unspent T p ∧ p ∉ outpoint_of <$> vins.
Proof.
  revert T. induction vins as [|vin vins IH]; intros T; csimpl.
  { split; [|by intros [? _]]. intros ?. split; [done|apply not_elem_of_nil]. }
  rewrite IH, not_elem_of_cons. destruct p as [k i]. unfold unspent, spend, upd, outpoint_of. simpl.
  destruct (decide (k = in_Txid vin)) as [->|Hk].
  - rewrite bool_decide_eq_true_2 by done. setoid_rewrite list_elem_of_filter. split.
    + intros [(o & [Hn Hin] & <-) Hni]. split_and!; [by exists o| |done]. by intros [= ?].
    + intros [(o & Hin & <-) [Hn Hni]]. split; [|done]. exists o. split_and!; [|done..].
      intros E. apply Hn. by rewrite E.
  - rewrite bool_decide_eq_false_2 by done. split; [|tauto].
    intros [? ?]. split_and!; [done| |done]. by intros [= ? _].
Qed.

Lemma tx_outputs_index h tx i :
  (∃ o, o ∈ tx_outputs h tx ∧ uo_OIndex o = i) ↔ (0 ≤ i < Z.of_nat (length (tx_Vout tx)))%Z.
Proof.
  unfold tx_outputs, kept_outputs. setoid_rewrite list_elem_of_fmap. split.
  - intros (o & ([j out] & -> & [_ Hin]%list_elem_of_filter) & <-). simpl.
    apply list_elem_of_lookup in Hin as [n Hn]. rewrite lookup_indexed in Hn.
    apply fmap_Some in Hn as (out' & Hn & [= -> ->]). apply lookup_lt_Some in Hn. lia.
  - intros Hi. destruct (lookup_lt_is_Some_2 (tx_Vout tx) (Z.to_nat i)) as [out Hout]; [lia|].
    eexists. split; [exists (i, out); split; [done|]|done]. apply list_elem_of_filter. split; [done|].
    apply list_elem_of_lookup. exists (Z.to_nat i). rewrite lookup_indexed, Hout. simpl.
    do 2 f_equal. lia.
Qed.

Lemma unspent_apply_tx h T tx p :
  unspent (apply_tx h T tx) p ↔
  if decide (p.1 = tx_ID tx) then (0 ≤ p.2 < Z.of_nat (length (tx_Vout tx)))%Z
  else unspent T p ∧ p ∉ outpoint_of <$> tx_inputs tx.
Proof.
  destruct p as [k i]. simpl. unfold unspent at 1, apply_tx. simpl. destruct (decide _) as [->|Hk].
  - rewrite upd_eq. apply tx_outputs_index.
  - rewrite upd_ne by done. rewrite <- unspent_spend. done.
Qed.

(** The outputs that transactions spend, coinbases aside. *)
Definition spent_by (txs : list Transaction) : list outpoint :=
  mjoin ((λ tx, outpoint_of <$> tx_inputs tx) <$> txs).

Lemma spent_by_snoc txs tx :
  spent_by (txs ++ [tx]) = spent_by txs ++ (outpoint_of <$> tx_inputs tx).
Proof. unfold spent_by. rewrite fmap_app, join_app. csimpl. by rewrite app_nil_r. Qed.

Lemma unspent_apply_txs h T txs p :
  NoDup (tx_ID <$> txs) →
  unspent (fold_left (apply_tx h) txs T) p ↔
  (∃ l1 tx l2, txs = l1 ++ tx :: l2 ∧ tx_ID tx = p.1 ∧
     (0 ≤ p.2 < Z.of_nat (length (tx_Vout tx)))%Z ∧ p ∉ spent_by l2) ∨
  (unspent T p ∧ p.1 ∉ tx_ID <$> txs ∧ p ∉ spent_by txs).
Proof.
  induction txs as [|tx txs IH] using rev_ind; intros Hnd.
  { simpl. split; [|intros [(l1 & tx & l2 & El & _)|[? _]]; [by destruct l1|done]].
    intros ?. right. split_and!; [done|apply not_elem_of_nil..]. }
  rewrite fmap_app in Hnd. apply NoDup_app in Hnd as (Hnd & Hd & _). rewrite fold_left_app. simpl.
  rewrite unspent_apply_tx. destruct (decide (p.1 = tx_ID tx)) as [E|E].
  - split.
    + intros Hi. left. exists txs, tx, [].
      split; [done|]. split; [done|]. split; [done|]. apply not_elem_of_nil.
    + intros [(l1 & tx' & l2 & El & Hid & Hi & _)|(_ & Hn & _)]; [|set_solver].
      destruct l2 as [|t l2 _] using rev_ind; [apply app_inj_tail in El as [_ <-]; done|].
      rewrite app_comm_cons, app_assoc in El. apply app_inj_tail in El as [-> ->].
      destruct (Hd (tx_ID tx')); [rewrite fmap_app; set_solver|]. rewrite Hid, E. csimpl. left.
  - rewrite (IH Hnd), spent_by_snoc. split.
    + intros [[(l1 & tx' & l2 & -> & Hid & Hi & Hs)|(Hu & Hn & Hs)] Hp].
      * left. exists l1, tx', (l2 ++ [tx]).
        split; [by rewrite <- app_assoc|]. split; [done|]. split; [done|]. rewrite spent_by_snoc. set_solver.
      * right. rewrite fmap_app. set_solver.
    + intros [(l1 & tx' & l2 & El & Hid & Hi & Hs)|(Hu & Hn & Hs)].
      * destruct l2 as [|t l2 _] using rev_ind; [apply app_inj_tail in El as [_ <-]; done|].
        rewrite app_comm_cons, app_assoc in El. apply app_inj_tail in El as [-> ->].
        rewrite spent_by_snoc in Hs.
        split; [left; exists l1, tx', l2; set_solver|set_solver].
      * rewrite fmap_app in Hn. set_solver.
Qed.

(** C16: after [UpdateOnBlockAdd] an output is in the set exactly when a
    transaction of the block made it and no later transaction of the block
    spends it, or it was in the set, no transaction of the block has the
    identifier and none spends it.  In particular the set does not notice a
    transaction that spends an output of a later transaction of its block. *)
Theorem UpdateOnBlockAdd_spec f db T block :
  opened f db → utxo_table f T → block_ok T block → NoDup (tx_ID <$> blk_Transactions block) →
  ∃ f', UpdateOnBlockAdd block db = (Ret tt, with_bc f' db) ∧ unspent_only f f' ∧
    utxo_table f' (apply_block T block) ∧
    ∀ p, unspent (apply_block T block) p ↔
      (∃ l1 tx l2, blk_Transactions block = l1 ++ tx :: l2 ∧ tx_ID tx = p.1 ∧
         (0 ≤ p.2 < Z.of_nat (length (tx_Vout tx)))%Z ∧ p ∉ spent_by l2) ∨
      (unspent T p ∧ p.1 ∉ tx_ID <$> blk_Transactions block ∧
       p ∉ spent_by (blk_Transactions block)).
Proof.
  intros Ho Ht Hok Hnd. destruct (UpdateOnBlockAdd_apply f db T block Ho Ht Hok) as (f' & Hr & Ht' & Hb).
  exists f'. split_and!; [done..|]. intros p. by apply unspent_apply_txs.
Qed.

(** *** Reading the whole set *)

Lemma utxo_lists f T :
  utxo_table f T →
  ∃ b lists, f !! unspentTransactionsBucket = Some b ∧
    Forall2 (λ r outs, un_deserializeOutputs r.2 = Ret outs) (b_Cursor b) lists ∧
    ∀ o, o ∈ mjoin lists ↔ ∃ k, o ∈ T k.
Proof.
  intros [[b E]%elem_of_dom Hs]. exists b, ((λ r, T r.1) <$> b_Cursor b). split_and!; [done| |].
  - apply Forall2_fmap_r, Forall_Forall2_diag, Forall_forall. intros [k d] Hin.
    apply b_Cursor_Get in Hin. specialize (Hs k). rewrite (bget_lookup f _ b k E), Hin in Hs. exact Hs.
  - intros o. rewrite list_elem_of_join. setoid_rewrite list_elem_of_fmap. split.
    + intros (l & Ho & [k d] & -> & _). by exists k.
    + intros [k Hk]. exists (T k). split; [done|]. specialize (Hs k). revert Hs.
      rewrite (bget_lookup f _ b k E). destruct (b_Get b k) as [d|] eqn:Eb; simpl.
      * intros _. exists (k, d). split; [done|]. by apply b_Cursor_Get.
      * intros Hn. rewrite Hn in Hk. by apply elem_of_nil in Hk.
Qed.

(** A loop over the set whose callback decodes the record and goes on. *)
Lemma utxo_fold {B} f b lists (callback : bytes → bytes → st B unit) (g : B → list TXOutputIndependent → B) s :
  f !! unspentTransactionsBucket = Some b →
  Forall2 (λ r outs, un_deserializeOutputs r.2 = Ret outs) (b_Cursor b) lists →
  (∀ k d outs s, un_deserializeOutputs d = Ret outs → callback k d s = (Ret tt, g s outs)) →
  ForEach callback f s = (Ret tt, fold_left g lists s).
Proof.
  intros E Hf Hc. unfold ForEach, forEachInBucket, mbind, st_bind, lift, Bucket. rewrite E.
  rewrite <- scan_all. apply (forEach_scan _ _ (λ r, un_deserializeOutputs r.2)); [done|].
  intros [k d] outs s' Hd. simpl in *. by apply Hc.
Qed.

(** The sum the source computes: from left to right, in [float64]. *)
Definition sum_from (acc : float64) (outs : list TXOutputIndependent) : float64 :=
  fold_left (λ acc out, f64_add acc (uo_Value out)) outs acc.

Lemma take_reaching_spec amount acc outs a uo :
  take_reaching amount acc outs = (a, uo) →
  uo `prefix_of` outs ∧ a = sum_from acc uo ∧ (f64_geb a amount = true ∨ uo = outs) ∧
  (∀ l, l `prefix_of` uo → l ≠ [] → l ≠ uo → f64_geb (sum_from acc l) amount = false).
Proof.
  revert acc a uo. induction outs as [|o outs IH]; intros acc a uo; simpl.
  { intros [= <- <-]. split_and!; [done|done|by right|]. by intros l ->%prefix_nil_inv. }
  destruct (f64_geb _ amount) eqn:E.
  - intros [= <- <-]. split_and!; [apply prefix_cons, prefix_nil|done|by left|].
    intros [|o' l] [l2 El] Hl Hne; [done|]. injection El as <- El. symmetry in El.
    apply app_nil in El as [-> _]. done.
  - destruct (take_reaching _ _ _) as [a' uo'] eqn:Et. intros [= <- <-].
    destruct (IH _ _ _ Et) as (Hp & -> & Hr & Hs). split_and!; [by apply prefix_cons|done| |].
    + destruct Hr as [?| ->]; [by left|by right].
    + intros [|o' l] Hpl Hl Hne; [done|]. apply prefix_cons_inv_1 in Hpl as Eo. subst o'.
      apply prefix_cons_inv_2 in Hpl. destruct l as [|o2 l]; [done|].
      apply (Hs (o2 :: l)); [done|done|congruence].
Qed.

Lemma spendable_elem h pendinguse l o :
  o ∈ spendable h pendinguse l ↔
  o ∈ l ∧ uo_DestPubKeyHash o = h ∧ (uo_TXID o, uo_OIndex o) ∉ outpoint_of <$> pendinguse.
Proof.
  unfold spendable. rewrite list_elem_of_filter, existsb_false.
  setoid_rewrite is_output_of_spec. unfold uo_IsLockedWithKey, bytes_eqb.
  rewrite bool_decide_eq_true, list_elem_of_fmap. split.
  - intros [[? Hn] ?]. split_and!; [done..|]. intros (vin & ? & ?). by apply (Hn vin).
  - intros (? & ? & Hn). split_and!; [done| |done]. intros vin ? ?. apply Hn. by exists vin.
Qed.

(** The first loop of [ChooseSpendableOutputs]. *)
Lemma choose_loop f b lists h pendinguse :
  f !! unspentTransactionsBucket = Some b →
  Forall2 (λ r outs, un_deserializeOutputs r.2 = Ret outs) (b_Cursor b) lists →
  ForEach (choose_callback h pendinguse) f (f64_zero, [])
  = (Ret tt, (sum_from f64_zero (mjoin (spendable h pendinguse <$> lists)),
              mjoin (spendable h pendinguse <$> lists))).
Proof.
  intros E Hf. rewrite (utxo_fold f b lists _ (λ s outs, (sum_from s.1 (spendable h pendinguse outs),
    s.2 ++ spendable h pendinguse outs)) _ E Hf).
  - f_equal. transitivity (sum_from f64_zero (mjoin (spendable h pendinguse <$> lists)),
      [] ++ mjoin (spendable h pendinguse <$> lists)); [|done].
    generalize f64_zero, (@nil TXOutputIndependent). clear.
    induction lists as [|l lists IH]; intros a s; csimpl; [by rewrite app_nil_r|].
    rewrite IH. simpl. unfold sum_from. by rewrite fold_left_app, <- app_assoc.
  - intros k d outs [a s] Hd. unfold choose_callback, mbind, st_bind, lift. rewrite Hd.
    unfold effect. f_equal. generalize (spendable h pendinguse outs) as l. clear.
    intros l. revert a s. induction l as [|o l IH]; intros a s; simpl; [by rewrite app_nil_r|].
    rewrite IH. simpl. by rewrite <- app_assoc.
Qed.

(** What the smallest outputs that reach the amount are. *)
Definition smallest_reaching (amount : float64) (sp : list TXOutputIndependent) (acc : float64)
    (outs : list TXOutputIndependent) : Prop :=
  ∃ sorted, sorted ≡ₚ sp ∧
    (orders uo_Less sp → StronglySorted (λ a b, uo_Less b a = false) sorted) ∧
    outs `prefix_of` sorted ∧ (f64_geb acc amount = true ∨ outs = sorted) ∧
    (∀ l, l `prefix_of` outs → l ≠ [] → l ≠ outs → f64_geb (sum_from f64_zero l) amount = false).

(** [ChooseSpendableOutputs] works on the outputs [sp] of the set that are
    locked with the key and that no pending input spends.  If their sum reaches
    the amount, it returns the smallest of them, as many as are needed to reach
    it, with their sum; if not, all of them with their sum. *)
Theorem ChooseSpendableOutputs_spec f db T h amount pendinguse :
  opened f db → utxo_table f T →
  ∃ sp acc outs, ChooseSpendableOutputs h amount pendinguse db = Ret (acc, outs) ∧
    (∀ o, o ∈ sp ↔ (∃ k, o ∈ T k) ∧ uo_DestPubKeyHash o = h ∧
                   (uo_TXID o, uo_OIndex o) ∉ outpoint_of <$> pendinguse) ∧
    acc = sum_from f64_zero outs ∧
    if f64_geb (sum_from f64_zero sp) amount then smallest_reaching amount sp acc outs
    else outs = sp.
Proof.
  intros Ho Ht. destruct (utxo_lists f T Ht) as (b & lists & E & Hf & Hin).
  set (sp := mjoin (spendable h pendinguse <$> lists)).
  assert (∀ o, o ∈ sp ↔ (∃ k, o ∈ T k) ∧ uo_DestPubKeyHash o = h ∧
    (uo_TXID o, uo_OIndex o) ∉ outpoint_of <$> pendinguse) as Hsp.
  { intros o. rewrite <- Hin. unfold sp. rewrite elem_of_join_fmap, list_elem_of_join. split.
    - intros (l & Hl & [Ho' ?]%spendable_elem). split; [by exists l|done].
    - intros [(l & Ho' & Hl) ?]. exists l. split; [done|by apply spendable_elem]. }
  unfold ChooseSpendableOutputs.
  change (GetUnspentOutputsObject db) with (GetBlockchainObject db).
  rewrite (opened_object f db Ho), ret_bind, (choose_loop f b lists h pendinguse E Hf), ret_bind.
  fold sp. destruct (f64_geb (sum_from f64_zero sp) amount) eqn:Eg.
  - destruct (take_reaching amount f64_zero (go_Sort uo_Less sp)) as [a uo] eqn:Et.
    destruct (take_reaching_spec _ _ _ _ _ Et) as (Hp & -> & Hr & Hs).
    exists sp, (sum_from f64_zero uo), uo. rewrite Eg.
    split; [done|]. split; [done|]. split; [done|]. exists (go_Sort uo_Less sp).
    split; [apply go_Sort_Permutation|]. split; [apply go_Sort_sorted|]. done.
  - exists sp, (sum_from f64_zero sp), sp. by rewrite Eg.
Qed.

(** *** Inputs against the set *)

(** Every output of the set is one of a stored transaction. *)
Definition located db T : Prop :=
  ∀ k o, o ∈ T k → ∃ tx, GetTransactionFromBlock k (uo_BlockHash o) db = Ret tx.

Lemma GetTransactionFromBlock_ID k h db tx : GetTransactionFromBlock k h db = Ret tx → tx_ID tx = k.
Proof.
  unfold GetTransactionFromBlock. intros Hg. go_inv Hg.
  destruct (list_find _ _) as [[n t]|] eqn:Ef; [|done]. injection Hg as <-.
  by apply list_find_Some in Ef as (_ & <- & _).
Qed.

(** The record of an input is the transaction that the set names for its output. *)
Lemma unspent_input_cases f db T vin :
  utxo_table f T → located db T →
  (∃ o tx, o ∈ T (in_Txid vin) ∧ uo_OIndex o = in_Vout vin ∧
     GetTransactionFromBlock (in_Txid vin) (uo_BlockHash o) db = Ret tx ∧
     unspent_input vin f db = Ret (Some tx)) ∨
  ¬ unspent T (outpoint_of vin) ∧ unspent_input vin f db = Ret None.
Proof.
  intros Ht Hl. destruct (table_find f _ (in_Txid vin) _ Ht) as (r & Hf & Hst).
  unfold unspent_input, GetDataForTransaction. rewrite Hf, ret_bind. unfold unspent. simpl.
  destruct r as [d|]; simpl in Hst.
  2:{ right. split; [|done]. rewrite Hst. by intros (o & ?%elem_of_nil & _). }
  unfold un_deserializeOutputs. rewrite Hst, ret_bind.
  destruct (list_find _ _) as [[n o]|] eqn:Ef.
  - apply list_find_Some in Ef as (Hn & Ho & _). apply list_elem_of_lookup_2 in Hn.
    destruct (Hl _ _ Hn) as [tx Htx]. left. exists o, tx. by rewrite Htx.
  - apply list_find_None in Ef. rewrite Forall_forall in Ef. right. split; [|done].
    intros (o & Hin & Ho). by apply (Ef o).
Qed.

Lemma unspent_input_spec f db T vin :
  utxo_table f T → located db T →
  ∃ r, unspent_input vin f db = Ret r ∧
    match r with
    | Some tx => unspent T (outpoint_of vin) ∧ tx_ID tx = in_Txid vin
    | None => ¬ unspent T (outpoint_of vin)
    end.
Proof.
  intros Ht Hl. destruct (unspent_input_cases f db T vin Ht Hl) as [(o & tx & Hin & Ho & Hg & Hr)|[Hn Hr]].
  - exists (Some tx). split; [done|]. split; [by exists o|]. by eapply GetTransactionFromBlock_ID.
  - by exists None.
Qed.

Lemma not_spent_classify f db vins :
  opened f db →
  VerifyTransactionsOutputsAreNotSpent vins db
  = mfor (indexed vins) (classify_step (λ vin, unspent_input vin f db)) (∅, ∅).
Proof.
  intros Ho. unfold VerifyTransactionsOutputsAreNotSpent.
  change (GetUnspentOutputsObject db) with (GetBlockchainObject db).
  rewrite (opened_object f db Ho), ret_bind. apply mfor_ext. intros [nf m] [i vin].
  unfold classify_step. simpl. by destruct (unspent_input vin f db).
Qed.

(** [VerifyTransactionsOutputsAreNotSpent] tells for every input whether
    the output it spends is in the set: it then gives the transaction with the
    output, and otherwise lists the input as not found. *)
Theorem VerifyTransactionsOutputsAreNotSpent_spec f db T vins :
  opened f db → utxo_table f T → located db T →
  ∃ nf m, VerifyTransactionsOutputsAreNotSpent vins db = Ret (nf, m) ∧
    ∀ (i : nat) vin, vins !! i = Some vin →
      (unspent T (outpoint_of vin) → nf !! Z.of_nat i = None ∧
         ∃ tx, m !! Z.of_nat i = Some (Some tx) ∧ tx_ID tx = in_Txid vin) ∧
      (¬ unspent T (outpoint_of vin) →
         nf !! Z.of_nat i = Some vin ∧ m !! Z.of_nat i = Some None).
Proof.
  intros Ho Ht Hl. rewrite (not_spent_classify f db vins Ho).
  destruct (classify_loop (λ vin, unspent_input vin f db) vins) as (nf & m & Hr & Hc & _).
  { apply Forall_true. intros vin. destruct (unspent_input_spec f db T vin Ht Hl) as (r & ? & _). eauto. }
  exists nf, m. split; [done|]. intros i vin Hi. specialize (Hc i vin Hi). unfold classified in Hc.
  destruct (unspent_input_spec f db T vin Ht Hl) as (r & Er & Hs). rewrite Er in Hc.
  destruct r as [tx|]; destruct Hc as [Hnf Hm].
  - destruct Hs as [Hu Hid]. split; [|done]. intros _. split; [done|]. by exists tx.
  - split; [done|]. by split.
Qed.
End Set_.

(** ** Witnesses

    The set of the chain of one block of [IndexDemo]: an output of its second
    transaction. *)

Module UnspentDemo.
Import ToyCrypto MapBolt InsertionSort Codecs Demo IndexDemo PendingDemo.

Definition out_pay : TXOutputIndependent :=
  mkTXOutputIndependent (f64_of_Z 6) [x21] [x05] [x12] 1 false [x02; x01].
Definition unspent_records : list (bytes * bytes) :=
  [([x12], match gob_Encode [out_pay] with Ret d => d | _ => [] end)].
Definition unspent_map : @bucket map_bolt := (list_to_map unspent_records : gmap bytes bytes).
Definition unspent_file : boltfile :=
  {[ blocksBucket := index_blocks; unspentTransactionsBucket := unspent_map ]}.
Definition unspent_db : DB := mkDB true (Some unspent_file) None.
Definition unspent_T : bytes → list TXOutputIndependent := upd [x12] [out_pay] (λ _, []).

Lemma unspent_opened : opened unspent_file unspent_db.
Proof. split_and!; [done|done|]. apply elem_of_dom. by eexists. Qed.

Lemma unspent_rep : utxo_table unspent_file unspent_T.
Proof.
  split; [apply elem_of_dom; by eexists|]. intros k. unfold unspent_T, upd.
  case_bool_decide as E; [subst k; vm_compute; done|].
  rewrite (bget_lookup unspent_file _ unspent_map) by done. cbn [b_Get map_bolt].
  case_bool_decide; [done|]. match goal with |- stores ?o _ => assert (o = None) as -> end; [|done].
  apply not_elem_of_list_to_map_1. intros [Hk|[]%elem_of_nil]%elem_of_cons. done.
Qed.

Lemma unspent_located : located unspent_db unspent_T.
Proof.
  intros k o. unfold unspent_T, upd. case_bool_decide as E; [|by intros ?%elem_of_nil].
  subst k. intros ->%list_elem_of_singleton. exists tx_pay. by vm_compute.
Qed.

(** Spends the output of the set, and makes one. *)
Definition blk_next : Block := mkBlock 0 [tx_other] [x02; x01] [x02; x02] 0 1.

Lemma next_ok : block_ok unspent_T blk_next.
Proof.
  split; [split|done]; [split; [|done]|]; apply fitsb_fits; by vm_compute.
Qed.

Lemma UpdateOnBlockAdd_spec_witness :
  ∃ f', UpdateOnBlockAdd blk_next unspent_db = (Ret tt, with_bc f' unspent_db) ∧
    unspent_only unspent_file f' ∧ utxo_table f' (apply_block unspent_T blk_next) ∧
    ∀ p, unspent (apply_block unspent_T blk_next) p ↔
      (∃ l1 tx l2, [tx_other] = l1 ++ tx :: l2 ∧ tx_ID tx = p.1 ∧
         (0 ≤ p.2 < Z.of_nat (length (tx_Vout tx)))%Z ∧ p ∉ spent_by l2) ∨
      (unspent unspent_T p ∧ p.1 ∉ tx_ID <$> [tx_other] ∧ p ∉ spent_by [tx_other]).
Proof.
  apply (UpdateOnBlockAdd_spec unspent_file unspent_db unspent_T blk_next).
  - apply unspent_opened.
  - apply unspent_rep.
  - apply next_ok.
  - by apply (bool_decide_unpack _).
Defined.

Lemma ChooseSpendableOutputs_spec_witness :
  ∃ sp acc outs, ChooseSpendableOutputs [x21] (f64_of_Z 5) [] unspent_db = Ret (acc, outs) ∧
    (∀ o, o ∈ sp ↔ (∃ k, o ∈ unspent_T k) ∧ uo_DestPubKeyHash o = [x21] ∧
                   (uo_TXID o, uo_OIndex o) ∉ outpoint_of <$> []) ∧
    acc = sum_from f64_zero outs ∧
    if f64_geb (sum_from f64_zero sp) (f64_of_Z 5)
    then smallest_reaching (f64_of_Z 5) sp acc outs else outs = sp.
Proof.
  apply (ChooseSpendableOutputs_spec unspent_file unspent_db unspent_T [x21] (f64_of_Z 5) []).
  - apply unspent_opened.
  - apply unspent_rep.
Defined.

Lemma VerifyTransactionsOutputsAreNotSpent_spec_witness :
  ∃ nf m, VerifyTransactionsOutputsAreNotSpent (tx_Vin tx_other) unspent_db = Ret (nf, m) ∧
    ∀ (i : nat) vin, tx_Vin tx_other !! i = Some vin →
      (unspent unspent_T (outpoint_of vin) → nf !! Z.of_nat i = None ∧
         ∃ tx, m !! Z.of_nat i = Some (Some tx) ∧ tx_ID tx = in_Txid vin) ∧
      (¬ unspent unspent_T (outpoint_of vin) →
         nf !! Z.of_nat i = Some vin ∧ m !! Z.of_nat i = Some None).
Proof.
  apply (VerifyTransactionsOutputsAreNotSpent_spec unspent_file unspent_db unspent_T).
  - apply unspent_opened.
  - apply unspent_rep.
  - apply unspent_located.
Defined.
End UnspentDemo.
