(* ===== verification/TxManager.v ===== *)
(** * The transactions manager: [node/transactions/manager.go]

    The manager joins the index, the pool of pending transactions and the set
    of unspent outputs: it verifies transactions, makes new ones, chooses those
    for a new block and keeps the three tables up to date when blocks come and
    go. *)

From Stdlib Require Import Strings.Byte ZifyNat.
From stdpp Require Import base strings numbers gmap sorting list.
From S2P Require Import Prelude Float64 Platform Concrete Utils Structures Codecs Signing.
From S2P Require Import Database ChainIndex Tables Blockchain Branches BlockchainUpdate TxIndex Pending.
From S2P Require Import Unspent.

Record WalletBalance := mkWalletBalance {
  wb_Total : float64;
  wb_Approved : float64;
  wb_Pending : float64
}.

Section Manager.
Context `{Crypto} `{Bolt} `{GoSort} `{GoRange} `{!Gob Transaction} `{!Gob Block}.
Context `{!Gob (list TXOutputIndependent)}.
Context `{!Gob (list bytes)} `{!Gob (list TransactionsIndexSpentOutputs)}.

Definition ReindexData (fuel : nat) : st DB Z :=
  _ ← ti_Reindex fuel;
  un_Reindex fuel.

(** *** Verification *)

(** One input in the loop of [getInputTransactionsState]: the transaction it
    spends from, if that is in a block under the tip. *)
Definition input_state (fuel : nat) (tip : bytes) (vin : TXInput) (db : DB)
    : outcome (option Transaction) :=
  txBockHashes ← GetTranactionBlocks (in_Txid vin) db;
  txBockHash ← ChooseHashUnderTip fuel txBockHashes tip db;
  match txBockHash with
  | None => Ret None
  | Some txBockHash =>
      prevTX ← GetTransactionFromBlock (in_Txid vin) txBockHash db;
      spentouts ← GetTranactionOutputsSpent fuel (in_Txid vin) txBockHash tip db;
      if existsb (λ o, so_OutInd o =? in_Vout vin)%Z spentouts
      then Err (EMsg "Transaction input was already spent before")
      else Ret (Some prevTX)
  end.

Definition getInputTransactionsState (fuel : nat) (tx : Transaction) (tip : bytes) (db : DB)
    : outcome (prevmap * gmap Z TXInput) :=
  if IsCoinbase tx then Ret (∅, ∅)
  else mfor (indexed (tx_Vin tx)) (λ '(prevTXs, badinputs) '(vind, vin),
    prevTX ← input_state fuel tip vin db;
    Ret (match prevTX with
         | None => (<[vind := None]> prevTXs, <[vind := vin]> badinputs)
         | Some prevTX => (<[vind := Some prevTX]> prevTXs, badinputs)
         end)) (∅, ∅).

Definition VerifyTransaction (fuel : nat) (tx : Transaction) (prevtxs : list Transaction)
    (tip : bytes) (db : DB) : outcome bool :=
  '(inputTXs, notFoundInputs) ← getInputTransactionsState fuel tx tip db;
  inputTXs ← (if (0 <? Z.of_nat (size notFoundInputs))%Z
              then CheckInputsWereBefore (go_range notFoundInputs) prevtxs inputTXs
              else Ret inputTXs);
  _ ← Verify tx inputTXs;
  Ret true.

Definition verifyTransactionQuick (tx : Transaction) (db : DB) : outcome bool :=
  '(notFoundInputs, inputTXs) ← VerifyTransactionsOutputsAreNotSpent (tx_Vin tx) db;
  inputTXs ← (if (0 <? Z.of_nat (size notFoundInputs))%Z
              then CheckInputsArePrepared (go_range notFoundInputs) inputTXs db
              else Ret inputTXs);
  _ ← Verify tx inputTXs;
  Ret true.

Definition ReceivedNewTransaction (tx : Transaction) : st DB unit :=
  good ← ask (verifyTransactionQuick tx);
  if negb good then fail (EMsg "Transaction verification failed")
  else pend_Add tx.

Definition ReceivedNewTransactionData (txBytes : bytes) (Signatures : list bytes)
    : st DB Transaction :=
  tx ← lift (DeserializeTransaction txBytes);
  tx ← lift (SetSignatures tx Signatures);
  _ ← ReceivedNewTransaction tx;
  mret tx.

(** *** New transactions *)

Definition prepareNewTransactionComplete (PubKey to : bytes) (amount : float64)
    (inputs : list TXInput) (totalamount : float64) (prevTXs : txmap) (now : Z)
    : outcome (bytes * list bytes) :=
  let from := PubKeyToAddres PubKey in
  out ← NewTXOutput amount to;
  outputs ← (if f64_gtb totalamount amount && f64_gtb (f64_sub totalamount amount) SmallestUnit
             then change ← NewTXOutput (f64_sub totalamount amount) from; Ret [out; change]
             else Ret [out]);
  let inputTXs := fold_left (λ (inputTXs : prevmap) '(vinInd, vin),
    let tx := default (mkTransaction [] [] [] 0) (prevTXs !! hex_EncodeToString (in_Txid vin)) in
    <[vinInd := Some tx]> inputTXs) (indexed inputs) ∅ in
  let tx := mkTransaction [] inputs outputs now in
  signdata ← PrepareSignData tx inputTXs;
  txBytes ← tx_Serialize tx;
  Ret (txBytes, signdata).

(** The inputs of a payment with the transactions they spend from and their
    total: outputs of the set, and pending ones when these are not enough.  The
    error of [GetPreparedBy] is overwritten before it is read; its results are
    then nil. *)
Definition payment_inputs (PubKey to : bytes) (amount : float64) (db : DB)
    : outcome (list TXInput * txmap * float64) :=
  let PubKeyHash := HashPubKey PubKey in
  '(pendinginputs, pendingoutputs, _) ← ignore_err ([], [], []) (GetPreparedBy PubKeyHash db);
  '(inputs, prevTXs, totalamount) ← GetNewTransactionInputs PubKey to amount pendinginputs db;
  if f64_ltb totalamount amount then
    if (Z.of_nat (length pendingoutputs) =? 0)%Z
    then Err (EMsg "No enough funds for requested transaction")
    else ExtendNewTransactionInputs PubKey amount totalamount inputs prevTXs pendingoutputs
  else Ret (inputs, prevTXs, totalamount).

Definition PrepareNewTransaction (PubKey to : bytes) (amount : float64) (now : Z) (db : DB)
    : outcome (bytes * list bytes) :=
  let amount := parse_fixed8 amount in
  '(inputs, prevTXs, totalamount) ← payment_inputs PubKey to amount db;
  if f64_ltb totalamount amount then Err (EMsg "No anough funds to make new transaction")
  else prepareNewTransactionComplete PubKey to amount inputs totalamount prevTXs now.

Definition CreateTransaction (PubKey : bytes) (privKey : PrivateKey) (to : bytes) (amount : float64)
    (now : Z) (seeds : Z → Z → N) : st DB Transaction :=
  if f64_leb amount f64_zero then fail (EMsg "Amount must be positive value")
  else if bool_decide (to = []) then fail (EMsg "Recipient address is not provided")
  else
    '(txBytes, DataToSign) ← wrap_err "Prepare error: %s" (ask (PrepareNewTransaction PubKey to amount now));
    signatures ← wrap_err "Sign error: %s" (lift (SignDataSet PubKey privKey DataToSign seeds));
    wrap_err "Final ading TX error: %s" (ReceivedNewTransactionData txBytes signatures).

(** *** Blocks *)

Definition CancelTransaction (txid : bytes) : st DB unit := λ db,
  match pend_Delete txid db with
  | (Ret found, db') =>
      if (found : bool) then (Ret tt, db')
      else (Err (EMsg "Transaction ID not found in the list of unapproved transactions"), db')
  | (Err _, db') => (Ret tt, db')
  | (Panic p, db') => (Panic p, db')
  | (OutOfFuel, db') => (OutOfFuel, db')
  end.

(** One transaction of [GetUnapprovedTransactionsForNewBlock]; [txs] are the
    ones found valid before it. *)
Definition choose_tx (fuel : nat) (txs : list Transaction) (tx : Transaction)
    : st DB (list Transaction) := λ db,
  match VerifyTransaction fuel tx txs [] db with
  | Ret vtx => if (vtx : bool) then (Ret (txs ++ [tx]), db)
               else (_ ← drop_err (CancelTransaction (tx_ID tx)); mret txs) db
  | Err _ => (_ ← drop_err (CancelTransaction (tx_ID tx)); mret txs) db
  | Panic p => (Panic p, db)
  | OutOfFuel => (OutOfFuel, db)
  end.

Definition GetUnapprovedTransactionsForNewBlock (fuel : nat) (number : Z)
    : st DB (list Transaction) :=
  txlist ← ask (λ db, ignore_err [] (GetTransactions number db));
  txs ← sfor txlist (choose_tx fuel) [];
  if (Z.of_nat (length txs) =? 0)%Z
  then fail (EMsg "All transactions are invalid! Waiting for new ones...")
  else
    let '(txs, badtransactions) := DetectConflicts txs in
    _ ← sfor badtransactions (λ _ tx, drop_err (CancelTransaction (tx_ID tx))) tt;
    mret txs.

Definition tm_BlockAdded (block : Block) (ontopofchain : bool) : st DB unit :=
  _ ← drop_err (ti_BlockAdded block);
  if ontopofchain then
    _ ← drop_err (DeleteFromBlock block);
    drop_err (UpdateOnBlockAdd block)
  else mret tt.

Definition tm_BlockRemoved (fuel : nat) (block : Block) : st DB unit :=
  _ ← drop_err (AddFromCanceled (blk_Transactions block));
  _ ← drop_err (UpdateOnBlockCancel fuel block);
  drop_err (ti_BlockRemoved block).

Definition BlockAddedToPrimaryChain (block : Block) : st DB unit :=
  _ ← drop_err (DeleteFromBlock block);
  drop_err (UpdateOnBlockAdd block).

Definition BlockRemovedFromPrimaryChain (fuel : nat) (block : Block) : st DB unit :=
  _ ← drop_err (AddFromCanceled (blk_Transactions block));
  drop_err (UpdateOnBlockCancel fuel block).

(** *** Lookups and balances *)

Definition tm_GetIfExists (fuel : nat) (txid : bytes) (db : DB) : outcome (option Transaction) :=
  tx ← pend_GetIfExists txid db;
  match tx with
  | Some tx => Ret (Some tx)
  | None =>
      r ← GetTransactionAllInfo fuel txid [] db;
      Ret (match r with Some (tx, _, _) => Some tx | None => None end)
  end.

Definition GetIfUnapprovedExists (txid : bytes) (db : DB) : outcome (option Transaction) :=
  pend_GetIfExists txid db.

Definition getAddressPendingBalance (address : bytes) (db : DB) : outcome float64 :=
  PubKeyHash ← ignore_err [] (AddresToPubKeyHash address);
  '(_, outputs, inputs) ← GetPreparedBy PubKeyHash db;
  let pendingbalance := fold_left (λ b o, f64_add b (uo_Value o)) outputs f64_zero in
  mfor inputs (λ pendingbalance i,
    match un_GetInputValue i db with
    | Ret v => Ret (f64_sub pendingbalance v)
    | Err e => Err (EWrap "Pending Balance Error: input check fails on unspent: %s" e)
    | Panic p => Panic p
    | OutOfFuel => OutOfFuel
    end) pendingbalance.

Definition tm_GetAddressBalance (address : bytes) (db : DB) : outcome WalletBalance :=
  result ← un_GetAddressBalance address db;
  p ← getAddressPendingBalance address db;
  Ret (mkWalletBalance (f64_add result p) result p).

Definition GetUnapprovedCount (db : DB) : outcome Z := pend_GetCount db.
Definition GetUnspentCount (db : DB) : outcome Z := CountUnspentOutputs db.
Definition tm_ForEachUnapprovedTransaction {C} (callback : string → string → st C unit) (db : DB)
    : st C Z := forEachUnapprovedTransaction callback db.
Definition tm_ForEachUnspentOutput {C} (address : bytes)
    (callback : bytes → float64 → bytes → Z → bool → st C unit) (db : DB) : st C unit :=
  forEachUnspentOutput address callback db.
Definition tm_CleanUnapprovedCache : st DB unit := CleanUnapprovedCache.
End Manager.

(** ** What verification accepts *)

Section Verification.
Context `{Crypto} `{BoltLaws} `{GoSortLaws} `{GoRangeLaws}.
Context `{!Gob Transaction} `{!GobLaws Transaction} `{!Gob Block} `{!GobLaws Block}.
Context `{!Gob (list TXOutputIndependent)} `{!GobLaws (list TXOutputIndependent)}.
Context `{!Gob (list bytes)} `{!Gob (list TransactionsIndexSpentOutputs)}.
Implicit Types (f : boltfile) (db : DB) (tx : Transaction) (txs : list Transaction).

(** [Verify] reads the map at the inputs of the transaction only. *)
Lemma Verify_ext tx m m' :
  (∀ (i : nat) vin, tx_Vin tx !! i = Some vin → m !! Z.of_nat i = m' !! Z.of_nat i) →
  Verify tx m = Verify tx m'.
Proof.
  intros Hm. assert (∀ z vin, (z, vin) ∈ indexed (tx_Vin tx) → mget m z = mget m' z) as Hg.
  { intros z vin (i & -> & Hi)%elem_of_indexed. unfold mget. by rewrite (Hm i vin Hi). }
  assert (total_input m (tx_Vin tx) = total_input m' (tx_Vin tx)) as Et.
  { apply mfor_ext_in. intros acc [z vin] Hin. by rewrite (Hg z vin Hin). }
  assert (∀ c, mfor (indexed (tx_Vin tx)) (λ _ '(inID, vin), verify_input c m inID vin) tt
             = mfor (indexed (tx_Vin tx)) (λ _ '(inID, vin), verify_input c m' inID vin) tt) as Ev.
  { intros c. apply mfor_ext_in. intros _ [z vin] Hin. unfold verify_input, spent_output.
    by rewrite (Hg z vin Hin). }
  unfold Verify. destruct (IsCoinbase tx); [done|]. by rewrite Et, Ev.
Qed.

Lemma resolved_agree look find vins m m' (i : nat) vin :
  resolved look find vins m → resolved look find vins m' → vins !! i = Some vin →
  m !! Z.of_nat i = m' !! Z.of_nat i.
Proof.
  intros [_ Hr] [_ Hr'] Hi. destruct (Hr i vin Hi) as (t & -> & Ht), (Hr' i vin Hi) as (t' & -> & Ht').
  do 2 f_equal. destruct Ht as [?|[? ?]], Ht' as [?|[? ?]]; congruence.
Qed.

(** Both verifications resolve the inputs and then call [Verify]. *)
Lemma resolve_Verify look find check tx :
  (∀ inputs m r, check inputs m = Ret r ↔ checked_map find inputs m r) →
  (m ← resolve look (tx_Vin tx) check; _ ← Verify tx m; Ret true) = Ret true ↔
  ∃ m, resolved look find (tx_Vin tx) m ∧ Verify tx m = Ret tt.
Proof.
  intros Hck. destruct (resolve_iff look find (tx_Vin tx) check Hck) as [Hinv Hintro].
  split.
  - intros Hq. go_inv Hq. destruct v0. exists v. split; [by apply Hinv|done].
  - intros (m & Hm & Hv). destruct (Hintro m Hm) as [m' Hr]. rewrite Hr, ret_bind.
    rewrite (Verify_ext tx m' m), Hv; [done|]. intros i vin Hi.
    eapply resolved_agree; [by apply Hinv|done|done].
Qed.

Lemma VerifyTransaction_resolve fuel tx prevtxs tip db :
  IsCoinbase tx = false →
  VerifyTransaction fuel tx prevtxs tip db
  = (m ← resolve (λ vin, input_state fuel tip vin db) (tx_Vin tx)
           (λ inputs m, CheckInputsWereBefore inputs prevtxs m);
     _ ← Verify tx m; Ret true).
Proof.
  intros Hc.
  assert (getInputTransactionsState fuel tx tip db
    = (x ← mfor (indexed (tx_Vin tx)) (classify_step (λ vin, input_state fuel tip vin db)) (∅, ∅);
       Ret (x.2, x.1))) as Eg.
  { unfold getInputTransactionsState. rewrite Hc.
    apply (mfor_translate (λ p : gmap Z TXInput * prevmap, (p.2, p.1))); [|done].
    intros [nf m] [i vin]. unfold classify_step. simpl.
    by destruct (input_state fuel tip vin db) as [[t|]|e|p|]. }
  unfold VerifyTransaction, resolve. rewrite Eg. by destruct (mfor _ _ _) as [[nf m]|e|p|].
Qed.

(** [VerifyTransaction] as the resolution of the inputs and [Verify]; what the inputs
    resolve to is read off the blocks in [Verified.v]. *)
Lemma VerifyTransaction_resolved fuel tx prevtxs tip db :
  IsCoinbase tx = false →
  VerifyTransaction fuel tx prevtxs tip db = Ret true ↔
  ∃ m, resolved (λ vin, input_state fuel tip vin db) (find_before prevtxs) (tx_Vin tx) m ∧
       Verify tx m = Ret tt.
Proof.
  intros Hc. rewrite VerifyTransaction_resolve by done. apply resolve_Verify.
  intros inputs m r. apply CheckInputsWereBefore_iff.
Qed.

Lemma verifyTransactionQuick_resolve f db tx :
  opened f db →
  verifyTransactionQuick tx db
  = (m ← resolve (λ vin, unspent_input vin f db) (tx_Vin tx)
           (λ inputs m, CheckInputsArePrepared inputs m db);
     _ ← Verify tx m; Ret true).
Proof.
  intros Ho. unfold verifyTransactionQuick, resolve. rewrite (not_spent_classify f db _ Ho).
  by destruct (mfor _ _ _) as [[nf m]|e|p|].
Qed.

Lemma no_blank_unspent f T i : utxo_table f T → ¬ unspent T ([], i).
Proof.
  intros [[b E]%elem_of_dom Hs] (o & Ho & _). simpl in Ho. specialize (Hs []). revert Hs.
  rewrite (bget_lookup f _ b [] E), b_Get_blank. simpl. intros Hn. rewrite Hn in Ho.
  by apply elem_of_nil in Ho.
Qed.

(** C11: a transaction that [ReceivedNewTransaction] accepts is not a coinbase;
    each of its inputs spends an output of the set of unspent outputs or of a
    pending transaction; [Verify] accepts it with the transactions these come
    from; and it is now in the pool, which no conflict got into. *)
Theorem ReceivedNewTransaction_sound f db txs T tx db' :
  opened f db → pool f txs → conflict_free txs → utxo_table f T → located db T → tx_fits tx →
  ReceivedNewTransaction tx db = (Ret tt, db') →
  (∃ m, Verify tx m = Ret tt ∧ IsCoinbase tx = false ∧
     ∀ (i : nat) vin, tx_Vin tx !! i = Some vin →
       ∃ ptx, m !! Z.of_nat i = Some (Some ptx) ∧ tx_ID ptx = in_Txid vin ∧
              (unspent T (outpoint_of vin) ∨ ptx ∈ txs)) ∧
  ∃ f' txs', db' = with_bc f' db ∧ pool f' txs' ∧ with_tx tx txs txs' ∧ conflict_free txs' ∧
             only [unapprovedTransactionsBucket] f f'.
Proof.
  intros Ho Hp Hfree HT Hl Hfit Hr. apply st_bind_Ret in Hr as (good & s & Hq & Hadd).
  unfold ask in Hq. injection Hq as Hq <-.
  rewrite (verifyTransactionQuick_resolve f db tx Ho) in Hq.
  assert (good = true) as -> by (go_inv Hq; done). simpl in Hadd. split.
  - apply (resolve_Verify _ (λ txid, pend_GetIfExists txid db)) in Hq as (m & [_ Hm] & Hv);
      [|intros; apply CheckInputsArePrepared_iff].
    assert (∀ (i : nat) vin, tx_Vin tx !! i = Some vin → ∃ ptx, m !! Z.of_nat i = Some (Some ptx) ∧
      tx_ID ptx = in_Txid vin ∧ (unspent T (outpoint_of vin) ∨ ptx ∈ txs)) as Hall.
    { intros i vin Hi. destruct (Hm i vin Hi) as (ptx & Hmi & Hlook). exists ptx. split; [done|].
      destruct Hlook as [Hu|[_ Hf]].
      - destruct (unspent_input_spec f db T vin HT Hl) as (r & Er & Hs).
        rewrite Er in Hu. injection Hu as ->. destruct Hs. auto.
      - destruct (pend_GetIfExists_spec f db txs (in_Txid vin) Ho Hp) as (r & Er & Hs).
        rewrite Er in Hf. injection Hf as ->. destruct Hs. auto. }
    exists m. split; [done|]. split; [|done]. apply not_true_iff_false. intros Hc.
    unfold IsCoinbase in Hc. destruct (tx_Vin tx) as [|vin [|]]; try done.
    apply andb_prop in Hc as [E1%Z.eqb_eq E2%Z.eqb_eq].
    assert (in_Txid vin = []) as E by (destruct (in_Txid vin); [done|simpl in E1; lia]).
    destruct (Hall 0 vin) as (ptx & _ & Hid & [Hu|Hin]); [done| |].
    + unfold outpoint_of in Hu. rewrite E in Hu. by eapply no_blank_unspent.
    + apply (pool_ID_nonempty f txs ptx Hp Hin). congruence.
  - destruct (pend_Add_cases f db txs tx Ho Hp Hfit) as [(c & _ & _ & Ha)|(Hn & f' & txs' & Ha & ? & ? & Hw)].
    + rewrite Ha in Hadd. done.
    + rewrite Ha in Hadd. injection Hadd as <-. exists f', txs'. split_and!; try done.
      by eapply conflict_free_with.
Qed.

(** when every input of a transaction is found in a block under the tip and
    not spent there, [VerifyTransaction] comes down to [Verify]: neither the
    transactions before it in the block nor its other inputs are looked at, so
    two transactions of one block, or two inputs of one transaction, may spend
    the same output. *)
Theorem VerifyTransaction_confirmed fuel tx prevtxs tip db m :
  IsCoinbase tx = false →
  (∀ (i : nat) vin, tx_Vin tx !! i = Some vin →
     ∃ ptx, input_state fuel tip vin db = Ret (Some ptx) ∧ m !! Z.of_nat i = Some (Some ptx)) →
  VerifyTransaction fuel tx prevtxs tip db = Ret true ↔ Verify tx m = Ret tt.
Proof.
  intros Hc Hall. set (look := λ vin, input_state fuel tip vin db).
  assert (resolved look (find_before prevtxs) (tx_Vin tx) m) as Hm.
  { split.
    - unfold missing. rewrite filter_none; [constructor|]. apply Forall_lookup. intros i vin Hi.
      destruct (Hall i vin Hi) as (ptx & El & _). unfold look. by rewrite El.
    - intros i vin Hi. destruct (Hall i vin Hi) as (ptx & El & Em). exists ptx. auto. }
  rewrite VerifyTransaction_resolve by done.
  etrans; [apply (resolve_Verify look (find_before prevtxs)); intros; apply CheckInputsWereBefore_iff|].
  split; [|by exists m]. intros (m' & Hm' & <-). apply Verify_ext. intros i vin Hi.
  by eapply resolved_agree.
Qed.

(** *** The transactions of a new block *)

(** The database after changes of the pool only. *)
Definition pool_change f db txs db' : Prop :=
  ∃ f' txs', db' = with_bc f' db ∧ pool f' txs' ∧ only [unapprovedTransactionsBucket] f f' ∧
             ∀ t, t ∈ txs' → t ∈ txs.

Lemma cancel_change f db txs id s :
  opened f db → pool_change f db txs s →
  ∃ s', drop_err (CancelTransaction id) s = (Ret tt, s') ∧ pool_change f db txs s'.
Proof.
  intros Ho (f1 & txs1 & -> & Hp1 & Hb1 & Hin1).
  destruct (pend_Delete_spec f1 (with_bc f1 db) txs1 id (opened_only _ _ _ _ Ho Hb1) Hp1)
    as (f2 & txs2 & Hd & Hp2 & Hb2 & Hin2).
  exists (with_bc f2 db). split.
  - unfold drop_err, CancelTransaction. rewrite Hd. by destruct (bool_decide _).
  - exists f2, txs2. split_and!; [done|done|by eapply only_trans|].
    intros t [Ht _]%Hin2. by apply Hin1.
Qed.

Lemma cancel_all_change f db txs bad s :
  opened f db → pool_change f db txs s →
  ∃ s', sfor bad (λ _ tx, drop_err (CancelTransaction (tx_ID tx))) tt s = (Ret tt, s') ∧
        pool_change f db txs s'.
Proof.
  intros Ho. revert s. induction bad as [|tx bad IH]; intros s Hs; [by exists s|].
  destruct (cancel_change f db txs (tx_ID tx) s Ho Hs) as (s1 & H1' & Hs1).
  destruct (IH s1 Hs1) as (s2 & H2' & Hs2). exists s2. split; [|done].
  simpl. apply st_bind_Ret. eauto.
Qed.

Lemma choose_change f db txs fuel l acc s acc' s' :
  opened f db → pool_change f db txs s → sfor l (choose_tx fuel) acc s = (Ret acc', s') →
  pool_change f db txs s' ∧ ∀ t, t ∈ acc' → t ∈ acc ∨ t ∈ l.
Proof.
  intros Ho. revert acc s. induction l as [|tx l IH]; intros acc s Hs Hr.
  { injection Hr as <- <-. auto. }
  simpl in Hr. apply st_bind_Ret in Hr as (acc1 & s1 & H1' & Hr).
  assert (pool_change f db txs s1 ∧ ∀ t, t ∈ acc1 → t ∈ acc ∨ t = tx) as [Hs1 Hacc].
  { unfold choose_tx in H1'. destruct (cancel_change f db txs (tx_ID tx) s Ho Hs) as (s2 & Hc & Hs2).
    assert ((_ ← drop_err (CancelTransaction (tx_ID tx)); mret acc) s = (Ret acc, s2)) as Hk.
    { apply st_bind_Ret. by exists tt, s2. }
    destruct (VerifyTransaction fuel tx acc [] s) as [[]|e|p|]; rewrite ?Hk in H1'; simplify_eq; auto.
    split; [done|]. intros t [?|?%list_elem_of_singleton]%elem_of_app; auto. }
  destruct (IH acc1 s1 Hs1 Hr) as [Hs' Hin]. split; [done|].
  intros t [[?| ->]%Hacc|?]%Hin; [by left|right; left|right; by right].
Qed.

(** C17: the transactions that [GetUnapprovedTransactionsForNewBlock] gives for a
    new block are pending ones, and no two inputs of them spend one output;
    otherwise it only takes transactions from the pool. *)
Theorem GetUnapprovedTransactionsForNewBlock_safe f db txs fuel number r db' :
  opened f db → pool f txs →
  GetUnapprovedTransactionsForNewBlock fuel number db = (Ret r, db') →
  NoDup (mjoin (outpoints <$> r)) ∧ (∀ tx, tx ∈ r → tx ∈ txs) ∧
  ∃ f' txs', db' = with_bc f' db ∧ pool f' txs' ∧ only [unapprovedTransactionsBucket] f f' ∧
             ∀ t, t ∈ txs' → t ∈ txs.
Proof.
  intros Ho Hp Hr. apply st_bind_Ret in Hr as (l & s & Hl & Hr). injection Hl as Hl <-.
  destruct (GetTransactions_sorted f db txs number Ho Hp) as (l' & El & Hperm & _).
  rewrite El in Hl. injection Hl as <-.
  apply st_bind_Ret in Hr as (acc & s1 & Hs & Hr).
  destruct (choose_change f db txs fuel l' [] db acc s1 Ho) as [Hs1 Hacc]; [|done|].
  { exists f, txs. split_and!; [by rewrite with_bc_same|done|apply only_refl|done]. }
  destruct (Z.of_nat (length acc) =? 0)%Z; [done|].
  destruct (DetectConflicts_detected acc) as [m D].
  destruct (DetectConflicts acc) as [good bad]. simpl in D.
  destruct (cancel_all_change f db txs bad s1 Ho Hs1) as (s2 & Hc & Hs2).
  apply st_bind_Ret in Hr as ([] & s3 & Hc' & Hr). rewrite Hc in Hc'. injection Hc' as <-.
  injection Hr as <- <-. split_and!; [apply D| |exact Hs2].
  intros tx Hin. assert (tx ∈ acc) as Ha.
  { rewrite <- (dt_perm _ _ _ _ D). apply elem_of_app. by left. }
  destruct (Hacc tx Ha) as [[]%elem_of_nil|Ht]. rewrite Hperm in Ht.
  revert Ht. apply sublist_subseteq, sublist_take.
Qed.

(** *** The three tables together *)

(** [f] stores the index [L] and [S], the pool [txs] and the set [T]. *)
Definition node_rep f (L : bytes → list bytes) (S : bytes → list TransactionsIndexSpentOutputs)
    txs (T : bytes → list TXOutputIndependent) : Prop :=
  index_rep f (L, S) ∧ pool f txs ∧ conflict_free txs ∧ utxo_table f T.

Definition tx_buckets : list string :=
  [transactionsBucket; transactionsOutputsBucket; unapprovedTransactionsBucket;
   unspentTransactionsBucket].

Lemma node_utxo_kept f f' names T :
  utxo_table f T → only names f f' → unspentTransactionsBucket ∉ names → utxo_table f' T.
Proof. apply table_kept. Qed.

Lemma index_kept f f' names m :
  index_rep f m → only names f f' → transactionsBucket ∉ names →
  transactionsOutputsBucket ∉ names → index_rep f' m.
Proof. intros [H1' H2'] Ho Hn1 Hn2. split; by eapply table_kept. Qed.
End Verification.

Section Blocks.
Context `{Crypto} `{BoltLaws} `{GoSortLaws} `{GoRangeLaws}.
Context `{!Gob Transaction} `{!GobLaws Transaction} `{!Gob Block} `{!GobLaws Block}.
Context `{!Gob (list TXOutputIndependent)} `{!GobLaws (list TXOutputIndependent)}.
Context `{!Gob (list bytes)} `{!GobLaws (list bytes)}.
Context `{!Gob (list TransactionsIndexSpentOutputs)} `{!GobLaws (list TransactionsIndexSpentOutputs)}.

(** [BlockAdded] for a block on top of the chain records the block in the
    index, takes its transactions from the pool and applies them to the set of
    unspent outputs, and touches no other table. *)
Theorem tm_BlockAdded_spec f db L S txs T block :
  opened f db → node_rep f L S txs T →
  add_fits (block_ops block) (L, S) → block_ok T block →
  ∃ f' txs', tm_BlockAdded block true db = (Ret tt, with_bc f' db) ∧
    node_rep f' (λ k, L k ++ links_of k (block_ops block)) (λ k, S k ++ spent_of k (block_ops block))
      txs' (apply_block T block) ∧
    only tx_buckets f f' ∧ ∀ t, t ∈ txs' ↔ t ∈ txs ∧ tx_ID t ∉ block_ids block.
Proof.
  intros Ho (Hix & Hp & Hfree & HT) Hfit Hok.
  destruct (BlockAdded_ops f db block _ Ho Hix Hfit) as (f1 & Hr1 & Hix1 & Hb1).
  pose proof (opened_only f f1 db _ Ho Hb1) as Ho1.
  destruct (pool_kept f f1 txs _ Hp Hb1) as (txs1 & Hp1 & Hin1); [set_solver|].
  destruct (DeleteFromBlock_pool f1 _ txs1 block Ho1 Hp1) as (f2 & txs2 & Hr2 & Hp2 & Hb2 & Hin2).
  pose proof (opened_only f1 f2 _ _ Ho1 Hb2) as Ho2.
  assert (utxo_table f2 T) as HT2.
  { eapply table_kept; [eapply table_kept; [exact HT|exact Hb1|]|exact Hb2|]; set_solver. }
  destruct (UpdateOnBlockAdd_apply f2 _ T block Ho2 HT2 Hok) as (f3 & Hr3 & HT3 & Hb3).
  destruct (pool_kept f2 f3 txs2 _ Hp2 Hb3) as (txs3 & Hp3 & Hin3); [set_solver|].
  assert (∀ t, t ∈ txs3 ↔ t ∈ txs ∧ tx_ID t ∉ block_ids block) as Hin.
  { intros t. by rewrite Hin3, Hin2, Hin1. }
  exists f3, txs3. split_and!; [| | |done].
  - unfold tm_BlockAdded, mbind, st_bind. rewrite (drop_err_Ret _ _ _ _ Hr1), (drop_err_Ret _ _ _ _ Hr2).
    apply (drop_err_Ret _ _ _ _ Hr3).
  - split; [|split; [done|split; [|done]]].
    + assert (index_rep f3 (fold_left add_eff (block_ops block) (L, S))) as [H1' H2'].
      { eapply index_kept; [eapply index_kept; [exact Hix1|exact Hb2|..]|exact Hb3|..]; set_solver. }
      split; (eapply table_ext; [|done]); intros k; apply (add_eff_all _ (L, S)).
    + intros t1 t2 p [Ht1 _]%Hin [Ht2 _]%Hin. by apply Hfree.
  - eapply only_trans; [|eapply only_trans]; (eapply only_weaken; [|done]); set_solver.
Qed.
End Blocks.

(** ** Witnesses

    A chain of one block with a transaction whose output a payment spends; the
    same output is in the set of unspent outputs. *)

Module ManagerDemo.
Import ToyCrypto MapBolt InsertionSort MapRange Codecs Demo IndexDemo PendingDemo.

Definition demo_hash (x : byte) : bytes := zeros 30 ++ [x07; x].
Definition hash_d : bytes := demo_hash x01.
Definition blk_d : Block := mkBlock 0 [demo_prev] [] hash_d 0 0.
Definition out_d : TXOutputIndependent :=
  mkTXOutputIndependent (f64_of_Z 3) (HashPubKey demo_pub) [] [x09] 0 false hash_d.
Definition gob_text {A} `{Gob A} (a : A) : bytes :=
  match gob_Encode a with Ret d => d | _ => [] end.

Definition man_file : boltfile :=
  <[blocksBucket := ({[ str "l" := hash_d; hash_d := encoded blk_d ]} : gmap bytes bytes)]>
  (<[blockChainBucket := ({[ hash_d := zeros 64 ]} : gmap bytes bytes)]>
  (<[transactionsBucket := ({[ [x09] := gob_text [hash_d] ]} : gmap bytes bytes)]>
  (<[transactionsOutputsBucket := (∅ : gmap bytes bytes)]>
  (<[unapprovedTransactionsBucket := (∅ : gmap bytes bytes)]>
  (<[unspentTransactionsBucket := ({[ [x09] := gob_text [out_d] ]} : gmap bytes bytes)]> ∅))))).
Definition man_db : DB := mkDB true (Some man_file) None.
Definition man_L : bytes → list bytes := upd [x09] [hash_d] (λ _, []).
Definition man_T : bytes → list TXOutputIndependent := upd [x09] [out_d] (λ _, []).

Lemma man_opened : opened man_file man_db.
Proof. split_and!; [done|done|]. apply elem_of_dom. by eexists. Qed.

Lemma man_pool : pool man_file [].
Proof. exists (∅ : gmap bytes bytes). split; [done|]. vm_compute. constructor. Qed.

Lemma man_free : conflict_free [].
Proof. by intros t1 t2 p ?%elem_of_nil. Qed.

Lemma man_utxo : utxo_table man_file man_T.
Proof. apply (single_table _ _ _ (gob_text [out_d])); [done..|by vm_compute]. Qed.

Lemma man_index : index_rep man_file (man_L, λ _, []).
Proof.
  split; [apply (single_table _ _ _ (gob_text [hash_d])); [done..|by vm_compute]|].
  by apply empty_table.
Qed.

Lemma man_located : located man_db man_T.
Proof.
  intros k o. unfold man_T, upd. case_bool_decide as E; [|by intros ?%elem_of_nil].
  subst k. intros ->%list_elem_of_singleton. exists demo_prev. by vm_compute.
Qed.

(** A payment, with an identifier. *)
Definition pay_tx : Transaction := set_ID [x41] (demo_tx (demo_sig (f64_of_Z 3)) (f64_of_Z 3)).

Lemma pay_fits : tx_fits pay_tx.
Proof.
  apply small_fits; [|done|vm_compute; discriminate].
  intros d E. vm_compute in E. injection E as <-. vm_compute. discriminate.
Qed.

Lemma ReceivedNewTransaction_sound_witness :
  ∃ db', ReceivedNewTransaction pay_tx man_db = (Ret tt, db') ∧
  (∃ m, Verify pay_tx m = Ret tt ∧ IsCoinbase pay_tx = false ∧
     ∀ (i : nat) vin, tx_Vin pay_tx !! i = Some vin →
       ∃ ptx, m !! Z.of_nat i = Some (Some ptx) ∧ tx_ID ptx = in_Txid vin ∧
              (unspent man_T (outpoint_of vin) ∨ ptx ∈ [])) ∧
  ∃ f' txs', db' = with_bc f' man_db ∧ pool f' txs' ∧ with_tx pay_tx [] txs' ∧
             conflict_free txs' ∧ only [unapprovedTransactionsBucket] man_file f'.
Proof.
  assert (ReceivedNewTransaction pay_tx man_db
    = (Ret tt, (ReceivedNewTransaction pay_tx man_db).2)) as Hr.
  { rewrite (surjective_pairing (ReceivedNewTransaction pay_tx man_db)) at 1.
    apply (f_equal2 pair); [vm_compute; reflexivity|reflexivity]. }
  exists (ReceivedNewTransaction pay_tx man_db).2. split; [exact Hr|].
  apply (ReceivedNewTransaction_sound man_file man_db [] man_T pay_tx); [..|exact Hr].
  - apply man_opened.
  - apply man_pool.
  - apply man_free.
  - apply man_utxo.
  - apply man_located.
  - apply pay_fits.
Defined.

(** Two inputs that spend the one output of 3, and an output of 6. *)
Definition dup_unsigned (sig0 sig1 : bytes) : Transaction :=
  mkTransaction [x42] [mkTXInput [x09] 0 sig0 demo_pub; mkTXInput [x09] 0 sig1 demo_pub]
    [demo_out (f64_of_Z 6)] 1.
Definition dup_sig (i : Z) : bytes :=
  match (text ← input_text (unsigned (dup_unsigned [] [])) i (HashPubKey demo_pub);
         SignData (H := toy_crypto) 7%Z 0%N text) with
  | Ret s => s
  | _ => []
  end.
Definition dup_tx : Transaction := dup_unsigned (dup_sig 0) (dup_sig 1).
Definition dup_map : prevmap := {[ 0%Z := Some demo_prev; 1%Z := Some demo_prev ]}.

Lemma dup_confirmed (i : nat) vin :
  tx_Vin dup_tx !! i = Some vin →
  ∃ ptx, input_state 1 [] vin man_db = Ret (Some ptx) ∧ dup_map !! Z.of_nat i = Some (Some ptx).
Proof.
  intros Hi. exists demo_prev. destruct i as [|[|i]]; [..|done]; simpl in Hi; injection Hi as <-;
    (split; [vm_compute; reflexivity|reflexivity]).
Qed.

Lemma dup_outpoints sig0 sig1 : outpoints (dup_unsigned sig0 sig1) = [([x09], 0%Z); ([x09], 0%Z)].
Proof. reflexivity. Qed.

Lemma VerifyTransaction_confirmed_witness :
  ¬ NoDup (outpoints dup_tx) ∧ VerifyTransaction 1 dup_tx [] [] man_db = Ret true.
Proof.
  split.
  - unfold dup_tx. rewrite dup_outpoints. intros [Hn _]%NoDup_cons. apply Hn. left.
  - apply (VerifyTransaction_confirmed 1 dup_tx [] [] man_db dup_map).
    + reflexivity.
    + apply dup_confirmed.
    + vm_compute. reflexivity.
Defined.

(** The payment is pending. *)
Definition pool_file : boltfile :=
  <[unapprovedTransactionsBucket :=
      ({[ [x41] := match tx_Serialize pay_tx with Ret d => d | _ => [] end ]} : gmap bytes bytes)]>
  man_file.
Definition pool_db : DB := mkDB true (Some pool_file) None.

Lemma pool_file_opened : opened pool_file pool_db.
Proof. split_and!; [done|done|]. apply elem_of_dom. by eexists. Qed.

Lemma pool_file_pool : pool pool_file [pay_tx].
Proof.
  eexists. split; [done|]. vm_compute. constructor; [|constructor]. split_and!; vm_compute; done.
Qed.

Lemma GetUnapprovedTransactionsForNewBlock_safe_witness :
  ∃ db', GetUnapprovedTransactionsForNewBlock 1 5 pool_db = (Ret [pay_tx], db') ∧
    NoDup (mjoin (outpoints <$> [pay_tx])) ∧ (∀ tx, tx ∈ [pay_tx] → tx ∈ [pay_tx]) ∧
    ∃ f' txs', db' = with_bc f' pool_db ∧ pool f' txs' ∧
      only [unapprovedTransactionsBucket] pool_file f' ∧ ∀ t, t ∈ txs' → t ∈ [pay_tx].
Proof.
  assert (GetUnapprovedTransactionsForNewBlock 1 5 pool_db
    = (Ret [pay_tx], (GetUnapprovedTransactionsForNewBlock 1 5 pool_db).2)) as Hr.
  { rewrite (surjective_pairing (GetUnapprovedTransactionsForNewBlock 1 5 pool_db)) at 1.
    apply (f_equal2 pair); [vm_compute; reflexivity|reflexivity]. }
  exists (GetUnapprovedTransactionsForNewBlock 1 5 pool_db).2. split; [exact Hr|].
  apply (GetUnapprovedTransactionsForNewBlock_safe pool_file pool_db [pay_tx] 1 5 [pay_tx]); [..|exact Hr].
  - apply pool_file_opened.
  - apply pool_file_pool.
Defined.

Lemma man_rep : node_rep man_file man_L (λ _, []) [] man_T.
Proof. split; [apply man_index|split; [apply man_pool|split; [apply man_free|apply man_utxo]]]. Qed.

(** The next block, with the payment. *)
Definition blk_pay : Block := mkBlock 0 [pay_tx] hash_d (demo_hash x02) 0 1.

Lemma tm_BlockAdded_spec_witness :
  ∃ f' txs', tm_BlockAdded blk_pay true man_db = (Ret tt, with_bc f' man_db) ∧
    node_rep f' (λ k, man_L k ++ links_of k (block_ops blk_pay))
      (λ k, [] ++ spent_of k (block_ops blk_pay)) txs' (apply_block man_T blk_pay) ∧
    only tx_buckets man_file f' ∧ ∀ t, t ∈ txs' ↔ t ∈ [] ∧ tx_ID t ∉ block_ids blk_pay.
Proof.
  apply (tm_BlockAdded_spec man_file man_db man_L (λ _, []) [] man_T blk_pay).
  - apply man_opened.
  - apply man_rep.
  - apply add_fitsb_fits. vm_compute. reflexivity.
  - split; [split|done]; [split; [|done]|]; apply fitsb_fits; vm_compute; reflexivity.
Defined.
End ManagerDemo.
