(* ===== verification/Consensus.v ===== *)
(** * Package [node/consensus]: making and verifying blocks

    [proofofwork.go], [manager.go] and [interface.go].  The block maker takes
    pending transactions for a new block, adds the payment for the maker and
    looks for a nonce; a block that arrives is checked against the proof of
    work, the limits on the number of transactions and the rules for
    transactions.  The pause of [CompleteBlock], which waits for
    [MinimumBlockBuildingTime], has no effect on the state and is left out. *)

From Stdlib Require Import Strings.Byte ZifyNat.
From stdpp Require Import base strings numbers gmap sorting list.
From S2P Require Import Prelude Float64 Platform Concrete Utils Merkle Structures Codecs Signing.
From S2P Require Import Database ChainIndex Tables Blockchain Branches BlockchainLookup.
From S2P Require Import BlockchainUpdate TxIndex Pending Unspent TxManager.

(** ** [node/config/constants.go] *)

Definition TargetBits : Z := 16.
Definition TargetBits_2 : Z := 24.
Definition MaxMinNumberTransactionInBlock : Z := 1000.
Definition MaxNumberTransactionInBlock : Z := 10000.

(** ** [interface.go] *)

Definition BlockPrepare_Error : Z := 0.
Definition BlockPrepare_Done : Z := 1.
Definition BlockPrepare_NoTransactions : Z := 2.
Definition BlockPrepare_NotGoodTime : Z := 3.

(** ** [proofofwork.go] *)

(** [math.MaxInt64]. *)
Definition maxNonce : Z := 2 ^ 63 - 1.

Record ProofOfWork := mkProofOfWork { pow_block : Block; pow_target : Z }.

Definition NewProofOfWork (b : Block) : ProofOfWork :=
  let tb := if (1000 <=? blk_Height b)%Z then TargetBits_2 else TargetBits in
  mkProofOfWork b (Z.shiftl 1 (256 - tb)).

Section Work.
Context `{Crypto}.

Definition prepareData (pow : ProofOfWork) : outcome bytes :=
  txshash ← HashTransactions (pow_block pow);
  Ret (blk_PrevBlockHash (pow_block pow) ++ txshash
         ++ IntToHex (blk_Timestamp (pow_block pow)) ++ IntToHex TargetBits).

Definition addNonceToPrepared (data : bytes) (nonce : Z) : bytes := data ++ IntToHex nonce.

(** A round of the loop of [Run]: the nonce to try and the hash of the round
    before. *)
Definition run_round (target : Z) (predata : bytes) (s : Z * bytes)
    : outcome (step (Z * bytes) (Z * bytes)) :=
  let '(nonce, hash) := s in
  Ret (if (nonce <? maxNonce)%Z then
         let data := addNonceToPrepared predata nonce in
         let hash := sha256_Sum256 data in
         if (big_SetBytes hash <? target)%Z then Break (nonce, hash)
         else Continue (nonce + 1, hash)%Z
       else Break (nonce, hash)).

Definition Run (fuel : nat) (pow : ProofOfWork) : outcome (Z * bytes) :=
  predata ← prepareData pow;
  loop fuel (run_round (pow_target pow) predata) (0%Z, zeros 32).

Definition Validate (pow : ProofOfWork) : outcome bool :=
  predata ← prepareData pow;
  let data := addNonceToPrepared predata (blk_Nonce (pow_block pow)) in
  let hash := sha256_Sum256 data in
  Ret (big_SetBytes hash <? pow_target pow)%Z.
End Work.

(** ** [manager.go] *)

Section BlockMaker.
Context `{Crypto} `{Bolt} `{GoSort} `{GoRange} `{!Gob Transaction} `{!Gob Block}.
Context `{!Gob (list TXOutputIndependent)}.
Context `{!Gob (list bytes)} `{!Gob (list TransactionsIndexSpentOutputs)}.

Record NodeBlockMaker := mkNodeBlockMaker {
  nb_DB : DB;
  nb_MinterAddress : bytes;
  nb_PreparedBlock : option Block
}.

(** An operation on the database of the block maker. *)
Definition on_DB {A} (op : st DB A) : st NodeBlockMaker A := λ n,
  let '(r, db) := op (nb_DB n) in
  (r, mkNodeBlockMaker db (nb_MinterAddress n) (nb_PreparedBlock n)).

Definition NewConsensusManager (minter : bytes) (db : DB) : NodeBlockMaker :=
  mkNodeBlockMaker db minter None.
Definition SetDBManager (db : DB) (n : NodeBlockMaker) : NodeBlockMaker :=
  mkNodeBlockMaker db (nb_MinterAddress n) (nb_PreparedBlock n).
Definition SetMinterAddress (minter : bytes) (n : NodeBlockMaker) : NodeBlockMaker :=
  mkNodeBlockMaker (nb_DB n) minter (nb_PreparedBlock n).
Definition SetPreparedBlock (block : option Block) (n : NodeBlockMaker) : NodeBlockMaker :=
  mkNodeBlockMaker (nb_DB n) (nb_MinterAddress n) block.
Definition IsBlockPrepared (n : NodeBlockMaker) : bool :=
  bool_decide (is_Some (nb_PreparedBlock n)).
Definition checkGoodTimeToMakeBlock (n : NodeBlockMaker) : bool := true.

Definition getTransactionNumbersLimits (block : option Block) (db : DB) : outcome (Z * Z) :=
  min ← (match block with
         | None => bestHeight ← GetBestHeight db; Ret (int64_wrap (bestHeight + 1))
         | Some block => Ret (blk_Height block)
         end);
  let min := (if (MaxMinNumberTransactionInBlock <? min)%Z then MaxMinNumberTransactionInBlock
              else if (min <? 1)%Z then 1%Z else min) in
  Ret (min, MaxNumberTransactionInBlock).

(** The error of the limits is not looked at; they are 0 then. *)
Definition checkUnapprovedCache (db : DB) : outcome bool :=
  match GetUnapprovedCount db with
  | Err _ => Ret false
  | Ret count =>
      '(min, max) ← ignore_err (0, 0)%Z (getTransactionNumbersLimits None db);
      Ret (min <=? count)%Z
  | Panic p => Panic p
  | OutOfFuel => OutOfFuel
  end.

(** [now] is the clock and [randData] what the random reader returns. *)
Definition makeNewBlockFromTransactions (minter : bytes) (now : Z) (randData : outcome bytes)
    (transactions : list Transaction) (db : DB) : outcome Block :=
  '(lastHash, lastHeight) ← GetState db;
  cbTx ← MakeCoinbaseTX (mkTransaction [] [] [] 0) minter [] randData;
  let transactions := transactions ++ [cbTx] in
  Ret (PrepareNewBlock transactions lastHash (int64_wrap (lastHeight + 1)) now).

Definition doPrepareNewBlock (fuel : nat) (now : Z) (randData : outcome bytes)
    : st NodeBlockMaker unit :=
  count ← on_DB (ask GetUnapprovedCount);
  limits ← on_DB (ask (getTransactionNumbersLimits None));
  let '(min, max) := limits in
  if (min <=? count)%Z then
    let count := if (max <? count)%Z then max else count in
    txs ← on_DB (GetUnapprovedTransactionsForNewBlock fuel count);
    if (Z.of_nat (length txs) <? min)%Z
    then fail (EMsg "No enought valid transactions! Waiting for new ones...")
    else
      newBlock ← ask (λ n, makeNewBlockFromTransactions (nb_MinterAddress n) now randData txs (nb_DB n));
      effect (λ n, (Ret tt, SetPreparedBlock (Some newBlock) n))
  else mret tt.

Definition nb_PrepareNewBlock (fuel : nat) (now : Z) (randData : outcome bytes)
    : st NodeBlockMaker Z := λ n,
  if IsBlockPrepared n then (Err (EMsg "There is a block prepared already"), n)
  else if negb (checkGoodTimeToMakeBlock n) then (Ret BlockPrepare_NotGoodTime, n)
  else
    (good ← on_DB (ask checkUnapprovedCache);
     if negb good then mret BlockPrepare_NoTransactions
     else
       _ ← effect (λ n, (Ret tt, SetPreparedBlock None n));
       _ ← doPrepareNewBlock fuel now randData;
       prepared ← ask (λ n, Ret (nb_PreparedBlock n));
       mret (match prepared with
             | None => BlockPrepare_NoTransactions
             | Some _ => BlockPrepare_Done
             end)) n.

(** The block returned is the prepared one, which gets its hash and nonce. *)
Definition CompleteBlock (fuel : nat) : st NodeBlockMaker Block := λ n,
  match nb_PreparedBlock n with
  | None => (Err (EMsg "Block was not prepared"), n)
  | Some b =>
      (r ← lift (Run fuel (NewProofOfWork b));
       let '(nonce, hash) := r in
       let b := mkBlock (blk_Timestamp b) (blk_Transactions b) (blk_PrevBlockHash b) hash nonce
                  (blk_Height b) in
       _ ← effect (λ n, (Ret tt, SetPreparedBlock (Some b) n));
       mret b) n
  end.

(** One transaction of [VerifyBlock]: whether there was a coinbase, and the
    transactions before. *)
Definition verify_block_tx (fuel : nat) (prevBlockHash : bytes) (db : DB)
    (acc : bool * list Transaction) (tx : Transaction) : outcome (bool * list Transaction) :=
  let '(coinbaseused, prevTXs) := acc in
  if IsCoinbase tx && coinbaseused then Err (EMsg "2 coin base TX in the block")
  else
    let coinbaseused := coinbaseused || IsCoinbase tx in
    vtx ← VerifyTransaction fuel tx prevTXs prevBlockHash db;
    if negb vtx then Err (EFmt "Transaction in a block is not valid: %x" [ABytes (tx_ID tx)])
    else Ret (coinbaseused, prevTXs ++ [tx]).

Definition VerifyBlock (fuel : nat) (block : Block) (db : DB) : outcome unit :=
  let pow := NewProofOfWork block in
  valid ← Validate pow;
  if negb valid then Err (EMsg "Block hash is not valid")
  else
    let txnum := (Z.of_nat (length (blk_Transactions block)) - 1)%Z in
    '(min, max) ← getTransactionNumbersLimits (Some block) db;
    if (txnum <? min)%Z then Err (EMsg "Number of transactions is too low")
    else if (max <? txnum)%Z then Err (EMsg "Number of transactions is too high")
    else
      '(coinbaseused, _) ← mfor (blk_Transactions block)
        (verify_block_tx fuel (blk_PrevBlockHash block) db) (false, []);
      if negb coinbaseused then Err (EMsg "No coinbase TX in the block")
      else Ret tt.
End BlockMaker.

(** ** Proof of work *)

Section WorkTheorems.
Context `{Crypto}.
Implicit Types (b : Block) (pow : ProofOfWork).

(** The hash of the data with the nonce is below the target. *)
Definition meets pow (predata : bytes) (nonce : Z) : bool :=
  (big_SetBytes (sha256_Sum256 (addNonceToPrepared predata nonce)) <? pow_target pow)%Z.

(** The block with the nonce and its hash. *)
Definition solved b (nonce : Z) (hash : bytes) : Block :=
  mkBlock (blk_Timestamp b) (blk_Transactions b) (blk_PrevBlockHash b) hash nonce (blk_Height b).

Lemma prepareData_solved b nonce hash :
  prepareData (NewProofOfWork (solved b nonce hash)) = prepareData (NewProofOfWork b).
Proof. reflexivity. Qed.

Lemma Validate_meets b predata :
  prepareData (NewProofOfWork b) = Ret predata →
  Validate (NewProofOfWork b) = Ret (meets (NewProofOfWork b) predata (blk_Nonce b)).
Proof. intros E. unfold Validate. by rewrite E. Qed.

(** What the loop of [Run] returns when it starts at [k]: the first nonce from
    [k] on that meets the target, or [maxNonce] if there is none. *)
Definition first_from pow predata (k n : Z) : Prop :=
  (k ≤ n)%Z ∧ (∀ j, (k ≤ j < n)%Z → meets pow predata j = false) ∧
  (n = maxNonce ∨ (n < maxNonce)%Z ∧ meets pow predata n = true).

(** One round goes on for each nonce that does not meet the target. *)
Lemma Run_loop pow predata (d : nat) k n hash fuel :
  first_from pow predata k n → (n - k < Z.of_nat (S d))%Z → (k ≤ maxNonce)%Z → S d ≤ fuel →
  ∃ h, loop fuel (run_round (pow_target pow) predata) (k, hash) = Ret (n, h) ∧
       ((n < maxNonce)%Z → h = sha256_Sum256 (addNonceToPrepared predata n)).
Proof.
  revert k hash fuel. induction d as [|d IH]; intros k hash [|fuel] Hf Hd Hk Hfuel; try lia;
    cbn [loop run_round]; destruct Hf as (Hkn & Hj & Hn); fold (meets pow predata k).
  all: destruct (Z.ltb_spec k maxNonce) as [Hlt|Hge].
  - assert (k = n) as -> by lia. destruct Hn as [->|[_ Hm]]; [lia|].
    rewrite Hm. eexists. by split.
  - assert (k = n) as -> by lia. eexists. split; [done|lia].
  - destruct (meets pow predata k) eqn:Hm; rewrite ret_bind; cbv iota.
    + destruct (decide (k = n)) as [->|Hne]; [eexists; by split|].
      rewrite Hj in Hm by lia. done.
    + apply (IH (k + 1)%Z); [|lia..]. split; [|split; [|done]].
      * destruct (decide (k = n)) as [->|]; [|lia]. destruct Hn as [|[_ Hm']]; [lia|congruence].
      * intros j Hj'. apply Hj. lia.
  - assert (k = n) as -> by lia. eexists. split; [done|lia].
Qed.

(** The first nonce exists. *)
Lemma first_from_exists pow predata (d : nat) k :
  (maxNonce - k = Z.of_nat d)%Z → ∃ n, first_from pow predata k n.
Proof.
  revert k. induction d as [|d IH]; intros k Hd.
  - exists maxNonce. split; [lia|]. split; [lia|by left].
  - destruct (meets pow predata k) eqn:Hm.
    + exists k. split; [lia|]. split; [lia|right]. split; [lia|done].
    + destruct (IH (k + 1)%Z) as (n & Hkn & Hj & Hn); [lia|]. exists n. split; [lia|].
      split; [|done]. intros j Hj'. destruct (decide (j = k)) as [->|]; [done|]. apply Hj. lia.
Qed.

Lemma Run_first b predata n fuel :
  prepareData (NewProofOfWork b) = Ret predata → first_from (NewProofOfWork b) predata 0 n →
  Z.to_nat n < fuel →
  ∃ h, Run fuel (NewProofOfWork b) = Ret (n, h) ∧
       ((n < maxNonce)%Z → h = sha256_Sum256 (addNonceToPrepared predata n)).
Proof.
  intros Hp Hn Hf. unfold Run. rewrite Hp, ret_bind.
  apply (Run_loop _ _ (Z.to_nat n)); [done|destruct Hn; lia|unfold maxNonce; lia|lia].
Qed.

(** A nonce that [Run] returns below [maxNonce] meets the target. *)
Lemma Run_meets fuel b predata nonce hash :
  prepareData (NewProofOfWork b) = Ret predata →
  Run fuel (NewProofOfWork b) = Ret (nonce, hash) → (nonce < maxNonce)%Z →
  meets (NewProofOfWork b) predata nonce = true.
Proof.
  intros Hp Hr Hlt. unfold Run in Hr. rewrite Hp, ret_bind in Hr. revert Hr.
  generalize 0%Z (zeros 32). induction fuel as [|fuel IH]; intros k h Hr; [done|].
  cbn [loop run_round] in Hr. destruct (Z.ltb_spec k maxNonce).
  - fold (meets (NewProofOfWork b) predata k) in Hr.
    destruct (meets (NewProofOfWork b) predata k) eqn:Hm; rewrite ret_bind in Hr; cbv iota in Hr.
    + by injection Hr as <- _.
    + by eapply IH.
  - rewrite ret_bind in Hr. injection Hr as <- _. lia.
Qed.
End WorkTheorems.

(** ** Completing and verifying a block *)

Section Blocks.
Context `{Crypto} `{Bolt} `{GoSort} `{GoRange} `{!Gob Transaction} `{!Gob Block}.
Context `{!Gob (list TXOutputIndependent)}.
Context `{!Gob (list bytes)} `{!Gob (list TransactionsIndexSpentOutputs)}.
Implicit Types (b block : Block) (tx : Transaction) (txs : list Transaction) (db : DB).

(** C14: the search for a nonce ends, at the first nonce whose hash is below the
    target, or at [maxNonce] when none is.  With more rounds than that nonce
    [CompleteBlock] returns the prepared block with the nonce and its hash, and
    the block passes [Validate] when the nonce was found. *)
Theorem CompleteBlock_solves n b predata :
  nb_PreparedBlock n = Some b → prepareData (NewProofOfWork b) = Ret predata →
  ∃ nonce, first_from (NewProofOfWork b) predata 0 nonce ∧
    ∀ fuel, Z.to_nat nonce < fuel → ∃ hash,
      CompleteBlock fuel n
      = (Ret (solved b nonce hash), SetPreparedBlock (Some (solved b nonce hash)) n) ∧
      ((nonce < maxNonce)%Z → hash = sha256_Sum256 (addNonceToPrepared predata nonce) ∧
                              Validate (NewProofOfWork (solved b nonce hash)) = Ret true).
Proof.
  intros Hb Hp.
  destruct (first_from_exists (NewProofOfWork b) predata (Z.to_nat maxNonce) 0) as [nonce Hn];
    [unfold maxNonce; lia|].
  exists nonce. split; [done|]. intros fuel Hf.
  destruct (Run_first b predata nonce fuel Hp Hn Hf) as (hash & Hr & Hh). exists hash. split.
  - unfold CompleteBlock. rewrite Hb. apply st_bind_Ret. exists (nonce, hash), n.
    split; [unfold lift; by rewrite Hr|]. apply st_bind_Ret. by eexists tt, _.
  - intros Hlt. split; [by apply Hh|]. rewrite (Validate_meets _ predata) by done.
    destruct Hn as (_ & _ & [->|[_ Hm]]); [lia|]. by f_equal.
Qed.

(** *** [VerifyBlock] *)

(** The least number of transactions of a block, but for the coinbase. *)
Definition least_number (height : Z) : Z := Z.max 1 (Z.min MaxMinNumberTransactionInBlock height).

Lemma limits_of_block block db :
  getTransactionNumbersLimits (Some block) db
  = Ret (least_number (blk_Height block), MaxNumberTransactionInBlock).
Proof.
  unfold getTransactionNumbersLimits, least_number, MaxMinNumberTransactionInBlock.
  rewrite ret_bind. do 2 f_equal.
  destruct (Z.ltb_spec 1000 (blk_Height block)); [lia|].
  destruct (Z.ltb_spec (blk_Height block) 1); lia.
Qed.

Definition coinbases txs : list Transaction := filter (λ tx, IsCoinbase tx = true) txs.

(** Each transaction verifies after the ones before it. *)
Definition each_verified (fuel : nat) (tip : bytes) db (before txs : list Transaction) : Prop :=
  ∀ (i : nat) tx, txs !! i = Some tx →
    VerifyTransaction fuel tx (before ++ take i txs) tip db = Ret true.

Lemma each_verified_cons fuel tip db before tx txs :
  each_verified fuel tip db before (tx :: txs) ↔
  VerifyTransaction fuel tx before tip db = Ret true ∧ each_verified fuel tip db (before ++ [tx]) txs.
Proof.
  unfold each_verified. split.
  - intros Hv. split; [specialize (Hv 0 tx eq_refl); by rewrite app_nil_r in Hv|].
    intros i t Hi. rewrite <- app_assoc. apply (Hv (S i) t Hi).
  - intros [Hv0 Hv] [|i] t Hi; [injection Hi as <-; by rewrite app_nil_r|].
    simpl in Hi |- *. specialize (Hv i t Hi). by rewrite <- app_assoc in Hv.
Qed.

Lemma each_verified_snoc fuel tip db txs tx :
  each_verified fuel tip db [] txs → VerifyTransaction fuel tx txs tip db = Ret true →
  each_verified fuel tip db [] (txs ++ [tx]).
Proof.
  intros Hv Htx i t Hi. simpl. destruct (decide (i < length txs)) as [Hl|Hl].
  - rewrite lookup_app_l in Hi by done. rewrite take_app_le by lia. by apply (Hv i t).
  - rewrite lookup_app_r in Hi by lia. destruct (i - length txs) as [|j] eqn:E; [|done].
    injection Hi as <-. by rewrite take_app_length' by lia.
Qed.

Lemma verify_block_tx_Ret fuel tip db used before tx acc :
  verify_block_tx fuel tip db (used, before) tx = Ret acc ↔
  VerifyTransaction fuel tx before tip db = Ret true ∧ IsCoinbase tx && used = false ∧
  acc = (used || IsCoinbase tx, before ++ [tx]).
Proof.
  unfold verify_block_tx. destruct (IsCoinbase tx && used); [by split; [|intros (_ & ? & _)]|].
  destruct (VerifyTransaction fuel tx before tip db) as [[]|e|p|]; simpl.
  2-5: by split; [|intros (? & _)].
  split; [by intros [= <-]|by intros (_ & _ & ->)].
Qed.

Lemma verify_block_txs fuel tip db txs used before used' before' :
  mfor txs (verify_block_tx fuel tip db) (used, before) = Ret (used', before') ↔
  before' = before ++ txs ∧ used' = used || bool_decide (coinbases txs ≠ []) ∧
  length (coinbases txs) + (if used then 1 else 0) ≤ (if used' then 1 else 0) ∧
  each_verified fuel tip db before txs.
Proof.
  revert used before. induction txs as [|tx txs IH]; intros used before; cbn [mfor].
  { rewrite app_nil_r, orb_false_r. split; [intros [= <- <-]; split_and!; [done|done|by destruct used|by intros]|].
    by intros (-> & -> & _ & _). }
  rewrite each_verified_cons, outcome_bind_Ret. setoid_rewrite verify_block_tx_Ret.
  transitivity (VerifyTransaction fuel tx before tip db = Ret true ∧ IsCoinbase tx && used = false ∧
    mfor txs (verify_block_tx fuel tip db) (used || IsCoinbase tx, before ++ [tx])
    = Ret (used', before')); [naive_solver|].
  rewrite IH, <- app_assoc. unfold coinbases. rewrite filter_cons.
  destruct (IsCoinbase tx); [rewrite decide_True by done|rewrite decide_False by done; rewrite orb_false_r; naive_solver].
  rewrite (bool_decide_eq_true_2 (_ :: _ ≠ [])) by done. destruct used; simpl.
  - split; [by intros (_ & ? & _)|]. intros (_ & -> & ? & _). lia.
  - split; [intros (Hv & _ & -> & -> & Hl & Hvs)|intros (-> & -> & Hl & Hv & Hvs)]; split_and!; try done; lia.
Qed.

Lemma VerifyBlock_accepts fuel block db :
  let txs := blk_Transactions block in
  Validate (NewProofOfWork block) = Ret true →
  (least_number (blk_Height block) ≤ Z.of_nat (length txs) - 1 ≤ MaxNumberTransactionInBlock)%Z →
  length (coinbases txs) = 1 → each_verified fuel (blk_PrevBlockHash block) db [] txs →
  VerifyBlock fuel block db = Ret tt.
Proof.
  intros txs Hw Hn Hc Hv. unfold VerifyBlock. fold txs. rewrite Hw, ret_bind. cbn [negb].
  rewrite limits_of_block, ret_bind, (proj2 (Z.ltb_ge _ _)), (proj2 (Z.ltb_ge _ _)) by lia.
  rewrite (proj2 (verify_block_txs fuel (blk_PrevBlockHash block) db txs false [] true txs)); [done|].
  split_and!; try done; [|simpl; lia].
  rewrite bool_decide_eq_true_2; [done|]. by destruct (coinbases txs).
Qed.

(** C13: [VerifyBlock] accepts a block exactly when its nonce meets the target
    of its height, the number of its transactions without the coinbase is in
    the limits, exactly one of them is a coinbase, and each is accepted after
    those before it, on the branch of the block before. *)
Theorem VerifyBlock_iff fuel block db :
  let txs := blk_Transactions block in
  VerifyBlock fuel block db = Ret tt ↔
  Validate (NewProofOfWork block) = Ret true ∧
  (least_number (blk_Height block) ≤ Z.of_nat (length txs) - 1 ≤ MaxNumberTransactionInBlock)%Z ∧
  length (coinbases txs) = 1 ∧
  each_verified fuel (blk_PrevBlockHash block) db [] txs.
Proof.
  intros txs. split; [|intros (Hw & Hn & Hc & Hv); by apply VerifyBlock_accepts].
  unfold VerifyBlock. fold txs.
  destruct (Validate (NewProofOfWork block)) as [[]|e|p|]; cbn [mbind outcome_bind negb]; try done.
  rewrite limits_of_block, ret_bind.
  destruct (Z.ltb_spec (Z.of_nat (length txs) - 1) (least_number (blk_Height block))); [done|].
  destruct (Z.ltb_spec MaxNumberTransactionInBlock (Z.of_nat (length txs) - 1)); [done|].
  intros Hv. go_inv Hv. destruct v as [used before]. destruct used; [|done].
  apply verify_block_txs in E as (_ & Hu & Hc & Hv'). split_and!; try done.
  simpl in Hu. symmetry in Hu. apply bool_decide_eq_true_1 in Hu.
  destruct (coinbases txs); [done|]. simpl in *. lia.
Qed.
End Blocks.
