(* ===== verification/Mining.v ===== *)
(** * A block made by the node passes the node's own verification

    The block maker chooses transactions by verifying them against the top of
    the chain, one after another, and [VerifyBlock] verifies them against the
    block before.  This file shows that both come to the same: verification
    does not read the pool that choosing changes, and the empty tip stands for
    the top. *)

From Stdlib Require Import Strings.Byte ZifyNat.
From stdpp Require Import base strings numbers gmap sorting list.
From S2P Require Import Prelude Float64 Platform Concrete Utils Merkle Structures Codecs Signing.
From S2P Require Import Database ChainIndex Tables Blockchain Branches BlockchainLookup.
From S2P Require Import BlockchainUpdate TxIndex Pending Unspent TxManager Consensus.

Import BlockchainDB.

(** ** What verification reads *)

Lemma loop_ext {S R} fuel (body body' : S → outcome (step S R)) s :
  (∀ s, body s = body' s) → loop fuel body s = loop fuel body' s.
Proof.
  intros E. revert s. induction fuel as [|fuel IH]; intros s; simpl; [done|]. rewrite E.
  by destruct (body' s) as [[]|e|p|]; simpl.
Qed.

Section Frame.
Context `{Crypto} `{BoltLaws} `{GoRange} `{!Gob Transaction} `{!Gob Block}.
Context `{!Gob (list bytes)} `{!Gob (list TransactionsIndexSpentOutputs)}.
Implicit Types (f : boltfile) (db : DB) (tx : Transaction).

(** The buckets that verification reads. *)
Definition read_buckets : list string :=
  [blocksBucket; blockChainBucket; transactionsBucket; transactionsOutputsBucket].

Lemma view_find_kept names f f' name k :
  only names f f' → name ∉ names → view_find name k f' = view_find name k f.
Proof.
  intros [Hd Hr] Hn. destruct (decide (name ∈ dom f)) as [Hin|Hin].
  - rewrite !view_find_spec by (rewrite ?Hd; done). by rewrite Hr.
  - unfold view_find. rewrite !Bucket_missing by (rewrite ?Hd; done). done.
Qed.

Lemma view_get_kept names f f' name k :
  only names f f' → name ∉ names → view_get name k f' = view_get name k f.
Proof.
  intros Ho Hn. assert (∀ g, view_get name k g = (o ← view_find name k g; Ret (default [] o))) as E.
  { intros g. unfold view_get, view_find, Get. by destruct (Bucket name g). }
  by rewrite !E, (view_find_kept names f f').
Qed.

Context (names : list string) (f f' : boltfile) (db : DB).
Hypothesis Hopened : opened f db.
Hypothesis Honly : only names f f'.
Hypothesis Hdisjoint : ∀ name, name ∈ read_buckets → name ∉ names.

Let db' : DB := with_bc f' db.

Lemma frame_opened : opened f' db'.
Proof. by eapply opened_only. Qed.

Lemma GetBlock_frame h : GetBlock h f' = GetBlock h f.
Proof.
  unfold GetBlock. rewrite (view_get_kept names f f'); [done|done|].
  apply Hdisjoint. set_solver.
Qed.

Lemma GetTopHash_frame : GetTopHash f' = GetTopHash f.
Proof.
  unfold GetTopHash. rewrite (view_get_kept names f f'); [done|done|]. apply Hdisjoint. set_solver.
Qed.

Lemma BlockInChain_frame h : BlockInChain h f' = BlockInChain h f.
Proof.
  pose proof (view_get_kept names f f' blockChainBucket h Honly) as E.
  unfold BlockInChain. unfold view_get in E. destruct (_ =? 0)%Z; [done|].
  assert (blockChainBucket ∉ names) as Hn by (apply Hdisjoint; set_solver). specialize (E Hn).
  destruct (Bucket blockChainBucket f'), (Bucket blockChainBucket f); simpl in *; congruence.
Qed.

Lemma Next_frame i : Next i db' = Next i db.
Proof.
  unfold Next. rewrite (opened_object f' db' frame_opened), (opened_object f db Hopened), !ret_bind.
  by rewrite GetBlock_frame.
Qed.

Lemma bc_GetBlock_frame h : bc_GetBlock h db' = bc_GetBlock h db.
Proof.
  unfold bc_GetBlock.
  rewrite (opened_object f' db' frame_opened), (opened_object f db Hopened), !ret_bind.
  by rewrite GetBlock_frame.
Qed.

Lemma GetState_frame : GetState db' = GetState db.
Proof.
  unfold GetState, GetTopBlock.
  rewrite (opened_object f' db' frame_opened), (opened_object f db Hopened), !ret_bind.
  rewrite GetTopHash_frame. apply outcome_bind_ext; [|done]. apply outcome_bind_ext; [done|].
  intros h. apply GetBlock_frame.
Qed.

Lemma first_in_chain_frame hs below : first_in_chain hs below f' db' = first_in_chain hs below f db.
Proof.
  induction hs as [|h hs IH]; cbn [first_in_chain]; [done|].
  by rewrite BlockInChain_frame, bc_GetBlock_frame, IH.
Qed.

Lemma down_to_chain_frame fuel top hs : down_to_chain fuel top hs f' db' = down_to_chain fuel top hs f db.
Proof.
  unfold down_to_chain. apply loop_ext. intros i. rewrite Next_frame.
  destruct (Next i db) as [[b i']|e|p|]; simpl; [|done..]. by rewrite BlockInChain_frame.
Qed.

Lemma ChooseHashUnderTip_frame fuel hs top :
  ChooseHashUnderTip fuel hs top db' = ChooseHashUnderTip fuel hs top db.
Proof.
  unfold ChooseHashUnderTip.
  rewrite (opened_object f' db' frame_opened), (opened_object f db Hopened), !ret_bind.
  rewrite !first_in_chain_frame, bc_GetBlock_frame, BlockInChain_frame, down_to_chain_frame.
  destruct (_ =? 0)%Z; [done|]. destruct (_ =? 0)%Z; [done|]. destruct (decide _); [done|].
  destruct (bc_GetBlock top db) as [b|e|p|]; simpl; [|done..].
  destruct (BlockInChain top f) as [[]|e|p|]; simpl; [apply first_in_chain_frame| |done..].
  destruct (down_to_chain fuel top hs f db) as [[[]|]|e|p|]; simpl; try done.
  apply first_in_chain_frame.
Qed.

Lemma CheckBlockIsInRange_frame fuel h bottom top :
  CheckBlockIsInRange fuel h bottom top db' = CheckBlockIsInRange fuel h bottom top db.
Proof.
  unfold CheckBlockIsInRange.
  rewrite (opened_object f' db' frame_opened), (opened_object f db Hopened), !ret_bind.
  rewrite GetTopHash_frame, BlockInChain_frame.
  apply outcome_bind_ext.
  - destruct (0 <? _)%Z; [|done]. apply outcome_bind_ext; [done|]. intros []; [done|].
    apply loop_ext. intros i. rewrite Next_frame. apply outcome_bind_ext; [done|]. intros [b i'].
    by rewrite BlockInChain_frame.
  - intros [b|top']; [done|]. by rewrite !bc_GetBlock_frame.
Qed.

Lemma view_find_frame name k :
  name ∈ read_buckets → view_find name k f' = view_find name k f.
Proof. intros Hn. apply (view_find_kept names f f'); [done|by apply Hdisjoint]. Qed.

Lemma GetTranactionBlocks_frame k : GetTranactionBlocks k db' = GetTranactionBlocks k db.
Proof.
  unfold GetTranactionBlocks, GetTransactionsObject, TranactionsDB.GetBlockHashForTX.
  pose proof (opened_object f' db' frame_opened) as E'. pose proof (opened_object f db Hopened) as E.
  unfold GetBlockchainObject in E, E'. rewrite E, E', !ret_bind.
  by rewrite view_find_frame by set_solver.
Qed.

Lemma GetTranactionOutputsSpent_frame fuel k h top :
  GetTranactionOutputsSpent fuel k h top db' = GetTranactionOutputsSpent fuel k h top db.
Proof.
  unfold GetTranactionOutputsSpent, GetTransactionsObject, TranactionsDB.GetTXSpentOutputs.
  pose proof (opened_object f' db' frame_opened) as E'. pose proof (opened_object f db Hopened) as E.
  unfold GetBlockchainObject in E, E'. rewrite E, E', !ret_bind.
  rewrite view_find_frame by set_solver. apply outcome_bind_ext; [done|]. intros o.
  apply outcome_bind_ext; [done|]. intros outs. apply mfor_ext. intros acc so.
  by rewrite CheckBlockIsInRange_frame.
Qed.

Lemma input_state_frame fuel tip vin : input_state fuel tip vin db' = input_state fuel tip vin db.
Proof.
  unfold input_state, GetTransactionFromBlock. rewrite GetTranactionBlocks_frame.
  apply outcome_bind_ext; [done|]. intros hs. rewrite ChooseHashUnderTip_frame.
  apply outcome_bind_ext; [done|]. intros [h|]; [|done]. rewrite bc_GetBlock_frame.
  apply outcome_bind_ext; [done|]. intros tx. by rewrite GetTranactionOutputsSpent_frame.
Qed.

Lemma VerifyTransaction_frame fuel tx prevtxs tip :
  VerifyTransaction fuel tx prevtxs tip db' = VerifyTransaction fuel tx prevtxs tip db.
Proof.
  unfold VerifyTransaction, getInputTransactionsState. apply outcome_bind_ext; [|done].
  destruct (IsCoinbase tx); [done|]. apply mfor_ext. intros [m bad] [i vin].
  by rewrite input_state_frame.
Qed.
End Frame.

(** ** The empty tip stands for the top *)

Section Tip.
Context `{Crypto} `{BoltLaws} `{GoRange} `{!Gob Transaction} `{!Gob Block} `{!GobLaws Block}.
Context `{!Gob (list bytes)} `{!GobLaws (list bytes)} `{!Gob (list TransactionsIndexSpentOutputs)}.
Implicit Types (f : boltfile) (db : DB) (tx : Transaction) (b : Block) (bs : list Block).

(** Every block the index names has a hash of the right width, and at most one
    block of the main chain has a transaction. *)
Record links_located (n : nat) bs (L : bytes → list bytes) : Prop := {
  ll_width k h : h ∈ L k → length h = n;
  ll_unique k h h' : h ∈ L k → h' ∈ L k → h ∈ hashes bs → h' ∈ hashes bs → h = h'
}.

Lemma first_in_chain_spec n f db hs chain below :
  in_chain n f chain → (∀ h, h ∈ hs → length h = n) →
  (∀ h z, h ∈ hs → h ∈ chain → below = Some z →
     ∃ b, bc_GetBlock h db = Ret b ∧ (blk_Height b < z)%Z) →
  first_in_chain hs below f db = Ret (head (filter (.∈ chain) hs)).
Proof.
  intros Hc. induction hs as [|h hs IH]; intros Hw Hb; cbn [first_in_chain]; [done|].
  rewrite (BlockInChain_refines n f chain), ret_bind by (done || apply Hw; by left).
  rewrite filter_cons. case_bool_decide as Hin.
  - rewrite decide_True by done. destruct below as [z|]; [|done].
    destruct (Hb h z) as (b & -> & Hz); [by left|done|done|]. rewrite ret_bind.
    by rewrite (proj2 (Z.ltb_lt _ _) Hz).
  - rewrite decide_False by done. apply IH; intros; [apply Hw; by right|].
    eapply Hb; [by right|done|done].
Qed.

Context (n : nat) (f : boltfile) (db : DB) (top : bytes) (bs : list Block).
Hypothesis Hopened : opened f db.
Hypothesis Hstate : chain_state n f top bs.

Lemma top_nonempty : top ≠ [].
Proof.
  eapply chain_hash_special; [apply (cs_width _ _ _ _ Hstate)|].
  eapply npath_head_hash, (cs_path _ _ _ _ Hstate).
Qed.

Lemma top_block : ∃ tb tbs, bs = tb :: tbs ∧ bc_GetBlock top db = Ret tb ∧ blk_Hash tb = top.
Proof.
  destruct (cs_head _ _ _ _ Hstate) as (tb & tbs & E & Hs & Hh). exists tb, tbs.
  split_and!; [done|by eapply bc_GetBlock_stored|done].
Qed.

Lemma top_in_chain : top ∈ reverse (hashes bs).
Proof.
  destruct top_block as (tb & tbs & -> & _ & <-). apply elem_of_reverse. left.
Qed.

Lemma BlockInChain_top : BlockInChain top f = Ret true.
Proof.
  rewrite (BlockInChain_refines n f (reverse (hashes bs))).
  - by rewrite bool_decide_eq_true_2 by apply top_in_chain.
  - apply Hstate.
  - apply (ic_hash _ _ _ (cs_chain _ _ _ _ Hstate)), top_in_chain.
Qed.

(** The main chain below the top. *)
Lemma main_chain_below h :
  consecutive bs → h ∈ hashes bs → h ≠ top →
  ∃ b tb, bc_GetBlock h db = Ret b ∧ bc_GetBlock top db = Ret tb ∧ (blk_Height b < blk_Height tb)%Z.
Proof.
  intros Hcons (b & -> & Hb)%list_elem_of_fmap Hne.
  destruct top_block as (tb & tbs & E & Ht & Hh). exists b, tb. split_and!; [|done|].
  - eapply bc_GetBlock_stored; [done|]. eapply path_stored; [apply (cs_path _ _ _ _ Hstate)|done].
  - apply list_elem_of_lookup in Hb as [i Hi].
    rewrite (consecutive_lookup bs i b tb Hcons) by (done || by rewrite E).
    destruct i as [|i]; [|lia]. rewrite E in Hi. simpl in Hi. congruence.
Qed.

Lemma ChooseHashUnderTip_main fuel hs (tip : bytes) :
  consecutive bs → (∀ h, h ∈ hs → length h = n) →
  (∀ h h', h ∈ hs → h' ∈ hs → h ∈ hashes bs → h' ∈ hashes bs → h = h') →
  tip = [] ∨ tip = top →
  ChooseHashUnderTip fuel hs tip db = Ret (head (filter (.∈ reverse (hashes bs)) hs)).
Proof.
  intros Hcons Hw Hu Htip. unfold ChooseHashUnderTip. rewrite (opened_object f db Hopened), ret_bind.
  destruct (decide (hs = [])) as [->|Hne]; [done|].
  rewrite (proj2 (Z.eqb_neq _ _)) by (destruct hs; [done|simpl; lia]).
  pose proof (cs_chain _ _ _ _ Hstate) as Hc. destruct Htip as [->| ->].
  - simpl. by rewrite (first_in_chain_spec n f db hs (reverse (hashes bs))).
  - rewrite (proj2 (Z.eqb_neq _ _)) by (pose proof top_nonempty; destruct top; [done|simpl; lia]).
    destruct (decide (top ∈ hs)) as [Hin|Hin].
    + destruct (filter _ hs) as [|h l] eqn:Ef.
      { exfalso. apply elem_of_nil with top. rewrite <- Ef. apply list_elem_of_filter.
        split; [apply top_in_chain|done]. }
      assert (h ∈ filter (.∈ reverse (hashes bs)) hs) as Hh by (rewrite Ef; left).
      apply list_elem_of_filter in Hh as [Hh1 Hh2]. simpl. do 2 f_equal.
      apply Hu; [done|done|apply elem_of_reverse, top_in_chain|by apply elem_of_reverse].
    + destruct top_block as (tb & tbs & E & Ht & _). rewrite Ht, BlockInChain_top, !ret_bind.
      apply (first_in_chain_spec n); [done|done|]. intros h z Hh Hch [= <-].
      destruct (main_chain_below h) as (b & tb' & Hb & Ht' & Hlt); [done|by apply elem_of_reverse|by intros ->|].
      exists b. split; [done|]. congruence.
Qed.

Lemma CheckBlockIsInRange_top fuel h bottom :
  CheckBlockIsInRange fuel h bottom [] db = CheckBlockIsInRange fuel h bottom top db.
Proof.
  unfold CheckBlockIsInRange. rewrite (opened_object f db Hopened), !ret_bind.
  apply outcome_bind_ext; [|done]. simpl.
  rewrite (GetTopHash_state n f top bs Hstate), ret_bind.
  rewrite (proj2 (Z.ltb_lt _ _)) by (pose proof top_nonempty; destruct top; [done|simpl; lia]).
  by rewrite BlockInChain_top.
Qed.

Context (L : bytes → list bytes).
Hypothesis Hlinks : table f transactionsBucket L.
Hypothesis Hlocated : links_located n bs L.
Hypothesis Hcons : consecutive bs.

Lemma GetTranactionBlocks_links k : GetTranactionBlocks k db = Ret (L k).
Proof.
  unfold GetTranactionBlocks, GetTransactionsObject, TranactionsDB.GetBlockHashForTX.
  pose proof (opened_object f db Hopened) as E. unfold GetBlockchainObject in E.
  rewrite E, ret_bind. destruct (table_find f _ k L Hlinks) as (o & -> & Ho). rewrite ret_bind.
  by apply stores_decode.
Qed.

(** Where the transaction is in the main chain, for both tips. *)
Lemma ChooseHashUnderTip_links fuel k tip :
  tip = [] ∨ tip = top →
  ChooseHashUnderTip fuel (L k) tip db = Ret (head (filter (.∈ reverse (hashes bs)) (L k))).
Proof.
  intros Ht. apply ChooseHashUnderTip_main; [done| | |done]; intros;
    by eapply ll_width || by eapply ll_unique.
Qed.

Lemma input_state_top fuel vin : input_state fuel [] vin db = input_state fuel top vin db.
Proof.
  unfold input_state. rewrite GetTranactionBlocks_links, !ret_bind.
  rewrite !ChooseHashUnderTip_links, !ret_bind by auto.
  destruct (head _) as [h|]; [|done]. apply outcome_bind_ext; [done|]. intros tx.
  apply outcome_bind_ext; [|done]. unfold GetTranactionOutputsSpent.
  apply outcome_bind_ext; [done|]. intros txdb. apply outcome_bind_ext; [done|]. intros o.
  apply outcome_bind_ext; [done|]. intros outs. apply mfor_ext. intros acc so.
  by rewrite CheckBlockIsInRange_top.
Qed.

Lemma VerifyTransaction_top fuel tx prevtxs :
  VerifyTransaction fuel tx prevtxs [] db = VerifyTransaction fuel tx prevtxs top db.
Proof.
  unfold VerifyTransaction, getInputTransactionsState. apply outcome_bind_ext; [|done].
  destruct (IsCoinbase tx); [done|]. apply mfor_ext. intros [m bad] [i vin].
  by rewrite input_state_top.
Qed.
End Tip.

(** ** From the pool to a verified block *)

Section Minted.
Context `{Crypto} `{BoltLaws} `{GoSortLaws} `{GoRangeLaws}.
Context `{!Gob Transaction} `{!GobLaws Transaction} `{!Gob Block} `{!GobLaws Block}.
Context `{!Gob (list TXOutputIndependent)}.
Context `{!Gob (list bytes)} `{!GobLaws (list bytes)} `{!Gob (list TransactionsIndexSpentOutputs)}.
Implicit Types (f : boltfile) (db : DB) (tx : Transaction) (txs : list Transaction).

(** No two inputs of the pool spend one output, and no transaction is a
    coinbase. *)
Definition healthy txs : Prop :=
  conflict_free txs ∧ ∀ tx, tx ∈ txs → NoDup (outpoints tx) ∧ IsCoinbase tx = false.

Lemma pool_disjoint name : name ∈ read_buckets → name ∉ [unapprovedTransactionsBucket].
Proof. unfold read_buckets. set_solver. Qed.

Lemma pool_NoDup f txs : pool f txs → NoDup txs.
Proof.
  intros Hp%pool_IDs. by apply (NoDup_fmap_1 tx_ID).
Qed.

Lemma healthy_outpoints txs l :
  healthy txs → NoDup l → (∀ tx, tx ∈ l → tx ∈ txs) → NoDup (mjoin (outpoints <$> l)).
Proof.
  intros [Hfree Hown]. induction l as [|tx l IH]; intros Hnd Hin; csimpl; [constructor|].
  apply NoDup_cons in Hnd as [Hn Hnd]. apply NoDup_app. split_and!.
  - apply Hown, Hin. by left.
  - intros p Hp Hp'. apply list_elem_of_join in Hp' as (ps & Hps & (tx' & -> & Hin')%list_elem_of_fmap).
    apply Hn. rewrite (Hfree tx tx' p); [done|apply Hin; by left|apply Hin; by right|done|done].
  - apply IH; [done|]. intros t Ht. apply Hin. by right.
Qed.

(** Choosing verifies each transaction after the chosen ones, on the database
    it started from. *)
Lemma choose_verified f db txs fuel l acc s acc' s' :
  opened f db → pool_change f db txs s → each_verified fuel [] db [] acc →
  sfor l (choose_tx fuel) acc s = (Ret acc', s') →
  each_verified fuel [] db [] acc' ∧ ∃ l', acc' = acc ++ l' ∧ l' `sublist_of` l.
Proof.
  intros Ho. revert acc s. induction l as [|tx l IH]; intros acc s Hs Hacc Hr.
  { injection Hr as <- <-. split; [done|]. exists []. by rewrite app_nil_r. }
  simpl in Hr. apply st_bind_Ret in Hr as (acc1 & s1 & H1' & Hr).
  destruct (choose_change f db txs fuel [tx] acc s acc1 s1 Ho Hs) as [Hs1 _].
  { simpl. apply st_bind_Ret. by exists acc1, s1. }
  destruct Hs as (f1 & txs1 & -> & Hp1 & Hb1 & _).
  unfold choose_tx in H1'.
  rewrite (VerifyTransaction_frame _ f f1 db Ho Hb1 pool_disjoint) in H1'.
  assert (∀ r s, (_ ← drop_err (CancelTransaction (tx_ID tx)); mret acc) (with_bc f1 db) = (Ret r, s) → r = acc) as Hk.
  { intros r s Hd. apply st_bind_Ret in Hd as (? & ? & _ & Hd). by injection Hd as <- _. }
  assert (acc1 = acc ∨ acc1 = acc ++ [tx] ∧ VerifyTransaction fuel tx acc [] db = Ret true) as [-> |[-> Hv]].
  { destruct (VerifyTransaction fuel tx acc [] db) as [[]|e|p|]; try done; [|left; by eapply Hk..].
    injection H1' as <- <-. by right. }
  - destruct (IH acc s1 Hs1 Hacc Hr) as (? & l' & -> & ?). split; [done|]. exists l'.
    split; [done|by apply sublist_cons].
  - destruct (IH _ s1 Hs1 (each_verified_snoc _ _ _ _ _ Hacc Hv) Hr) as (? & l' & -> & ?).
    split; [done|]. exists (tx :: l'). rewrite <- app_assoc. split; [done|by apply sublist_skip].
Qed.

(** What [GetUnapprovedTransactionsForNewBlock] gives verifies in its order. *)
Lemma chosen_verified f db txs fuel number r db' :
  opened f db → pool f txs → healthy txs →
  GetUnapprovedTransactionsForNewBlock fuel number db = (Ret r, db') →
  each_verified fuel [] db [] r ∧ pool_change f db txs db' ∧
  (∀ tx, tx ∈ r → tx ∈ txs) ∧ length r ≤ Z.to_nat (Z.max 1 number).
Proof.
  intros Ho Hp Hh Hr. apply st_bind_Ret in Hr as (l & s & Hl & Hr). injection Hl as Hl <-.
  destruct (GetTransactions_sorted f db txs number Ho Hp) as (l' & El & Hperm & _).
  rewrite El in Hl. injection Hl as <-.
  apply st_bind_Ret in Hr as (acc & s1 & Hs & Hr).
  assert (pool_change f db txs db) as Hs0.
  { exists f, txs. split_and!; [by rewrite with_bc_same|done|apply only_refl|done]. }
  destruct (choose_change f db txs fuel l' [] db acc s1 Ho Hs0 Hs) as [Hs1 _].
  destruct (choose_verified f db txs fuel l' [] db acc s1 Ho Hs0) as (Hv & l & E & Hsub); [|done|].
  { by intros i tx Hi. }
  simpl in E. subst l.
  assert (∀ tx, tx ∈ acc → tx ∈ txs) as Hin.
  { intros tx Ht. eapply sublist_subseteq in Ht; [|done]. rewrite Hperm in Ht. revert Ht.
    apply sublist_subseteq, sublist_take. }
  destruct (Z.of_nat (length acc) =? 0)%Z; [done|].
  rewrite DetectConflicts_free in Hr.
  2:{ apply (healthy_outpoints txs); [done| |done]. eapply sublist_NoDup; [|done]. rewrite Hperm.
      eapply sublist_NoDup; [by eapply pool_NoDup|apply sublist_take]. }
  simpl in Hr. injection Hr as <- <-. split_and!; [done|done|done|].
  apply sublist_length in Hsub. rewrite Hperm in Hsub. rewrite length_take in Hsub. lia.
Qed.

(** *** The block maker *)

Lemma MakeCoinbaseTX_spec tx to data randData cb :
  MakeCoinbaseTX tx to data randData = Ret cb →
  IsCoinbase cb = true ∧ ∃ out, tx_Vout cb = [out] ∧ out_Value out = PaymentForBlockMade.
Proof.
  unfold MakeCoinbaseTX. intros Hm. go_inv Hm.
  destruct (tx_Hash_ignored_spec (mkTransaction (tx_ID tx) [mkTXInput [] (-1) [] v] [v0] (tx_Time tx)))
    as [h Eh].
  rewrite Eh in Hm. injection Hm as <-. split; [done|]. exists v0. split; [done|].
  unfold NewTXOutput, Lock in E0. by go_inv E0.
Qed.

Lemma VerifyTransaction_coinbase fuel tx before tip db out :
  IsCoinbase tx = true → tx_Vout tx = [out] → out_Value out = PaymentForBlockMade →
  VerifyTransaction fuel tx before tip db = Ret true.
Proof.
  intros Hc Ho Hv. unfold VerifyTransaction, getInputTransactionsState. rewrite Hc. simpl.
  unfold Verify. rewrite Hc, Ho. simpl. by rewrite Hv.
Qed.

Lemma on_DB_Ret {A} (op : st DB A) n a n' :
  on_DB op n = (Ret a, n') → ∃ db', op (nb_DB n) = (Ret a, db') ∧ n' = SetDBManager db' n.
Proof.
  unfold on_DB. destruct (op (nb_DB n)) as [r db']. intros [= -> <-]. by exists db'.
Qed.

Lemma limits_of_next db min max :
  getTransactionNumbersLimits None db = Ret (min, max) →
  ∃ h, GetBestHeight db = Ret h ∧ min = least_number (int64_wrap (h + 1)) ∧
       max = MaxNumberTransactionInBlock.
Proof.
  unfold getTransactionNumbersLimits. intros Hl. go_inv Hl. go_inv E. exists v0. split; [done|].
  split; [|done]. unfold least_number, MaxMinNumberTransactionInBlock.
  destruct (Z.ltb_spec 1000 (int64_wrap (v0 + 1))); [lia|].
  destruct (Z.ltb_spec (int64_wrap (v0 + 1)) 1); lia.
Qed.

(** What a prepared block [b] is made of: transactions [txs] that were chosen
    on [db], which left [db'], and the payment for the maker. *)
Definition prepared_from (fuel : nat) (now : Z) (randData : outcome bytes) (minter : bytes)
    db txs db' (b : Block) : Prop :=
  ∃ h count, GetBestHeight db = Ret h ∧ (1 ≤ count ≤ MaxNumberTransactionInBlock)%Z ∧
    GetUnapprovedTransactionsForNewBlock fuel count db = (Ret txs, db') ∧
    (least_number (int64_wrap (h + 1)) ≤ Z.of_nat (length txs))%Z ∧
    makeNewBlockFromTransactions minter now randData txs db' = Ret b.

Lemma doPrepareNewBlock_spec fuel now randData n n' :
  doPrepareNewBlock fuel now randData n = (Ret tt, n') →
  nb_PreparedBlock n' = nb_PreparedBlock n ∨
  ∃ txs b, nb_PreparedBlock n' = Some b ∧
    prepared_from fuel now randData (nb_MinterAddress n) (nb_DB n) txs (nb_DB n') b.
Proof.
  unfold doPrepareNewBlock. intros Hd. go_inv Hd.
  apply on_DB_Ret in E as (db1 & Hc & ->). injection Hc as Hc <-.
  apply on_DB_Ret in E0 as (db2 & Hl & ->). injection Hl as Hl <-. cbn [nb_DB SetDBManager] in Hl.
  destruct v0 as [min max]. apply limits_of_next in Hl as (h & Hh & -> & ->).
  destruct (Z.leb_spec (least_number (int64_wrap (h + 1))) v) as [Hle|]; [|injection Hd as <-; by left].
  right. go_inv Hd. apply on_DB_Ret in E as (db3 & Hg & ->). cbn [nb_DB SetDBManager] in Hg.
  destruct (Z.ltb_spec (Z.of_nat (length v0)) (least_number (int64_wrap (h + 1)))); [done|].
  go_inv Hd. injection E as Hm <-. injection Hd as <-.
  exists v0, v1. split; [done|]. exists h. eexists. split_and!; [done|..|exact Hg|done|done].
  all: unfold least_number, MaxNumberTransactionInBlock in *; destruct (Z.ltb_spec 10000 v); lia.
Qed.

Lemma PrepareNewBlock_Done fuel now randData n n1 :
  nb_PrepareNewBlock fuel now randData n = (Ret BlockPrepare_Done, n1) →
  ∃ txs b, nb_PreparedBlock n1 = Some b ∧
    prepared_from fuel now randData (nb_MinterAddress n) (nb_DB n) txs (nb_DB n1) b.
Proof.
  unfold nb_PrepareNewBlock. destruct (IsBlockPrepared n); [done|]. simpl.
  intros Hr. go_inv Hr. apply on_DB_Ret in E as (db1 & Hc & ->). injection Hc as Hc <-.
  destruct v; [|done]. cbn [negb] in Hr. go_inv Hr. injection E as _ <-. destruct v0.
  injection E1 as <- <-. destruct (doPrepareNewBlock_spec _ _ _ _ _ E0) as [Hn|(txs & b & Hb & Hp)].
  - simpl in Hn. rewrite Hn in Hr. by injection Hr.
  - rewrite Hb in Hr. injection Hr as <-. by exists txs, b.
Qed.

Lemma GetBestHeight_state db h : GetBestHeight db = Ret h ↔ ∃ hash, GetState db = Ret (hash, h).
Proof.
  unfold GetBestHeight, GetState. destruct (GetBlockchainObject db) as [f|e|p|]; simpl; [|by split; [|intros []]..].
  destruct (GetTopBlock f) as [d|e|p|]; simpl; [|by split; [|intros []]..].
  destruct (DeserializeBlock d) as [b|e|p|]; simpl; [|by split; [|intros []]..].
  split; [intros [= <-]; eauto|]. by intros (hash & [= _ <-]).
Qed.

Lemma GetState_top n f db top bs :
  opened f db → chain_state n f top bs →
  ∃ tb, head bs = Some tb ∧ GetState db = Ret (top, blk_Height tb).
Proof.
  intros Ho Hs. destruct (cs_head _ _ _ _ Hs) as (tb & tbs & -> & Hst & <-). exists tb.
  split; [done|]. unfold GetState. rewrite (opened_object f db Ho), ret_bind. unfold GetTopBlock.
  rewrite (GetTopHash_state n f _ _ Hs), ret_bind.
  destruct (stored_GetBlock f _ _ (cs_dom _ _ _ _ Hs) Hst) as (d & -> & _ & Hd).
  by rewrite ret_bind, Hd, ret_bind.
Qed.

Lemma coinbases_snoc chosen cb :
  (∀ tx, tx ∈ chosen → IsCoinbase tx = false) → IsCoinbase cb = true →
  coinbases (chosen ++ [cb]) = [cb].
Proof.
  intros Hin Hcb. unfold coinbases. rewrite filter_app, filter_cons, decide_True by done.
  rewrite filter_none; [done|]. apply Forall_forall. intros tx Ht. by rewrite Hin.
Qed.

(** What was verified under the empty tip verifies under the top, also after
    the pool has changed. *)
Lemma each_verified_top n f f1 db top bs L fuel txs :
  opened f db → chain_state n f top bs → consecutive bs →
  table f transactionsBucket L → links_located n bs L → only [unapprovedTransactionsBucket] f f1 →
  each_verified fuel [] db [] txs → each_verified fuel top (with_bc f1 db) [] txs.
Proof.
  intros Ho Hs Hcons HL Hl Hb Hv i tx Hi.
  rewrite (VerifyTransaction_frame _ f f1 db Ho Hb pool_disjoint).
  rewrite <- (VerifyTransaction_top n f db top bs Ho Hs L HL Hl Hcons). by apply Hv.
Qed.

(** What the maker prepares and completes, and how it leaves the pool. *)
Lemma minted_block_spec n f top bs L txs nb nb1 nb2 fuel fuel' now randData block :
  opened f (nb_DB nb) → chain_state n f top bs → consecutive bs →
  table f transactionsBucket L → links_located n bs L → pool f txs → healthy txs →
  nb_PrepareNewBlock fuel now randData nb = (Ret BlockPrepare_Done, nb1) →
  CompleteBlock fuel' nb1 = (Ret block, nb2) → (blk_Nonce block < maxNonce)%Z →
  VerifyBlock fuel block (nb_DB nb2) = Ret tt ∧ blk_PrevBlockHash block = top ∧
  blk_Height block = int64_wrap (default 0%Z (blk_Height <$> head bs) + 1) ∧
  pool_change f (nb_DB nb) txs (nb_DB nb1) ∧ nb_DB nb2 = nb_DB nb1 ∧
  ∃ chosen cb, blk_Transactions block = chosen ++ [cb] ∧ IsCoinbase cb = true ∧
    ∀ tx, tx ∈ chosen → tx ∈ txs.
Proof.
  intros Ho Hs Hcons HL Hl Hp Hh Hprep Hcomp Hlt.
  apply PrepareNewBlock_Done in Hprep as (chosen & b & Hb & h & count & Hbest & Hcount & Hget & Hmin & Hmake).
  destruct (chosen_verified f _ txs fuel count chosen _ Ho Hp Hh Hget) as (Hv & Hchange & Hin & Hlen).
  pose proof Hchange as Hpc. destruct Hchange as (f1 & txs1 & E1 & _ & Hb1 & _).
  unfold CompleteBlock in Hcomp. rewrite Hb in Hcomp. go_inv Hcomp. unfold lift in E.
  injection E as Hrun <-. destruct v as [nonce hash]. go_inv Hcomp. injection E as <-.
  injection Hcomp as <- <-. cbn [nb_DB SetPreparedBlock blk_Nonce] in *. rewrite E1 in *.
  unfold makeNewBlockFromTransactions in Hmake. rewrite (GetState_frame _ f f1 _ Ho Hb1 pool_disjoint) in Hmake.
  destruct (GetState_top n f _ top bs Ho Hs) as (tb & Ehead & Est).
  rewrite Est, ret_bind in Hmake. go_inv Hmake. apply MakeCoinbaseTX_spec in E as (Hcb & out & Hout & Hval).
  apply GetBestHeight_state in Hbest as (hash' & Hbest). rewrite Est in Hbest. injection Hbest as _ <-.
  unfold PrepareNewBlock in Hrun |- *. cbn [blk_PrevBlockHash blk_Transactions blk_Timestamp blk_Height] in *.
  rewrite go_copy_full in * by apply length_zeros. rewrite Ehead.
  split; [|split_and!; [done|done|done|done|by exists chosen, v]].
  assert (∀ tx, tx ∈ chosen → IsCoinbase tx = false) as Hnc by (intros tx Ht; by apply Hh, Hin).
  apply VerifyBlock_accepts; cbn [blk_PrevBlockHash blk_Transactions blk_Height].
  - set (b := mkBlock now _ top [] 0 _) in Hrun.
    destruct (prepareData (NewProofOfWork b)) as [predata|e|p|] eqn:Ep.
    2-4: unfold Run in Hrun; by rewrite Ep in Hrun.
    change (Validate (NewProofOfWork (solved b nonce hash)) = Ret true).
    rewrite (Validate_meets _ predata) by done. f_equal. by eapply Run_meets.
  - rewrite length_app. simpl. unfold MaxNumberTransactionInBlock in *. lia.
  - by rewrite coinbases_snoc.
  - change (nb_DB (SetPreparedBlock _ nb1)) with (nb_DB nb1). rewrite E1.
    apply each_verified_snoc; [by apply (each_verified_top n f _ _ top bs L)|].
    by eapply VerifyTransaction_coinbase.
Qed.

(** C12: a block that the maker prepares on a consistent node, and whose nonce is
    found, passes [VerifyBlock] on the database the maker leaves; it is above
    the top of the chain, and holds transactions of the pool and one coinbase.
    The pool must not hold two inputs that spend one output. *)
Theorem minted_block_verifies n f top bs L txs nb nb1 nb2 fuel fuel' now randData block :
  opened f (nb_DB nb) → chain_state n f top bs → consecutive bs →
  table f transactionsBucket L → links_located n bs L → pool f txs → healthy txs →
  nb_PrepareNewBlock fuel now randData nb = (Ret BlockPrepare_Done, nb1) →
  CompleteBlock fuel' nb1 = (Ret block, nb2) → (blk_Nonce block < maxNonce)%Z →
  VerifyBlock fuel block (nb_DB nb2) = Ret tt ∧ blk_PrevBlockHash block = top ∧
  ∃ chosen cb, blk_Transactions block = chosen ++ [cb] ∧ IsCoinbase cb = true ∧
    ∀ tx, tx ∈ chosen → tx ∈ txs.
Proof.
  intros Ho Hs Hcons HL Hl Hp Hh Hprep Hcomp Hlt.
  edestruct minted_block_spec as (Hv & Hprev & _ & _ & _ & Hc); [done..|]. by split_and!.
Qed.
End Minted.

(** ** Witnesses *)

Module MiningDemo.
Import ToyCrypto MapBolt InsertionSort MapRange Codecs Demo IndexDemo PendingDemo ManagerDemo.

(** The chain of one block of [ManagerDemo] with the payment in the pool. *)
Definition mint_blocks : @bucket map_bolt :=
  ({[ str "l" := hash_d; str "f" := hash_d; hash_d := encoded blk_d ]} : gmap bytes bytes).
Definition mint_chain : @bucket map_bolt := ({[ hash_d := zeros 64 ]} : gmap bytes bytes).
Definition mint_file : boltfile := <[blocksBucket := mint_blocks]> pool_file.
Definition mint_db : DB := mkDB true (Some mint_file) None.
Definition mint_address : bytes := zeros 8.
Definition mint_maker : NodeBlockMaker := NewConsensusManager mint_address mint_db.

Definition mint_step := nb_PrepareNewBlock 1 5 (Ret [x01]) mint_maker.
Definition mint_done := CompleteBlock 1 mint_step.2.

Lemma mint_opened : opened mint_file mint_db.
Proof. split_and!; [done|done|]. apply elem_of_dom. by eexists. Qed.

Lemma mint_records h data : bget mint_file blocksBucket h = Some data →
  h = key_l ∨ h = key_f ∨ h = hash_d.
Proof.
  rewrite (bget_lookup _ _ mint_blocks) by done. cbn [b_Get map_bolt]. case_bool_decide; [done|].
  unfold mint_blocks. rewrite lookup_insert_Some, lookup_insert_Some, lookup_singleton_Some. 
  intros [[<- _]|[_ [[<- _]|[_ [<- _]]]]]; auto.
Qed.

Lemma mint_path : npath 32 mint_file hash_d [blk_d].
Proof.
  split; [|by repeat constructor]. apply path_first; [|done|done].
  exists (encoded blk_d). split_and!; by vm_compute.
Qed.

Lemma mint_state : chain_state 32 mint_file hash_d [blk_d].
Proof.
  split; [lia|apply mint_opened|done|apply mint_path| |done|].
  - split; [lia|apply elem_of_dom; by eexists| | | |].
    + intros h ->%list_elem_of_singleton. by split.
    + apply NoDup_singleton.
    + intros [|i] h Hi; [injection Hi as <-; reflexivity|done].
    + intros k Hk. rewrite (bget_lookup _ _ mint_chain) by done.
      cbn [b_Get map_bolt]. case_bool_decide; [done|]. apply lookup_singleton_None.
      intros <-. apply Hk. by left.
  - intros h data [->|[->| ->]]%mint_records Hl Hf; [done..|]. exists [blk_d].
    split; [apply mint_path|done].
Qed.

Lemma mint_healthy : healthy [pay_tx].
Proof.
  split; [by intros t1 t2 p ->%list_elem_of_singleton ->%list_elem_of_singleton|].
  intros t ->%list_elem_of_singleton. split; [|done]. apply (bool_decide_unpack _). by vm_compute.
Qed.

Lemma mint_pool : pool mint_file [pay_tx].
Proof. apply pool_file_pool. Qed.

Lemma mint_links : table mint_file transactionsBucket man_L.
Proof. apply (single_table _ _ _ (gob_text [hash_d])); [done..|by vm_compute]. Qed.

Lemma mint_located : links_located 32 [blk_d] man_L.
Proof.
  split; unfold man_L, upd; intros k; case_bool_decide.
  - by intros h ->%list_elem_of_singleton.
  - by intros h ?%elem_of_nil.
  - by intros h h' ->%list_elem_of_singleton ->%list_elem_of_singleton.
  - by intros h h' ?%elem_of_nil.
Qed.

Definition mint_block : Block := match mint_done.1 with Ret b => b | _ => blk_d end.

Lemma minted_block_verifies_witness :
  VerifyBlock 1 mint_block (nb_DB mint_done.2) = Ret tt ∧ blk_PrevBlockHash mint_block = hash_d ∧
  ∃ chosen cb, blk_Transactions mint_block = chosen ++ [cb] ∧ IsCoinbase cb = true ∧
    ∀ tx, tx ∈ chosen → tx ∈ [pay_tx].
Proof.
  apply (minted_block_verifies 32 mint_file hash_d [blk_d] man_L [pay_tx] mint_maker mint_step.2
    mint_done.2 1 1 5 (Ret [x01])).
  - apply mint_opened.
  - apply mint_state.
  - exact I.
  - apply mint_links.
  - apply mint_located.
  - apply mint_pool.
  - apply mint_healthy.
  - apply (run_result mint_step). vm_compute. reflexivity.
  - apply (run_result mint_done). vm_compute. reflexivity.
  - vm_compute. reflexivity.
Defined.

Lemma CompleteBlock_solves_witness :
  ∃ nonce, first_from (NewProofOfWork blk_d) (match prepareData (NewProofOfWork blk_d) with Ret d => d | _ => [] end) 0 nonce ∧
    ∀ fuel, Z.to_nat nonce < fuel → ∃ hash,
      CompleteBlock fuel (SetPreparedBlock (Some blk_d) mint_maker)
      = (Ret (solved blk_d nonce hash),
         SetPreparedBlock (Some (solved blk_d nonce hash)) (SetPreparedBlock (Some blk_d) mint_maker)) ∧
      ((nonce < maxNonce)%Z →
        hash = sha256_Sum256 (addNonceToPrepared (match prepareData (NewProofOfWork blk_d) with Ret d => d | _ => [] end) nonce) ∧
        Validate (NewProofOfWork (solved blk_d nonce hash)) = Ret true).
Proof.
  apply (CompleteBlock_solves (SetPreparedBlock (Some blk_d) mint_maker) blk_d).
  - reflexivity.
  - vm_compute. reflexivity.
Defined.

(** A payment that spends the one output of the chain twice, and a payment that
    spends its output. *)
Definition dep_unsigned (sig : bytes) : Transaction :=
  mkTransaction [x43] [mkTXInput [x42] 0 sig demo_pub] [demo_out (f64_of_Z 6)] 2.
Definition dep_sig : bytes :=
  match (text ← input_text (unsigned (dep_unsigned [])) 0 (HashPubKey demo_pub);
         SignData (H := toy_crypto) 7%Z 0%N text) with
  | Ret s => s
  | _ => []
  end.
Definition dep_tx : Transaction := dep_unsigned dep_sig.

Definition spoiled : outcome unit * DB :=
  (_ ← ReceivedNewTransaction dup_tx; ReceivedNewTransaction dep_tx) man_db.
Definition spoiled_step := nb_PrepareNewBlock 1 5 (Ret [x01]) (NewConsensusManager mint_address spoiled.2).
Definition spoiled_done := CompleteBlock 1 spoiled_step.2.
Definition spoiled_block : Block := match spoiled_done.1 with Ret b => b | _ => blk_d end.

(** The condition on the pool is needed.  A node accepts both payments, the
    first although it spends one output twice.  The maker verifies the second
    after the first, drops the first for its conflict and keeps the second, and
    the block it completes fails [VerifyBlock]. *)
Example spoiled_pool :
  spoiled.1 = Ret tt ∧ spoiled_step.1 = Ret BlockPrepare_Done ∧
  spoiled_done.1 = Ret spoiled_block ∧
  VerifyBlock 1 spoiled_block (nb_DB spoiled_done.2) = Err (err_no_input [x42]).
Proof. split_and!; vm_compute; reflexivity. Qed.
End MiningDemo.
