(* ===== verification/Payment.v ===== *)
(** * Payments

    What [manager.go] of [node/transactions] promises a wallet: a payment that the
    node prepares from the outputs of the wallet's key, and whose texts the key
    signs, is accepted into the pool. *)

From Stdlib Require Import Strings.Byte ZifyNat SpecFloat.
From stdpp Require Import base strings numbers gmap sorting list.
From S2P Require Import Prelude Float64 Platform Concrete Utils Structures Codecs Signing.
From S2P Require Import Database ChainIndex Tables Blockchain Branches BlockchainUpdate TxIndex Pending.
From S2P Require Import Unspent TxManager Consensus Mining.

(** ** Texts and signatures *)

(** A loop that writes an entry for each element. *)
Lemma lookup_fold_indexed {A B} (g : A → B) l n (m : gmap Z B) (i : nat) a :
  l !! i = Some a →
  fold_left (λ m '(k, x), <[k := g x]> m) (indexed_from n l) m !! Z.of_nat (n + i) = Some (g a).
Proof.
  assert (Hlow : ∀ l n (m : gmap Z B) z, (z < Z.of_nat n)%Z →
    fold_left (λ m '(k, x), <[k := g x]> m) (indexed_from n l) m !! z = m !! z).
  { clear. induction l as [|x l IH]; intros n m z Hz; [done|].
    rewrite indexed_from_cons. simpl. rewrite IH by lia. by rewrite lookup_insert_ne by lia. }
  revert n m i. induction l as [|x l IH]; intros n m i Hi; [done|].
  rewrite indexed_from_cons. simpl. destruct i as [|i].
  - injection Hi as ->. rewrite Nat.add_0_r, Hlow by lia. by rewrite lookup_insert_eq.
  - rewrite <- Nat.add_succ_comm. by apply IH.
Qed.

Section Texts.
Context `{Crypto} `{!Gob Transaction}.
Implicit Types (tx ptx : Transaction) (prevTXs : prevmap).

Lemma input_text_total tx (i : nat) pkh :
  i < length (tx_Vin tx) → ∃ text, input_text tx (Z.of_nat i) pkh = Ret text.
Proof.
  intros Hi. destruct (lookup_lt_is_Some_2 _ _ Hi) as [vin Hv].
  unfold input_text. rewrite index_nat, Hv, ret_bind. unfold signed_text, tx_String. simpl.
  destruct (lookup_lt_is_Some_2 (<[Z.to_nat (Z.of_nat i):=set_PubKey pkh vin]> (tx_Vin tx)) 0) as [v Hv0].
  { rewrite length_insert. lia. }
  pose proof (index_nat (<[Z.to_nat (Z.of_nat i):=set_PubKey pkh vin]> (tx_Vin tx)) 0) as E.
  rewrite Hv0 in E. change (Z.of_nat 0) with 0%Z in E. rewrite E, ret_bind.
  destruct (destination _ _) as [to v']. rewrite ret_bind. by eexists.
Qed.

Lemma PrepareSignData_total tx prevTXs :
  IsCoinbase tx = false →
  (∀ (i : nat) vin, tx_Vin tx !! i = Some vin → ∃ ptx out, prevTXs !! Z.of_nat i = Some (Some ptx) ∧
     tx_ID ptx = in_Txid vin ∧ index (tx_Vout ptx) (in_Vout vin) = Ret out) →
  ∃ texts, PrepareSignData tx prevTXs = Ret texts.
Proof.
  intros Hcb Hall. unfold PrepareSignData. rewrite Hcb, (proj2 (mfor_unit _ _)).
  2:{ apply Forall_forall. intros [z vin] (i & -> & Hi)%elem_of_indexed.
      destruct (Hall i vin Hi) as (ptx & out & -> & E & _). simpl. by rewrite E, bytes_eqb_refl. }
  rewrite ret_bind. fold (unsigned tx).
  rewrite (mfor_ext _ (λ acc p,
    x ← (prevTx ← deref (mget prevTXs p.1); out ← index (tx_Vout prevTx) (in_Vout p.2);
         input_text (unsigned tx) p.1 (out_PubKeyHash out));
    Ret (acc ++ [x]))).
  2:{ intros acc [i vin]. simpl. destruct (deref _); simpl; try done. by destruct (index _ _). }
  match goal with |- ∃ t, mfor ?l (λ acc p, x ← @?g p; _) ?a = _ =>
    destruct (mfor_snoc_total g l a) as (bs & E & _); [|by exists bs] end.
  intros [z vin] (i & -> & Hi)%elem_of_indexed. simpl.
  assert (Hlt : i < length (tx_Vin (unsigned tx))) by by eapply lookup_lt_Some.
  rewrite length_unsigned_Vin in Hlt. destruct (lookup_lt_is_Some_2 _ _ Hlt) as [v Hv].
  rewrite (lookup_unsigned_Vin _ _ _ Hv) in Hi. injection Hi as <-. simpl.
  destruct (Hall i v Hv) as (ptx & out & Hm & _ & Ho).
  rewrite (proj2 (deref_mget _ _ _) Hm), ret_bind, Ho, ret_bind.
  apply input_text_total. by rewrite length_unsigned_Vin.
Qed.

(** *** Signatures *)

(** Every draw makes a signature of every text, and one of the first ten for a text
    verifies with the key. *)
Definition signer (PubKey : bytes) (privKey : PrivateKey) (seeds : Z → Z → N) : Prop :=
  ∀ text i, (∀ a, ∃ sig, SignData privKey (seeds i a) text = Ret sig) ∧
    ∃ a sig, (1 ≤ a ≤ 10)%Z ∧ SignData privKey (seeds i a) text = Ret sig ∧
      VerifySignature sig text PubKey = true.

Lemma sign_attempts_good fuel attempt PubKey privKey text seeds :
  (∀ a, ∃ sig, SignData privKey (seeds a) text = Ret sig) →
  (∃ a sig, (attempt ≤ a ≤ 10)%Z ∧ SignData privKey (seeds a) text = Ret sig ∧
     VerifySignature sig text PubKey = true) →
  (11 ≤ attempt + Z.of_nat fuel)%Z →
  ∃ sig, sign_attempts fuel attempt privKey PubKey text seeds = Ret sig ∧ VerifySignature sig text PubKey = true.
Proof.
  intros Hall. revert attempt. induction fuel as [|fuel IH]; intros attempt (a & sig & Ha & Hs & Hv) Hf; [lia|].
  destruct (Hall attempt) as [sig1 Hs1]. cbn [sign_attempts]. rewrite Hs1, ret_bind.
  destruct (VerifySignature sig1 text PubKey) eqn:E; [by exists sig1|].
  assert (a ≠ attempt) by (intros ->; congruence). rewrite (proj2 (Z.ltb_ge _ _)) by lia.
  apply IH; [|lia]. exists a, sig. split; [lia|done].
Qed.

(** The retry loop finds a good signature of each text. *)
Lemma SignDataSet_good PubKey privKey texts seeds :
  signer PubKey privKey seeds →
  ∃ sigs, SignDataSet PubKey privKey texts seeds = Ret sigs ∧ length sigs = length texts ∧
    ∀ (i : nat) text sig, texts !! i = Some text → sigs !! i = Some sig → VerifySignature sig text PubKey = true.
Proof.
  intros Hs. unfold SignDataSet.
  rewrite (mfor_ext _ (λ acc p,
    x ← sign_attempts sign_fuel 1 privKey PubKey p.2 (seeds p.1); Ret (acc ++ [x]))) by by intros acc [].
  assert (Hg : ∀ z text, ∃ sig, sign_attempts sign_fuel 1 privKey PubKey text (seeds z) = Ret sig ∧
    VerifySignature sig text PubKey = true).
  { intros z text. destruct (Hs text z) as [Hall Hone]. by apply sign_attempts_good. }
  destruct (mfor_snoc_total (λ p, sign_attempts sign_fuel 1 privKey PubKey p.2 (seeds p.1)) (indexed texts) [])
    as (sigs & E & Hm); [intros [z t] _; destruct (Hg z t) as (sig & ? & _); by exists sig|].
  exists sigs. rewrite E. split; [done|]. apply Forall2_indexed in Hm as [Hl Hm].
  split; [done|]. intros i text sig Ht Hi. specialize (Hm i text sig Ht Hi). cbn [fst snd] in Hm.
  destruct (Hg (Z.of_nat i) text) as (sig1 & E1 & Hv). rewrite Hm in E1. by injection E1 as <-.
Qed.
End Texts.

(** ** The accounts of a key *)

Section Payment.
Context `{CryptoLaws} `{BoltLaws} `{GoSortLaws} `{GoRangeLaws}.
Context `{!Gob Transaction} `{!GobLaws Transaction} `{!Gob Block} `{!GobLaws Block}.
Context `{!Gob (list TXOutputIndependent)} `{!GobLaws (list TXOutputIndependent)}.
Context `{!Gob (list bytes)} `{!Gob (list TransactionsIndexSpentOutputs)}.
Implicit Types (f : boltfile) (db : DB) (tx ptx : Transaction) (txs : list Transaction).
Implicit Types (o : TXOutputIndependent) (T : bytes → list TXOutputIndependent).

(** [o] stands for an output of [ptx]. *)
Definition stands_for o ptx : Prop :=
  tx_ID ptx = uo_TXID o ∧ uo_TXID o ≠ [] ∧
  ∃ out, index (tx_Vout ptx) (uo_OIndex o) = Ret out ∧ out_Value out = uo_Value o ∧
         out_PubKeyHash out = uo_DestPubKeyHash o.

(** The tables of a node: the records of the unspent outputs tell the truth about
    transactions in blocks, of which none is still pending, and the inputs of
    pending transactions have the keys of the outputs they spend. *)
Record ledger f db txs T : Prop := mkLedger {
  ld_opened : opened f db;
  ld_pool : pool f txs;
  ld_healthy : healthy txs;
  ld_inputs : Forall (λ tx, tx_Vin tx ≠ []) txs;
  ld_unspent : utxo_table f T;
  ld_source k : ∃ ptx, ∀ o, o ∈ T k →
    uo_TXID o = k ∧ GetTransactionFromBlock k (uo_BlockHash o) db = Ret ptx ∧ stands_for o ptx;
  ld_new tx : tx ∈ txs → T (tx_ID tx) = [];
  ld_keys tx vin : tx ∈ txs → vin ∈ tx_Vin tx →
    (∀ k o, o ∈ T k → outpoint_of vin = uo_outpoint o → HashPubKey (in_PubKey vin) = uo_DestPubKeyHash o) ∧
    (∀ t out, t ∈ txs → tx_ID t = in_Txid vin → index (tx_Vout t) (in_Vout vin) = Ret out →
       HashPubKey (in_PubKey vin) = out_PubKeyHash out)
}.

(** The outputs of a key that are in the set, and those of pending transactions. *)
Definition confirmed T h o : Prop := (∃ k, o ∈ T k) ∧ uo_DestPubKeyHash o = h.
Definition awaited txs h o : Prop := ∃ tx i, tx ∈ txs ∧ output_for h tx i o.
(** No pending transaction of the key spends the output. *)
Definition free txs h o : Prop := uo_outpoint o ∉ outpoint_of <$> mjoin (prepared_inputs h <$> txs).

Section Sources.
Context f db txs T (Hld : ledger f db txs T).

(** The transaction that has the output. *)
Definition source h o ptx : Prop :=
  confirmed T h o ∧ GetTransactionFromBlock (uo_TXID o) (uo_BlockHash o) db = Ret ptx ∨
  ptx ∈ txs ∧ ∃ i, output_for h ptx i o.

Lemma confirmed_source h o : confirmed T h o → ∃ ptx, source h o ptx ∧ stands_for o ptx ∧ uo_DestPubKeyHash o = h.
Proof.
  intros [[k Hk] Hh]. destruct (ld_source _ _ _ _ Hld k) as [ptx Hs]. destruct (Hs o Hk) as (E & Hg & Hst).
  exists ptx. split; [|done]. left. split; [by split; [exists k|]|]. by rewrite E.
Qed.

Lemma source_spent h o ptx : source h o ptx →
  tx_ID ptx = uo_TXID o ∧ uo_TXID o ≠ [] ∧
  ∃ out, index (tx_Vout ptx) (uo_OIndex o) = Ret out ∧ out_Value out = uo_Value o ∧ out_PubKeyHash out = h.
Proof.
  intros [[[[k Hk] Hh] Hg]|[Hin (i & out & Hi & Hl & E1 & <- & E3 & _)]].
  - destruct (ld_source _ _ _ _ Hld k) as [p Hs]. destruct (Hs o Hk) as (E & Hg' & (H1' & H2' & out & ? & ? & ?)).
    rewrite E, Hg' in Hg. injection Hg as <-. split; [done|]. split; [done|]. exists out. by subst h.
  - split; [done|]. split; [rewrite E1; by eapply pool_ID_nonempty, Hin; apply Hld|].
    exists out. split; [done|]. split; [done|]. by apply bytes_eqb_true.
Qed.

Lemma source_unique h o ptx o' ptx' :
  source h o ptx → source h o' ptx' → uo_TXID o = uo_TXID o' → ptx = ptx'.
Proof.
  intros Ho Ho' E. destruct (source_spent _ _ _ Ho) as (Ei & _). destruct (source_spent _ _ _ Ho') as (Ei' & _).
  assert (Hmix : ∀ o t k, o ∈ T k → t ∈ txs → uo_TXID o = tx_ID t → False).
  { intros a t k Hk Ht Ea. destruct (ld_source _ _ _ _ Hld k) as [p Hs]. destruct (Hs a Hk) as (Ek & _).
    rewrite <- Ek, Ea, (ld_new _ _ _ _ Hld t Ht) in Hk. by apply elem_of_nil in Hk. }
  destruct Ho as [[[[k Hk] _] Hg]|[Hin _]], Ho' as [[[[k' Hk'] _] Hg']|[Hin' _]].
  - destruct (ld_source _ _ _ _ Hld k) as [p Hs]. destruct (Hs o Hk) as (Ek & Hp & _).
    destruct (ld_source _ _ _ _ Hld k') as [p' Hs']. destruct (Hs' o' Hk') as (Ek' & Hp' & _).
    assert (k = k') as <- by congruence. destruct (Hs o' Hk') as (_ & Hp'' & _).
    rewrite Ek in Hg. rewrite Ek' in Hg'. congruence.
  - exfalso. apply (Hmix o ptx' k); [done..|congruence].
  - exfalso. apply (Hmix o' ptx k'); [done..|congruence].
  - eapply pool_inj; [apply Hld|done..|congruence].
Qed.

(** The map of transactions that a payment is prepared with. *)
Definition holds h (prevTXs : txmap) (outs : list TXOutputIndependent) : Prop :=
  ∀ o, o ∈ outs → ∃ ptx, source h o ptx ∧ prevTXs !! hex_EncodeToString (uo_TXID o) = Some ptx.

Lemma holds_snoc h prevTXs outs o ptx :
  holds h prevTXs outs → source h o ptx →
  holds h (<[hex_EncodeToString (tx_ID ptx) := ptx]> prevTXs) (outs ++ [o]).
Proof.
  intros Hh Hs o' Ho'. pose proof (source_spent _ _ _ Hs) as (Ei & _).
  assert (∃ ptx', source h o' ptx' ∧ (uo_TXID o' = uo_TXID o ∨
    prevTXs !! hex_EncodeToString (uo_TXID o') = Some ptx')) as (ptx' & Hs' & Hl).
  { apply elem_of_app in Ho' as [Ho'| ->%list_elem_of_singleton]; [|by eauto].
    destruct (Hh o' Ho') as (p & ? & ?). eauto. }
  exists ptx'. split; [done|]. destruct (decide (uo_TXID o' = uo_TXID o)) as [E|Hne].
  - rewrite Ei, E, lookup_insert_eq. f_equal. by eapply source_unique.
  - destruct Hl as [?|Hl]; [done|]. rewrite lookup_insert_ne; [done|]. rewrite Ei.
    by intros E%hex_EncodeToString_inj.
Qed.

(** *** The inputs *)

Definition mk_input (PubKey : bytes) o : TXInput := mkTXInput (uo_TXID o) (uo_OIndex o) [] PubKey.

Lemma new_inputs PubKey h outs inputs prevTXs before :
  (∀ o, o ∈ outs → confirmed T h o) → holds h prevTXs before →
  ∃ prevTXs', mfor outs (λ '(inputs, prevTXs) out,
      prevTX ← GetTransactionFromBlock (uo_TXID out) (uo_BlockHash out) db;
      Ret (inputs ++ [mkTXInput (uo_TXID out) (uo_OIndex out) [] PubKey], <[hex_EncodeToString (tx_ID prevTX) := prevTX]> prevTXs)) (inputs, prevTXs)
    = Ret (inputs ++ (mk_input PubKey <$> outs), prevTXs' : txmap) ∧
    holds h prevTXs' (before ++ outs).
Proof.
  revert inputs prevTXs before. induction outs as [|o outs IH]; intros inputs prevTXs before Hc Hh.
  { exists prevTXs. by rewrite !app_nil_r. }
  destruct (confirmed_source h o) as (ptx & Hs & _); [by apply Hc; left|].
  assert (Hg : GetTransactionFromBlock (uo_TXID o) (uo_BlockHash o) db = Ret ptx).
  { destruct (Hc o ltac:(by left)) as [[k Hk] _]. destruct Hs as [[_ ?]|[Hin (i & _ & _ & _ & E & _)]]; [done|].
    destruct (ld_source _ _ _ _ Hld k) as [p Hp]. destruct (Hp o Hk) as (Ek & _).
    rewrite <- Ek, E, (ld_new _ _ _ _ Hld ptx Hin) in Hk. by apply elem_of_nil in Hk. }
  destruct (IH (inputs ++ [mk_input PubKey o]) (<[hex_EncodeToString (tx_ID ptx) := ptx]> prevTXs) (before ++ [o]))
    as (prevTXs' & Hr & Hh'); [intros o' Ho'; apply Hc; by right|by apply holds_snoc|].
  exists prevTXs'. rewrite <- app_assoc in Hh'. split; [|done].
  cbn [mfor]. rewrite Hg. cbn [mbind outcome_bind]. unfold mk_input in Hr at 1. rewrite Hr. by rewrite <- app_assoc.
Qed.

Lemma awaited_source h o : awaited txs h o → ∃ ptx, source h o ptx ∧ DeserializeTransaction (uo_BlockHash o) = Ret ptx.
Proof.
  intros (ptx & i & Hin & Ho). exists ptx. split; [right; eauto|]. by destruct Ho as (? & _ & _ & _ & _ & _ & ?).
Qed.

Lemma extended_inputs PubKey h amount outs total inputs prevTXs before r :
  (∀ o, o ∈ outs → awaited txs h o) → holds h prevTXs before →
  ExtendNewTransactionInputs PubKey amount total inputs prevTXs outs = Ret r →
  ∃ outs' prevTXs', outs' `prefix_of` outs ∧
    r = (inputs ++ (mk_input PubKey <$> outs'), prevTXs', sum_from total outs') ∧
    holds h prevTXs' (before ++ outs').
Proof.
  revert total inputs prevTXs before. induction outs as [|o outs IH]; intros total inputs prevTXs before Hc Hh Hr.
  { injection Hr as <-. exists [], prevTXs. by rewrite !app_nil_r. }
  destruct (awaited_source h o) as (ptx & Hs & Hd); [by apply Hc; left|].
  cbn [ExtendNewTransactionInputs] in Hr. rewrite Hd in Hr. cbn [mbind outcome_bind] in Hr.
  pose proof (holds_snoc h prevTXs before o ptx Hh Hs) as Hh'. destruct (f64_geb _ amount).
  { injection Hr as <-. exists [o]. eexists. split; [by apply prefix_cons, prefix_nil|]. by split. }
  apply (IH _ _ _ (before ++ [o])) in Hr as (outs' & prevTXs' & Hp & -> & Hh2); [|intros o' Ho'; apply Hc; by right|done].
  exists (o :: outs'), prevTXs'. rewrite <- app_assoc in Hh2. split; [by apply prefix_cons|].
  by rewrite <- app_assoc.
Qed.

(** The inputs of a payment spend outputs of the key that no pending transaction
    spends: first some of the set, then some that are awaited, no two of these the
    same. *)
Lemma payment_inputs_spec PubKey to amount inputs prevTXs total :
  let h := HashPubKey PubKey in
  payment_inputs PubKey to amount db = Ret (inputs, prevTXs, total) →
  ∃ outs1 outs2, inputs = mk_input PubKey <$> outs1 ++ outs2 ∧ holds h prevTXs (outs1 ++ outs2) ∧
    total = sum_from f64_zero (outs1 ++ outs2) ∧
    (∀ o, o ∈ outs1 → confirmed T h o ∧ free txs h o) ∧
    (∀ o, o ∈ outs2 → awaited txs h o ∧ free txs h o) ∧ NoDup (uo_outpoint <$> outs2).
Proof.
  intros h. unfold payment_inputs. fold h.
  destruct (GetPreparedBy_spec f db txs h) as (reals & approved & -> & Hreal & Hnd & Hfree & _);
    [by eapply ld_opened|by eapply ld_pool|by eapply ld_inputs|].
  cbn [ignore_err]. rewrite ret_bind. unfold GetNewTransactionInputs. fold h.
  destruct (ChooseSpendableOutputs_spec f db T h amount (mjoin (prepared_inputs h <$> txs)))
    as (sp & acc & outs & -> & Hsp & -> & Hsm); [by eapply ld_opened|by eapply ld_unspent|].
  assert (Hin : ∀ o, o ∈ outs → confirmed T h o ∧ free txs h o).
  { intros o Ho. assert (o ∈ sp) as (? & ? & ?)%Hsp; [|done]. destruct (f64_geb _ _); [|by subst].
    destruct Hsm as (sorted & Hperm & _ & [rest ->] & _). rewrite <- Hperm. apply elem_of_app. by left. }
  destruct (new_inputs PubKey h outs [] ∅ []) as (prevs & Hr & Hh); [intros o Ho; by apply Hin|by intros o ?%elem_of_nil|].
  rewrite ret_bind, Hr, !ret_bind. cbn [app].
  destruct (f64_ltb _ amount).
  - destruct (Z.of_nat (length reals) =? 0)%Z; [done|]. intros He.
    apply (extended_inputs PubKey h amount reals _ _ _ outs) in He as (outs2 & prevs' & Hp & [= -> -> ->] & Hh');
      [|done|done].
    exists outs, outs2. rewrite fmap_app. split_and!; [done|done|unfold sum_from; by rewrite fold_left_app|done| |].
    + intros o Ho. assert (Hor : o ∈ reals) by (destruct Hp as [rest ->]; apply elem_of_app; by left).
      split; [by apply Hreal|]. destruct (Hreal o Hor) as (t & i & Ht & Hof).
      destruct Hof as (out & Hi & Hl & E1 & E2 & ? & ?). unfold free, uo_outpoint. rewrite E1, E2.
      apply (Hfree t i out Ht Hi Hl). exists o. split; [done|]. by exists out.
    + destruct Hp as [rest ->]. rewrite fmap_app in Hnd. by apply NoDup_app in Hnd as [? _].
  - intros [= <- <- <-]. exists outs, []. rewrite app_nil_r. split_and!; [done..|by intros o ?%elem_of_nil|constructor].
Qed.

(** *** The transaction *)

(** The outputs: the amount for the recipient, and the change when it is more than
    the smallest unit. *)
Definition payment_outputs (PubKey toHash : bytes) (amount total : float64) : list TXOutput :=
  mkTXOutput amount toHash ::
  (if f64_gtb total amount && f64_gtb (f64_sub total amount) SmallestUnit
   then [mkTXOutput (f64_sub total amount) (HashPubKey PubKey)] else []).

Lemma own_output PubKey v : NewTXOutput v (PubKeyToAddres PubKey) = Ret (mkTXOutput v (HashPubKey PubKey)).
Proof.
  unfold NewTXOutput, Lock, PubKeyToAddres, Base58Encode, Base58Decode. rewrite base58_Decode_Encode.
  cbn [app]. by rewrite slice_address by apply length_Checksum.
Qed.

Lemma not_coinbase PubKey h outs outs' prevTXs now :
  holds h prevTXs outs → IsCoinbase (mkTransaction [] (mk_input PubKey <$> outs) outs' now) = false.
Proof.
  intros Hh. destruct outs as [|o [|? ?]]; [done| |done]. unfold IsCoinbase. simpl.
  destruct (Hh o ltac:(by left)) as (ptx & (_ & Hne & _)%source_spent & _). by destruct (uo_TXID o).
Qed.

Lemma prepareNewTransactionComplete_spec PubKey to toHash amount outs total prevTXs now :
  (∀ v, NewTXOutput v to = Ret (mkTXOutput v toHash)) → holds (HashPubKey PubKey) prevTXs outs →
  let tx := mkTransaction [] (mk_input PubKey <$> outs) (payment_outputs PubKey toHash amount total) now in
  ∃ (m : prevmap) texts txBytes,
    prepareNewTransactionComplete PubKey to amount (mk_input PubKey <$> outs) total prevTXs now = Ret (txBytes, texts) ∧
    PrepareSignData tx m = Ret texts ∧ tx_Serialize tx = Ret txBytes ∧
    ∀ (i : nat) o, outs !! i = Some o → ∃ ptx, source (HashPubKey PubKey) o ptx ∧ m !! Z.of_nat i = Some (Some ptx).
Proof.
  intros Hto Hh tx. set (m := fold_left (λ (inputTXs : prevmap) '(vinInd, vin),
    <[vinInd := Some (default (mkTransaction [] [] [] 0) (prevTXs !! hex_EncodeToString (in_Txid vin)))]> inputTXs)
    (indexed (mk_input PubKey <$> outs)) ∅).
  assert (Hm : ∀ (i : nat) o, outs !! i = Some o →
    ∃ ptx, source (HashPubKey PubKey) o ptx ∧ m !! Z.of_nat i = Some (Some ptx)).
  { intros i o Hi. destruct (Hh o) as (ptx & Hs & Hl); [by eapply list_elem_of_lookup_2|]. exists ptx. split; [done|].
    unfold m, indexed. change (Z.of_nat i) with (Z.of_nat (0 + i)).
    rewrite (lookup_fold_indexed (λ vin, Some (default (mkTransaction [] [] [] 0) (prevTXs !! hex_EncodeToString (in_Txid vin))))
      _ 0 ∅ i (mk_input PubKey o)); [simpl; by rewrite Hl|]. by rewrite list_lookup_fmap, Hi. }
  destruct (PrepareSignData_total tx m) as [texts Ht]; [by eapply not_coinbase| |].
  { intros i vin Hi. unfold tx in Hi. simpl in Hi. rewrite list_lookup_fmap in Hi.
    destruct (outs !! i) as [o|] eqn:Eo; [|done]. injection Hi as <-.
    destruct (Hm i o Eo) as (ptx & Hs & Hl). destruct (source_spent _ _ _ Hs) as (Ei & _ & out & Ho & _). eauto. }
  destruct (tx_Serialize_total tx) as [txBytes Hb]. exists m, texts, txBytes. split_and!; [|done..].
  unfold prepareNewTransactionComplete. fold m. rewrite Hto, own_output.
  unfold tx, payment_outputs in *. destruct (_ && _); rewrite !ret_bind, Ht, ret_bind, Hb; done.
Qed.

(** *** The verification of the transaction *)

Lemma ledger_located : located db T.
Proof.
  intros k o Ho. destruct (ld_source _ _ _ _ Hld k) as [ptx Hs]. destruct (Hs o Ho) as (_ & ? & _). by exists ptx.
Qed.

(** What the two lookups of an input say. *)
Lemma look_source h o ptx vin :
  source h o ptx → outpoint_of vin = uo_outpoint o →
  confirmed T h o ∧ unspent_input vin f db = Ret (Some ptx) ∨
  unspent_input vin f db = Ret None ∧ pend_GetIfExists (in_Txid vin) db = Ret (Some ptx).
Proof.
  intros Hs E. pose proof (source_spent _ _ _ Hs) as (Ei & _). unfold outpoint_of, uo_outpoint in E. injection E as E1 E2.
  destruct (unspent_input_cases f db T vin (ld_unspent _ _ _ _ Hld) ledger_located)
    as [(o' & tx & Hin & _ & Hg & Hu)|[Hn Hu]]; destruct Hs as [[[[k Hk] Hh] Hg']|[Hin' _]].
  - left. split; [by split; [exists k|]|]. destruct (ld_source _ _ _ _ Hld (in_Txid vin)) as [p Hp].
    destruct (Hp o' Hin) as (_ & Hg1 & _). destruct (ld_source _ _ _ _ Hld k) as [p' Hp'].
    destruct (Hp' o Hk) as (Ek & _). subst k. rewrite <- E1 in Hk, Hg'. destruct (Hp o Hk) as (_ & Hg2 & _). congruence.
  - exfalso. rewrite E1, <- Ei, (ld_new _ _ _ _ Hld ptx Hin') in Hin. by apply elem_of_nil in Hin.
  - exfalso. apply Hn. exists o. destruct (ld_source _ _ _ _ Hld k) as [p' Hp'].
    destruct (Hp' o Hk) as (Ek & _). subst k. simpl. by rewrite E1, E2.
  - right. split; [done|].
    destruct (pend_GetIfExists_spec f db txs (in_Txid vin)) as (r & -> & Hr); [apply Hld..|].
    destruct r as [t|]; [|destruct Hr; rewrite E1, <- Ei; by apply list_elem_of_fmap_2].
    destruct Hr as [Ht Hid]. do 2 f_equal. eapply pool_inj; [apply Hld|done..|congruence].
Qed.

Lemma payment_resolved h outs1 outs2 vins (m : prevmap) :
  (∀ o, o ∈ outs1 → confirmed T h o) → NoDup (uo_outpoint <$> outs2) →
  outpoint_of <$> vins = uo_outpoint <$> outs1 ++ outs2 →
  (∀ (i : nat) o, (outs1 ++ outs2) !! i = Some o → ∃ ptx, source h o ptx ∧ m !! Z.of_nat i = Some (Some ptx)) →
  resolved (λ vin, unspent_input vin f db) (λ txid, pend_GetIfExists txid db) vins m.
Proof.
  intros Hc Hnd E Hm. split.
  - rewrite fmap_app in E. apply fmap_app_inv in E as (v1 & v2 & E1 & E2 & ->).
    unfold missing. rewrite filter_app, (filter_none _ v1).
    + simpl. rewrite E2 in Hnd. eapply sublist_NoDup; [exact Hnd|]. apply fmap_sublist, sublist_filter.
    + apply Forall_forall. intros vin Hv. assert (outpoint_of vin ∈ uo_outpoint <$> outs1) as (o & Eo & Ho)%list_elem_of_fmap
        by (rewrite E1; by apply list_elem_of_fmap_2).
      destruct (confirmed_source h o (Hc o Ho)) as (ptx & Hs & _).
      destruct (look_source h o ptx vin Hs Eo) as [[_ Hu]|[Hu _]]; rewrite Hu; [done|]. intros _.
      destruct (Hc o Ho) as [[k Hk] _]. destruct (ld_source _ _ _ _ Hld k) as [p Hp]. destruct (Hp o Hk) as (Ek & _).
      destruct (unspent_input_cases f db T vin (ld_unspent _ _ _ _ Hld) ledger_located)
        as [(? & ? & _ & _ & _ & Hu')|[Hn _]]; [congruence|].
      apply Hn. exists o. unfold outpoint_of, uo_outpoint in *. injection Eo as -> ->. simpl. by rewrite Ek.
  - intros i vin Hi. assert ((outpoint_of <$> vins) !! i = Some (outpoint_of vin)) as Hl by by rewrite list_lookup_fmap, Hi.
    rewrite E, list_lookup_fmap in Hl. destruct ((outs1 ++ outs2) !! i) as [o|] eqn:Eo; [|done]. apply (inj Some) in Hl.
    destruct (Hm i o Eo) as (ptx & Hs & Hmi). exists ptx. split; [done|].
    destruct (look_source h o ptx vin Hs (eq_sym Hl)) as [[_ ?]|?]; auto.
Qed.

(** A payment of free outputs conflicts with no pending transaction. *)
Lemma payment_no_conflict h outs tx c :
  outpoints tx = uo_outpoint <$> outs → (∀ o, o ∈ outs → (confirmed T h o ∨ awaited txs h o) ∧ free txs h o) →
  c ∈ txs → conflicts_with tx c = false.
Proof.
  intros E Ho Hc. apply not_true_iff_false. intros (p & Hp & Hp')%conflicts_with_spec.
  rewrite E in Hp. apply list_elem_of_fmap in Hp as (o & -> & Hin). destruct (Ho o Hin) as [Hk Hfree].
  apply list_elem_of_fmap in Hp' as (vin & Ev & Hvin). apply Hfree. rewrite Ev. apply list_elem_of_fmap_2.
  apply elem_of_join_fmap. exists c. split; [done|]. unfold prepared_inputs.
  destruct (ld_healthy _ _ _ _ Hld) as [_ Hh]. destruct (Hh c Hc) as [_ ->].
  apply list_elem_of_filter. split; [|done]. unfold UsesKey. apply bytes_eqb_true.
  destruct (ld_keys _ _ _ _ Hld c vin Hc Hvin) as [Hk1 Hk2].
  destruct Hk as [[[k Hk] <-]|(t & i & Ht & out & Hi & Hl & E1 & E2 & _)]; [by eapply Hk1|].
  unfold uo_outpoint, outpoint_of in Ev. injection Ev as Ev1 Ev2.
  rewrite (Hk2 t out Ht); [by apply bytes_eqb_true| |]; congruence.
Qed.

(** The funds are enough, the amount is not below the smallest unit, and what is paid
    differs from what is spent by less than it. *)
Definition settles (PubKey toHash : bytes) (amount totalamount : float64) : Prop :=
  f64_ltb totalamount amount = false ∧ f64_ltb amount SmallestUnit = false ∧
  f64_geb (f64_abs (f64_sub totalamount (total (payment_outputs PubKey toHash amount totalamount)))) SmallestUnit = false.

Definition spent_out (h : bytes) o : TXOutput := mkTXOutput (uo_Value o) h.

Lemma source_spends h o ptx (m : prevmap) (i : Z) PubKey :
  source h o ptx → m !! i = Some (Some ptx) → spends m i (mk_input PubKey o) (spent_out h o).
Proof.
  intros Hs Hm. destruct (source_spent _ _ _ Hs) as (Ei & Hne & out & Ho & Hv & Hk). exists ptx.
  split; [done|]. split; [congruence|]. simpl. rewrite Ho. f_equal. destruct out. simpl in *. by subst.
Qed.

Lemma settles_balanced PubKey toHash amount outs :
  settles PubKey toHash amount (sum_from f64_zero outs) →
  balanced (spent_out (HashPubKey PubKey) <$> outs) (payment_outputs PubKey toHash amount (sum_from f64_zero outs)).
Proof.
  intros (_ & Hu & Hd). split.
  - unfold payment_outputs. constructor; [done|]. destruct (_ && _) eqn:E; [|constructor].
    apply andb_prop in E as [_ E]. constructor; [|constructor]. by apply f64_ltb_asym.
  - replace (total (spent_out (HashPubKey PubKey) <$> outs)) with (sum_from f64_zero outs); [done|].
    unfold total, sum_from. generalize f64_zero. clear. induction outs as [|o outs IH]; intros acc; [done|]. apply IH.
Qed.

Lemma SetSignatures_same tx sigs tx' :
  IsCoinbase tx = false → SetSignatures tx sigs = Ret tx' → outpoints tx' = outpoints tx ∧ tx_Vout tx' = tx_Vout tx.
Proof.
  intros Hcb. unfold SetSignatures. rewrite Hcb. intros Hs. go_inv Hs.
  destruct (tx_Hash_ignored_spec (set_Vin v tx)) as [id E1]. rewrite E1 in Hs. injection Hs as <-. split; [|done].
  apply sign_inputs_Ret, Forall2_indexed in E as [Hl E]. unfold outpoints. simpl. apply list_eq. intros i.
  rewrite !list_lookup_fmap. destruct (tx_Vin tx !! i) as [vin|] eqn:Ei.
  - destruct (lookup_lt_is_Some_2 v i) as [vin' Ev]; [apply lookup_lt_Some in Ei; lia|].
    destruct (E i vin vin' Ei Ev) as (sig & _ & ->). rewrite Ev. done.
  - rewrite (proj2 (lookup_ge_None _ _)); [done|]. apply lookup_ge_None in Ei. lia.
Qed.

(** Signed, the transaction is one that [Verify] accepts. *)
Lemma payment_signed PubKey privKey seeds outs (m : prevmap) texts outputs now :
  let h := HashPubKey PubKey in
  let tx := mkTransaction [] (mk_input PubKey <$> outs) outputs now in
  signer PubKey privKey seeds → IsCoinbase tx = false → PrepareSignData tx m = Ret texts →
  (∀ (i : nat) o, outs !! i = Some o → ∃ ptx, source h o ptx ∧ m !! Z.of_nat i = Some (Some ptx)) →
  balanced (spent_out h <$> outs) outputs →
  ∃ sigs tx', SignDataSet PubKey privKey texts seeds = Ret sigs ∧ SetSignatures tx sigs = Ret tx' ∧
    Verify tx' m = Ret tt ∧ outpoints tx' = uo_outpoint <$> outs ∧ tx_Vout tx' = outputs.
Proof.
  intros h tx Hsg Hcb Ht Hm Hb. destruct (SignDataSet_good PubKey privKey texts seeds Hsg) as (sigs & Hs & Hl & Hgood).
  destruct (SetSignatures_Verify tx m texts sigs (spent_out h <$> outs)) as (tx' & Hset & Hv); [done..| | |done|].
  - apply Forall2_indexed. simpl. split; [by rewrite !length_fmap|]. intros i vin out Hi Ho.
    rewrite list_lookup_fmap in Hi. rewrite list_lookup_fmap in Ho. destruct (outs !! i) as [o|] eqn:Eo; [|done].
    injection Hi as <-. injection Ho as <-. destruct (Hm i o Eo) as (ptx & Hsrc & Hmi).
    split; [by eapply source_spends|done].
  - intros i vin text sig Hi Hti Hsi. simpl in Hi. rewrite list_lookup_fmap in Hi.
    destruct (outs !! i); [|done]. injection Hi as <-. simpl. by eapply Hgood.
  - exists sigs, tx'. destruct (SetSignatures_same tx sigs tx' Hcb Hset) as [Ho Hout]. split_and!; [done..| |done].
    rewrite Ho. unfold outpoints. simpl. by rewrite <- list_fmap_compose.
Qed.

(** The pool takes a verified transaction of free outputs of the key. *)
Lemma payment_received h outs1 outs2 tx (m : prevmap) :
  (∀ o, o ∈ outs1 → confirmed T h o ∧ free txs h o) → (∀ o, o ∈ outs2 → awaited txs h o ∧ free txs h o) →
  NoDup (uo_outpoint <$> outs2) → outpoints tx = uo_outpoint <$> outs1 ++ outs2 →
  (∀ (i : nat) o, (outs1 ++ outs2) !! i = Some o → ∃ ptx, source h o ptx ∧ m !! Z.of_nat i = Some (Some ptx)) →
  Verify tx m = Ret tt → tx_fits tx →
  ∃ f' txs', ReceivedNewTransaction tx db = (Ret tt, with_bc f' db) ∧ pool f' txs' ∧ with_tx tx txs txs' ∧
    conflict_free txs' ∧ only [unapprovedTransactionsBucket] f f'.
Proof.
  intros H1' H2' Hnd E Hm Hv Hfit.
  assert (Hn : ∀ c, c ∈ txs → conflicts_with tx c = false).
  { intros c. apply (payment_no_conflict h _ tx c E). intros o [Ho|Ho]%elem_of_app;
      [destruct (H1' o Ho)|destruct (H2' o Ho)]; auto. }
  assert (Hq : verifyTransactionQuick tx db = Ret true).
  { rewrite (verifyTransactionQuick_resolve f db tx) by apply Hld.
    apply (resolve_Verify _ (λ txid, pend_GetIfExists txid db)); [intros; apply CheckInputsArePrepared_iff|].
    exists m. split; [|done]. apply (payment_resolved h outs1 outs2); [intros o Ho; by apply H1'|done..]. }
  destruct (pend_Add_cases f db txs tx) as [(c & Hc & Hcw & _)|(_ & f' & txs' & Ha & Hp' & Hb & Hw)]; [apply Hld..|done| |].
  { by rewrite (Hn c Hc) in Hcw. }
  exists f', txs'. unfold ReceivedNewTransaction, mbind, st_bind, ask. rewrite Hq. simpl. rewrite Ha.
  split_and!; [done..| |done]. eapply conflict_free_with; [apply Hld|done..].
Qed.

(** *** The payment *)

(** The transaction that a payment is: prepared by the node, signed by the key. *)
Definition payment (PubKey : bytes) (privKey : PrivateKey) (to : bytes) (amount : float64) (now : Z)
    (seeds : Z → Z → N) : outcome Transaction :=
  '(txBytes, texts) ← PrepareNewTransaction PubKey to amount now db;
  signatures ← SignDataSet PubKey privKey texts seeds;
  tx ← DeserializeTransaction txBytes;
  SetSignatures tx signatures.

Lemma recipient to toHash : AddresToPubKeyHash to = Ret toHash → ∀ v, NewTXOutput v to = Ret (mkTXOutput v toHash).
Proof.
  unfold AddresToPubKeyHash, NewTXOutput, Lock. destruct (_ <? 10)%Z; [done|]. by intros ->.
Qed.

(** A payment that is found funds for is a transaction that pays the recipient and
    gives the change back, and the pool takes it. *)
Lemma payment_spec PubKey privKey to toHash amount inputs prevTXs totalamount now seeds :
  signer PubKey privKey seeds → AddresToPubKeyHash to = Ret toHash →
  payment_inputs PubKey to (parse_fixed8 amount) db = Ret (inputs, prevTXs, totalamount) →
  settles PubKey toHash (parse_fixed8 amount) totalamount →
  ∃ txBytes texts sigs unsigned tx, PrepareNewTransaction PubKey to amount now db = Ret (txBytes, texts) ∧
    SignDataSet PubKey privKey texts seeds = Ret sigs ∧ DeserializeTransaction txBytes = Ret unsigned ∧
    SetSignatures unsigned sigs = Ret tx ∧
    outpoints tx = outpoint_of <$> inputs ∧
    tx_Vout tx = payment_outputs PubKey toHash (parse_fixed8 amount) totalamount ∧
    (tx_fits tx → ∃ f' txs', ReceivedNewTransaction tx db = (Ret tt, with_bc f' db) ∧ pool f' txs' ∧
      with_tx tx txs txs' ∧ conflict_free txs' ∧ only [unapprovedTransactionsBucket] f f').
Proof.
  intros Hsg Hto Hin Hset. pose proof Hset as (Henough & _).
  destruct (payment_inputs_spec PubKey to (parse_fixed8 amount) inputs prevTXs totalamount Hin)
    as (outs1 & outs2 & -> & Hh & -> & H1' & H2' & Hnd).
  destruct (prepareNewTransactionComplete_spec PubKey to toHash (parse_fixed8 amount) (outs1 ++ outs2)
    (sum_from f64_zero (outs1 ++ outs2)) prevTXs now (recipient to toHash Hto) Hh)
    as (m & texts & txBytes & Hp & Ht & Hb & Hm).
  destruct (payment_signed PubKey privKey seeds (outs1 ++ outs2) m texts _ now Hsg
    (not_coinbase _ _ _ _ _ _ Hh) Ht Hm (settles_balanced _ _ _ _ Hset)) as (sigs & tx & Hs & Hset' & Hv & Ho & Hout).
  exists txBytes, texts, sigs. eexists _, tx. split_and!.
  - unfold PrepareNewTransaction. rewrite Hin, ret_bind, Henough. exact Hp.
  - done.
  - by apply DeserializeTransaction_Serialize in Hb as [_ Hb].
  - done.
  - rewrite Ho. by rewrite <- list_fmap_compose.
  - done.
  - intros Hfit. by apply (payment_received (HashPubKey PubKey) outs1 outs2 tx m).
Qed.

(** A payment that the node finds funds for is made: [CreateTransaction] prepares
    it from unspent outputs of the key, in blocks or in pending transactions, that no
    pending transaction spends; signs it; and its own verification accepts it, so
    that it is now in the pool, which no conflict got into.  The transaction spends
    the chosen outputs, pays the recipient the amount rounded to eight decimals and
    gives the change back. *)
Lemma CreateTransaction_pays PubKey privKey to toHash amount inputs prevTXs totalamount now seeds :
  signer PubKey privKey seeds → f64_leb amount f64_zero = false →
  to ≠ [] → AddresToPubKeyHash to = Ret toHash →
  payment_inputs PubKey to (parse_fixed8 amount) db = Ret (inputs, prevTXs, totalamount) →
  settles PubKey toHash (parse_fixed8 amount) totalamount →
  (∀ tx, payment PubKey privKey to amount now seeds = Ret tx → tx_fits tx) →
  ∃ tx f' txs', CreateTransaction PubKey privKey to amount now seeds db = (Ret tx, with_bc f' db) ∧
    outpoints tx = outpoint_of <$> inputs ∧
    tx_Vout tx = payment_outputs PubKey toHash (parse_fixed8 amount) totalamount ∧
    pool f' txs' ∧ with_tx tx txs txs' ∧ conflict_free txs' ∧ only [unapprovedTransactionsBucket] f f'.
Proof.
  intros Hsg Hpos Hne Hto Hin Hset Hfit.
  destruct (payment_spec PubKey privKey to toHash amount inputs prevTXs totalamount now seeds Hsg Hto Hin Hset)
    as (txBytes & texts & sigs & tx0 & tx & Hp & Hs & Hd & Hsig & Ho & Hout & Hrec).
  destruct Hrec as (f' & txs' & Hr & Hp' & Hw & Hc & Hb).
  { apply Hfit. unfold payment. by rewrite Hp, ret_bind, Hs, ret_bind, Hd, ret_bind. }
  exists tx, f', txs'. split_and!; [|done..].
  unfold CreateTransaction. rewrite Hpos, bool_decide_eq_false_2 by done.
  unfold mbind, st_bind, wrap_err, ask, lift, ReceivedNewTransactionData. rewrite Hp, Hs, Hd. cbn.
  unfold mbind, st_bind, lift. rewrite Hsig, Hr. done.
Qed.
End Sources.
End Payment.

(** ** Witnesses

    The key of [ManagerDemo] pays one of its three coins to another key. *)

Module PaymentDemo.
Import ToyCrypto MapBolt InsertionSort MapRange Codecs Demo IndexDemo PendingDemo ManagerDemo.

Lemma one_byte z : (0 < z < 256)%Z → length (big_Bytes z) = 1.
Proof.
  intros Hz. destruct (big_Bytes_minimal z) as [Hn Hl]; [lia|]. destruct (big_Bytes z) as [|b [|b' l]]; [done|done|].
  exfalso. cbn [length] in Hl. assert (256 ^ 1 ≤ 256 ^ (Z.of_nat (S (S (length l))) - 1))%Z by (apply Z.pow_le_mono_r; lia). lia.
Qed.

Lemma demo_signer : signer demo_pub 7%Z (λ _ _, 0%N).
Proof.
  intros text i. assert (∃ sig, SignData 7%Z 0%N text = Ret sig ∧ VerifySignature sig text demo_pub = true) as (sig & Hs & Hv).
  { eexists. split; [reflexivity|]. rewrite (VerifySignature_halves _ _ _ 7 (1 + mix (md5_Sum text) `mod` 251)).
    - unfold ecdsa_Verify. simpl. unfold verify. apply andb_true_intro. split; [reflexivity|apply Z.eqb_refl].
    - pose proof (Z.mod_pos_bound (mix (md5_Sum text)) 251). apply halves_big_Bytes; [lia..|].
      left. rewrite !one_byte by lia. done. }
  split; [by exists sig|]. exists 1%Z, sig. split; [lia|done].
Qed.

Lemma demo_ledger : ledger man_file man_db [] man_T.
Proof.
  split; try (intros tx; intros; by (exfalso; eapply not_elem_of_nil)).
  - apply man_opened.
  - apply man_pool.
  - split; [apply man_free|]. by intros tx ?%elem_of_nil.
  - constructor.
  - apply man_utxo.
  - intros k. exists demo_prev. intros o. unfold man_T, upd. case_bool_decide as E; [|by intros ?%elem_of_nil].
    subst k. intros ->%list_elem_of_singleton. split; [reflexivity|]. split; [by vm_compute|].
    split; [reflexivity|]. split; [discriminate|]. exists (demo_out (f64_of_Z 3)). split_and!; reflexivity.
Qed.

Definition shop_hash : bytes := [x01; x02; x03; x04; x05; x06].
Definition shop : bytes := PubKeyHashToAddres shop_hash.
Definition shop_inputs : list TXInput * txmap * float64 :=
  match payment_inputs demo_pub shop (parse_fixed8 (f64_of_Z 1)) man_db with Ret r => r | _ => ([], ∅, f64_zero) end.

Lemma shop_fits tx : payment man_db demo_pub 7%Z shop (f64_of_Z 1) 5 (λ _ _, 0%N) = Ret tx → tx_fits tx.
Proof.
  intros E. vm_compute in E. injection E as <-. apply small_fits; [|done|vm_compute; discriminate].
  intros d E. vm_compute in E. injection E as <-. vm_compute. discriminate.
Qed.

(** The amounts must settle.  With an output of two smallest units, a payment of one
    would have a change of exactly one: no output is made for it, and the node does
    not accept the transaction that it has prepared itself. *)
Definition two_units : float64 := SFdiv 53 1024 (f64_of_Z 2) (f64_of_Z (10 ^ 8)).
Definition units_prev : Transaction := mkTransaction [x09] [] [demo_out two_units] 0.
Definition units_file : boltfile :=
  <[blocksBucket := ({[ str "l" := hash_d; hash_d := encoded (mkBlock 0 [units_prev] [] hash_d 0 0) ]} : gmap bytes bytes)]>
  (<[unspentTransactionsBucket := ({[ [x09] := gob_text
      [mkTXOutputIndependent two_units (HashPubKey demo_pub) [] [x09] 0 false hash_d] ]} : gmap bytes bytes)]> man_file).

Example change_of_one_unit :
  (CreateTransaction demo_pub 7%Z shop SmallestUnit 5 (λ _ _, 0%N) (mkDB true (Some units_file) None)).1
  = Err (EWrap "Final ading TX error: %s"
      (EFmt "Input and output values of a transaction are not same: %.10f vs %.10f . Diff %.10f"
         [AFloat two_units; AFloat SmallestUnit; AFloat SmallestUnit])).
Proof. vm_compute. reflexivity. Qed.
End PaymentDemo.
