(* ===== verification/Cancel.v ===== *)
(** * Taking a block back

    [UpdateOnBlockCancel] ([node/transactions/unspent.go]) is called for the
    blocks that leave the main chain.  It deletes the outputs of the block and
    asks the index what the earlier transactions have left under the block
    before.  This file shows when the set of unspent outputs is then the one
    before the block, up to the sender and the mark of a coinbase, and what the
    code loses otherwise. *)

From Stdlib Require Import Strings.Byte ZifyNat.
From stdpp Require Import base strings numbers gmap sorting list.
From S2P Require Import Prelude Float64 Platform Concrete Utils Merkle Structures Codecs Signing.
From S2P Require Import Database ChainIndex Tables Blockchain Branches BlockchainLookup.
From S2P Require Import BlockchainUpdate UnderTip TxIndex Pending Unspent TxManager Consensus Mining.

(** What the index reports of a transaction. *)
Abbreviation tx_info := (option (Transaction * list TransactionsIndexSpentOutputs * bytes)).

Section Cancel.
Context `{Crypto} `{BoltLaws} `{GoRange} `{!Gob Transaction} `{!Gob Block}.
Context `{!Gob (list TXOutputIndependent)} `{!GobLaws (list TXOutputIndependent)}.
Context `{!Gob (list bytes)} `{!Gob (list TransactionsIndexSpentOutputs)}.
Implicit Types (f : boltfile) (db : DB) (tx : Transaction) (block : Block) (k : bytes).

(** The index is not in the bucket of unspent outputs. *)
Lemma unspent_disjoint name : name ∈ read_buckets → name ∉ [unspentTransactionsBucket].
Proof. unfold read_buckets. set_solver. Qed.

Lemma GetTransactionAllInfo_frame f f' db fuel k tip :
  opened f db → unspent_only f f' →
  GetTransactionAllInfo fuel k tip (with_bc f' db) = GetTransactionAllInfo fuel k tip db.
Proof.
  intros Ho Hu. pose proof unspent_disjoint as Hd. unfold GetTransactionAllInfo.
  rewrite (GetTranactionBlocks_frame _ f f' db Ho Hu Hd). apply outcome_bind_ext; [done|]. intros hs.
  rewrite (ChooseHashUnderTip_frame _ f f' db Ho Hu Hd). apply outcome_bind_ext; [done|]. intros [h|]; [|done].
  rewrite (GetTranactionOutputsSpent_frame _ f f' db Ho Hu Hd). apply outcome_bind_ext; [done|]. intros sp.
  unfold GetTransactionFromBlock. by rewrite (bc_GetBlock_frame _ f f' db Ho Hu Hd).
Qed.

(** The outputs that are put back for a transaction. *)
Definition restored (i : tx_info) : list TXOutputIndependent :=
  match i with
  | None => []
  | Some (t, sp, h) =>
      kept_outputs t (match tx_Vin t with vin :: _ => HashPubKey (in_PubKey vin) | [] => [] end) false h
        (λ outInd, existsb (λ so, so_OutInd so =? outInd)%Z sp)
  end.

(** ** What a canceled block writes *)

Context (f : boltfile) (db : DB) (fuel : nat) (prev : bytes) (info : bytes → tx_info).
Hypothesis Hopened : opened f db.

(** The record of a transaction under the block before. *)
Definition before k : list TXOutputIndependent := restored (info k).
Definition put (T : bytes → list TXOutputIndependent) k := upd k (before k) T.

(** The earlier transaction is known, and its outputs can be stored. *)
Definition input_known (vin : TXInput) : Prop :=
  GetTransactionAllInfo fuel (in_Txid vin) prev db = Ret (info (in_Txid vin)) ∧
  fits (in_Txid vin) (before (in_Txid vin)) ∧
  ∃ t sp h, info (in_Txid vin) = Some (t, sp, h) ∧ tx_Vin t ≠ [].

Definition changed (db' : DB) (T : bytes → list TXOutputIndependent) : Prop :=
  ∃ f', db' = with_bc f' db ∧ utxo_table f' T ∧ unspent_only f f'.

Lemma changed_opened db' T : changed db' T → ∃ f', opened f' db' ∧ utxo_table f' T ∧ unspent_only f f' ∧ db' = with_bc f' db.
Proof. intros (f' & -> & Ht & Hu). exists f'. split_and!; [|done..]. by eapply opened_only. Qed.

Lemma delete_changed db' T k :
  changed db' T → ∃ db'', drop_err (on_bc (UnspentOutputsDB.DeleteDataForTransaction k)) db' = (Ret tt, db'') ∧
    changed db'' (upd k [] T).
Proof.
  intros (f' & Ho & Ht & Hu & ->)%changed_opened.
  destruct (table_delete f' _ k _ Ht) as (f2 & Hd & Hs & Ht2). exists (with_bc f2 db). split.
  - unfold drop_err, UnspentOutputsDB.DeleteDataForTransaction. rewrite (on_bc_Ret _ f' _ tt f2 Ho Hd). done.
  - exists f2. split_and!; [done..|]. eapply only_trans; [done|]. eapply set_record_only_in; [done|by left].
Qed.

Lemma restore_input_spec db' T vin :
  changed db' T → input_known vin →
  ∃ db'', restore_input fuel prev false vin db' = (Ret (Some tt), db'') ∧ changed db'' (put T (in_Txid vin)).
Proof.
  intros Hc (Hi & Hfits & t & sp & h & Ei & Hv). pose proof Hc as (f' & Ho & Ht & Hu & E)%changed_opened.
  unfold restore_input, mbind at 1, st_bind at 1, ask. rewrite E, (GetTransactionAllInfo_frame f f') by done.
  rewrite Hi, Ei. rewrite <- E. unfold put, before in *. rewrite Ei in *. cbn [restored] in *.
  destruct (tx_Vin t) as [|vin0 vins]; [done|]. unfold mbind at 1, st_bind at 1, lift at 1.
  change (index (vin0 :: vins) 0) with (Ret vin0 : outcome TXInput). cbv iota beta.
  set (outs := kept_outputs t _ false h _) in *. destruct (Z.ltb_spec 0 (Z.of_nat (length outs))) as [Hl|Hl].
  - destruct (table_put f' _ (in_Txid vin) outs _ Ht Hfits) as (d & f2 & Ed & Hp & Hs & Ht2).
    exists (with_bc f2 db). split.
    + unfold mbind, st_bind, lift, un_serializeOutputs. rewrite Ed.
      unfold UnspentOutputsDB.PutDataForTransaction. by rewrite (on_bc_Ret _ f' _ tt f2 Ho Hp), E.
    + exists f2. split_and!; [done..|]. eapply only_trans; [done|]. eapply set_record_only_in; [done|by left].
  - assert (outs = []) as -> by (apply length_zero_iff_nil; lia).
    destruct (delete_changed db' T (in_Txid vin) Hc) as (db'' & Hd & Hc'').
    exists db''. split; [|done]. unfold mbind, st_bind. by rewrite Hd.
Qed.

Lemma restore_inputs_spec db' T vins :
  changed db' T → Forall input_known vins →
  ∃ db'', restore_inputs fuel prev false vins db' = (Ret tt, db'') ∧
    changed db'' (fold_left put (in_Txid <$> vins) T).
Proof.
  intros Hc Hk. revert db' T Hc. induction Hk as [|vin vins Hv Hk IH]; intros db' T Hc; [by exists db'|].
  destruct (restore_input_spec db' T vin Hc Hv) as (d1 & E1 & Hc1).
  destruct (IH d1 _ Hc1) as (d2 & E2 & Hc2). exists d2. split; [|done].
  cbn [restore_inputs]. unfold mbind, st_bind. by rewrite E1.
Qed.

Definition cancel_effect (T : bytes → list TXOutputIndependent) tx : bytes → list TXOutputIndependent :=
  fold_left put (in_Txid <$> tx_inputs tx) (upd (tx_ID tx) [] T).

Lemma cancel_tx_spec db' T tx :
  changed db' T → Forall input_known (tx_inputs tx) →
  ∃ db'', cancel_tx fuel prev tx db' = (Ret tt, db'') ∧ changed db'' (cancel_effect T tx).
Proof.
  intros Hc Hk. destruct (delete_changed db' T (tx_ID tx) Hc) as (d1 & E1 & Hc1).
  unfold cancel_tx, cancel_effect, mbind at 1, st_bind at 1. rewrite E1. unfold tx_inputs in *.
  destruct (IsCoinbase tx); [by exists d1|]. by apply restore_inputs_spec.
Qed.

(** ** The set after it *)

Lemma fold_put_at T ks k : fold_left put ks T k = if decide (k ∈ ks) then before k else T k.
Proof.
  revert T. induction ks as [|k1 ks IH]; intros T; [done|]. cbn [fold_left]. rewrite IH.
  destruct (decide (k ∈ ks)) as [Hin|Hin]; [by rewrite decide_True by (by right)|].
  unfold put. destruct (decide (k = k1)) as [->|Hne]; [by rewrite upd_eq, decide_True by left|].
  rewrite upd_ne, decide_False; [done| |done]. by intros [|]%elem_of_cons.
Qed.

(** The keys that the block touches. *)
Definition tx_keys tx : list bytes := tx_ID tx :: (in_Txid <$> tx_inputs tx).

Lemma keys_cons tx txs k :
  k ∈ mjoin (tx_keys <$> tx :: txs) ↔
  k = tx_ID tx ∨ k ∈ in_Txid <$> tx_inputs tx ∨ k ∈ mjoin (tx_keys <$> txs).
Proof.
  rewrite fmap_cons. change (mjoin (?l :: ?ls)) with (l ++ mjoin ls). unfold tx_keys at 1.
  rewrite elem_of_app, elem_of_cons. tauto.
Qed.

Lemma cancel_effects_at T txs k :
  (∀ tx, tx ∈ txs → info (tx_ID tx) = None) →
  fold_left cancel_effect txs T k = if decide (k ∈ mjoin (tx_keys <$> txs)) then before k else T k.
Proof.
  intros Hn. revert T. induction txs as [|tx txs IH]; intros T; [done|]. cbn [fold_left].
  rewrite IH by (intros t Ht; apply Hn; by right). pose proof (keys_cons tx txs k) as Hiff.
  destruct (decide (k ∈ mjoin (tx_keys <$> txs))) as [Hin|Hin].
  { rewrite decide_True; [done|]. apply Hiff. auto. }
  unfold cancel_effect. rewrite fold_put_at. destruct (decide (k ∈ in_Txid <$> tx_inputs tx)) as [Hk|Hk].
  { rewrite decide_True; [done|]. apply Hiff. auto. }
  destruct (decide (k = tx_ID tx)) as [->|Hne].
  - rewrite upd_eq, decide_True by (apply Hiff; auto). unfold before. by rewrite Hn by left.
  - rewrite upd_ne, decide_False; [done|rewrite Hiff; tauto|done].
Qed.

Lemma apply_block_other T block k :
  k ∉ mjoin (tx_keys <$> blk_Transactions block) → apply_block T block k = T k.
Proof.
  unfold apply_block. revert T. induction (blk_Transactions block) as [|tx txs IH]; intros T Hk; [done|].
  rewrite keys_cons in Hk. assert (k ≠ tx_ID tx ∧ k ∉ in_Txid <$> tx_inputs tx) as [Hid Hin] by tauto.
  cbn [fold_left]. rewrite IH by tauto. unfold apply_tx. rewrite upd_ne by done. clear -Hin.
  revert T. induction (tx_inputs tx) as [|vin vins IH]; intros T; [done|]. csimpl in Hin.
  apply not_elem_of_cons in Hin as [Hv Hin]. cbn [fold_left]. rewrite IH by done.
  unfold spend. by rewrite upd_ne.
Qed.

(** The set [T] agrees with the index on a transaction: it has the outputs, as they
    were recorded when its block was added, that nothing under the block before
    spends, and none of a transaction that is not under it. *)
Definition spends (sp : list TransactionsIndexSpentOutputs) (i : Z) : bool :=
  existsb (λ so, so_OutInd so =? i)%Z sp.
Definition agrees (T : bytes → list TXOutputIndependent) k : Prop :=
  T k = match info k with
        | None => []
        | Some (t, sp, h) => filter (λ o, spends sp (uo_OIndex o) = false) (tx_outputs h t)
        end.

(** A record that is put back names the owner of the first input as the sender and
    is not marked as one of a coinbase; the rest is as it was. *)
Definition remade (i : tx_info) (o : TXOutputIndependent) : TXOutputIndependent :=
  match i with
  | Some (t, _, _) =>
      mkTXOutputIndependent (uo_Value o) (uo_DestPubKeyHash o)
        (match tx_Vin t with vin :: _ => HashPubKey (in_PubKey vin) | [] => [] end)
        (uo_TXID o) (uo_OIndex o) false (uo_BlockHash o)
  | None => o
  end.

Lemma restored_remade t sp h :
  restored (Some (t, sp, h)) = remade (Some (t, sp, h)) <$> filter (λ o, spends sp (uo_OIndex o) = false) (tx_outputs h t).
Proof.
  unfold restored, tx_outputs, kept_outputs. induction (indexed (tx_Vout t)) as [|[i out] l IH]; [done|].
  cbn. fold (spends sp i).
  destruct (decide (spends sp i = false)) as [E|E]; cbn; rewrite (decide_True (P := false = false)) by done; cbn.
  - rewrite decide_True by done. cbn. by f_equal.
  - by rewrite decide_False.
Qed.

Lemma agrees_before T k : agrees T k → before k = remade (info k) <$> T k.
Proof.
  unfold agrees, before. intros ->. destruct (info k) as [[[t sp] h]|]; [apply restored_remade|done].
Qed.

Lemma remade_index i (l : list TXOutputIndependent) : uo_OIndex <$> (remade i <$> l) = uo_OIndex <$> l.
Proof. rewrite <- list_fmap_compose. apply list_fmap_ext. intros n o _. by destruct i as [[[t sp] h]|]. Qed.

Lemma unspent_indices T T' k i : uo_OIndex <$> T k = uo_OIndex <$> T' k → unspent T (k, i) → unspent T' (k, i).
Proof.
  intros E (o & Ho & Hi). cbn in Ho, Hi. subst i. apply (list_elem_of_fmap_2 uo_OIndex) in Ho. rewrite E in Ho.
  apply list_elem_of_fmap in Ho as (o' & Hi & Ho). by exists o'.
Qed.

(** C8: taking a block back.  Let [T] be the set of unspent outputs before the
    block, which agrees with what the index knows under the block before, and
    let the block have been added to it.  [UpdateOnBlockCancel] then leaves [T]
    again, provided that each input of the block spends an output of a transaction
    under the block before: the same outputs in the same order, each with its value,
    owner, transaction, number and block.  The records of the transactions that
    the block touches differ from those of [T] in two fields, the sender, which is
    the owner of the first input, and the mark of a coinbase, which is gone. *)
Theorem UpdateOnBlockCancel_restores T block :
  blk_PrevBlockHash block = prev → utxo_table f (apply_block T block) →
  (∀ k, k ∈ mjoin (tx_keys <$> blk_Transactions block) → agrees T k) →
  (∀ tx, tx ∈ blk_Transactions block → info (tx_ID tx) = None ∧ Forall input_known (tx_inputs tx)) →
  ∃ f' T', UpdateOnBlockCancel fuel block db = (Ret tt, with_bc f' db) ∧ unspent_only f f' ∧
    utxo_table f' T' ∧
    (∀ k, T' k = if decide (k ∈ mjoin (tx_keys <$> blk_Transactions block)) then remade (info k) <$> T k else T k) ∧
    ∀ p, unspent T' p ↔ unspent T p.
Proof.
  intros Hprev Ht Hag Htx.
  destruct (sfor_sim changed (cancel_tx fuel prev) cancel_effect (λ _ tx, Forall input_known (tx_inputs tx))
    (blk_Transactions block) db (apply_block T block)) as (db' & Hr & f' & -> & Ht' & Hu).
  - exists f. split_and!; [by rewrite with_bc_same|done|apply only_refl].
  - assert (∀ T txs, (∀ tx, tx ∈ txs → Forall input_known (tx_inputs tx)) →
      all_ok (λ _ tx, Forall input_known (tx_inputs tx)) cancel_effect T txs) as Hall.
    { intros T1 txs. revert T1. induction txs as [|tx txs IH]; intros T1 Hk; [done|].
      split; [apply Hk; left|]. apply IH. intros t Hin. apply Hk. by right. }
    apply Hall. intros tx Hin. by apply Htx.
  - intros. by apply cancel_tx_spec.
  - exists f', (fold_left cancel_effect (blk_Transactions block) (apply_block T block)).
    assert (Hat : ∀ k, fold_left cancel_effect (blk_Transactions block) (apply_block T block) k
      = if decide (k ∈ mjoin (tx_keys <$> blk_Transactions block)) then remade (info k) <$> T k else T k).
    { intros k. rewrite cancel_effects_at by (intros tx Hin; by apply Htx). case_decide as Hin.
      - by apply agrees_before, Hag.
      - by apply apply_block_other. }
    split_and!; [|done..| |].
    + unfold UpdateOnBlockCancel, mbind, st_bind, ask.
      change (GetUnspentOutputsObject db) with (GetBlockchainObject db).
      by rewrite (opened_object f db Hopened), Hprev.
    + done.
    + intros [k i]. assert (E : uo_OIndex <$> fold_left cancel_effect (blk_Transactions block) (apply_block T block) k
        = uo_OIndex <$> T k) by (rewrite Hat; case_decide; [apply remade_index|done]).
      split; by apply unspent_indices.
Qed.
End Cancel.

(** ** Taking back a side block

    A chain of one block with a coinbase, and a block that spends its output,
    which is stored but not on the main chain. *)

Module CancelDemo.
Import ToyCrypto MapBolt InsertionSort MapRange Codecs Demo IndexDemo PendingDemo ManagerDemo.

Definition coin : Transaction :=
  mkTransaction [x09] [mkTXInput [] (-1) [] demo_pub] [demo_out (f64_of_Z 3)] 0.
Definition blk_coin : Block := mkBlock 0 [coin] [] hash_d 0 0.
Definition coin_T : bytes → list TXOutputIndependent := upd [x09] (tx_outputs hash_d coin) (λ _, []).

(** The database after the block was added, its place in the chain left out. *)
Definition side_file (b : Block) (links : list (bytes * bytes)) (spent : list TransactionsIndexSpentOutputs)
    (outs : list (bytes * bytes)) : boltfile :=
  <[blocksBucket := ({[ str "l" := hash_d; hash_d := encoded blk_coin; blk_Hash b := encoded b ]} : gmap bytes bytes)]>
  (<[blockChainBucket := ({[ hash_d := zeros 64 ]} : gmap bytes bytes)]>
  (<[transactionsBucket := (list_to_map (([x09], gob_text [hash_d]) :: links) : gmap bytes bytes)]>
  (<[transactionsOutputsBucket := ({[ [x09] := gob_text spent ]} : gmap bytes bytes)]>
  (<[unapprovedTransactionsBucket := (∅ : gmap bytes bytes)]>
  (<[unspentTransactionsBucket := (list_to_map outs : gmap bytes bytes)]> ∅))))).

Definition pay_outs : list TXOutputIndependent := tx_outputs (demo_hash x02) pay_tx.
Definition pay_file : boltfile :=
  side_file blk_pay [([x41], gob_text [demo_hash x02])] [mkSpent 0 [x41] 0 (demo_hash x02)]
    [([x41], gob_text pay_outs)].
Definition pay_db : DB := mkDB true (Some pay_file) None.

Definition pay_info (k : bytes) : tx_info :=
  if bool_decide (k = [x09]) then Some (coin, [], hash_d) else None.

Lemma pay_opened : opened pay_file pay_db.
Proof. split_and!; [done|done|]. apply elem_of_dom. by eexists. Qed.

Lemma pay_table : utxo_table pay_file (apply_block coin_T blk_pay).
Proof.
  apply (table_ext _ _ (upd [x41] pay_outs (λ _, []))).
  - intros k. unfold apply_block, apply_tx, spend, coin_T, upd. simpl.
    repeat (case_bool_decide; [done|]). done.
  - apply (single_table _ _ _ (gob_text pay_outs)); [done..|by vm_compute].
Qed.

Lemma UpdateOnBlockCancel_restores_witness :
  ∃ f' T', UpdateOnBlockCancel 1 blk_pay pay_db = (Ret tt, with_bc f' pay_db) ∧
    unspent_only pay_file f' ∧ utxo_table f' T' ∧
    T' [x09] = [LoadFromSimple (demo_out (f64_of_Z 3)) [x09] 0 (HashPubKey demo_pub) false hash_d] ∧ T' [x41] = [] ∧
    ∀ p, unspent T' p ↔ unspent coin_T p.
Proof.
  destruct (UpdateOnBlockCancel_restores pay_file pay_db 1 hash_d pay_info pay_opened coin_T blk_pay)
    as (f' & T' & Hr & Hu & Ht & Hat & Hp).
  - reflexivity.
  - apply pay_table.
  - by intros k [->|[->|[]%elem_of_nil]%elem_of_cons]%elem_of_cons.
  - intros tx ->%list_elem_of_singleton. split; [reflexivity|].
    constructor; [|constructor]. split; [vm_compute; reflexivity|].
    split; [apply fitsb_fits; vm_compute; reflexivity|].
    exists coin, [], hash_d. split; [reflexivity|discriminate].
  - exists f', T'. split_and!; [done..| | |done]; rewrite Hat; vm_compute; reflexivity.
Defined.

(** The condition on the inputs is needed.  A transaction of the block spends an
    output of the block and then one of an earlier block.  The first input is in
    no block under the block before, and the loop over the inputs ends there:
    the second output is not put back. *)
Definition coin2 : Transaction :=
  mkTransaction [x0a] [mkTXInput [] (-1) [] demo_pub] [demo_out (f64_of_Z 2)] 0.
Definition child : Transaction :=
  mkTransaction [x42] [mkTXInput [x41] 0 [] demo_pub; mkTXInput [x0a] 0 [] demo_pub] [demo_out (f64_of_Z 5)] 2.
Definition blk_coins : Block := mkBlock 0 [coin; coin2] [] hash_d 0 0.
Definition blk_child : Block := mkBlock 0 [pay_tx; child] hash_d (demo_hash x03) 0 1.

Definition no_record : @bucket map_bolt := (∅ : gmap bytes bytes).
Definition coins_db : DB := mkDB true (Some
  (<[blocksBucket := ({[ str "l" := hash_d; hash_d := encoded blk_coins;
                         demo_hash x03 := encoded blk_child ]} : gmap bytes bytes)]>
  (<[blockChainBucket := ({[ hash_d := zeros 64 ]} : gmap bytes bytes)]>
  (<[transactionsBucket := no_record]> (<[transactionsOutputsBucket := no_record]>
  (<[unapprovedTransactionsBucket := no_record]> (<[unspentTransactionsBucket := no_record]> ∅))))))) None.
Definition with_coins : DB := (tm_BlockAdded blk_coins true coins_db).2.
Definition with_child : DB := (tm_BlockAdded blk_child true with_coins).2.
Definition outputs_record (k : bytes) (db : DB) : option bytes :=
  match bcFile db with Some f => bget f unspentTransactionsBucket k | None => None end.

Example chained_inputs_lost :
  (UpdateOnBlockCancel 1 blk_child with_child).1 = Ret tt ∧
  outputs_record [x0a] with_coins = Some (gob_text (tx_outputs hash_d coin2)) ∧
  outputs_record [x0a] (UpdateOnBlockCancel 1 blk_child with_child).2 = None.
Proof. split_and!; vm_compute; reflexivity. Qed.
End CancelDemo.
