(* ===== verification/Net.v ===== *)
(** * Package [lib/net]: addresses, commands and the list of known nodes

    [network.go] and [nodesnetwork.go], with what they use of [strconv] and
    [strings].  Strings are their bytes.  The storage of the known nodes is an
    interface of the source, and a class here: the operations on the list of
    nodes are defined for any storage.  The mutex of the list is left out. *)

From Stdlib Require Import Strings.Byte ZifyNat.
From stdpp Require Import base strings numbers gmap list.
From S2P Require Import Prelude Platform Concrete.

(** ** [strconv] and [strings] *)

Definition digit (d : Z) : byte := Z_byte (48 + d).

(** [strconv.Itoa] of an [int]: twenty digits are enough for 64 bits. *)
Fixpoint digits (fuel : nat) (z : Z) : bytes :=
  match fuel with
  | O => []
  | S fuel' => if (z <? 10)%Z then [digit z] else digits fuel' (z / 10) ++ [digit (z `mod` 10)]
  end.
Definition Itoa (z : Z) : bytes :=
  if (z <? 0)%Z then str "-" ++ digits 20 (- z) else digits 20 z.

(** [strconv.Atoi]: a sign, then digits, in the range of an [int]. *)
Fixpoint parse_digits (acc : Z) (s : bytes) : option Z :=
  match s with
  | [] => Some acc
  | c :: s' =>
      let d := (byte_Z c - 48)%Z in
      if (0 <=? d)%Z && (d <=? 9)%Z then parse_digits (10 * acc + d) s' else None
  end.
Definition parse_unsigned (s : bytes) : option Z :=
  if bool_decide (s = []) then None else parse_digits 0 s.
Definition Atoi (s : bytes) : outcome Z :=
  let r := match s with
           | c :: s' => if bool_decide (c = "-"%byte) then Z.opp <$> parse_unsigned s'
                        else if bool_decide (c = "+"%byte) then parse_unsigned s'
                        else parse_unsigned s
           | [] => None
           end in
  match r with
  | None => Err (ELib "strconv.ErrSyntax")
  | Some z => if (- 2 ^ 63 <=? z)%Z && (z <? 2 ^ 63)%Z then Ret z else Err (ELib "strconv.ErrRange")
  end.

(** [strings.SplitN(s, sep, 2)] for a separator of one byte. *)
Fixpoint SplitN2 (sep : byte) (s : bytes) : list bytes :=
  match s with
  | [] => [[]]
  | c :: s' =>
      if bool_decide (c = sep) then [[]; s']
      else match SplitN2 sep s' with
           | [] => [[c]]
           | p :: ps => (c :: p) :: ps
           end
  end.

(** [strings.Trim(s, cut)] for a cut set of one byte. *)
Fixpoint TrimLeft (cut : byte) (s : bytes) : bytes :=
  match s with
  | [] => []
  | c :: s' => if bool_decide (c = cut) then TrimLeft cut s' else s
  end.
Definition Trim (cut : byte) (s : bytes) : bytes :=
  reverse (TrimLeft cut (reverse (TrimLeft cut s))).

(** *** [range] over a string

    The rune at the start of a string and its width, as [utf8.DecodeRune]. *)
Definition between (lo hi : Z) (o : option byte) : option Z :=
  match o with
  | Some b => if (lo <=? byte_Z b)%Z && (byte_Z b <=? hi)%Z then Some (byte_Z b) else None
  | None => None
  end.
Definition RuneError : Z := 65533.
Definition decode_rune (s : bytes) : Z * nat :=
  let b0 := default 0%Z (byte_Z <$> s !! 0) in
  let second := if (b0 =? 224)%Z then between 160 191 (s !! 1)
                else if (b0 =? 237)%Z then between 128 159 (s !! 1)
                else if (b0 =? 240)%Z then between 144 191 (s !! 1)
                else if (b0 =? 244)%Z then between 128 143 (s !! 1)
                else between 128 191 (s !! 1) in
  let third := between 128 191 (s !! 2) in
  let fourth := between 128 191 (s !! 3) in
  let r := if (b0 <? 128)%Z then Some (b0, 1)
           else if (194 <=? b0)%Z && (b0 <=? 223)%Z then
             b1 ← second; Some (((b0 - 192) * 64 + (b1 - 128))%Z, 2)
           else if (224 <=? b0)%Z && (b0 <=? 239)%Z then
             b1 ← second; b2 ← third;
             Some (((b0 - 224) * 4096 + (b1 - 128) * 64 + (b2 - 128))%Z, 3)
           else if (240 <=? b0)%Z && (b0 <=? 244)%Z then
             b1 ← second; b2 ← third; b3 ← fourth;
             Some (((b0 - 240) * 262144 + (b1 - 128) * 4096 + (b2 - 128) * 64 + (b3 - 128))%Z, 4)
           else None in
  match r with Some p => p | None => (RuneError, 1) end.

(** The positions and runes that [for i, c := range s] visits. *)
Fixpoint runes_from (fuel : nat) (i : nat) (s : bytes) : list (Z * Z) :=
  match fuel, s with
  | S fuel', _ :: _ =>
      let '(c, n) := decode_rune s in
      (Z.of_nat i, c) :: runes_from fuel' (i + n) (drop n s)
  | _, _ => []
  end.
Definition go_range_string (s : bytes) : list (Z * Z) := runes_from (length s) 0 s.

(** ** [network.go] *)

Definition NodeVersion : Z := 1.
Definition CommandLength : Z := 12.

Record NodeAddr := mkNodeAddr { Host : bytes; Port : Z }.

#[export] Instance NodeAddr_eq_dec : EqDecision NodeAddr.
Proof. solve_decision. Defined.

Definition NodeAddrToString (n : NodeAddr) : bytes := Host n ++ str ":" ++ Itoa (Port n).

(** [localhost] stands for its address. *)
Definition compared_host (h : bytes) : bytes :=
  let h := Trim " "%byte h in
  if bool_decide (h = str "localhost") then str "127.0.0.1" else h.
Definition CompareToAddress (n addr : NodeAddr) : bool :=
  let h1 := compared_host (Host addr) in
  let h2 := compared_host (Host n) in
  bool_decide (h1 = h2) && (Port addr =? Port n)%Z.

(** [LoadFromString] into a zero address: the address it leaves and its
    error; the host is set before the port is read. *)
Definition LoadFromString (addr : bytes) : outcome NodeAddr * NodeAddr :=
  match SplitN2 ":"%byte addr with
  | host :: port :: _ =>
      let n := mkNodeAddr host 0 in
      match Atoi port with
      | Ret port => (Ret (mkNodeAddr host port), mkNodeAddr host port)
      | Err e => (Err e, n)
      | Panic p => (Panic p, n)
      | OutOfFuel => (OutOfFuel, n)
      end
  | _ => (Err (EMsg "Wrong address"), mkNodeAddr [] 0)
  end.

(** An array is indexed by the position of each rune. *)
Definition CommandToBytes (command : bytes) : outcome bytes :=
  mfor (go_range_string command) (λ bytes '(i, c),
    _ ← index bytes i; Ret (<[Z.to_nat i := Z_byte c]> bytes)) (zeros (Z.to_nat CommandLength)).

Definition BytesToCommand (bytes : bytes) : Prelude.bytes := filter (λ b, b ≠ x00) bytes.

Definition ExtractCommand (request : bytes) : outcome bytes := slice request 0 CommandLength.

(** ** [nodesnetwork.go] *)

(** The interface of the extra storage, over a state [S].  The calls have no
    results but errors that the callers do not look at. *)
Class NodeNetworkStorage (S : Type) := {
  GetNodes : st S (list NodeAddr);
  storage_AddNodeToKnown : NodeAddr → st S unit;
  storage_RemoveNodeFromKnown : NodeAddr → st S unit;
  GetCountOfKnownNodes : st S Z
}.

Section Network.
Context {S : Type} `{NodeNetworkStorage S}.

(** The list of known nodes and whether a storage is set. *)
Record NodeNetwork := mkNodeNetwork { nn_Nodes : list NodeAddr; nn_Storage : bool }.

Definition net_state : Type := NodeNetwork * S.

Definition set_nodes (nodes : list NodeAddr) : st net_state unit := λ '(n, s),
  (Ret tt, (mkNodeNetwork nodes (nn_Storage n), s)).
Definition the_nodes : st net_state (list NodeAddr) := λ '(n, s), (Ret (nn_Nodes n), (n, s)).

(** A call of the storage, if there is one. *)
Definition in_storage (op : st S unit) : st net_state unit := λ '(n, s),
  if nn_Storage n then let '(r, s') := op s in (r, (n, s')) else (Ret tt, (n, s)).

Definition SetExtraManager : st net_state unit := λ '(n, s),
  (Ret tt, (mkNodeNetwork (nn_Nodes n) true, s)).

Definition LoadNodes : st net_state unit := λ '(n, s),
  if nn_Storage n then
    match GetNodes s with
    | (Ret nodes, s') =>
        (Ret tt, (mkNodeNetwork (fold_left (λ l node, l ++ [node]) nodes (nn_Nodes n)) true, s'))
    | (Err e, s') => (Err e, (n, s'))
    | (Panic p, s') => (Panic p, (n, s'))
    | (OutOfFuel, s') => (OutOfFuel, (n, s'))
    end
  else (Ret tt, (n, s)).

Definition SetNodes (nodes : list NodeAddr) (replace : bool) : st net_state unit :=
  cur ← the_nodes;
  _ ← set_nodes (if replace then nodes else cur ++ nodes);
  sfor nodes (λ _ node, in_storage (storage_AddNodeToKnown node)) tt.

(** The list of nodes of a document that was loaded: [fetched] is what the
    request and the decoding of its JSON return. *)
Record NodesListJSON := mkNodesListJSON { js_Nodes : list NodeAddr; js_Genesis : string }.

Definition LoadInitialNodes (geenesisHash : option bytes) (fetched : outcome NodesListJSON)
    : st net_state unit :=
  nodes ← lift fetched;
  let differs := match geenesisHash with
                 | Some gh => negb (bool_decide (js_Genesis nodes = ""))
                              && negb (bool_decide (hex_EncodeToString gh = js_Genesis nodes))
                 | None => false
                 end in
  if differs then mret tt
  else
    cur ← the_nodes;
    _ ← set_nodes (cur ++ js_Nodes nodes);
    sfor (js_Nodes nodes) (λ _ node,
      in_storage (storage_AddNodeToKnown (mkNodeAddr (Trim " "%byte (Host node)) (Port node)))) tt.

Definition GetCountOfKnownNodes' (n : NodeNetwork) : Z := Z.of_nat (length (nn_Nodes n)).

Definition CheckIsKnown (addr : NodeAddr) (n : NodeNetwork) : bool :=
  existsb (λ node, CompareToAddress node addr) (nn_Nodes n).

Definition AddNodeToKnown (addr : NodeAddr) : st net_state bool :=
  nodes ← the_nodes;
  let exists_ := existsb (λ node, CompareToAddress node addr) nodes in
  _ ← (if negb exists_ then set_nodes (nodes ++ [addr]) else mret tt);
  _ ← in_storage (storage_AddNodeToKnown addr);
  mret (negb exists_).

Definition RemoveNodeFromKnown (addr : NodeAddr) : st net_state unit :=
  nodes ← the_nodes;
  _ ← set_nodes (filter (λ node, CompareToAddress node addr = false) nodes);
  in_storage (storage_RemoveNodeFromKnown addr).
End Network.

(** ** Numbers and addresses as text *)

Lemma byte_Z_digit d : (0 ≤ d < 10)%Z → byte_Z (digit d) = (48 + d)%Z.
Proof. intros Hd. unfold digit. rewrite byte_Z_Z_byte. lia. Qed.

Lemma parse_digits_app acc s1 s2 :
  parse_digits acc (s1 ++ s2) = (v ← parse_digits acc s1; parse_digits v s2).
Proof.
  revert acc. induction s1 as [|c s1 IH]; intros acc; simpl; [done|].
  destruct (_ && _); [apply IH|done].
Qed.

Lemma parse_digit acc d : (0 ≤ d < 10)%Z → parse_digits acc [digit d] = Some (10 * acc + d)%Z.
Proof.
  intros Hd. cbn [parse_digits]. rewrite byte_Z_digit by done.
  replace (48 + d - 48)%Z with d by lia.
  rewrite (proj2 (Z.leb_le 0 d)), (proj2 (Z.leb_le d 9)) by lia. done.
Qed.

Lemma parse_digits_digits fuel z :
  (0 ≤ z < 10 ^ Z.of_nat (S fuel))%Z →
  digits (S fuel) z ≠ [] ∧ parse_digits 0 (digits (S fuel) z) = Some z.
Proof.
  revert z. induction fuel as [|fuel IH]; intros z Hz.
  { change (10 ^ Z.of_nat 1)%Z with 10%Z in Hz. cbn [digits].
    rewrite (proj2 (Z.ltb_lt z 10)), parse_digit by lia. done. }
  remember (S fuel) as m eqn:Em. cbn [digits]. destruct (Z.ltb_spec z 10).
  - by rewrite parse_digit by lia.
  - rewrite Nat2Z.inj_succ, Z.pow_succ_r in Hz by lia.
    destruct (IH (z / 10)%Z) as [Hne Hp];
      [split; [apply Z.div_pos; lia|apply Z.div_lt_upper_bound; [lia|apply Hz]]|].
    split; [by destruct (digits m (z / 10))|].
    rewrite parse_digits_app, Hp. cbn [mbind option_bind]. rewrite parse_digit by lia. f_equal. lia.
Qed.

(** The digits of a number are digits. *)
Lemma digits_not fuel z c : (0 ≤ z)%Z → (byte_Z c < 48 ∨ 57 < byte_Z c)%Z → c ∉ digits fuel z.
Proof.
  intros Hz Hc. revert z Hz. induction fuel as [|fuel IH]; intros z Hz; cbn [digits]; [apply not_elem_of_nil|].
  destruct (Z.ltb_spec z 10).
  - intros ->%list_elem_of_singleton. rewrite byte_Z_digit in Hc by lia. lia.
  - rewrite elem_of_app, list_elem_of_singleton. intros [Hin| ->].
    + revert Hin. apply IH, Z.div_pos; lia.
    + rewrite byte_Z_digit in Hc by lia. lia.
Qed.

Lemma Itoa_not z c : (byte_Z c < 48 ∨ 57 < byte_Z c)%Z → c ≠ "-"%byte → c ∉ Itoa z.
Proof.
  intros Hc Hm. unfold Itoa. destruct (Z.ltb_spec z 0); [|apply digits_not; [lia|done]].
  rewrite elem_of_app. intros [Hin|Hin].
  - apply list_elem_of_singleton in Hin. done.
  - revert Hin. apply digits_not; [lia|done].
Qed.

Lemma parse_unsigned_digits z : (0 ≤ z < 10 ^ 20)%Z → parse_unsigned (digits 20 z) = Some z.
Proof.
  intros Hz. destruct (parse_digits_digits 19 z) as [Hne Hp]; [done|].
  unfold parse_unsigned. by rewrite bool_decide_eq_false_2.
Qed.

(** Printing and reading an [int]. *)
Lemma Atoi_Itoa z : is_int64 z → Atoi (Itoa z) = Ret z.
Proof.
  intros [Hl Hh]. unfold Itoa, Atoi.
  assert ((- 2 ^ 63 <=? z)%Z && (z <? 2 ^ 63)%Z = true) as Hr
    by (apply andb_true_intro; split; [by apply Z.leb_le|by apply Z.ltb_lt]).
  destruct (Z.ltb_spec z 0) as [Hz|Hz].
  - change (str "-" ++ digits 20 (- z)) with ("-"%byte :: digits 20 (- z)). cbv iota.
    rewrite bool_decide_eq_true_2 by done. rewrite parse_unsigned_digits by lia.
    cbn [fmap option_fmap option_map]. rewrite Z.opp_involutive. by rewrite Hr.
  - pose proof (parse_unsigned_digits z ltac:(lia)) as Hp.
    pose proof (digits_not 20 z "-"%byte Hz) as Hm. pose proof (digits_not 20 z "+"%byte Hz) as Hpl.
    destruct (digits 20 z) as [|c s] eqn:E; [done|].
    rewrite bool_decide_eq_false_2, bool_decide_eq_false_2, Hp.
    + by rewrite Hr.
    + intros ->. apply Hpl; [vm_compute; by left|left].
    + intros ->. apply Hm; [vm_compute; by left|left].
Qed.

Lemma SplitN2_app sep s rest : sep ∉ s → SplitN2 sep (s ++ sep :: rest) = [s; rest].
Proof.
  induction s as [|c s IH]; intros Hn; simpl.
  - by rewrite bool_decide_eq_true_2.
  - apply not_elem_of_cons in Hn as [Hc Hn]. rewrite bool_decide_eq_false_2, IH by done. done.
Qed.

Lemma parse_digits_bad acc s c : c ∈ s → (byte_Z c < 48 ∨ 57 < byte_Z c)%Z → parse_digits acc s = None.
Proof.
  intros Hin Hc. apply list_elem_of_split in Hin as (s1 & s2 & ->). rewrite parse_digits_app.
  destruct (parse_digits acc s1) as [v|]; [|done]. cbn [mbind option_bind parse_digits].
  destruct (Z.leb_spec 0 (byte_Z c - 48)), (Z.leb_spec (byte_Z c - 48) 9); simpl; try done. lia.
Qed.

Lemma Atoi_bad s c :
  c ∈ s → (byte_Z c < 48 ∨ 57 < byte_Z c)%Z → c ≠ "-"%byte → c ≠ "+"%byte →
  Atoi s = Err (ELib "strconv.ErrSyntax").
Proof.
  intros Hin Hc Hm Hp. unfold Atoi, parse_unsigned. destruct s as [|x s]; [done|].
  apply elem_of_cons in Hin as Hx.
  assert (∀ t, c ∈ t → (if bool_decide (t = []) then None else parse_digits 0 t) = None) as Ht.
  { intros t Ht. case_bool_decide; [done|]. by eapply parse_digits_bad. }
  case_bool_decide; [rewrite Ht by naive_solver; done|].
  case_bool_decide; rewrite Ht by naive_solver; done.
Qed.

(** an address that is printed and read is the address, when its host has no
    colon and its port is an [int].  A host with a colon, as an IPv6 address
    has, is cut at its first colon, and reading fails at the port. *)
Theorem LoadFromString_NodeAddrToString a :
  is_int64 (Port a) →
  if bool_decide (":"%byte ∈ Host a)
  then ∃ h rest, Host a = h ++ ":"%byte :: rest ∧
    LoadFromString (NodeAddrToString a) = (Err (ELib "strconv.ErrSyntax"), mkNodeAddr h 0)
  else LoadFromString (NodeAddrToString a) = (Ret a, a).
Proof.
  intros Hp. unfold LoadFromString, NodeAddrToString. change (str ":" ++ Itoa (Port a)) with (":"%byte :: Itoa (Port a)).
  case_bool_decide as Hc.
  - apply list_elem_of_split_l in Hc as (h & rest & E & Hn). exists h, rest. split; [done|].
    rewrite E, <- app_assoc. simpl. rewrite SplitN2_app by done.
    rewrite (Atoi_bad _ ":"%byte); [done| |vm_compute; by right|done|done].
    apply elem_of_app. right. left.
  - rewrite SplitN2_app, Atoi_Itoa by done. by destruct a.
Qed.

(** ** Commands *)

Definition ascii_bytes (s : bytes) : Prop := Forall (λ b, (byte_Z b < 128)%Z) s.

Lemma decode_rune_ascii c s : (byte_Z c < 128)%Z → decode_rune (c :: s) = (byte_Z c, 1).
Proof.
  intros Hc. unfold decode_rune. change (default 0%Z (byte_Z <$> (c :: s) !! 0)) with (byte_Z c).
  cbv zeta. by rewrite (proj2 (Z.ltb_lt _ _) Hc).
Qed.

Lemma runes_from_ascii s i : ascii_bytes s →
  runes_from (length s) i s = (λ p, (p.1, byte_Z p.2)) <$> indexed_from i s.
Proof.
  unfold indexed_from. revert i. induction s as [|c s IH]; intros i Ha; [done|].
  apply Forall_cons in Ha as [Hc Ha]. cbn [length runes_from].
  rewrite decode_rune_ascii by done. csimpl. rewrite IH, Nat.add_0_r by done. do 2 f_equal.
  apply imap_ext. intros j x _. simpl. do 2 f_equal. lia.
Qed.

(** Setting the bytes of an array one after the other. *)
Lemma set_bytes s i arr :
  ascii_bytes s → i ≤ length arr →
  mfor ((λ p, (p.1, byte_Z p.2)) <$> indexed_from i s) (λ (bytes : Prelude.bytes) '(i, c),
    _ ← index bytes i; Ret (<[Z.to_nat i := Z_byte c]> bytes)) arr
  = if bool_decide (i + length s ≤ length arr)
    then Ret (take i arr ++ s ++ drop (i + length s) arr) else Panic PIndex.
Proof.
  unfold indexed_from. revert i arr. induction s as [|c s IH]; intros i arr Ha Hi.
  - simpl. rewrite bool_decide_eq_true_2 by lia. by rewrite Nat.add_0_r, take_drop.
  - apply Forall_cons in Ha as [Hc Ha]. csimpl. rewrite Nat.add_0_r, Nat2Z.id.
    destruct (decide (i < length arr)) as [Hlt|Hge].
    + destruct (lookup_lt_is_Some_2 arr i Hlt) as [x Hx].
      rewrite (proj2 (index_Ret arr (Z.of_nat i) x)), !ret_bind, Z_byte_byte_Z.
      2:{ split; [lia|]. by rewrite Nat2Z.id. }
      assert (∀ j (y : byte), (Z.of_nat (i + S j), y) = (Z.of_nat (S i + j), y)) as Ej
        by (intros; do 2 f_equal; lia).
      rewrite (imap_ext _ (λ j y, (Z.of_nat (S i + j), y))) by (intros; apply Ej).
      rewrite (IH (S i)) by (rewrite ?length_insert; done || lia). rewrite length_insert.
      replace (S i + length s) with (i + S (length s)) by lia.
      case_bool_decide; [|done]. f_equal. rewrite insert_take_drop by done.
      rewrite take_app_ge, !length_take, Nat.min_l by (rewrite ?length_take; lia).
      replace (S i - i) with 1 by lia. rewrite <- app_assoc. simpl. do 3 f_equal.
      rewrite drop_app_ge, length_take, Nat.min_l by (rewrite ?length_take; lia).
      replace (i + S (length s) - i) with (S (length s)) by lia. simpl. rewrite drop_drop.
      f_equal. lia.
    + rewrite bool_decide_eq_false_2 by lia. unfold index. rewrite (proj2 (Z.ltb_ge _ _)) by lia.
      rewrite Nat2Z.id, lookup_ge_None_2 by lia. done.
Qed.

Lemma CommandToBytes_ascii s :
  ascii_bytes s →
  CommandToBytes s = if bool_decide (length s ≤ 12) then Ret (s ++ zeros (12 - length s)) else Panic PIndex.
Proof.
  intros Ha. unfold CommandToBytes, go_range_string. change (Z.to_nat CommandLength) with 12.
  rewrite runes_from_ascii, set_bytes by (done || lia). rewrite length_zeros. simpl.
  case_bool_decide; [|done]. unfold zeros. by rewrite drop_replicate.
Qed.

Lemma BytesToCommand_padded s n : x00 ∉ s → BytesToCommand (s ++ zeros n) = s.
Proof.
  intros Hs. unfold BytesToCommand. rewrite filter_app, filter_all, filter_none; [by rewrite app_nil_r|..].
  - apply Forall_forall. unfold zeros. intros b ->%elem_of_replicate_inv. by intros [].
  - apply Forall_forall. intros b Hb ->. done.
Qed.

(** a command of at most twelve bytes of ASCII without a zero byte is read back
    from its fixed width; a longer one panics. *)
Theorem BytesToCommand_CommandToBytes s :
  ascii_bytes s → x00 ∉ s →
  if bool_decide (length s ≤ 12)
  then ∃ b, CommandToBytes s = Ret b ∧ length b = 12 ∧ BytesToCommand b = s
  else CommandToBytes s = Panic PIndex.
Proof.
  intros Ha Hs. rewrite CommandToBytes_ascii by done. case_bool_decide as Hl; [|done].
  eexists. split; [done|]. split; [|by apply BytesToCommand_padded].
  rewrite length_app, length_zeros. lia.
Qed.

(** ** The list of known nodes is a set of addresses *)

Definition addr_key (a : NodeAddr) : bytes * Z := (compared_host (Host a), Port a).

Lemma CompareToAddress_key n a : CompareToAddress n a = bool_decide (addr_key n = addr_key a).
Proof.
  unfold CompareToAddress, addr_key. destruct (Z.eqb_spec (Port a) (Port n)) as [->|Hp].
  - rewrite andb_true_r. apply bool_decide_ext. split; [by intros ->|by intros [= ->]].
  - rewrite andb_false_r, bool_decide_eq_false_2; [done|]. by intros [= _ ?].
Qed.

(** What a storage promises to the list: that its calls return. *)
Class NodeNetworkStorageLaws (S : Type) `{NodeNetworkStorage S} : Prop := {
  storage_Add_returns a (s : S) : ∃ s', storage_AddNodeToKnown a s = (Ret tt, s');
  storage_Remove_returns a (s : S) : ∃ s', storage_RemoveNodeFromKnown a s = (Ret tt, s')
}.

Section Known.
Context {S : Type} `{NodeNetworkStorageLaws S}.

(** The list holds the set [K], each address once. *)
Definition known (nodes : list NodeAddr) (K : gset (bytes * Z)) : Prop :=
  NoDup (addr_key <$> nodes) ∧ list_to_set (addr_key <$> nodes) = K.

Lemma known_exists nodes K a :
  known nodes K → existsb (λ node, CompareToAddress node a) nodes = bool_decide (addr_key a ∈ K).
Proof.
  intros [_ <-]. apply eq_bool_prop_intro. rewrite bool_decide_spec, elem_of_list_to_set, list_elem_of_fmap.
  rewrite existb_True, Exists_exists. split.
  - intros (n & Hn & Hc). rewrite CompareToAddress_key, bool_decide_spec in Hc. by exists n.
  - intros (n & E & Hn). exists n. split; [done|]. by rewrite CompareToAddress_key, bool_decide_spec.
Qed.

Lemma in_storage_returns (op : st S unit) n (s : S) :
  (∀ s, ∃ s', op s = (Ret tt, s')) → ∃ s', in_storage op (n, s) = (Ret tt, (n, s')).
Proof.
  intros Hop. unfold in_storage. destruct (nn_Storage n); [|by exists s].
  destruct (Hop s) as [s' ->]. by exists s'.
Qed.

Lemma AddNodeToKnown_spec n (s : S) K a :
  known (nn_Nodes n) K →
  ∃ n' s', AddNodeToKnown a (n, s) = (Ret (bool_decide (addr_key a ∉ K)), (n', s')) ∧
           known (nn_Nodes n') ({[ addr_key a ]} ∪ K).
Proof.
  intros HK. pose proof (known_exists _ _ a HK) as He. destruct HK as [Hnd HK].
  set (n' := if bool_decide (addr_key a ∈ K) then n else mkNodeNetwork (nn_Nodes n ++ [a]) (nn_Storage n)).
  destruct (in_storage_returns (storage_AddNodeToKnown a) n' s) as [s' Es]; [apply storage_Add_returns|].
  exists n', s'. split.
  - apply st_bind_Ret. exists (nn_Nodes n), (n, s). split; [done|]. rewrite He.
    apply st_bind_Ret. exists tt, (n', s). split; [by unfold n'; case_bool_decide|].
    apply st_bind_Ret. exists tt, (n', s'). split; [done|]. by rewrite (bool_decide_not (addr_key a ∈ K)).
  - unfold n'. case_bool_decide as Hin.
    { split; [done|]. rewrite HK. symmetry. apply subseteq_union_1_L. by apply singleton_subseteq_l. }
    simpl. split; rewrite fmap_app.
    + apply NoDup_app. split_and!; [done| |apply NoDup_singleton].
      intros k Hk ->%list_elem_of_singleton. apply Hin. rewrite <- HK. by apply elem_of_list_to_set.
    + rewrite list_to_set_app_L, HK, (comm_L (∪)). simpl. by rewrite (right_id_L ∅ (∪)).
Qed.

Lemma RemoveNodeFromKnown_spec n (s : S) K a :
  known (nn_Nodes n) K →
  ∃ n' s', RemoveNodeFromKnown a (n, s) = (Ret tt, (n', s')) ∧
           known (nn_Nodes n') (K ∖ {[ addr_key a ]}).
Proof.
  intros [Hnd HK]. set (l := filter (λ node, CompareToAddress node a = false) (nn_Nodes n)).
  destruct (in_storage_returns (storage_RemoveNodeFromKnown a) (mkNodeNetwork l (nn_Storage n)) s)
    as [s' Es]; [apply storage_Remove_returns|].
  exists (mkNodeNetwork l (nn_Storage n)), s'. split; [|split].
  - apply st_bind_Ret. exists (nn_Nodes n), (n, s). split; [done|].
    apply st_bind_Ret. exists tt, (mkNodeNetwork l (nn_Storage n), s). by split.
  - by apply NoDup_fmap_filter.
  - apply set_eq. intros k. rewrite <- HK, elem_of_difference, !elem_of_list_to_set, elem_of_singleton.
    simpl. rewrite !list_elem_of_fmap. unfold l. setoid_rewrite list_elem_of_filter.
    setoid_rewrite CompareToAddress_key. setoid_rewrite bool_decide_eq_false. naive_solver.
Qed.

(** the list of known nodes implements a set of addresses, with [localhost]
    and its address the same and blanks around a host ignored: adding an
    address adds it once and says whether it was new, removing takes it out, and
    the check for a known address is membership. *)
Theorem known_nodes_set n (s : S) K a :
  known (nn_Nodes n) K →
  CheckIsKnown a n = bool_decide (addr_key a ∈ K) ∧
  (∃ n' s', AddNodeToKnown a (n, s) = (Ret (bool_decide (addr_key a ∉ K)), (n', s')) ∧
            known (nn_Nodes n') ({[ addr_key a ]} ∪ K)) ∧
  (∃ n' s', RemoveNodeFromKnown a (n, s) = (Ret tt, (n', s')) ∧
            known (nn_Nodes n') (K ∖ {[ addr_key a ]})).
Proof.
  intros HK. split_and!; [by apply known_exists|by apply AddNodeToKnown_spec|by apply RemoveNodeFromKnown_spec].
Qed.
End Known.

(** ** Concrete addresses, commands and lists *)

Lemma LoadFromString_NodeAddrToString_witness :
  LoadFromString (NodeAddrToString (mkNodeAddr (str "localhost") 20000))
  = (Ret (mkNodeAddr (str "localhost") 20000), mkNodeAddr (str "localhost") 20000) ∧
  ∃ h rest, str "fe80::1" = h ++ ":"%byte :: rest ∧
    LoadFromString (NodeAddrToString (mkNodeAddr (str "fe80::1") 20000))
    = (Err (ELib "strconv.ErrSyntax"), mkNodeAddr h 0).
Proof.
  split.
  - apply (LoadFromString_NodeAddrToString (mkNodeAddr (str "localhost") 20000)). done.
  - apply (LoadFromString_NodeAddrToString (mkNodeAddr (str "fe80::1") 20000)). done.
Defined.

Lemma BytesToCommand_CommandToBytes_witness :
  (∃ b, CommandToBytes (str "getblocksup") = Ret b ∧ length b = 12 ∧ BytesToCommand b = str "getblocksup") ∧
  CommandToBytes (str "getunapproved") = Panic PIndex.
Proof.
  split.
  - apply (BytesToCommand_CommandToBytes (str "getblocksup")).
    + by apply (bool_decide_unpack _); vm_compute.
    + by apply (bool_decide_unpack _); vm_compute.
  - apply (BytesToCommand_CommandToBytes (str "getunapproved")).
    + by apply (bool_decide_unpack _); vm_compute.
    + by apply (bool_decide_unpack _); vm_compute.
Defined.

(** A storage that keeps nothing. *)
Module NoStorage.
#[export] Instance no_storage : NodeNetworkStorage unit := {
  GetNodes := λ s, (Ret [], s);
  storage_AddNodeToKnown _ := λ s, (Ret tt, s);
  storage_RemoveNodeFromKnown _ := λ s, (Ret tt, s);
  GetCountOfKnownNodes := λ s, (Ret 0%Z, s)
}.
#[export] Instance no_storage_laws : NodeNetworkStorageLaws unit.
Proof. split; by eexists. Qed.

Definition nodes : list NodeAddr := [mkNodeAddr (str "127.0.0.1") 20000; mkNodeAddr (str "example.org") 20001].
End NoStorage.
Import NoStorage.

Lemma known_nodes_set_witness :
  let n := mkNodeNetwork nodes true in
  let K : gset (bytes * Z) := list_to_set (addr_key <$> nodes) in
  CheckIsKnown (mkNodeAddr (str "localhost ") 20000) n = true ∧
  (∃ n' s', AddNodeToKnown (mkNodeAddr (str "localhost ") 20000) (n, tt) = (Ret false, (n', s')) ∧
            known (nn_Nodes n') ({[ addr_key (mkNodeAddr (str "localhost ") 20000) ]} ∪ K)).
Proof.
  intros n K. assert (known (nn_Nodes n) K) as HK.
  { split; [|done]. by apply (bool_decide_unpack _); vm_compute. }
  destruct (known_nodes_set n tt K (mkNodeAddr (str "localhost ") 20000) HK) as (H1 & H2 & _).
  split; [exact H1|exact H2].
Defined.
