(* ===== verification/Wire.v ===== *)
(** * Requests on the wire

    How [lib/nodeclient/nodeclient.go] lays out a request
    ([BuildCommandData], [BuildCommandDataWithAuth]) and how
    [node/server/server.go] reads it from a connection ([readRequest],
    [readFromConnection]), and the layout of a response.  A connection is the
    list of what its [Read] calls yield; the payload is what [encoding/gob]
    makes of a value. *)

From Stdlib Require Import Strings.Byte ZifyNat.
From stdpp Require Import base strings numbers gmap list.
From S2P Require Import Prelude Platform Concrete Blockchain Net.

(** ** Writing *)

(** [binary.LittleEndian.PutUint32] of a [uint32]. *)
Fixpoint little_endian (n : nat) (z : Z) : bytes :=
  match n with
  | O => []
  | S n' => Z_byte z :: little_endian n' (z / 256)
  end.
Definition PutUint32 (z : Z) : bytes := little_endian 4 (z `mod` 2 ^ 32).

Section Build.

(** [payload] is the text of the data, [None] for no data. *)
Definition doBuildCommandData (command : bytes) (payload : option (outcome bytes)) (extra : bytes)
    : outcome bytes :=
  payload ← default (Ret []) payload;
  let bs := PutUint32 (Z.of_nat (length payload)) in
  command ← CommandToBytes command;
  let request := command ++ bs in
  let bs := PutUint32 (Z.of_nat (length extra)) in
  let request := request ++ bs in
  let request := request ++ payload in
  Ret (if (0 <? Z.of_nat (length extra))%Z then request ++ extra else request).

Definition BuildCommandData (command : bytes) (payload : option (outcome bytes)) : outcome bytes :=
  doBuildCommandData command payload [].

Definition BuildCommandDataWithAuth (NodeAuthStr command : bytes) (payload : option (outcome bytes))
    : outcome bytes :=
  authbytes ← CommandToBytes NodeAuthStr;
  doBuildCommandData command payload authbytes.
End Build.

(** ** Reading *)

(** What a [Read] can find: bytes that arrived, nothing yet, or a failure; the
    end of the list is the end of the stream. *)
Inductive net_event :=
| Data (bs : bytes)
| Idle
| Broken (e : goerror).
Definition conn : Type := list net_event.

Inductive read_error := NoError | EOF | ReadError (e : goerror).

(** [conn.Read] into a buffer of [n] bytes. *)
Definition Read (n : nat) (c : conn) : bytes * read_error * conn :=
  match c with
  | [] => ([], EOF, [])
  | Data bs :: c' =>
      if bool_decide (length bs ≤ n) then (bs, NoError, c')
      else (take n bs, NoError, Data (drop n bs) :: c')
  | Idle :: c' => ([], NoError, c')
  | Broken e :: c' => ([], ReadError e, c')
  end.

(** A round of the loop of [readFromConnection]: the buffer, the pauses and the
    connection. *)
Definition read_round (countofbytes : nat) (s : bytes * Z * conn)
    : outcome (step (bytes * Z * conn) (bytes * conn)) :=
  let '(buff, pauses, c) := s in
  let '(data, err, c) := Read (countofbytes - length buff) c in
  let read := Z.of_nat (length data) in
  let buff := buff ++ data in
  if (0 <? read)%Z && (Z.of_nat (length buff) =? Z.of_nat countofbytes)%Z
  then Ret (Break (buff, c))
  else
    let pauses := if (0 <? read)%Z then 0%Z else pauses in
    match err with
    | EOF => Ret (Break (buff, c))
    | ReadError e => Err e
    | NoError =>
        if (read =? 0)%Z then
          if (30 <? pauses)%Z then Ret (Break (buff, c)) else Ret (Continue (buff, pauses + 1, c)%Z)
        else Ret (Continue (buff, pauses, c))
    end.

Definition err_short (expected read : Z) : goerror :=
  EFmt "Wrong number of bytes received for a request. Expected - %d, read - %d"
    [AInt expected; AInt read].

Definition readFromConnection (fuel : nat) (countofbytes : nat) (c : conn) : outcome (bytes * conn) :=
  '(buff, c) ← loop fuel (read_round countofbytes) ([], 0%Z, c);
  if (Z.of_nat (length buff) <? Z.of_nat countofbytes)%Z
  then Err (err_short (Z.of_nat countofbytes) (Z.of_nat (length buff)))
  else Ret (buff, c).

(** [binary.Read] of a little-endian [uint32]. *)
Definition ReadUint32 (b : bytes) : Z := foldr (λ x acc, byte_Z x + 256 * acc)%Z 0%Z b.

(** An error message around the error of a read. *)
Definition wrap_read {A} (fmt : string) (m : outcome A) : outcome A :=
  match m with Err e => Err (EWrap fmt e) | m => m end.

Definition readRequest (fuel : nat) (c : conn) : outcome (bytes * bytes * bytes * conn) :=
  '(commandbuffer, c) ← readFromConnection fuel (Z.to_nat CommandLength) c;
  let command := BytesToCommand commandbuffer in
  '(lengthbuffer, c) ← readFromConnection fuel 4 c;
  let datalength := ReadUint32 lengthbuffer in
  '(lengthbuffer, c) ← readFromConnection fuel 4 c;
  let extradatalength := ReadUint32 lengthbuffer in
  '(databuffer, c) ← (if (0 <? datalength)%Z
    then wrap_read "Error reading %d bytes of request: %s"
           (readFromConnection fuel (Z.to_nat datalength) c)
    else Ret ([], c));
  '(authstr, c) ← (if (0 <? extradatalength)%Z
    then '(extradatabuffer, c) ← wrap_read "Error reading %d bytes of extra data: %s"
           (readFromConnection fuel (Z.to_nat extradatalength) c);
         Ret (BytesToCommand extradatabuffer, c)
    else Ret ([], c));
  Ret (command, databuffer, authstr, c).

(** ** What was built is read *)

Lemma ReadUint32_PutUint32 z : (0 ≤ z < 2 ^ 32)%Z → ReadUint32 (PutUint32 z) = z.
Proof.
  intros Hz. unfold PutUint32, ReadUint32. rewrite Z.mod_small by done.
  cbn [little_endian foldr]. rewrite !byte_Z_Z_byte.
  change (2 ^ 32)%Z with 4294967296%Z in Hz. lia.
Qed.

(** The bytes a connection still delivers, the number of its pauses, and that it
    does not fail. *)
Fixpoint delivered (c : conn) : bytes :=
  match c with
  | [] => []
  | Data bs :: c' => bs ++ delivered c'
  | _ :: c' => delivered c'
  end.
Fixpoint pauses_of (c : conn) : nat :=
  match c with
  | [] => 0
  | Data (_ :: _) :: c' => pauses_of c'
  | _ :: c' => S (pauses_of c')
  end.
Definition unbroken (c : conn) : Prop := Forall (λ e, match e with Broken _ => False | _ => True end) c.

(** [c'] is what is left of [c] when [bs] were read. *)
Definition reads (bs : bytes) (c c' : conn) : Prop :=
  delivered c = bs ++ delivered c' ∧ unbroken c' ∧ pauses_of c' ≤ pauses_of c ∧ length c' ≤ length c.

(** The rounds of the loop: nothing was read, a part, and all that is asked for. *)
Lemma read_round_idle n e c buff p :
  e = Idle ∨ e = Data [] → (p ≤ 30)%Z →
  read_round n (buff, p, e :: c) = Ret (Continue (buff, p + 1, c)%Z).
Proof.
  intros He Hp. unfold read_round. assert (Read (n - length buff) (e :: c) = ([], NoError, c)) as ->.
  { destruct He as [->| ->]; [done|]. cbn [Read]. rewrite bool_decide_eq_true_2; [done|simpl; lia]. }
  rewrite app_nil_r. simpl. by rewrite (proj2 (Z.ltb_ge _ _)) by lia.
Qed.

Lemma read_round_part n d c buff p :
  d ≠ [] → length buff + length d < n →
  read_round n (buff, p, Data d :: c) = Ret (Continue (buff ++ d, 0%Z, c)).
Proof.
  intros Hd Hn. unfold read_round. cbn [Read]. rewrite bool_decide_eq_true_2 by lia.
  assert (length d ≠ 0) by by destruct d. rewrite length_app.
  by rewrite (proj2 (Z.ltb_lt _ _)), (proj2 (Z.eqb_neq _ _)), (proj2 (Z.eqb_neq (Z.of_nat (length d)) 0)) by lia.
Qed.

Lemma read_round_all n bs k c buff p :
  bs ≠ [] → length buff + length bs = n →
  read_round n (buff, p, Data (bs ++ k) :: c)
  = Ret (Break (buff ++ bs, if bool_decide (k = []) then c else Data k :: c)).
Proof.
  intros Hd Hn. unfold read_round. cbn [Read]. rewrite length_app.
  assert (length bs ≠ 0) by by destruct bs. replace (n - length buff) with (length bs) by lia.
  rewrite take_app_length, drop_app_length.
  destruct k as [|x k]; [rewrite bool_decide_eq_true_2 by (simpl; lia)|rewrite bool_decide_eq_false_2 by (simpl; lia)];
    rewrite ?app_nil_r, length_app;
    by rewrite (proj2 (Z.ltb_lt _ _)), (proj2 (Z.eqb_eq _ _)) by lia.
Qed.

Lemma read_loop n c buff (p : Z) bs rest fuel :
  unbroken c → (0 ≤ p)%Z → (p + Z.of_nat (pauses_of c) ≤ 31)%Z → delivered c = bs ++ rest →
  length buff + length bs = n → bs ≠ [] → length c < fuel →
  ∃ c', loop fuel (read_round n) (buff, p, c) = Ret (buff ++ bs, c') ∧ reads bs c c' ∧
        delivered c' = rest.
Proof.
  unfold reads.
  revert buff p bs fuel. induction c as [|e c IH]; intros buff p bs [|fuel] Hu Hp0 Hp Hd Hn Hne Hf;
    simpl in Hf; try lia.
  { by destruct bs. }
  apply Forall_cons in Hu as [He Hu]. cbn [loop].
  assert (e = Idle ∨ e = Data [] ∨ ∃ x d, e = Data (x :: d)) as [Hi|[Hi|(x & d & ->)]].
  { destruct e as [[|x d]| |]; eauto. done. }
  1-2: assert (delivered (e :: c) = delivered c ∧ pauses_of (e :: c) = S (pauses_of c)) as [Ed Ep]
         by (by subst e); rewrite Ed in Hd; rewrite Ep in Hp; rewrite Ed, Ep;
       rewrite read_round_idle, ret_bind by (tauto || lia);
       destruct (IH buff (p + 1)%Z bs fuel) as (c' & El & (Hc & Hu' & Hp' & Hl) & Hr); try done; [lia..|];
       exists c'; split_and!; try done; simpl; lia.
  cbn [delivered] in Hd |- *. assert (pauses_of (Data (x :: d) :: c) = pauses_of c) as Ep by done.
  rewrite Ep in Hp |- *. assert (x :: d ≠ []) as Hd0 by done. revert Hd Hd0. clear Ep.
  generalize (x :: d). clear x d He. intros d Hd Hd0.
  apply app_eq_inv in Hd as [(k & -> & E)|(k & -> & E)].
  - rewrite read_round_all, ret_bind by done. eexists. split; [done|]. rewrite <- app_assoc.
    case_bool_decide as Hk; [subst k; simpl in *; split_and!; done || lia|].
    cbn [delivered]. rewrite E. split_and!; try done; [by constructor|by destruct k].
  - destruct (decide (k = [])) as [->|Hk].
    + rewrite app_nil_r in Hn, Hne |- *. replace (Data d) with (Data (d ++ [])) by by rewrite app_nil_r.
      rewrite read_round_all, ret_bind by done.
      exists c. rewrite bool_decide_eq_true_2 by done. simpl in E. rewrite E. split_and!; simpl; done || lia.
    + rewrite length_app in Hn. assert (length k ≠ 0) by by destruct k.
      rewrite read_round_part, ret_bind by (done || lia).
      destruct (IH (buff ++ d) 0%Z k fuel) as (c' & El & (Hc & Hu' & Hp' & Hl) & Hr); try done; try lia.
      { rewrite length_app. lia. }
      exists c'. rewrite <- !app_assoc in *. rewrite Hc. split_and!; try done; simpl; lia.
Qed.

Lemma readFromConnection_reads n c bs rest fuel :
  unbroken c → pauses_of c ≤ 31 → delivered c = bs ++ rest → length bs = n → bs ≠ [] → length c < fuel →
  ∃ c', readFromConnection fuel n c = Ret (bs, c') ∧ reads bs c c' ∧ delivered c' = rest.
Proof.
  intros Hu Hp Hd Hn Hne Hf. unfold readFromConnection.
  destruct (read_loop n c [] 0%Z bs rest fuel) as (c' & -> & Hr & E); try done; [lia|].
  exists c'. split; [|done]. rewrite ret_bind. simpl. by rewrite (proj2 (Z.ltb_ge _ _)) by lia.
Qed.

Lemma reads_trans bs1 bs2 c1 c2 c3 :
  reads bs1 c1 c2 → reads bs2 c2 c3 → reads (bs1 ++ bs2) c1 c3.
Proof.
  intros (E1 & _ & Hp1 & Hl1) (E2 & Hu & Hp2 & Hl2).
  split_and!; [by rewrite E1, E2, app_assoc|done|lia|lia].
Qed.

Lemma length_PutUint32 z : length (PutUint32 z) = 4.
Proof. done. Qed.

(** A part of a request of a given length, which may be empty. *)
Lemma read_part {A} (fuel : nat) (n : Z) (bs rest : bytes) c fmt (g : bytes → A) (none : A) :
  unbroken c → pauses_of c ≤ 31 → delivered c = bs ++ rest → Z.of_nat (length bs) = n →
  length c < fuel → (bs = [] → none = g bs) →
  ∃ c', (if (0 <? n)%Z
         then '(b, c) ← wrap_read fmt (readFromConnection fuel (Z.to_nat n) c); Ret (g b, c)
         else Ret (none, c)) = Ret (g bs, c') ∧ reads bs c c' ∧ delivered c' = rest.
Proof.
  intros Hu Hp Hd Hn Hf Hg. destruct (decide (bs = [])) as [->|Hne].
  - simpl in Hn. subst n. exists c. rewrite (Hg eq_refl). split; [done|]. simpl in Hd. by split_and!.
  - assert (length bs ≠ 0) by by destruct bs. rewrite (proj2 (Z.ltb_lt _ _)) by lia.
    destruct (readFromConnection_reads (Z.to_nat n) c bs rest fuel) as (c' & Er & Hr & E); try done; [lia|].
    exists c'. rewrite Er. by split_and!.
Qed.

Lemma bind_id_payload (b : bool) (m : outcome (bytes * conn)) (p : bytes * conn) :
  (if b then '(x, c) ← m; Ret (id x, c) else Ret p) = (if b then m else Ret p).
Proof. destruct b; [|done]. by destruct m as [[]|e|q|]. Qed.

(** The round trip of a request. *)
Lemma readRequest_built command payload extra c rest fuel :
  ascii_bytes command → x00 ∉ command → length command ≤ 12 →
  (Z.of_nat (length payload) < 2 ^ 32)%Z → (Z.of_nat (length extra) < 2 ^ 32)%Z →
  unbroken c → pauses_of c ≤ 31 → length c < fuel →
  ∃ request, doBuildCommandData command (Some (Ret payload)) extra = Ret request ∧
    (delivered c = request ++ rest →
     ∃ c', readRequest fuel c = Ret (command, payload, BytesToCommand extra, c') ∧
           delivered c' = rest).
Proof.
  intros Ha Hz Hl Hpay Hext Hu Hp Hf. unfold doBuildCommandData. simpl default.
  rewrite ret_bind, CommandToBytes_ascii, bool_decide_eq_true_2, ret_bind by done.
  eexists. split; [done|]. intros Hd.
  assert (delivered c = (command ++ zeros (12 - length command)) ++
    PutUint32 (Z.of_nat (length payload)) ++ PutUint32 (Z.of_nat (length extra)) ++
    payload ++ extra ++ rest) as Hd'.
  { rewrite Hd. destruct (Z.ltb_spec 0 (Z.of_nat (length extra))); [by rewrite <- !app_assoc|].
    destruct extra; [|simpl in *; lia]. by rewrite <- !app_assoc. }
  clear Hd. unfold readRequest.
  destruct (readFromConnection_reads 12 c _ _ fuel Hu Hp Hd') as (c1 & E1 & (_ & Hu1 & Hp1 & Hl1) & Hd1); [|by destruct command|lia|].
  { rewrite length_app, length_zeros. lia. }
  change (Z.to_nat CommandLength) with 12. rewrite E1, ret_bind, BytesToCommand_padded by done.
  destruct (readFromConnection_reads 4 c1 _ _ fuel Hu1 ltac:(lia) Hd1) as (c2 & E2 & (_ & Hu2 & Hp2 & Hl2) & Hd2); [done|done|lia|].
  rewrite E2, ret_bind, ReadUint32_PutUint32 by lia.
  destruct (readFromConnection_reads 4 c2 _ _ fuel Hu2 ltac:(lia) Hd2) as (c3 & E3 & (_ & Hu3 & Hp3 & Hl3) & Hd3); [done|done|lia|].
  rewrite E3, ret_bind, ReadUint32_PutUint32 by lia.
  destruct (read_part fuel _ payload _ c3 "Error reading %d bytes of request: %s" id [] Hu3 ltac:(lia) Hd3 eq_refl ltac:(lia))
    as (c4 & E4 & (_ & Hu4 & Hp4 & Hl4) & Hd4); [by intros ->|].
  destruct (read_part fuel _ extra _ c4 "Error reading %d bytes of extra data: %s" BytesToCommand [] Hu4 ltac:(lia) Hd4 eq_refl ltac:(lia))
    as (c5 & E5 & _ & Hd5); [by intros ->|].
  exists c5. split; [|done].
  rewrite bind_id_payload in E4. rewrite E4, ret_bind, E5. done.
Qed.

(** C24: a request that [BuildCommandData] built is read back by [readRequest],
    whatever segments it arrives in: the command, the payload, the extra text
    without its zeros, and what follows on the connection.  The connection may
    pause thirty-one times; one round more than it has events is enough fuel. *)
Theorem readRequest_doBuildCommandData command payload extra c rest fuel :
  ascii_bytes command → x00 ∉ command → length command ≤ 12 →
  (Z.of_nat (length payload) < 2 ^ 32)%Z → (Z.of_nat (length extra) < 2 ^ 32)%Z →
  unbroken c → pauses_of c ≤ 31 → length c < fuel →
  ∃ request, doBuildCommandData command (Some (Ret payload)) extra = Ret request ∧
    (delivered c = request ++ rest →
     ∃ c', readRequest fuel c = Ret (command, payload, BytesToCommand extra, c') ∧
           delivered c' = rest).
Proof. apply readRequest_built. Qed.

Lemma readRequest_doBuildCommandData_witness :
  let c := [Data (str "ping"); Idle; Data (zeros 8 ++ [x02; x00]); Data [x00; x00; x00; x00; x00; x00; x05];
            Data [x06; x07]] in
  ∃ c', readRequest 6 c = Ret (str "ping", [x05; x06], [], c') ∧ delivered c' = [x07].
Proof.
  intros c.
  destruct (readRequest_doBuildCommandData (str "ping") [x05; x06] [] c [x07] 6) as (r & Er & Hr);
    [by apply (bool_decide_unpack _); vm_compute|by apply (bool_decide_unpack _); vm_compute
    |vm_compute; lia|done|done|by repeat constructor|vm_compute; lia|vm_compute; lia|].
  apply Hr. vm_compute in Er. injection Er as <-. reflexivity.
Defined.
