(* ===== verification/Transit.v ===== *)
(** * Blocks in transit: [node/server/transit.go]

    For each node that announced blocks, a queue of the announcements that are
    still to be looked at.  The map of Go keeps a key with an empty list apart
    from no key, and so does the model. *)

From Stdlib Require Import Strings.Byte ZifyNat.
From stdpp Require Import base strings numbers gmap list.
From S2P Require Import Prelude Platform Concrete Net.

Record nodeTransit := mkTransit {
  tr_Blocks : gmap bytes (list bytes);
  tr_MaxKnownHeigh : Z
}.

Definition transit_Init : nodeTransit := mkTransit ∅ 0.

Definition AddBlocks (fromaddr : NodeAddr) (blocks : list bytes) (t : nodeTransit) : nodeTransit :=
  let key := NodeAddrToString fromaddr in
  match tr_Blocks t !! key with
  | None => mkTransit (<[key := blocks]> (tr_Blocks t)) (tr_MaxKnownHeigh t)
  | Some old => mkTransit (<[key := old ++ blocks]> (tr_Blocks t)) (tr_MaxKnownHeigh t)
  end.

Definition CleanBlocks (fromaddr : NodeAddr) (t : nodeTransit) : nodeTransit :=
  let key := NodeAddrToString fromaddr in
  match tr_Blocks t !! key with
  | Some _ => mkTransit (delete key (tr_Blocks t)) (tr_MaxKnownHeigh t)
  | None => t
  end.

Definition GetBlocksCount (fromaddr : NodeAddr) (t : nodeTransit) : Z :=
  match tr_Blocks t !! NodeAddrToString fromaddr with
  | Some bs => Z.of_nat (length bs)
  | None => 0
  end.

Definition err_not_in_transit : goerror := EMsg "The address is not in blocks transit".

(** [t.Blocks[key][0][:]] panics on an empty list. *)
Definition ShiftNextBlock (fromaddr : NodeAddr) : st nodeTransit bytes := λ t,
  let key := NodeAddrToString fromaddr in
  match tr_Blocks t !! key with
  | Some bs =>
      match index bs 0 with
      | Ret data =>
          let bs := drop 1 bs in
          let m := <[key := bs]> (tr_Blocks t) in
          let m := if (Z.of_nat (length bs) =? 0)%Z then delete key m else m in
          (Ret data, mkTransit m (tr_MaxKnownHeigh t))
      | Err e => (Err e, t)
      | Panic p => (Panic p, t)
      | OutOfFuel => (OutOfFuel, t)
      end
  | None => (Err err_not_in_transit, t)
  end.

(** ** Queues *)

(** The queue of a node; no key is the empty queue. *)
Definition queue (a : NodeAddr) (t : nodeTransit) : list bytes :=
  default [] (tr_Blocks t !! NodeAddrToString a).

(** No key has an empty list. *)
Definition no_empty_list (t : nodeTransit) : Prop :=
  ∀ k, tr_Blocks t !! k ≠ Some [].

(** Another node is one whose text is another. *)
Definition other (a b : NodeAddr) : Prop := NodeAddrToString b ≠ NodeAddrToString a.

Lemma ShiftNextBlock_cons a t b bs :
  queue a t = b :: bs →
  ∃ t', ShiftNextBlock a t = (Ret b, t') ∧ queue a t' = bs ∧
        (∀ c, other a c → queue c t' = queue c t) ∧ tr_MaxKnownHeigh t' = tr_MaxKnownHeigh t ∧
        (no_empty_list t → no_empty_list t').
Proof.
  unfold queue, ShiftNextBlock, other, no_empty_list. intros Hq.
  destruct (tr_Blocks t !! NodeAddrToString a) as [l|] eqn:E; [|done]. simpl in Hq. subst l.
  cbn [index lookup list_lookup Z.to_nat Z.ltb Z.compare drop]. eexists. split; [done|].
  cbn [tr_Blocks tr_MaxKnownHeigh]. split_and!; [| |done|].
  - destruct bs; simpl; [by rewrite lookup_delete_eq|by rewrite lookup_insert_eq].
  - intros c Hc. destruct bs; simpl; rewrite ?lookup_delete_ne, lookup_insert_ne by done; done.
  - intros He k. destruct (decide (k = NodeAddrToString a)) as [->|Hk].
    + destruct bs; simpl; [by rewrite lookup_delete_eq|by rewrite lookup_insert_eq].
    + destruct bs; simpl; rewrite ?lookup_delete_ne, lookup_insert_ne by done; apply He.
Qed.

Lemma GetBlocksCount_queue a t : GetBlocksCount a t = Z.of_nat (length (queue a t)).
Proof. unfold queue, GetBlocksCount. by destruct (tr_Blocks t !! _). Qed.

Lemma CleanBlocks_queue a t :
  queue a (CleanBlocks a t) = [] ∧ ∀ c, other a c → queue c (CleanBlocks a t) = queue c t.
Proof.
  unfold queue, CleanBlocks. destruct (tr_Blocks t !! NodeAddrToString a) eqn:E; simpl.
  - split; [by rewrite lookup_delete_eq|]. intros c Hc. by rewrite lookup_delete_ne.
  - by rewrite E.
Qed.

(** the blocks in transit are a queue for each node: adding appends, shifting
    takes the first, cleaning empties, and no operation touches the queue of
    another node.  Shifting an empty queue is an error as long as no empty
    announcement was added; after one it panics. *)
Theorem transit_queues a t blocks :
  no_empty_list t →
  queue a (AddBlocks a blocks t) = queue a t ++ blocks ∧
  queue a (CleanBlocks a t) = [] ∧
  GetBlocksCount a t = Z.of_nat (length (queue a t)) ∧
  (∀ c, other a c → queue c (AddBlocks a blocks t) = queue c t ∧ queue c (CleanBlocks a t) = queue c t) ∧
  match queue a t with
  | b :: bs => ∃ t', ShiftNextBlock a t = (Ret b, t') ∧ queue a t' = bs ∧
                     ∀ c, other a c → queue c t' = queue c t
  | [] => ShiftNextBlock a t = (Err err_not_in_transit, t) ∧
          (ShiftNextBlock a (AddBlocks a [] t)).1 = Panic PIndex
  end.
Proof.
  intros He. pose proof (He (NodeAddrToString a)) as Ha.
  pose proof (ShiftNextBlock_cons a t) as Hs. split_and!.
  - unfold queue, AddBlocks. destruct (tr_Blocks t !! _) eqn:E; simpl; by rewrite lookup_insert_eq.
  - unfold queue, CleanBlocks. destruct (tr_Blocks t !! _) eqn:E; simpl; [by rewrite lookup_delete_eq|by rewrite E].
  - unfold queue, GetBlocksCount. by destruct (tr_Blocks t !! _).
  - intros c Hc. unfold queue, AddBlocks, CleanBlocks.
    destruct (tr_Blocks t !! NodeAddrToString a) eqn:E; simpl; split;
      rewrite ?lookup_insert_ne, ?lookup_delete_ne by done; done.
  - destruct (queue a t) as [|b bs] eqn:Eq.
    + unfold queue in Eq. destruct (tr_Blocks t !! NodeAddrToString a) as [l|] eqn:E;
        [simpl in Eq; by subst|].
      unfold ShiftNextBlock, AddBlocks. rewrite E. simpl. by rewrite lookup_insert_eq.
    + destruct (Hs b bs eq_refl) as (t' & ? & ? & ? & _). by exists t'.
Qed.

Lemma no_empty_list_Init : no_empty_list transit_Init.
Proof. intros k. unfold transit_Init. simpl. by rewrite lookup_empty. Qed.

Lemma transit_queues_witness :
  let a := mkNodeAddr (str "127.0.0.1") 20000 in
  let t := AddBlocks a [[x01]] transit_Init in
  queue a (AddBlocks a [[x02]] t) = queue a t ++ [[x02]] ∧ queue a (CleanBlocks a t) = [] ∧
  ∃ t', ShiftNextBlock a t = (Ret [x01], t').
Proof.
  intros a t.
  assert (no_empty_list t) as He.
  { intros k. unfold t, AddBlocks, transit_Init. simpl. rewrite lookup_empty. simpl.
    rewrite lookup_insert_Some, lookup_empty. intros [[_ ?]|[_ ?]]; done. }
  destruct (transit_queues a t [[x02]] He) as (H1 & H2 & _ & _ & H3).
  split; [exact H1|]. split; [exact H2|].
  assert (queue a t = [[x01]]) as E by (vm_compute; reflexivity). rewrite E in H3.
  destruct H3 as (t' & Ht & _). by exists t'.
Defined.
