(* ===== verification/NodeClient.v ===== *)
(** * Package [lib/nodeclient]: the network client

    The records that nodes exchange and the calls that send them
    ([lib/nodeclient/nodeclient.go]).  A request that is sent is appended to the
    list of what was sent; whether a connection can be made, and what a server
    answers, is up to the network.  The layout of a request is in [Wire.v]. *)

From Stdlib Require Import Strings.Byte ZifyNat.
From stdpp Require Import base strings numbers gmap list.
From S2P Require Import Prelude Float64 Platform Concrete Blockchain Net Wire.

(** ** Records *)

Record ComBlock := mkComBlock { cb_AddrFrom : NodeAddr; cb_Block : bytes }.
Record ComGetBlocks := mkComGetBlocks { cgb_AddrFrom : NodeAddr; cgb_StartFrom : bytes }.
Record ComGetFirstBlocksData := mkComGetFirstBlocksData { cfb_Blocks : list bytes; cfb_Height : Z }.
Record ComGetData := mkComGetData { cgd_AddrFrom : NodeAddr; cgd_Type : bytes; cgd_ID : bytes }.
Record ComWalletBalance := mkComWalletBalance {
  cwb_Total : float64; cwb_Approved : float64; cwb_Pending : float64 }.
Record ComGetWalletBalance := mkComGetWalletBalance { cgw_Address : bytes }.
Record ComNewTransaction := mkComNewTransaction { cnt_Address : bytes; cnt_TX : bytes }.
Record ComNewTransactionData := mkComNewTransactionData {
  cnd_Address : bytes; cnd_TX : bytes; cnd_Signatures : list bytes }.
Record ComRequestTransaction := mkComRequestTransaction {
  crt_PubKey : bytes; crt_To : bytes; crt_Amount : float64; crt_Signature : bytes }.
Record ComRequestTransactionData := mkComRequestTransactionData {
  crd_TX : bytes; crd_DataToSign : list bytes }.
Record ComGetUnspentTransactions := mkComGetUnspentTransactions {
  cgu_Address : bytes; cgu_LastBlock : bytes }.
Record ComUnspentTransaction := mkComUnspentTransaction {
  cut_TXID : bytes; cut_Vout : Z; cut_Amount : float64; cut_IsBase : bool; cut_From : bytes }.
Record ComUnspentTransactions := mkComUnspentTransactions {
  cuts_Transactions : list ComUnspentTransaction; cuts_LastBlock : bytes }.
Record ComGetHistoryTransactions := mkComGetHistoryTransactions { cgh_Address : bytes }.
Record ComHistoryTransaction := mkComHistoryTransaction {
  cht_IOType : bool; cht_TXID : bytes; cht_Amount : float64; cht_From : bytes; cht_To : bytes }.
Record ComInv := mkComInv { ci_AddrFrom : NodeAddr; ci_Type : bytes; ci_Items : list bytes }.
Record ComTx := mkComTx { ct_AddFrom : NodeAddr; ct_Transaction : bytes }.
Record ComVersion := mkComVersion {
  cv_Version : Z; cv_BestHeight : Z; cv_AddrFrom : NodeAddr }.
Record ComManageNode := mkComManageNode { cmn_Node : NodeAddr }.
Record ComGetNodeState := mkComGetNodeState {
  gns_Host : bytes; gns_BlocksNumber : Z; gns_ExpectingBlocksHeight : Z;
  gns_TransactionsCached : Z; gns_UnspentOutputs : Z }.

(** A string, which [gob] tells apart from a slice of bytes. *)
Record go_string := mkString { string_bytes : bytes }.

(** [encoding/gob] for what is exchanged. *)
Class ComGob := {
  gob_ComBlock :: Gob ComBlock;
  gob_ComGetBlocks :: Gob ComGetBlocks;
  gob_ComGetFirstBlocksData :: Gob ComGetFirstBlocksData;
  gob_ComGetData :: Gob ComGetData;
  gob_ComWalletBalance :: Gob ComWalletBalance;
  gob_ComGetWalletBalance :: Gob ComGetWalletBalance;
  gob_ComNewTransaction :: Gob ComNewTransaction;
  gob_ComNewTransactionData :: Gob ComNewTransactionData;
  gob_ComRequestTransaction :: Gob ComRequestTransaction;
  gob_ComRequestTransactionData :: Gob ComRequestTransactionData;
  gob_ComGetUnspentTransactions :: Gob ComGetUnspentTransactions;
  gob_ComUnspentTransactions :: Gob ComUnspentTransactions;
  gob_ComGetHistoryTransactions :: Gob ComGetHistoryTransactions;
  gob_ComHistoryTransactions :: Gob (list ComHistoryTransaction);
  gob_ComInv :: Gob ComInv;
  gob_ComTx :: Gob ComTx;
  gob_ComVersion :: Gob ComVersion;
  gob_ComManageNode :: Gob ComManageNode;
  gob_ComGetNodeState :: Gob ComGetNodeState;
  gob_NodeAddrs :: Gob (list NodeAddr);
  gob_bytes :: Gob bytes;
  gob_string :: Gob go_string
}.

(** ** The network *)

(** What was sent so far: the address as text and the bytes. *)
Definition outbox : Type := list (bytes * bytes).

Inductive send_result := Sent | NotAvailable | WriteFailed (e : goerror).

(** Connecting and writing, and connecting, writing and reading the answer to
    its end; [Error] is the text of an error message. *)
Class Network := {
  net_send : outbox → bytes → bytes → send_result;
  net_request : outbox → bytes → bytes → outcome bytes;
  Error : goerror → bytes
}.

Section Client.
Context `{Network} `{ComGob}.

Record NodeClient := mkNodeClient { nc_NodeAddress : NodeAddr; nc_NodeAuthStr : bytes }.

Definition SetAuthStr (auth : bytes) (c : NodeClient) : NodeClient :=
  mkNodeClient (nc_NodeAddress c) auth.
Definition SetNodeAddress (address : NodeAddr) (c : NodeClient) : NodeClient :=
  mkNodeClient address (nc_NodeAuthStr c).

Definition CheckNodeAddress (address : NodeAddr) : outcome unit :=
  if (Port address <? 1024)%Z then Err (EMsg "Node Address Port has wrong value")
  else if (65536 <? Port address)%Z then Err (EMsg "Node Address Port has wrong value")
  else if bool_decide (Host address = []) then Err (EMsg "Node Address Host has wrong value")
  else Ret tt.

Definition err_not_available (addr : NodeAddr) : goerror :=
  EFmt "%s is not available" [ABytes (NodeAddrToString addr)].

Definition SendData (addr : NodeAddr) (data : bytes) : st outbox unit := λ out,
  match CheckNodeAddress addr with
  | Ret _ =>
      match net_send out (NodeAddrToString addr) data with
      | Sent => (Ret tt, out ++ [(NodeAddrToString addr, data)])
      | NotAvailable => (Err (err_not_available addr), out)
      | WriteFailed e => (Err e, out)
      end
  | Err e => (Err e, out)
  | Panic p => (Panic p, out)
  | OutOfFuel => (OutOfFuel, out)
  end.

(** A one-way command with its data. *)
Definition send_command {A} `{Gob A} (addr : NodeAddr) (command : bytes) (data : A)
    : st outbox unit :=
  request ← lift (BuildCommandData command (Some (gob_Encode data)));
  SendData addr request.

Definition SendVoid (address : NodeAddr) : st outbox unit :=
  request ← lift (CommandToBytes (str "viod"));
  SendData address request.
Definition SendAddrList (address : NodeAddr) (addresses : list NodeAddr) : st outbox unit :=
  send_command address (str "addr") addresses.
Definition SendBlock (c : NodeClient) (addr : NodeAddr) (BlockSerialised : bytes) : st outbox unit :=
  send_command addr (str "block") (mkComBlock (nc_NodeAddress c) BlockSerialised).
Definition SendInv (c : NodeClient) (address : NodeAddr) (kind : bytes) (items : list bytes)
    : st outbox unit :=
  send_command address (str "inv") (mkComInv (nc_NodeAddress c) kind items).
Definition SendGetBlocks (c : NodeClient) (address : NodeAddr) (startfrom : bytes) : st outbox unit :=
  send_command address (str "getblocks") (mkComGetBlocks (nc_NodeAddress c) startfrom).
Definition SendGetBlocksUpper (c : NodeClient) (address : NodeAddr) (startfrom : bytes)
    : st outbox unit :=
  send_command address (str "getblocksup") (mkComGetBlocks (nc_NodeAddress c) startfrom).
Definition SendGetData (c : NodeClient) (address : NodeAddr) (kind id : bytes) : st outbox unit :=
  send_command address (str "getdata") (mkComGetData (nc_NodeAddress c) kind id).
Definition SendTx (c : NodeClient) (addr : NodeAddr) (tnxserialised : bytes) : st outbox unit :=
  send_command addr (str "tx") (mkComTx (nc_NodeAddress c) tnxserialised).
Definition SendVersion (c : NodeClient) (addr : NodeAddr) (bestHeight : Z) : st outbox unit :=
  send_command addr (str "version") (mkComVersion NodeVersion bestHeight (nc_NodeAddress c)).

(** *** Requests with an answer *)

(** The answer starts with a byte that says whether the request was served; an
    error comes as its text. *)
Definition read_response {A} (decode : bytes → outcome A) (response : bytes) : outcome A :=
  match response with
  | [] => Err (EMsg "Received 0 bytes as a response. Expected at least 1 byte")
  | b :: rest =>
      if negb (bool_decide (b = x01)) then
        payload ← gob_Decode rest;
        Err (EFmt "%s" [ABytes (string_bytes payload)])
      else decode rest
  end.

Definition SendDataWaitResponse {A} (decode : bytes → outcome A) (addr : NodeAddr) (data : bytes)
    (out : outbox) : outcome A :=
  _ ← CheckNodeAddress addr;
  response ← net_request out (NodeAddrToString addr) data;
  read_response decode response.

(** Errors of building are looked at by some calls and overwritten by others,
    which then send nothing but the connection. *)
Definition SendGetFirstBlocks (address : NodeAddr) (out : outbox) : outcome ComGetFirstBlocksData :=
  request ← BuildCommandData (str "getfblocks") None;
  SendDataWaitResponse gob_Decode address request out.
Definition SendGetHistory (addr : NodeAddr) (address : bytes) (out : outbox)
    : outcome (list ComHistoryTransaction) :=
  request ← BuildCommandData (str "gethistory") (Some (gob_Encode (mkComGetHistoryTransactions address)));
  SendDataWaitResponse gob_Decode addr request out.
Definition SendNewTransaction (addr : NodeAddr) (from tx : bytes) (out : outbox) : outcome bytes :=
  request ← BuildCommandData (str "txfull") (Some (gob_Encode (mkComNewTransaction from tx)));
  SendDataWaitResponse gob_Decode addr request out.
Definition SendNewTransactionData (addr : NodeAddr) (from txBytes : bytes) (signatures : list bytes)
    (out : outbox) : outcome bytes :=
  request ← BuildCommandData (str "txdata")
    (Some (gob_Encode (mkComNewTransactionData from txBytes signatures)));
  SendDataWaitResponse gob_Decode addr request out.
Definition SendRequestNewTransaction (addr : NodeAddr) (PubKey to : bytes) (amount : float64)
    (out : outbox) : outcome (bytes * list bytes) :=
  request ← BuildCommandData (str "txrequest")
    (Some (gob_Encode (mkComRequestTransaction PubKey to amount [])));
  d ← SendDataWaitResponse gob_Decode addr request out;
  Ret (crd_TX d, crd_DataToSign d).
Definition SendGetUnspent (addr : NodeAddr) (address chaintip : bytes) (out : outbox)
    : outcome ComUnspentTransactions :=
  request ← ignore_err [] (BuildCommandData (str "getunspent")
    (Some (gob_Encode (mkComGetUnspentTransactions address chaintip))));
  SendDataWaitResponse gob_Decode addr request out.
Definition SendGetBalance (addr : NodeAddr) (address : bytes) (out : outbox)
    : outcome ComWalletBalance :=
  request ← ignore_err [] (BuildCommandData (str "getbalance")
    (Some (gob_Encode (mkComGetWalletBalance address))));
  SendDataWaitResponse gob_Decode addr request out.

(** Requests to the own node.  Their errors are wrapped. *)
Definition SendGetNodes (c : NodeClient) (out : outbox) : outcome (list NodeAddr) :=
  request ← ignore_err [] (BuildCommandData (str "getnodes") None);
  wrap_read "Get Nodes Response Error: %s"
    (SendDataWaitResponse gob_Decode (nc_NodeAddress c) request out).
Definition SendAddNode (c : NodeClient) (node : NodeAddr) (out : outbox) : outcome unit :=
  request ← ignore_err [] (BuildCommandDataWithAuth (nc_NodeAuthStr c) (str "addnode")
    (Some (gob_Encode (mkComManageNode node))));
  wrap_read "Add Node Response Error: %s"
    (SendDataWaitResponse (λ _, Ret tt) (nc_NodeAddress c) request out).
Definition SendRemoveNode (c : NodeClient) (node : NodeAddr) (out : outbox) : outcome unit :=
  request ← ignore_err [] (BuildCommandDataWithAuth (nc_NodeAuthStr c) (str "removenode")
    (Some (gob_Encode (mkComManageNode node))));
  wrap_read "Remove Node Response Error: %s"
    (SendDataWaitResponse (λ _, Ret tt) (nc_NodeAddress c) request out).
Definition SendGetState (c : NodeClient) (out : outbox) : outcome ComGetNodeState :=
  request ← ignore_err [] (BuildCommandDataWithAuth (nc_NodeAuthStr c) (str "getstate") None);
  wrap_read "gettig state error: %s"
    (SendDataWaitResponse gob_Decode (nc_NodeAddress c) request out).
End Client.
