(* ===== verification/Redis.v ===== *)
(** * Redis

    What the package [mq] uses of the client [gopkg.in/redis.v3] and of the
    server behind it: the commands, the documented effect of the ones on lists
    and sets, and a class of servers that keep to it.  An instance is at the end. *)

From Stdlib Require Import Strings.Byte ZifyNat.
From stdpp Require Import base strings numbers gmap list.
From S2P Require Import Prelude Platform Concrete Net.

(** ** Commands

    A command carries the type of its answer.  The first element of a list is at
    its left; an expiring key is one that is set for some seconds. *)
Inductive cmd : Type → Type :=
| LPush (key : bytes) (values : list bytes) : cmd Z
| RPop (key : bytes) : cmd bytes
| RPopLPush (source destination : bytes) : cmd bytes
| BRPopLPush (source destination : bytes) : cmd bytes
| LLen (key : bytes) : cmd Z
| LIndex (key : bytes) (i : Z) : cmd bytes
| SAdd (key member : bytes) : cmd Z
| SRem (key member : bytes) : cmd Z
| SMembers (key : bytes) : cmd (list bytes)
| SIsMember (key member : bytes) : cmd bool
| Del (key : bytes) : cmd Z
| RGet (key : bytes) : cmd bytes
| RSet (key value : bytes) (seconds : Z) : cmd unit
| IncrBy (key : bytes) (n : Z) : cmd Z
| Expire (key : bytes) (seconds : Z) : cmd bool
| MGet (keys : list bytes) : cmd (list (option bytes)).

Definition redis_Nil : goerror := ELib "redis: nil".
Definition err_wrongtype : goerror := ELib "WRONGTYPE Operation against a key holding the wrong kind of value".

(** ** Keys that do not expire *)

Inductive redis_value := LList (l : list bytes) | LSet (X : gset bytes).
Abbreviation keyspace := (gmap bytes redis_value).

Definition list_at (m : keyspace) (key : bytes) : outcome (list bytes) :=
  match m !! key with None => Ret [] | Some (LList l) => Ret l | Some (LSet _) => Err err_wrongtype end.
Definition set_at (m : keyspace) (key : bytes) : outcome (gset bytes) :=
  match m !! key with None => Ret ∅ | Some (LSet X) => Ret X | Some (LList _) => Err err_wrongtype end.

(** A key whose list or set is empty is removed. *)
Definition put_list (key : bytes) (l : list bytes) (m : keyspace) : keyspace :=
  if bool_decide (l = []) then delete key m else <[key := LList l]> m.
Definition put_set (key : bytes) (X : gset bytes) (m : keyspace) : keyspace :=
  if bool_decide (X = ∅) then delete key m else <[key := LSet X]> m.

Definition nil_or {A} (o : option A) : outcome A := match o with Some a => Ret a | None => Err redis_Nil end.
Definition but_last (l : list bytes) : list bytes := take (pred (length l)) l.

Definition lookup_index (l : list bytes) (i : Z) : option bytes :=
  let i := if (i <? 0)%Z then (Z.of_nat (length l) + i)%Z else i in
  if (i <? 0)%Z then None else l !! Z.to_nat i.

(** The last of one list becomes the first of the other, which may be the same. *)
Definition move_last (source destination : bytes) (m : keyspace) : outcome (bytes * keyspace) :=
  l ← list_at m source;
  _ ← list_at m destination;
  v ← nil_or (last l);
  let m := put_list source (but_last l) m in
  l ← list_at m destination;
  Ret (v, put_list destination (v :: l) m).

(** What a command does to these keys; to push nothing is refused. *)
Definition server_effect {R} (c : cmd R) (m : keyspace) : keyspace :=
  match c with
  | LPush key values =>
      if bool_decide (values = []) then m
      else match list_at m key with Ret l => put_list key (rev values ++ l) m | _ => m end
  | RPop key => match list_at m key with Ret l => put_list key (but_last l) m | _ => m end
  | RPopLPush source destination | BRPopLPush source destination =>
      match move_last source destination m with Ret (_, m) => m | _ => m end
  | SAdd key member => match set_at m key with Ret X => put_set key ({[member]} ∪ X) m | _ => m end
  | SRem key member => match set_at m key with Ret X => put_set key (X ∖ {[member]}) m | _ => m end
  | Del key => delete key m
  | _ => m
  end.

(** The answer to it.  The order of the members of a set is not specified, and
    neither are the answers about keys that expire. *)
Definition answered {R} (c : cmd R) (m : keyspace) : outcome R → Prop :=
  match c in cmd R return outcome R → Prop with
  | LPush key values => λ r, if bool_decide (values = []) then ∃ e, r = Err e
                             else r = (l ← list_at m key; Ret (Z.of_nat (length values + length l)))
  | RPop key => λ r, r = (l ← list_at m key; nil_or (last l))
  | RPopLPush source destination => λ r, r = (p ← move_last source destination m; Ret p.1)
  | BRPopLPush source destination => λ r, r = (p ← move_last source destination m; Ret p.1)
  | LLen key => λ r, r = (l ← list_at m key; Ret (Z.of_nat (length l)))
  | LIndex key i => λ r, r = (l ← list_at m key; nil_or (lookup_index l i))
  | SAdd key member => λ r, r = (X ← set_at m key; Ret (if bool_decide (member ∈ X) then 0 else 1)%Z)
  | SRem key member => λ r, r = (X ← set_at m key; Ret (if bool_decide (member ∈ X) then 1 else 0)%Z)
  | SMembers key => λ r, ∃ l, r = (_ ← set_at m key; Ret l) ∧ (∀ X, set_at m key = Ret X → l ≡ₚ elements X)
  | SIsMember key member => λ r, r = (X ← set_at m key; Ret (bool_decide (member ∈ X)))
  | Del _ => λ r, ∃ n, r = Ret n
  | RGet _ => λ r, r = Err redis_Nil ∨ ∃ v, r = Ret v
  | RSet _ _ _ => λ r, r = Ret tt
  | IncrBy _ _ | Expire _ _ | MGet _ => λ _, True
  end.

(** The keys that a command takes for lists or sets, and for strings. *)
Definition lasting_keys {R} (c : cmd R) : list bytes :=
  match c with
  | LPush k _ | RPop k | LLen k | LIndex k _ | SAdd k _ | SRem k _ | SMembers k | SIsMember k _ => [k]
  | RPopLPush k k' | BRPopLPush k k' => [k; k']
  | _ => []
  end.
Definition string_keys {R} (c : cmd R) : list bytes :=
  match c with RGet k | RSet k _ _ | IncrBy k _ | Expire k _ => [k] | MGet ks => ks | _ => [] end.
(** A command that waits. *)
Definition waits {R} (c : cmd R) (m : keyspace) : bool :=
  match c with BRPopLPush source _ => match list_at m source with Ret [] => true | _ => false end | _ => false end.

(** ** Servers

    [data] are the keys that do not expire, [expiring] the ones that do; [up] says
    that the server can be reached and answers. *)
Class Redis := {
  redis : Type;
  serve {R} : cmd R → redis → outcome R * redis
}.

Class RedisLaws `{Redis} := {
  data : redis → keyspace;
  expiring : redis → gset bytes;
  up : redis → Prop;
  serve_up {R} (c : cmd R) s r s' :
    serve c s = (r, s') → up s → waits c (data s) = false →
    (∀ k, k ∈ lasting_keys c → k ∉ expiring s) → (∀ k, k ∈ string_keys c → data s !! k = None) →
    up s' ∧ data s' = server_effect c (data s) ∧ answered c (data s) r ∧
    (∀ k, k ∈ expiring s' → k ∈ expiring s ∨ k ∈ string_keys c)
}.

(** ** Lists of a key space *)

Lemma list_at_put k l m : list_at (put_list k l m) k = Ret l.
Proof.
  unfold put_list, list_at. case_bool_decide as E; [by rewrite lookup_delete_eq, E|by rewrite lookup_insert_eq].
Qed.

Lemma list_at_put_ne k k' l m : k ≠ k' → list_at (put_list k l m) k' = list_at m k'.
Proof.
  intros Hne. unfold put_list, list_at. case_bool_decide; [by rewrite lookup_delete_ne|by rewrite lookup_insert_ne].
Qed.

Lemma list_at_put_set k k' X m : k ≠ k' → list_at (put_set k X m) k' = list_at m k'.
Proof.
  intros Hne. unfold put_set, list_at. case_bool_decide; [by rewrite lookup_delete_ne|by rewrite lookup_insert_ne].
Qed.

Lemma but_last_snoc l v : but_last (l ++ [v]) = l.
Proof. unfold but_last. rewrite length_app, Nat.add_1_r. simpl. by rewrite take_app_length. Qed.

Lemma move_last_ne src dst l v l' m :
  src ≠ dst → list_at m src = Ret (l ++ [v]) → list_at m dst = Ret l' →
  move_last src dst m = Ret (v, put_list dst (v :: l') (put_list src l m)).
Proof.
  intros Hne Hs Hd. unfold move_last. rewrite Hs, Hd. cbn [mbind outcome_bind].
  rewrite last_snoc, but_last_snoc, list_at_put_ne by done. cbn [mbind outcome_bind nil_or]. by rewrite Hd.
Qed.

Lemma move_last_empty src dst l' m :
  list_at m src = Ret [] → list_at m dst = Ret l' → move_last src dst m = Err redis_Nil.
Proof. intros Hs Hd. unfold move_last. by rewrite Hs, Hd. Qed.

(** ** A server *)

Module MapServer.
(** The keys that do not expire and the strings, which never do here. *)
Definition map_redis : Type := keyspace * gmap bytes bytes.

Definition get_string (k : bytes) (m : keyspace) (t : gmap bytes bytes) : outcome bytes :=
  match m !! k with Some _ => Err err_wrongtype | None => nil_or (t !! k) end.

(** The answers to the commands on lists and sets. *)
Definition reply {R} (c : cmd R) (m : keyspace) (t : gmap bytes bytes) : outcome R :=
  match c in cmd R return outcome R with
  | LPush key values => if bool_decide (values = []) then Err (ELib "ERR wrong number of arguments")
                        else l ← list_at m key; Ret (Z.of_nat (length values + length l))
  | RPop key => l ← list_at m key; nil_or (last l)
  | RPopLPush source destination => p ← move_last source destination m; Ret p.1
  | BRPopLPush source destination =>
      match list_at m source with Ret [] => OutOfFuel | _ => p ← move_last source destination m; Ret p.1 end
  | LLen key => l ← list_at m key; Ret (Z.of_nat (length l))
  | LIndex key i => l ← list_at m key; nil_or (lookup_index l i)
  | SAdd key member => X ← set_at m key; Ret (if bool_decide (member ∈ X) then 0 else 1)%Z
  | SRem key member => X ← set_at m key; Ret (if bool_decide (member ∈ X) then 1 else 0)%Z
  | SMembers key => X ← set_at m key; Ret (elements X)
  | SIsMember key member => X ← set_at m key; Ret (bool_decide (member ∈ X))
  | Del key => Ret (if bool_decide (key ∈ dom m ∨ key ∈ dom t) then 1 else 0)%Z
  | RGet key => get_string key m t
  | RSet _ _ _ => Ret tt
  | IncrBy key n => v ← match t !! key with None => Ret 0%Z | Some s => Atoi s end; Ret (v + n)%Z
  | Expire key _ => Ret (bool_decide (key ∈ dom t))
  | MGet keys => Ret (map (t !!.) keys)
  end.
Definition strings_after {R} (c : cmd R) (m : keyspace) (t : gmap bytes bytes) : gmap bytes bytes :=
  match c with
  | Del key => delete key t
  | RSet key value _ => <[key := value]> t
  | IncrBy key n => match reply (IncrBy key n) m t with Ret z => <[key := Itoa z]> t | _ => t end
  | _ => t
  end.
Definition data_after {R} (c : cmd R) (m : keyspace) : keyspace :=
  match c with RSet key _ _ => delete key m | _ => server_effect c m end.

Definition map_serve {R} (c : cmd R) (s : map_redis) : outcome R * map_redis :=
  let '(m, t) := s in
  if bool_decide (Exists (λ k, k ∈ dom t) (lasting_keys c)) then (Err err_wrongtype, s)
  else (reply c m t, (data_after c m, strings_after c m t)).

#[export] Instance map_server : Redis := { redis := map_redis; serve R := map_serve }.

#[export] Instance map_server_laws : RedisLaws.
Proof.
  refine {| data := fst; expiring := (λ s : map_redis, dom s.2); up := λ _, True |}.
  intros R c [m t] r s' Hs _ Hw Hl Hk. cbn [fst snd] in *.
  unfold serve, map_server, map_serve in Hs. rewrite bool_decide_eq_false_2 in Hs.
  2:{ intros (k & Hin & Hk')%Exists_exists. exact (Hl k Hin Hk'). }
  injection Hs as <- <-. cbn [fst snd]. split; [done|].
  assert (He : data_after c m = server_effect c m).
  { destruct c; try done. simpl. apply delete_id. apply Hk. by left. }
  rewrite He. split; [done|]. clear He. destruct c; cbn [waits] in Hw; cbn [reply answered strings_after string_keys];
    try (split; [|intros; by left]); try done.
  - case_bool_decide; [by eexists|done].
  - by destruct (list_at m source) as [[]| | |].
  - destruct (set_at m key) as [X| | |] eqn:E; simpl; [|by exists []..]. exists (elements X).
    split; [done|]. by intros ? [= <-].
  - split; [by eexists|]. intros k Hin. left. rewrite dom_delete_L in Hin. set_solver.
  - unfold get_string. rewrite Hk by by left. destruct (t !! key); [right; by eexists|by left].
  - split; [done|]. intros k Hin. rewrite dom_insert_L in Hin. set_solver.
  - split; [done|]. intros k Hin. destruct (_ ≫= _); [|by left..]. rewrite dom_insert_L in Hin. set_solver.
Defined.
End MapServer.
