(* ===== verification/Mq.v ===== *)
(** * Package [mq]: queues of packages in Redis

    [queue.go], [consumer.go], [package.go], [buffered_queue.go] and
    [key_names.go].  An operation is a program that sends commands to the server:
    between two of them other clients go on ([MqSafe.v]).  The counts that are sent
    to the statistics are in [MqStats.v]. *)

From Stdlib Require Import Strings.Byte ZifyNat.
From stdpp Require Import base strings numbers gmap list.
From S2P Require Import Prelude Text Platform Concrete Tables Redis.

(** ** [key_names.go] *)

Definition masterQueueKey : bytes := str "redismq::queues".
Definition queueWorkersKey (queue : bytes) : bytes := queue ++ str "::workers".
Definition queueInputKey (queue : bytes) : bytes := str "redismq::" ++ queue.
Definition queueFailedKey (queue : bytes) : bytes := str "redismq::" ++ queue ++ str "::failed".
Definition queueInputRateKey (queue : bytes) : bytes := queueInputKey queue ++ str "::rate".
Definition queueInputSizeKey (queue : bytes) : bytes := queueInputKey queue ++ str "::size".
Definition queueFailedSizeKey (queue : bytes) : bytes := queueFailedKey queue ++ str "::size".
Definition queueHeartbeatKey (queue : bytes) : bytes := queueInputKey queue ++ str "::buffered::heartbeat".
Definition queueWorkingPrefix (queue : bytes) : bytes := str "redismq::" ++ queue ++ str "::working".
Definition consumerWorkingQueueKey (queue consumer : bytes) : bytes := queueWorkingPrefix queue ++ str "::" ++ consumer.
Definition consumerWorkingRateKey (queue consumer : bytes) : bytes :=
  consumerWorkingQueueKey queue consumer ++ str "::rate".
Definition consumerHeartbeatKey (queue consumer : bytes) : bytes :=
  consumerWorkingQueueKey queue consumer ++ str "::heartbeat".

(** ** Programs of a client

    [Call] sends a command and waits for the answer; [Count] puts a data point
    into the channel of the statistics. *)
Record dataPoint := mkDataPoint { dp_name : bytes; dp_value : Z }.

Inductive client (A : Type) : Type :=
| Done (r : outcome A)
| Call {R : Type} (c : cmd R) (k : outcome R → client A)
| Count (dp : dataPoint) (k : client A).
Arguments Done {A} r.
Arguments Call {A R} c k.
Arguments Count {A} dp k.

Fixpoint client_bind_ {A B} (f : A → client B) (p : client A) : client B :=
  match p with
  | Done (Ret a) => f a
  | Done (Err e) => Done (Err e)
  | Done (Panic p) => Done (Panic p)
  | Done OutOfFuel => Done OutOfFuel
  | Call c k => Call c (λ r, client_bind_ f (k r))
  | Count dp k => Count dp (client_bind_ f k)
  end.
#[export] Instance client_ret : MRet client := λ A a, Done (Ret a).
#[export] Instance client_bind : MBind client := λ A B f p, client_bind_ f p.

(** The answer of a command as it is ([Result]), its value if there is no error
    ([Err()], returned), and the zero value if there is one ([Val()]). *)
Definition call {R} (c : cmd R) : client (outcome R) := Call c (λ r, Done (Ret r)).
Definition request {R} (c : cmd R) : client R := Call c Done.
Definition value_or {R} (zero : R) (r : outcome R) : R := match r with Ret a => a | _ => zero end.
Definition cfail {A} (e : goerror) : client A := Done (Err e).
Definition incrRate (name : bytes) (value : Z) : client unit := Count (mkDataPoint name value) (Done (Ret tt)).

Fixpoint cfor {A} (l : list A) (body : A → client unit) : client unit :=
  match l with [] => mret tt | a :: l => _ ← body a; cfor l body end.

(** A client that runs alone.  A command that the server never answers stops it. *)
Section Run.
Context `{Redis}.

Definition world : Type := redis * list dataPoint.

Fixpoint run {A} (p : client A) : st world A := λ '(s, counts),
  match p with
  | Done r => (r, (s, counts))
  | Call c k =>
      match serve c s with
      | (OutOfFuel, s) => (OutOfFuel, (s, counts))
      | (r, s) => run (k r) (s, counts)
      end
  | Count dp k => run k (s, counts ++ [dp])
  end.
End Run.

(** ** [package.go]

    A package of a collection is the collection, which its packages share, and
    the position of the package.  JSON is an argument. *)
Record Package := mkPackage { pk_Payload : bytes; pk_CreatedAt : Z; pk_Acked : bool }.

Class JsonPackage := {
  json_Marshal : bytes → Z → outcome bytes;
  json_Unmarshal : bytes → outcome (bytes * Z)
}.

Abbreviation Collection := (option (list Package * nat)).

Section Mq.
Context `{JsonPackage}.

Definition unmarshalPackage (input : bytes) : outcome Package :=
  '(Payload, CreatedAt) ← json_Unmarshal input; Ret (mkPackage Payload CreatedAt false).
Definition getString (pack : Package) : bytes := value_or [] (json_Marshal (pk_Payload pack) (pk_CreatedAt pack)).

(** *** [consumer.go] *)

Definition GetUnackedLength (queue consumer : bytes) : client Z :=
  r ← call (LLen (consumerWorkingQueueKey queue consumer)); mret (value_or 0%Z r).
Definition HasUnacked (queue consumer : bytes) : client bool :=
  n ← GetUnackedLength queue consumer; mret (negb (n =? 0)%Z).

Definition parseRedisAnswer (answer : outcome bytes) : client Package :=
  Done (s ← answer; unmarshalPackage s).

Definition unsafeGet (queue consumer : bytes) : client Package :=
  answer ← call (BRPopLPush (queueInputKey queue) (consumerWorkingQueueKey queue consumer));
  _ ← incrRate (consumerWorkingRateKey queue consumer) 1;
  parseRedisAnswer answer.

Definition err_unacked : goerror := EFmt "unacked Packages found" [].
Definition Get (queue consumer : bytes) : client Package :=
  unacked ← HasUnacked queue consumer;
  if (unacked : bool) then cfail err_unacked else unsafeGet queue consumer.

(** Every error of the command counts as an empty queue. *)
Definition NoWaitGet (queue consumer : bytes) : client (option Package) :=
  unacked ← HasUnacked queue consumer;
  if (unacked : bool) then cfail err_unacked
  else
    answer ← call (RPopLPush (queueInputKey queue) (consumerWorkingQueueKey queue consumer));
    if bool_decide (value_or [] answer = []) then mret None
    else
      _ ← incrRate (consumerWorkingRateKey queue consumer) 1;
      p ← parseRedisAnswer answer;
      mret (Some p).

(** The commands of a pipeline; its error is the one of the first that fails. *)
Fixpoint pipeline {R} (cs : list (cmd R)) : client (list (outcome R)) :=
  match cs with
  | [] => mret []
  | c :: cs => r ← call c; rs ← pipeline cs; mret (r :: rs)
  end.
Fixpoint first_error {R} (rs : list (outcome R)) : option goerror :=
  match rs with [] => None | Err e :: _ => Some e | _ :: rs => first_error rs end.

Definition MultiGet (queue consumer : bytes) (length : Z) : client (list Package) :=
  unacked ← HasUnacked queue consumer;
  if (unacked : bool) then cfail err_unacked
  else
    let input := queueInputKey queue in let working := consumerWorkingQueueKey queue consumer in
    reqs ← pipeline (BRPopLPush input working :: repeat (RPopLPush input working) (Z.to_nat (length - 1)));
    let go_on :=
      collection ← Done (mfor reqs (λ collection answer,
        if bool_decide (value_or [] answer = []) then Ret collection
        else s ← answer; p ← unmarshalPackage s; Ret (collection ++ [p])) []);
      _ ← incrRate (consumerWorkingRateKey queue consumer) length;
      mret collection in
    match first_error reqs with
    | Some e => if bool_decide (e = redis_Nil) then go_on else cfail e
    | None => go_on
    end.

Definition GetUnacked (queue consumer : bytes) : client Package :=
  unacked ← HasUnacked queue consumer;
  if negb unacked then cfail (EFmt "no unacked Packages found" [])
  else
    answer ← call (LIndex (consumerWorkingQueueKey queue consumer) (-1));
    parseRedisAnswer answer.

Definition GetFailed (queue consumer : bytes) : client Package :=
  answer ← call (RPopLPush (queueFailedKey queue) (consumerWorkingQueueKey queue consumer));
  _ ← incrRate (consumerWorkingRateKey queue consumer) 1;
  parseRedisAnswer answer.

Definition ResetWorking (queue consumer : bytes) : client unit :=
  _ ← request (Del (consumerWorkingQueueKey queue consumer)); mret tt.

Definition ackPackage (queue consumer : bytes) : client unit :=
  _ ← request (RPop (consumerWorkingQueueKey queue consumer)); mret tt.
Definition requeuePackage (queue consumer : bytes) : client unit :=
  answer ← call (RPopLPush (consumerWorkingQueueKey queue consumer) (queueInputKey queue));
  _ ← incrRate (queueInputRateKey queue) 1;
  Done (_ ← answer; Ret tt).
Definition failPackage (queue consumer : bytes) : client unit :=
  _ ← request (RPopLPush (consumerWorkingQueueKey queue consumer) (queueFailedKey queue)); mret tt.

(** The first heartbeat; it is repeated every half second until [Quit]. *)
Definition beat (key : bytes) : client unit := _ ← call (RSet key (str "ping") 1); mret tt.
Definition startHeartbeat (queue consumer : bytes) : client unit := beat (consumerHeartbeatKey queue consumer).
Definition Quit (queue consumer : bytes) : client unit :=
  _ ← call (Del (consumerHeartbeatKey queue consumer)); mret tt.

(** *** What is done with a package *)

Definition acked (p : Package) : Package := mkPackage (pk_Payload p) (pk_CreatedAt p) true.

(** The packages up to [pack.index()] are acknowledged in turn; an error ends the
    loop, and what was acknowledged before stays so. *)
Fixpoint ack_each (queue consumer : bytes) (positions : list nat) (collection : list Package)
    : client (list Package * outcome unit) :=
  match positions with
  | [] => mret (collection, Ret tt)
  | i :: positions =>
      p ← Done (index collection (Z.of_nat i));
      if pk_Acked p then ack_each queue consumer positions collection
      else
        r ← call (RPop (consumerWorkingQueueKey queue consumer));
        match r with
        | Ret _ => ack_each queue consumer positions (<[i := acked p]> collection)
        | _ => mret (collection, (_ ← r; Ret tt))
        end
  end.
Definition MultiAck (queue consumer : bytes) (c : Collection) : client (list Package * outcome unit) :=
  match c with
  | None => cfail (EFmt "cannot MultiAck single package" [])
  | Some (collection, i) => ack_each queue consumer (seq 0 (S i)) collection
  end.

Definition Ack (queue consumer : bytes) (c : Collection) : client unit :=
  match c with
  | Some _ => cfail (EFmt "cannot Ack package in multi package answer" [])
  | None => ackPackage queue consumer
  end.

Definition err_reject : goerror := EFmt "cannot reject package while unacked package before it" [].
Definition reject (requeue : bool) (queue consumer : bytes) (c : Collection) : client unit :=
  before ← Done (match c with
                 | None => Ret true
                 | Some (collection, i) => p ← index collection (Z.of_nat i - 1); Ret (pk_Acked p)
                 end);
  if negb before then cfail err_reject
  else if requeue then requeuePackage queue consumer else failPackage queue consumer.
Definition Requeue := reject true.
Definition Fail := reject false.

(** The error of [Requeue] is dropped. *)
Fixpoint RequeueWorking (fuel : nat) (queue consumer : bytes) : client unit :=
  match fuel with
  | O => Done OutOfFuel
  | S fuel =>
      unacked ← HasUnacked queue consumer;
      if negb unacked then mret tt
      else
        _ ← GetUnacked queue consumer;
        _ ← call (RPopLPush (consumerWorkingQueueKey queue consumer) (queueInputKey queue));
        _ ← incrRate (queueInputRateKey queue) 1;
        RequeueWorking fuel queue consumer
  end.

(** *** [queue.go] *)

Definition newQueue (name : bytes) : client unit := _ ← call (SAdd masterQueueKey name); mret tt.
Definition CreateQueue : bytes → client unit := newQueue.
Definition SelectQueue (name : bytes) : client unit :=
  isMember ← request (SIsMember masterQueueKey name);
  if negb isMember then cfail (EFmt "queue with this name doesn't exist" []) else newQueue name.

Definition isActiveConsumer (queue name : bytes) : client bool :=
  r ← call (RGet (consumerHeartbeatKey queue name)); mret (bool_decide (value_or [] r = str "ping")).

Definition AddConsumer (queue name : bytes) : client unit :=
  added ← request (SAdd (queueWorkersKey queue) name);
  active ← (if (added =? 0)%Z then isActiveConsumer queue name else mret false);
  if (active : bool) then cfail (EFmt "consumer with this name is already active" [])
  else startHeartbeat queue name.

(** The error of the marshalling is dropped: the text is then empty. *)
Definition Put (queue : bytes) (now : Z) (payload : bytes) : client unit :=
  lpush ← call (LPush (queueInputKey queue) [getString (mkPackage payload now false)]);
  _ ← incrRate (queueInputRateKey queue) 1;
  Done (_ ← lpush; Ret tt).

Definition length_of (key : bytes) : client Z := r ← call (LLen key); mret (value_or 0%Z r).
Definition GetInputLength (queue : bytes) : client Z := length_of (queueInputKey queue).
Definition GetFailedLength (queue : bytes) : client Z := length_of (queueFailedKey queue).

Fixpoint requeue_failed (queue : bytes) (l : nat) : client unit :=
  match l with
  | O => mret tt
  | S l =>
      _ ← request (RPopLPush (queueFailedKey queue) (queueInputKey queue));
      _ ← incrRate (queueInputRateKey queue) 1;
      requeue_failed queue l
  end.
Definition RequeueFailed (queue : bytes) : client unit :=
  l ← GetFailedLength queue; requeue_failed queue (Z.to_nat l).

Definition ResetInput (queue : bytes) : client unit := _ ← request (Del (queueInputKey queue)); mret tt.
Definition ResetFailed (queue : bytes) : client unit := _ ← request (Del (queueFailedKey queue)); mret tt.
Definition getConsumers (queue : bytes) : client (list bytes) := request (SMembers (queueWorkersKey queue)).

Definition delete_consumer (queue name : bytes) : client unit :=
  active ← isActiveConsumer queue name;
  if (active : bool) then cfail (EFmt "cannot delete queue with active consumers" [])
  else
    _ ← AddConsumer queue name;
    _ ← ResetWorking queue name;
    _ ← request (SRem (queueWorkersKey queue) name);
    mret tt.
Definition Delete (queue : bytes) : client unit :=
  consumers ← getConsumers queue;
  _ ← cfor consumers (delete_consumer queue);
  _ ← ResetInput queue;
  _ ← ResetFailed queue;
  _ ← request (SRem masterQueueKey queue);
  _ ← request (Del (queueWorkersKey queue));
  mret tt.

(** *** [buffered_queue.go]

    The writer's loop waits for a command to look at the buffer; [bq_waiting] are
    the callers of [FlushBuffer] that wait for it. *)
Record BufferedQueue := mkBufferedQueue {
  bq_BufferSize : Z;
  bq_Buffer : list Package;
  bq_nextWrite : Z;
  bq_waiting : nat
}.

Definition Start (queue : bytes) : client unit :=
  _ ← call (SAdd masterQueueKey queue);
  val ← call (RGet (queueHeartbeatKey queue));
  if bool_decide (value_or [] val = str "ping") then cfail (EFmt "buffered queue with this name is already started" [])
  else beat (queueHeartbeatKey queue).

(** A full buffer makes the caller wait. *)
Definition buffered_Put (now : Z) (payload : bytes) (b : BufferedQueue) : option BufferedQueue :=
  if (Z.of_nat (length (bq_Buffer b)) <? bq_BufferSize b * 2)%Z
  then Some (mkBufferedQueue (bq_BufferSize b) (bq_Buffer b ++ [mkPackage payload now false]) (bq_nextWrite b) (bq_waiting b))
  else None.
Definition FlushBuffer (b : BufferedQueue) : option BufferedQueue :=
  if decide (bq_waiting b = 0)
  then Some (mkBufferedQueue (bq_BufferSize b) (bq_Buffer b) (bq_nextWrite b) 1)
  else None.

(** One round of the writer, with the clock before and after it writes. *)
Definition write_buffer (queue : bytes) (now later : Z) (b : BufferedQueue) : client BufferedQueue :=
  if (bq_BufferSize b <=? Z.of_nat (length (bq_Buffer b)))%Z || (bq_nextWrite b <=? now)%Z then
    _ ← call (LPush (queueInputKey queue) (map getString (bq_Buffer b)));
    _ ← incrRate (queueInputRateKey queue) (Z.of_nat (length (bq_Buffer b)));
    mret (mkBufferedQueue (bq_BufferSize b) [] (later + 1) 0)
  else mret b.
End Mq.

(** ** Running an operation

    The lists under some keys, while a client runs alone. *)

Section Lists.
Context `{RedisLaws}.
Implicit Types (w : world) (L : bytes → list bytes) (keys : list bytes).

Record lists_hold keys w L : Prop := mkHold {
  lh_up : up w.1;
  lh_list key : key ∈ keys → list_at (data w.1) key = Ret (L key);
  lh_lasting key : key ∈ keys → key ∉ expiring w.1
}.

Lemma lists_hold_ext keys w L L' :
  lists_hold keys w L → (∀ key, key ∈ keys → L' key = L key) → lists_hold keys w L'.
Proof. intros [Hu Hl He] Hx. split; [done| |done]. intros key Hin. rewrite Hx by done. by apply Hl. Qed.

Lemma run_bind {A B} (p : client A) (f : A → client B) a w w' :
  run p w = (Ret a, w') → run (p ≫= f) w = run (f a) w'.
Proof.
  revert w. induction p as [r|R c k IH|dp k IH]; intros [s counts] Hr.
  - injection Hr as -> <-. done.
  - cbn in Hr |- *. destruct (serve c s) as [[r|e|p|] s1] eqn:E; simpl; rewrite ?E; try done; by apply IH.
  - by apply IH.
Qed.

Lemma serve_list {R} (c : cmd R) keys w L :
  lists_hold keys w L → (∀ key, key ∈ lasting_keys c → key ∈ keys) → string_keys c = [] →
  waits c (data w.1) = false →
  ∃ r s', serve c w.1 = (r, s') ∧ up s' ∧ data s' = server_effect c (data w.1) ∧
    answered c (data w.1) r ∧ ∀ key, key ∈ keys → key ∉ expiring s'.
Proof.
  intros Hh Hk Hs Hw. destruct (serve c w.1) as [r s'] eqn:E. exists r, s'.
  destruct (serve_up c w.1 r s' E) as (Hu & Hd & Ha & He); [apply Hh|done..| | |].
  - intros key Hin. eapply lh_lasting; [done|by apply Hk].
  - rewrite Hs. by intros key ?%elem_of_nil.
  - split_and!; try done. intros key Hin Hx. apply He in Hx as [Hx|Hx]; [by eapply lh_lasting|].
    rewrite Hs in Hx. by apply elem_of_nil in Hx.
Qed.

(** The commands on the lists. *)
Lemma run_LLen keys w L key :
  lists_hold keys w L → key ∈ keys →
  ∃ w', run (call (LLen key)) w = (Ret (Ret (Z.of_nat (length (L key)))), w') ∧ lists_hold keys w' L.
Proof.
  intros Hh Hk. destruct w as [s counts].
  destruct (serve_list (LLen key) keys (s, counts) L) as (r & s' & E & Hu & Hd & Ha & He); try done.
  { by intros ? ->%list_elem_of_singleton. }
  pose proof (lh_list _ _ _ Hh key Hk) as Hkl. cbn [fst] in *. simpl in Ha, Hd. rewrite Hkl in Ha. simpl in Ha. subst r. exists (s', counts).
  simpl. rewrite E. split; [done|]. split; [done| |done]. intros key' Hk'. simpl. rewrite Hd. by apply (lh_list _ _ _ Hh).
Qed.

Lemma run_LIndex keys w L key l v :
  lists_hold keys w L → key ∈ keys → L key = l ++ [v] →
  ∃ w', run (call (LIndex key (-1))) w = (Ret (Ret v), w') ∧ lists_hold keys w' L.
Proof.
  intros Hh Hk Hl. destruct w as [s counts].
  destruct (serve_list (LIndex key (-1)) keys (s, counts) L) as (r & s' & E & Hu & Hd & Ha & He); try done.
  { by intros ? ->%list_elem_of_singleton. }
  pose proof (lh_list _ _ _ Hh key Hk) as Hkl. cbn [fst] in *. simpl in Ha, Hd. rewrite Hkl, Hl in Ha. simpl in Ha.
  unfold lookup_index in Ha. rewrite length_app in Ha. simpl in Ha.
  replace (Z.of_nat (length l + 1) + -1)%Z with (Z.of_nat (length l)) in Ha by lia.
  rewrite (proj2 (Z.ltb_ge _ _)), Nat2Z.id, list_lookup_middle in Ha by lia. simpl in Ha. subst r.
  exists (s', counts). simpl. rewrite E. split; [done|]. split; [done| |done]. intros key' Hk'. simpl. rewrite Hd. by apply (lh_list _ _ _ Hh).
Qed.

Lemma list_after_put keys w L key l s' counts :
  lists_hold keys w L → up s' → data s' = put_list key l (data w.1) → (∀ key, key ∈ keys → key ∉ expiring s') →
  lists_hold keys (s', counts) (upd key l L).
Proof.
  intros Hh Hu Hd He. split; [done| |done]. intros key' Hk'. simpl. rewrite Hd. unfold upd.
  case_bool_decide as E; [subst; apply list_at_put|]. rewrite list_at_put_ne by done. by apply (lh_list _ _ _ Hh).
Qed.

Lemma run_LPush keys w L key values :
  lists_hold keys w L → key ∈ keys → values ≠ [] →
  ∃ w' n, run (call (LPush key values)) w = (Ret (Ret n), w') ∧ lists_hold keys w' (upd key (rev values ++ L key) L).
Proof.
  intros Hh Hk Hv. destruct w as [s counts].
  destruct (serve_list (LPush key values) keys (s, counts) L) as (r & s' & E & Hu & Hd & Ha & He); try done.
  { by intros ? ->%list_elem_of_singleton. }
  pose proof (lh_list _ _ _ Hh key Hk) as Hkl. cbn [fst] in *. simpl in Ha, Hd. rewrite bool_decide_eq_false_2 in Ha, Hd by done. rewrite Hkl in Ha, Hd. simpl in Ha. subst r.
  eexists (s', counts), _. simpl. rewrite E. split; [done|]. by eapply list_after_put.
Qed.

Lemma run_RPop keys w L key l v :
  lists_hold keys w L → key ∈ keys → L key = l ++ [v] →
  ∃ w', run (call (RPop key)) w = (Ret (Ret v), w') ∧ lists_hold keys w' (upd key l L).
Proof.
  intros Hh Hk Hl. destruct w as [s counts].
  destruct (serve_list (RPop key) keys (s, counts) L) as (r & s' & E & Hu & Hd & Ha & He); try done.
  { by intros ? ->%list_elem_of_singleton. }
  pose proof (lh_list _ _ _ Hh key Hk) as Hkl. cbn [fst] in *. simpl in Ha, Hd. rewrite Hkl, Hl in Ha, Hd. simpl in Ha. rewrite last_snoc in Ha. simpl in Ha. subst r.
  rewrite but_last_snoc in Hd. exists (s', counts). simpl. rewrite E. split; [done|]. by eapply list_after_put.
Qed.

Lemma hold_moved keys w L src dst l v s' counts :
  lists_hold keys w L → src ≠ dst → up s' →
  data s' = put_list dst (v :: L dst) (put_list src l (data w.1)) → (∀ key, key ∈ keys → key ∉ expiring s') →
  lists_hold keys (s', counts) (upd dst (v :: L dst) (upd src l L)).
Proof.
  intros Hh Hne Hu Hd He. split; [done| |done]. intros key Hk. simpl. rewrite Hd. unfold upd.
  case_bool_decide as E; [subst; apply list_at_put|]. rewrite list_at_put_ne by done.
  case_bool_decide as E'; [subst; apply list_at_put|]. rewrite list_at_put_ne by done. by apply (lh_list _ _ _ Hh).
Qed.

(** The two commands that move a package. *)
Lemma run_move (blocking : bool) keys w L src dst l v :
  lists_hold keys w L → src ∈ keys → dst ∈ keys → src ≠ dst → L src = l ++ [v] →
  ∃ w', run (call (if blocking then BRPopLPush src dst else RPopLPush src dst)) w = (Ret (Ret v), w') ∧
    lists_hold keys w' (upd dst (v :: L dst) (upd src l L)).
Proof.
  intros Hh Hs Hd Hne Hl. destruct w as [s counts].
  assert (Hm : move_last src dst (data s) = Ret (v, put_list dst (v :: L dst) (put_list src l (data s)))).
  { apply move_last_ne; [done| |]; [rewrite <- Hl; apply (lh_list _ _ _ Hh src Hs)|apply (lh_list _ _ _ Hh dst Hd)]. }
  destruct (serve_list (if blocking then BRPopLPush src dst else RPopLPush src dst) keys (s, counts) L)
    as (r & s' & E & Hu & Hdd & Ha & He); [done|..].
  - destruct blocking; intros ? [->| ->%list_elem_of_singleton]%elem_of_cons; done.
  - by destruct blocking.
  - destruct blocking; [|done]. pose proof (lh_list _ _ _ Hh src Hs) as Hkl. simpl in *. rewrite Hkl, Hl. by destruct l.
  - assert (Hr : r = Ret v) by (destruct blocking; simpl in Ha; rewrite Hm in Ha; exact Ha). subst r.
    exists (s', counts). assert (Hd' : data s' = put_list dst (v :: L dst) (put_list src l (data s)))
      by (destruct blocking; simpl in Hdd; rewrite Hm in Hdd; exact Hdd).
    split; [|by eapply hold_moved]. unfold call. cbn [fst] in E. cbn [run]. by rewrite E.
Qed.

Lemma run_incrRate keys name value w L :
  lists_hold keys w L → ∃ w', run (incrRate name value) w = (Ret tt, w') ∧ lists_hold keys w' L.
Proof. intros Hh. destruct w as [s counts]. eexists. split; [done|]. destruct Hh. by split. Qed.
End Lists.
