(* ===== verification/MqQueue.v ===== *)
(** * What a queue does for one client

    The operations of [mq] as functions on three lists: the packages that wait, the
    ones that failed and the ones that the consumer has and has not acknowledged.
    Each has its newest package first. *)

From Stdlib Require Import Strings.Byte ZifyNat.
From stdpp Require Import base strings numbers gmap list.
From S2P Require Import Prelude Text Platform Concrete Tables Redis Mq.

(** The payloads and times that JSON keeps: times up to the year 9999. *)
Definition storable (payload : bytes) (at_ : Z) : Prop :=
  plain_text payload ∧ (0 ≤ at_ < 253402300800 * 10 ^ 9)%Z.
Class JsonPackageLaws `{JsonPackage} : Prop := {
  json_package payload at_ : storable payload at_ →
    ∃ text, json_Marshal payload at_ = Ret text ∧ json_Unmarshal text = Ret (payload, at_) ∧ text ≠ []
}.

Section Queue.
Context `{JsonPackage} `{RedisLaws} (q c : bytes).
Implicit Types (w : world) (i f wk : list bytes) (t : bytes).

Definition queue_keys : list bytes := [queueInputKey q; queueFailedKey q; consumerWorkingQueueKey q c].

Lemma input_failed : queueInputKey q ≠ queueFailedKey q.
Proof.
  unfold queueInputKey, queueFailedKey. intros E%(f_equal length). rewrite !length_app in E. simpl in E. lia.
Qed.
Lemma input_working : queueInputKey q ≠ consumerWorkingQueueKey q c.
Proof.
  unfold queueInputKey, consumerWorkingQueueKey, queueWorkingPrefix. intros E%(f_equal length).
  rewrite !length_app in E. simpl in E. lia.
Qed.
Lemma failed_working : queueFailedKey q ≠ consumerWorkingQueueKey q c.
Proof.
  unfold queueFailedKey, consumerWorkingQueueKey, queueWorkingPrefix. rewrite <- !app_assoc. intros E.
  by do 2 apply (inj (app _)) in E.
Qed.

Lemma in_keys : queueInputKey q ∈ queue_keys ∧ queueFailedKey q ∈ queue_keys ∧ consumerWorkingQueueKey q c ∈ queue_keys.
Proof. unfold queue_keys. split_and!; set_solver. Qed.

(** The three lists. *)
Definition view i f wk (key : bytes) : list bytes :=
  if bool_decide (key = queueInputKey q) then i
  else if bool_decide (key = queueFailedKey q) then f
  else if bool_decide (key = consumerWorkingQueueKey q c) then wk else [].
Definition holds w i f wk : Prop := lists_hold queue_keys w (view i f wk).

Lemma view_input i f wk : view i f wk (queueInputKey q) = i.
Proof. unfold view. by rewrite bool_decide_eq_true_2. Qed.
Lemma view_failed i f wk : view i f wk (queueFailedKey q) = f.
Proof.
  unfold view. rewrite bool_decide_eq_false_2 by (intros E; by apply input_failed).
  by rewrite bool_decide_eq_true_2.
Qed.
Lemma view_working i f wk : view i f wk (consumerWorkingQueueKey q c) = wk.
Proof.
  unfold view. rewrite bool_decide_eq_false_2 by (intros E; by apply input_working).
  rewrite bool_decide_eq_false_2 by (intros E; by apply failed_working). by rewrite bool_decide_eq_true_2.
Qed.

(** A state with the lists [L] that agree with a view. *)
Lemma holds_intro w L i f wk :
  lists_hold queue_keys w L → L (queueInputKey q) = i → L (queueFailedKey q) = f →
  L (consumerWorkingQueueKey q c) = wk → holds w i f wk.
Proof.
  intros Hh Hi Hf Hw. eapply lists_hold_ext; [done|]. unfold queue_keys. intros key Hk.
  repeat (apply elem_of_cons in Hk as [->|Hk]); [by rewrite view_input|by rewrite view_failed|by rewrite view_working|].
  by apply elem_of_nil in Hk.
Qed.

Ltac views := pose proof input_failed; pose proof input_working; pose proof failed_working;
  unfold upd; repeat case_bool_decide; cbn [rev app]; rewrite ?view_input, ?view_failed, ?view_working; congruence.

Lemma run_request {R} (cm : cmd R) (v : R) w w' : run (call cm) w = (Ret (Ret v), w') → run (request cm) w = (Ret v, w').
Proof.
  destruct w as [s n]. cbn. destruct (serve cm s) as [[| | |] s1]; simpl; try done. by intros [= -> <-].
Qed.

Lemma run_HasUnacked w i f wk : holds w i f wk →
  ∃ w', run (HasUnacked q c) w = (Ret (negb (bool_decide (wk = []))), w') ∧ holds w' i f wk.
Proof.
  intros Hh. destruct (run_LLen _ _ _ (consumerWorkingQueueKey q c) Hh) as (w' & Hr & Hh'); [apply in_keys|].
  rewrite view_working in Hr. exists w'. split; [|done].
  assert (Hg : run (GetUnackedLength q c) w = (Ret (Z.of_nat (length wk)), w')).
  { unfold GetUnackedLength. rewrite (run_bind _ _ _ _ _ Hr). by destruct w'. }
  unfold HasUnacked. rewrite (run_bind _ _ _ _ _ Hg). destruct w'. by destruct wk.
Qed.

Lemma run_Put w i f wk now payload : holds w i f wk →
  ∃ w', run (Put q now payload) w = (Ret tt, w') ∧ holds w' (getString (mkPackage payload now false) :: i) f wk.
Proof.
  intros Hh. destruct (run_LPush _ _ _ (queueInputKey q) [getString (mkPackage payload now false)] Hh) as (w1 & n & Hr & Hh1);
    [apply in_keys|done|].
  destruct (run_incrRate _ (queueInputRateKey q) 1 _ _ Hh1) as (w2 & Hr2 & Hh2). exists w2. split.
  - unfold Put. erewrite run_bind; [|exact Hr]. erewrite run_bind; [|exact Hr2]. by destruct w2.
  - eapply holds_intro; [exact Hh2|views..].
Qed.

(** Moving the last package of one list to the front of another, counted. *)
Lemma run_moved (blocking : bool) w i f wk src dst l t name :
  holds w i f wk → src ∈ queue_keys → dst ∈ queue_keys → src ≠ dst → view i f wk src = l ++ [t] →
  ∃ w', lists_hold queue_keys w' (upd dst (t :: view i f wk dst) (upd src l (view i f wk))) ∧
    ∀ {B} (k : outcome bytes → client B),
      run (answer ← call (if blocking then BRPopLPush src dst else RPopLPush src dst); _ ← incrRate name 1; k answer) w
      = run (k (Ret t)) w'.
Proof.
  intros Hh Hs Hd Hne Hl. destruct (run_move blocking _ _ _ src dst l t Hh Hs Hd Hne Hl) as (w1 & Hr & Hh1).
  destruct (run_incrRate _ name 1 _ _ Hh1) as (w2 & Hr2 & Hh2). exists w2. split; [done|]. intros B k.
  erewrite run_bind; [|exact Hr]. by erewrite run_bind; [|exact Hr2].
Qed.

Lemma run_Get w i f t : holds w (i ++ [t]) f [] →
  ∃ w', run (Get q c) w = (unmarshalPackage t, w') ∧ holds w' i f [t].
Proof.
  intros Hh. destruct (run_HasUnacked _ _ _ _ Hh) as (w1 & Hu & Hh1).
  destruct (run_moved true w1 _ _ _ (queueInputKey q) (consumerWorkingQueueKey q c) i t (consumerWorkingRateKey q c) Hh1)
    as (w2 & Hh2 & Hr); [apply in_keys|apply in_keys|apply input_working|apply view_input|].
  exists w2. split.
  - unfold Get. rewrite (run_bind _ _ _ _ _ Hu).
    etransitivity; [exact (Hr _ parseRedisAnswer)|]. by destruct w2.
  - eapply holds_intro; [exact Hh2|views..].
Qed.

Lemma run_ackPackage w i f wk t : holds w i f (wk ++ [t]) →
  ∃ w', run (ackPackage q c) w = (Ret tt, w') ∧ holds w' i f wk.
Proof.
  intros Hh. destruct (run_RPop _ _ _ (consumerWorkingQueueKey q c) wk t Hh) as (w1 & Hr & Hh1);
    [apply in_keys|apply view_working|]. exists w1. split.
  - unfold ackPackage. erewrite run_bind; [|by apply run_request]. by destruct w1.
  - eapply holds_intro; [exact Hh1|views..].
Qed.

(** A package that is given back waits again, behind the others. *)
Lemma run_requeuePackage w i f wk t : holds w i f (wk ++ [t]) →
  ∃ w', run (requeuePackage q c) w = (Ret tt, w') ∧ holds w' (t :: i) f wk.
Proof.
  intros Hh.
  destruct (run_moved false w _ _ _ (consumerWorkingQueueKey q c) (queueInputKey q) wk t (queueInputRateKey q) Hh)
    as (w2 & Hh2 & Hr); [apply in_keys|apply in_keys|intros E; by apply input_working|apply view_working|].
  exists w2. split; [etransitivity; [exact (Hr _ (λ answer, Done (_ ← answer; Ret tt)))|]; by destruct w2|].
  eapply holds_intro; [exact Hh2|views..].
Qed.

Lemma run_failPackage w i f wk t : holds w i f (wk ++ [t]) →
  ∃ w', run (failPackage q c) w = (Ret tt, w') ∧ holds w' i (t :: f) wk.
Proof.
  intros Hh. destruct (run_move false _ _ _ (consumerWorkingQueueKey q c) (queueFailedKey q) wk t Hh) as (w1 & Hr & Hh1);
    [apply in_keys|apply in_keys|intros E; by apply failed_working|apply view_working|]. exists w1. split.
  - unfold failPackage. erewrite run_bind; [|by apply run_request]. by destruct w1.
  - eapply holds_intro; [exact Hh1|views..].
Qed.

(** *** Giving all packages back *)

Definition parses t : Prop := ∃ p, unmarshalPackage t = Ret p.

Lemma run_GetUnacked w i f wk t p : holds w i f (wk ++ [t]) → unmarshalPackage t = Ret p →
  ∃ w', run (GetUnacked q c) w = (Ret p, w') ∧ holds w' i f (wk ++ [t]).
Proof.
  intros Hh Hp. destruct (run_HasUnacked _ _ _ _ Hh) as (w1 & Hu & Hh1).
  destruct (run_LIndex _ _ _ (consumerWorkingQueueKey q c) wk t Hh1) as (w2 & Hr & Hh2); [apply in_keys|apply view_working|].
  exists w2. split; [|done]. unfold GetUnacked. rewrite (run_bind _ _ _ _ _ Hu), bool_decide_eq_false_2 by by destruct wk.
  etransitivity; [exact (run_bind _ parseRedisAnswer _ _ _ Hr)|]. unfold parseRedisAnswer. destruct w2. simpl. by rewrite Hp.
Qed.

(** C30: [RequeueWorking] ends after a round for each package that the consumer has
    not acknowledged; they all wait again, behind every package that waited and in
    the order in which the consumer got them, and the consumer has none. *)
Theorem RequeueWorking_spec fuel w i f wk :
  holds w i f wk → Forall parses wk → length wk < fuel →
  ∃ w', run (RequeueWorking fuel q c) w = (Ret tt, w') ∧ holds w' (wk ++ i) f [].
Proof.
  revert w i wk. induction fuel as [|fuel IH]; intros w i wk Hh Hp Hf; [lia|].
  destruct (run_HasUnacked _ _ _ _ Hh) as (w1 & Hu & Hh1).
  cbn [RequeueWorking]. rewrite (run_bind _ _ _ _ _ Hu).
  destruct wk as [|t wk _] using rev_ind; [exists w1; by destruct w1|].
  rewrite bool_decide_eq_false_2 by by destruct wk. cbn [negb].
  apply Forall_app in Hp as [Hp Ht]. apply Forall_singleton in Ht as [p Ht].
  destruct (run_GetUnacked _ _ _ _ _ p Hh1 Ht) as (w2 & Hg & Hh2). rewrite (run_bind _ _ _ _ _ Hg).
  destruct (run_moved false w2 _ _ _ (consumerWorkingQueueKey q c) (queueInputKey q) wk t (queueInputRateKey q) Hh2)
    as (w3 & Hh3 & Hr); [apply in_keys|apply in_keys|intros E; by apply input_working|apply view_working|].
  destruct (IH w3 (t :: i) wk) as (w4 & Hr4 & Hh4).
  - eapply holds_intro; [exact Hh3|views..].
  - done.
  - rewrite length_app in Hf. simpl in Hf. lia.
  - exists w4. rewrite <- app_assoc. split; [|done]. etransitivity; [exact (Hr _ (λ _, RequeueWorking fuel q c))|done].
Qed.

(** *** First in, first out *)

Definition carries t (p : Package) : Prop := unmarshalPackage t = Ret p.

(** A consumer that takes [n] packages and acknowledges each. *)
Fixpoint take_all (n : nat) : client (list bytes) :=
  match n with
  | O => mret []
  | S n =>
      p ← Get q c;
      _ ← Ack q c None;
      payloads ← take_all n;
      mret (pk_Payload p :: payloads)
  end.

Lemma run_take_all w f ts ps : holds w (rev ts) f [] → Forall2 carries ts ps →
  ∃ w', run (take_all (length ts)) w = (Ret (pk_Payload <$> ps), w') ∧ holds w' [] f [].
Proof.
  intros Hh Hc. revert w Hh. induction Hc as [|t p ts ps Ht _ IH]; intros w Hh; [exists w; by destruct w|].
  simpl in Hh. destruct (run_Get _ _ _ _ Hh) as (w1 & Hg & Hh1). rewrite Ht in Hg.
  destruct (run_ackPackage w1 (rev ts) f [] t Hh1) as (w2 & Ha & Hh2). destruct (IH w2 Hh2) as (w3 & Hr & Hh3).
  exists w3. split; [|done]. cbn [length take_all]. rewrite (run_bind _ _ _ _ _ Hg). unfold Ack at 1.
  rewrite (run_bind _ _ _ _ _ Ha), (run_bind _ _ _ _ _ Hr). by destruct w3.
Qed.

Definition put_all (items : list (bytes * Z)) : client unit := cfor items (λ item, Put q item.2 item.1).

Lemma run_put_all `{!JsonPackageLaws} items w i f : holds w i f [] → Forall (λ item, storable item.1 item.2) items →
  ∃ w' ts, run (put_all items) w = (Ret tt, w') ∧ holds w' (rev ts ++ i) f [] ∧
    Forall2 carries ts ((λ item, mkPackage item.1 item.2 false) <$> items).
Proof.
  revert w i. induction items as [|[p t] items IH]; intros w i Hh Hs.
  { exists w, []. split; [by destruct w|]. split; [done|constructor]. }
  apply Forall_cons in Hs as [(text & Hm & Hu & _)%json_package Hs].
  destruct (run_Put w i f [] t p Hh) as (w1 & Hp & Hh1).
  destruct (IH w1 _ Hh1 Hs) as (w2 & ts & Hr & Hh2 & Hc). exists w2, (text :: ts). split; [|split].
  - unfold put_all. cbn [cfor fst snd]. by rewrite (run_bind _ _ _ _ _ Hp).
  - simpl. rewrite <- app_assoc. unfold getString in Hh2. simpl in *. rewrite Hm in Hh2. exact Hh2.
  - constructor; [|done]. unfold carries, unmarshalPackage. by rewrite Hu.
Qed.

(** C29: packages arrive in the order they were put in: a consumer that takes and
    acknowledges gets the packages that waited and then the new ones, each once,
    with their payloads as they were, and then nothing waits. *)
Theorem queue_delivers `{!JsonPackageLaws} w f ts ps items :
  holds w (rev ts) f [] → Forall2 carries ts ps → Forall (λ item, storable item.1 item.2) items →
  ∃ w', run (_ ← put_all items; take_all (length ts + length items)) w = (Ret ((pk_Payload <$> ps) ++ items.*1), w') ∧
    holds w' [] f [].
Proof.
  intros Hh Hc Hs. destruct (run_put_all items w (rev ts) f Hh Hs) as (w1 & ts' & Hp & Hh1 & Hc').
  rewrite <- rev_app_distr in Hh1. destruct (run_take_all w1 f (ts ++ ts') _ Hh1 (Forall2_app Hc Hc')) as (w2 & Hr & Hh2).
  exists w2. split; [|done]. rewrite (run_bind _ _ _ _ _ Hp).
  rewrite length_app, (Forall2_length _ _ _ Hc'), length_fmap in Hr. rewrite Hr. by rewrite fmap_app, <- list_fmap_compose.
Qed.

(** *** Many packages at once *)

(** [n] packages are asked for, the oldest ones [l] are there. *)
Definition taken (n : nat) (rest l : list bytes) : Prop := length l = n ∨ rest = [] ∧ length l ≤ n.

Lemma run_move_none w f wk : holds w [] f wk →
  ∃ w', run (call (RPopLPush (queueInputKey q) (consumerWorkingQueueKey q c))) w = (Ret (Err redis_Nil), w') ∧ holds w' [] f wk.
Proof.
  intros Hh. destruct w as [s n]. pose proof (lh_list _ _ _ Hh _ (proj1 in_keys)) as Hi.
  pose proof (lh_list _ _ _ Hh _ (proj2 (proj2 in_keys))) as Hw. rewrite view_input in Hi. simpl in Hi, Hw.
  destruct (serve_list (RPopLPush (queueInputKey q) (consumerWorkingQueueKey q c)) queue_keys (s, n) _ Hh)
    as (r & s' & E & Hu & Hd & Ha & He); [|done..|].
  { simpl. intros ? [->| ->%list_elem_of_singleton]%elem_of_cons; apply in_keys. }
  simpl in Ha, Hd, E. rewrite (move_last_empty _ _ _ _ Hi Hw) in Ha, Hd. simpl in Ha. subst r.
  exists (s', n). simpl. rewrite E. split; [done|]. split; [done| |done]. intros key Hk. simpl. rewrite Hd.
  by apply (lh_list _ _ _ Hh).
Qed.

Lemma run_pops n rest l w f wk : holds w (rest ++ l) f wk → taken n rest l →
  ∃ w', run (pipeline (repeat (RPopLPush (queueInputKey q) (consumerWorkingQueueKey q c)) n)) w
      = (Ret ((Ret <$> rev l) ++ repeat (Err redis_Nil) (n - length l)), w') ∧ holds w' rest f (l ++ wk).
Proof.
  revert l w wk. induction n as [|n IH]; intros l w wk Hh Hn.
  { assert (l = []) as -> by (apply length_zero_iff_nil; destruct Hn as [?|[]]; lia).
    rewrite app_nil_r in Hh. exists w. by destruct w. }
  destruct l as [|t l _] using rev_ind.
  - destruct Hn as [|[-> _]]; [done|]. destruct (run_move_none _ _ _ Hh) as (w1 & Hr & Hh1).
    destruct (IH [] w1 wk Hh1) as (w2 & Hr2 & Hh2); [by right; split; [|simpl; lia]|].
    exists w2. split; [|done]. cbn [repeat pipeline]. rewrite (run_bind _ _ _ _ _ Hr), (run_bind _ _ _ _ _ Hr2).
    destruct w2. by rewrite !Nat.sub_0_r.
  - rewrite app_assoc in Hh.
    destruct (run_move false _ _ _ (queueInputKey q) (consumerWorkingQueueKey q c) (rest ++ l) t Hh) as (w1 & Hr & Hh1);
      [apply in_keys|apply in_keys|apply input_working|apply view_input|].
    destruct (IH l w1 (t :: wk)) as (w2 & Hr2 & Hh2).
    + eapply holds_intro; [exact Hh1|views..].
    + unfold taken in *. rewrite length_app in Hn. simpl in Hn. destruct Hn as [?|[-> ?]]; [left|right; split; [done|]]; lia.
    + exists w2. rewrite <- app_assoc. split; [|done]. cbn [repeat pipeline].
      rewrite (run_bind _ _ _ _ _ Hr), (run_bind _ _ _ _ _ Hr2). destruct w2.
      rewrite rev_app_distr, length_app, Nat.add_1_r. done.
Qed.

Lemma first_error_pops (l : list bytes) n :
  first_error ((Ret <$> l) ++ repeat (Err redis_Nil) n) = None ∨
  first_error ((Ret <$> l) ++ repeat (Err redis_Nil) n) = Some redis_Nil.
Proof. induction l as [|t l IH]; [|done]. destruct n; [by left|by right]. Qed.

Lemma parse_pops ts ps n acc : Forall2 carries ts ps → Forall (λ t, t ≠ []) ts →
  mfor ((Ret <$> ts) ++ repeat (Err redis_Nil) n) (λ (collection : list Package) answer,
    if bool_decide (value_or [] answer = []) then Ret collection
    else s ← answer; p ← unmarshalPackage s; Ret (collection ++ [p])) acc = Ret (acc ++ ps).
Proof.
  intros Hc. revert acc. induction Hc as [|t p ts ps Ht _ IH]; intros acc Hn.
  - rewrite app_nil_r. simpl. induction n as [|n IH]; [done|]. exact IH.
  - apply Forall_cons in Hn as [Hne Hn]. simpl. rewrite bool_decide_eq_false_2 by done.
    unfold carries in Ht. rewrite Ht. simpl. rewrite IH by done. by rewrite <- app_assoc.
Qed.

(** [MultiGet] takes the oldest packages, at most as many as were asked for. *)
Lemma run_MultiGet n rest ts ps w f : holds w (rest ++ rev ts) f [] → taken n rest ts → ts ≠ [] →
  Forall2 carries ts ps → Forall (λ t, t ≠ []) ts →
  ∃ w', run (MultiGet q c (Z.of_nat n)) w = (Ret ps, w') ∧ holds w' rest f (rev ts).
Proof.
  intros Hh Hn Hne Hc Hts. destruct (run_HasUnacked _ _ _ _ Hh) as (w1 & Hu & Hh1).
  destruct ts as [|t ts]; [done|]. simpl in Hh1. rewrite app_assoc in Hh1.
  destruct n as [|n]; [destruct Hn as [?|[]]; simpl in *; lia|].
  destruct (run_move true _ _ _ (queueInputKey q) (consumerWorkingQueueKey q c) (rest ++ rev ts) t Hh1) as (w2 & Hr & Hh2);
    [apply in_keys|apply in_keys|apply input_working|apply view_input|].
  destruct (run_pops n rest (rev ts) w2 f [t]) as (w3 & Hr3 & Hh3).
  { eapply holds_intro; [exact Hh2|views..]. }
  { unfold taken in *. rewrite length_rev. simpl in Hn. destruct Hn as [?|[-> ?]]; [left|right; split; [done|]]; lia. }
  destruct (run_incrRate _ (consumerWorkingRateKey q c) (Z.of_nat (S n)) _ _ Hh3) as (w4 & Hr4 & Hh4).
  exists w4. split; [|done]. unfold MultiGet. rewrite (run_bind _ _ _ _ _ Hu). cbn [bool_decide negb].
  replace (Z.to_nat (Z.of_nat (S n) - 1)) with n by lia. rewrite rev_involutive in Hr3.
  set (reqs := (Ret <$> t :: ts) ++ repeat (Err redis_Nil) (n - length (rev ts))).
  assert (Hp : run (pipeline (BRPopLPush (queueInputKey q) (consumerWorkingQueueKey q c)
                :: repeat (RPopLPush (queueInputKey q) (consumerWorkingQueueKey q c)) n)) w1 = (Ret reqs, w3)).
  { cbn [pipeline]. rewrite (run_bind _ _ _ _ _ Hr), (run_bind _ _ _ _ _ Hr3). by destruct w3. }
  rewrite (bool_decide_eq_true_2 (@nil bytes = [])) by done. cbn [negb]. rewrite (run_bind _ _ _ _ _ Hp).
  assert (Hgo : match first_error reqs with Some e => bool_decide (e = redis_Nil) | None => true end = true).
  { destruct (first_error_pops (t :: ts) (n - length (rev ts))) as [E|E]; unfold reqs; by rewrite E. }
  destruct (first_error reqs); [rewrite Hgo|]; unfold reqs; rewrite (parse_pops _ _ _ [] Hc Hts);
    (rewrite (run_bind (Done _) _ ps w3 w3) by (by destruct w3)); rewrite (run_bind _ _ _ _ _ Hr4); by destruct w4.
Qed.

(** Acknowledging packages in turn, of which none was acknowledged before. *)
Lemma run_ack_each ps before after ts w i f wk :
  holds w i f (wk ++ rev ts) → length ts = length ps → Forall (λ p, pk_Acked p = false) ps →
  ∃ w', run (ack_each q c (seq (length before) (length ps)) (before ++ ps ++ after)) w
      = (Ret (before ++ (acked <$> ps) ++ after, Ret tt), w') ∧ holds w' i f wk.
Proof.
  revert before ts w. induction ps as [|p ps IH]; intros before ts w Hh Hl Hp.
  { destruct ts; [|done]. rewrite app_nil_r in Hh. exists w. by destruct w. }
  apply Forall_cons in Hp as [Ha Hp]. destruct ts as [|t ts]; [done|]. simpl in Hh. rewrite app_assoc in Hh.
  destruct (run_RPop _ _ _ (consumerWorkingQueueKey q c) (wk ++ rev ts) t Hh) as (w1 & Hr & Hh1);
    [apply in_keys|apply view_working|].
  destruct (IH (before ++ [acked p]) ts w1) as (w2 & Hr2 & Hh2); [|by injection Hl|done|].
  { eapply holds_intro; [exact Hh1|views..]. }
  exists w2. split; [|done]. cbn [length seq ack_each].
  change ((p :: ps) ++ after) with (p :: (ps ++ after)). rewrite index_nat, list_lookup_middle by done.
  rewrite (run_bind (Done _) _ p w w) by (by destruct w). rewrite Ha, (run_bind _ _ _ _ _ Hr).
  replace (<[length before := acked p]> (before ++ p :: (ps ++ after))) with ((before ++ [acked p]) ++ ps ++ after).
  2:{ rewrite insert_app_r_alt, Nat.sub_diag, <- app_assoc by done. done. }
  rewrite length_app, Nat.add_1_r in Hr2. rewrite Hr2. by rewrite <- app_assoc.
Qed.

(** [MultiGet] takes the oldest packages in their order, and [MultiAck] of one
    of them takes it and the ones before it off the queue, marks these, and leaves
    the ones after it with the consumer. *)
Theorem MultiGet_MultiAck n j rest ts ps w f :
  holds w (rest ++ rev ts) f [] → taken n rest ts → Forall2 carries ts ps → Forall (λ t, t ≠ []) ts → j < length ts →
  ∃ w', run (collection ← MultiGet q c (Z.of_nat n); MultiAck q c (Some (collection, j))) w
      = (Ret ((acked <$> take (S j) ps) ++ drop (S j) ps, Ret tt), w') ∧ holds w' rest f (rev (drop (S j) ts)).
Proof.
  intros Hh Hn Hc Hts Hj. destruct (run_MultiGet n rest ts ps w f Hh Hn) as (w1 & Hr & Hh1); [by destruct ts; [simpl in Hj; lia|]|done..|].
  pose proof (Forall2_length _ _ _ Hc) as Hl.
  rewrite <- (take_drop (S j) ts), rev_app_distr in Hh1.
  destruct (run_ack_each (take (S j) ps) [] (drop (S j) ps) (take (S j) ts) w1 rest f (rev (drop (S j) ts)) Hh1) as (w2 & Ha & Hh2).
  - rewrite !length_take. lia.
  - apply Forall_take. clear -Hc. induction Hc as [|t p ts ps Ht _ IH]; constructor; [|done].
    unfold carries, unmarshalPackage in Ht. go_inv Ht. destruct v. by injection Ht as <-.
  - exists w2. split; [|done]. rewrite (run_bind _ _ _ _ _ Hr). unfold MultiAck.
    rewrite length_take_le, take_drop in Ha by lia. exact Ha.
Qed.
End Queue.

(** ** Instances *)

Module MqDemo.
Import MapServer.

(** A text for a package that begins with a mark. *)
Definition package_gob : Gob (bytes * Z) := codec_gob (codec_prod codec_bytes codec_Z).
#[export] Instance demo_json : JsonPackage := {
  json_Marshal p t := text ← @gob_Encode _ package_gob (p, t); Ret ("{"%byte :: text);
  json_Unmarshal s := match s with [] => Err (ELib "json") | _ :: text => @gob_Decode _ package_gob text end
}.
#[export] Instance demo_json_laws : JsonPackageLaws.
Proof.
  split. intros p t _. pose proof (codec_gob_laws (codec_prod codec_bytes codec_Z)) as Hl.
  destruct (@gob_total _ package_gob Hl (p, t)) as [text E]. exists ("{"%byte :: text).
  split; [|split; [|done]]; [unfold json_Marshal, demo_json; by rewrite E|]. by apply (@gob_roundtrip _ package_gob Hl _ text).
Qed.

Definition empty_redis : map_redis := (∅, ∅).
Definition jobs : bytes := str "jobs".
Definition worker : bytes := str "w1".
Definition start : world := (empty_redis, []).
Definition text_of (payload : string) : bytes := getString (mkPackage (str payload) 0 false).
(** Three packages wait. *)
Definition three : world := (run (put_all jobs [(str "a", 0%Z); (str "b", 0%Z); (str "c", 0%Z)]) start).2.
Definition demo_texts : list bytes := text_of <$> ["a"; "b"; "c"]%string.
Definition demo_packages : list Package := (λ p, mkPackage (str p) 0 false) <$> ["a"; "b"; "c"]%string.

Lemma start_holds : holds jobs worker start [] [] [].
Proof.
  split; [exact I| |].
  - intros key Hk. unfold queue_keys in Hk. simpl. unfold list_at. rewrite lookup_empty.
    repeat (apply elem_of_cons in Hk as [->|Hk]; [reflexivity|]). by apply elem_of_nil in Hk.
  - intros key _. simpl. rewrite dom_empty_L. by intros ?%not_elem_of_empty.
Qed.

Lemma three_holds : holds jobs worker three (rev demo_texts) [] [].
Proof.
  split; [exact I| |].
  - intros key Hk. unfold queue_keys in Hk.
    repeat (apply elem_of_cons in Hk as [->|Hk]; [vm_compute; reflexivity|]). by apply elem_of_nil in Hk.
  - intros key _ Hk. change (key ∈ dom three.1.2) in Hk. assert (three.1.2 = ∅) as E by reflexivity.
    rewrite E, dom_empty_L in Hk. by apply not_elem_of_empty in Hk.
Qed.

Lemma demo_carries : Forall2 carries demo_texts demo_packages.
Proof. repeat constructor. Qed.

Lemma queue_delivers_witness :
  ∃ w', run (_ ← put_all jobs [(str "d", 5%Z)]; take_all jobs worker 4) three
      = (Ret [str "a"; str "b"; str "c"; str "d"], w') ∧ holds jobs worker w' [] [] [].
Proof.
  apply (queue_delivers jobs worker three [] demo_texts demo_packages [(str "d", 5%Z)]).
  - apply three_holds.
  - apply demo_carries.
  - apply Forall_singleton. split; [repeat constructor|cbn; lia].
Defined.

Lemma MultiGet_MultiAck_witness :
  ∃ w', run (collection ← MultiGet jobs worker 2; MultiAck jobs worker (Some (collection, 0))) three
      = (Ret ([mkPackage (str "a") 0 true; mkPackage (str "b") 0 false], Ret tt), w') ∧
    holds jobs worker w' [text_of "c"] [] [text_of "b"].
Proof.
  apply (MultiGet_MultiAck jobs worker 2 0 [text_of "c"] [text_of "a"; text_of "b"]
    [mkPackage (str "a") 0 false; mkPackage (str "b") 0 false] three []).
  - apply three_holds.
  - by left.
  - repeat constructor.
  - apply Forall_cons. split; [discriminate|]. apply Forall_singleton. discriminate.
  - simpl. lia.
Defined.

(** A consumer that stopped with two packages. *)
Definition stopped : world := (run (MultiGet jobs worker 2) three).2.
Lemma stopped_holds : holds jobs worker stopped [text_of "c"] [] [text_of "b"; text_of "a"].
Proof.
  split; [exact I| |].
  - intros key Hk. unfold queue_keys in Hk.
    repeat (apply elem_of_cons in Hk as [->|Hk]; [vm_compute; reflexivity|]). by apply elem_of_nil in Hk.
  - intros key _ Hk. change (key ∈ dom stopped.1.2) in Hk. assert (stopped.1.2 = ∅) as E by reflexivity.
    rewrite E, dom_empty_L in Hk. by apply not_elem_of_empty in Hk.
Qed.

Lemma RequeueWorking_spec_witness :
  ∃ w', run (RequeueWorking 3 jobs worker) stopped = (Ret tt, w') ∧
    holds jobs worker w' [text_of "b"; text_of "a"; text_of "c"] [] [].
Proof.
  apply (RequeueWorking_spec jobs worker 3 stopped [text_of "c"] [] [text_of "b"; text_of "a"]).
  - apply stopped_holds.
  - apply Forall_cons. split; [by eexists|]. apply Forall_singleton. by eexists.
  - simpl. lia.
Defined.

(** *** What goes wrong *)

(** The first package of a collection can be neither given back nor failed: the
    one before it is looked up. *)
Example first_reject_panics :
  (run (collection ← MultiGet jobs worker 2; Requeue jobs worker (Some (collection, 0))) three).1 = Panic PIndex.
Proof. reflexivity. Qed.

(** A package that was failed is not marked: [MultiAck] of a later one counts it
    again, and takes one package too many off the queue.  Here the second of three
    is failed, the third acknowledged; the fourth is gone. *)
Definition four : world := (run (put_all jobs [(str "d", 0%Z)]) three).2.
Example failed_is_acked_again :
  let w := (run (collection ← MultiGet jobs worker 4;
                 p ← MultiAck jobs worker (Some (collection, 0));
                 _ ← Fail jobs worker (Some (p.1, 1));
                 MultiAck jobs worker (Some (p.1, 2))) four).2 in
  list_at w.1.1 (queueInputKey jobs) = Ret [] ∧ list_at w.1.1 (consumerWorkingQueueKey jobs worker) = Ret [] ∧
  list_at w.1.1 (queueFailedKey jobs) = Ret [text_of "b"].
Proof. split_and!; reflexivity. Qed.

(** A queue that is named like the failed packages of another shares its list. *)
Example queue_of_failed : queueInputKey (str "jobs::failed") = queueFailedKey jobs.
Proof. reflexivity. Qed.

(** A queue with the name of the set of all queues takes no packages. *)
Example queue_named_queues :
  (run (_ ← CreateQueue (str "queues"); Put (str "queues") 0 (str "a")) start).1 = Err err_wrongtype.
Proof. reflexivity. Qed.

(** The heartbeat of a consumer can be the working list of another. *)
Example heartbeat_is_a_list :
  let other := str "w1::heartbeat" in
  let w := (run (_ ← Get jobs other; AddConsumer jobs worker) three).2 in
  consumerHeartbeatKey jobs worker = consumerWorkingQueueKey jobs other ∧
  list_at w.1.1 (consumerWorkingQueueKey jobs other) = Ret [] ∧
  list_at w.1.1 (queueInputKey jobs) = Ret [text_of "c"; text_of "b"].
Proof. split_and!; reflexivity. Qed.

(** A text that is no package stays with the consumer: it gets no more, and cannot
    give it back. *)
Example unreadable_blocks :
  let w := (run (_ ← request (LPush (queueInputKey jobs) [[]]); mret tt) start).2 in
  let w := (run (Get jobs worker) w).2 in
  (run (Get jobs worker) w).1 = Err err_unacked ∧
  (run (RequeueWorking 2 jobs worker) w).1 = Err (ELib "json").
Proof. split; reflexivity. Qed.
End MqDemo.
