(* ===== verification/MqSafe.v ===== *)
(** * Clients of a queue at the same time

    Producers and consumers of one queue run at the same time, each its own
    program of operations; the server answers one command after the other.  A
    client can stop at any point.  No package is lost, and each moves only the way
    the operation is for that moves it. *)

From Stdlib Require Import Strings.Byte ZifyNat.
From stdpp Require Import base strings numbers gmap list relations.
From S2P Require Import Prelude Text Platform Concrete Redis Mq MqQueue.

(** ** Which commands keep the packages

    [ls] are the lists of the queue, [sets] its sets and [strings] the keys of its
    heartbeats. *)
Definition allowed (ls sets strings : list bytes) {R} (c : cmd R) : Prop :=
  match c with
  | LPush key _ | RPop key | LLen key | LIndex key _ => key ∈ ls
  | RPopLPush src dst | BRPopLPush src dst => src ∈ ls ∧ dst ∈ ls ∧ src ≠ dst
  | SAdd key _ | SRem key _ | SMembers key | SIsMember key _ => key ∈ sets
  | Del key | RGet key | RSet key _ _ => key ∈ strings
  | _ => False
  end.

(** The packages that a command puts into the queue, and the ones it takes off. *)
Definition pushed {R} (c : cmd R) : list bytes :=
  match c with LPush _ values => values | _ => [] end.
Definition popped {R} (c : cmd R) : outcome R → list bytes :=
  match c in cmd R return outcome R → list bytes with
  | RPop _ => λ r, match r with Ret v => [v] | _ => [] end
  | _ => λ _, []
  end.

Section Held.
Context `{RedisLaws}.

(** ** What is held *)

Context (ls sets strings : list bytes) (Hsep : NoDup (ls ++ sets ++ strings)).

Definition held (keys : list bytes) (m : keyspace) : list bytes :=
  mjoin ((λ key, value_or [] (list_at m key)) <$> keys).

Lemma held_cons key keys m : held (key :: keys) m = value_or [] (list_at m key) ++ held keys m.
Proof. done. Qed.

Lemma held_other keys key l m : key ∉ keys → held keys (put_list key l m) = held keys m.
Proof.
  intros Hk. unfold held. f_equal. apply list_fmap_ext. intros i key' Hi. rewrite list_at_put_ne; [done|].
  intros ->. apply Hk. by eapply list_elem_of_lookup_2.
Qed.

Lemma held_put keys key l l' m :
  NoDup keys → key ∈ keys → list_at m key = Ret l → held keys (put_list key l' m) ++ l ≡ₚ held keys m ++ l'.
Proof.
  intros Hnd Hk Hl. induction Hnd as [|k keys Hni Hnd IH]; [by apply elem_of_nil in Hk|].
  rewrite !held_cons.
  destruct (decide (k = key)) as [->|Hne].
  - rewrite list_at_put, Hl, held_other by done. simpl. solve_Permutation.
  - rewrite list_at_put_ne by done. apply elem_of_cons in Hk as [->|Hk]; [done|].
    rewrite <- !app_assoc. by rewrite (IH Hk).
Qed.

Record proper (m : keyspace) (expires : gset bytes) : Prop := mkProper {
  pr_lists key : key ∈ ls → ∃ l, list_at m key = Ret l;
  pr_sets key : key ∈ sets → ∃ X, set_at m key = Ret X;
  pr_strings key : key ∈ strings → m !! key = None;
  pr_lasting key : key ∈ ls ++ sets → key ∉ expires
}.

Lemma sep_sets key key' : key ∈ ls → key' ∈ sets → key' ≠ key.
Proof. intros H1 H2 ->. apply NoDup_app in Hsep as (_ & Hd & _). apply (Hd key H1). apply elem_of_app. by left. Qed.
Lemma sep_strings key key' : key ∈ ls ++ sets → key' ∈ strings → key' ≠ key.
Proof. intros H1 H2 ->. rewrite app_assoc in Hsep. apply NoDup_app in Hsep as (_ & Hd & _). by apply (Hd key H1). Qed.

Lemma put_list_ne key key' l m : key ≠ key' → put_list key l m !! key' = m !! key'.
Proof. intros Hne. unfold put_list. case_bool_decide; [by apply lookup_delete_ne|by apply lookup_insert_ne]. Qed.
Lemma put_set_ne key key' X m : key ≠ key' → put_set key X m !! key' = m !! key'.
Proof. intros Hne. unfold put_set. case_bool_decide; [by apply lookup_delete_ne|by apply lookup_insert_ne]. Qed.

Lemma proper_put_list m ex key l : proper m ex → key ∈ ls → proper (put_list key l m) ex.
Proof.
  intros [Hl Hs Ht He] Hk. split; [| | |done].
  - intros key' Hk'. destruct (decide (key = key')) as [->|]; [exists l; apply list_at_put|].
    rewrite list_at_put_ne by done. by apply Hl.
  - intros key' Hk'. unfold set_at. rewrite put_list_ne; [by apply Hs|]. intros ->. by eapply sep_sets.
  - intros key' Hk'. rewrite put_list_ne; [by apply Ht|]. intros ->. eapply sep_strings; [|done..]. apply elem_of_app. by left.
Qed.

Lemma proper_put_set m ex key X : proper m ex → key ∈ sets → proper (put_set key X m) ex.
Proof.
  intros [Hl Hs Ht He] Hk. split; [| | |done].
  - intros key' Hk'. rewrite list_at_put_set; [by apply Hl|]. intros ->. by eapply sep_sets.
  - intros key' Hk'. destruct (decide (key = key')) as [->|].
    + exists X. unfold set_at, put_set. case_bool_decide as E; [by rewrite lookup_delete_eq, E|by rewrite lookup_insert_eq].
    + unfold set_at. rewrite put_set_ne by done. by apply Hs.
  - intros key' Hk'. rewrite put_set_ne; [by apply Ht|]. intros ->. eapply sep_strings; [|done..]. apply elem_of_app. by right.
Qed.

Lemma last_but_last (l : list bytes) v : last l = Some v → l = but_last l ++ [v].
Proof.
  destruct l as [|x l _] using rev_ind; [done|]. rewrite last_snoc, but_last_snoc. by intros [= ->].
Qed.

(** What a move of a package does. *)
Lemma move_last_held m src dst : NoDup ls → src ∈ ls → dst ∈ ls → src ≠ dst →
  (∃ l, list_at m src = Ret l) → (∃ l, list_at m dst = Ret l) →
  move_last src dst m = Err redis_Nil ∨
  ∃ v l0 l, move_last src dst m = Ret (v, put_list dst (v :: l) (put_list src l0 m)) ∧
    held ls (put_list dst (v :: l) (put_list src l0 m)) ≡ₚ held ls m.
Proof.
  intros Hnd Hs Hd Hne [l Hl] [l' Hl']. destruct (last l) as [v|] eqn:Ev.
  - right. apply last_but_last in Ev. exists v, (but_last l), l'. split; [apply move_last_ne; [done|by rewrite Hl, <- Ev|done]|].
    assert (H1 : held ls (put_list src (but_last l) m) ++ [v] ≡ₚ held ls m).
    { pose proof (held_put ls src l (but_last l) m Hnd Hs Hl) as Hp. rewrite Ev in Hp at 2.
      apply (Permutation_app_inv_r (but_last l)). rewrite <- Hp. solve_Permutation. }
    pose proof (held_put ls dst l' (v :: l') (put_list src (but_last l) m) Hnd Hd) as Hp.
    rewrite list_at_put_ne in Hp by done. specialize (Hp Hl').
    apply (Permutation_app_inv_r l'). rewrite Hp, <- H1. solve_Permutation.
  - left. destruct l as [|x l _] using rev_ind; [|by rewrite last_snoc in Ev]. by eapply move_last_empty.
Qed.

Lemma held_set key X m : key ∈ sets → held ls (put_set key X m) = held ls m.
Proof.
  intros Hk. unfold held. f_equal. apply list_fmap_ext. intros i key' Hi. rewrite list_at_put_set; [done|].
  intros ->. eapply sep_sets; [by eapply list_elem_of_lookup_2|done|done].
Qed.

Lemma pushed_held m ex key values :
  proper m ex → key ∈ ls → proper (server_effect (LPush key values) m) ex ∧
    held ls (server_effect (LPush key values) m) ≡ₚ held ls m ++ values.
Proof.
  intros Hp Hk. assert (Hnd : NoDup ls) by by apply NoDup_app in Hsep as [? _].
  destruct (pr_lists _ _ Hp _ Hk) as [l Hl]. cbn [server_effect].
  case_bool_decide as E; [subst values; by rewrite app_nil_r|]. rewrite Hl. split; [by apply proper_put_list|].
  pose proof (held_put ls key l (rev values ++ l) _ Hnd Hk Hl) as Hh. apply (Permutation_app_inv_r l).
  by rewrite Hh, <- app_assoc, <- Permutation_rev.
Qed.

Lemma popped_held m ex key r :
  proper m ex → key ∈ ls → answered (RPop key) m r → proper (server_effect (RPop key) m) ex ∧
    held ls (server_effect (RPop key) m) ++ popped (RPop key) r ≡ₚ held ls m.
Proof.
  intros Hp Hk. assert (Hnd : NoDup ls) by by apply NoDup_app in Hsep as [? _].
  destruct (pr_lists _ _ Hp _ Hk) as [l Hl]. cbn [server_effect answered popped]. rewrite Hl. intros Ha. simpl in Ha.
  subst r. split; [by apply proper_put_list|].
  pose proof (held_put ls key l (but_last l) _ Hnd Hk Hl) as Hh. destruct (last l) as [v|] eqn:Ev; simpl.
  - apply last_but_last in Ev. rewrite Ev in Hh at 2. apply (Permutation_app_inv_r (but_last l)).
    rewrite <- Hh. solve_Permutation.
  - destruct l as [|x l _] using rev_ind; [|by rewrite last_snoc in Ev]. etransitivity; [exact Hh|]. simpl. by rewrite app_nil_r.
Qed.

Lemma moved_held m ex src dst :
  proper m ex → src ∈ ls → dst ∈ ls → src ≠ dst → proper (server_effect (RPopLPush src dst) m) ex ∧
    held ls (server_effect (RPopLPush src dst) m) ≡ₚ held ls m.
Proof.
  intros Hp Hs Hd Hne. assert (Hnd : NoDup ls) by by apply NoDup_app in Hsep as [? _]. cbn [server_effect].
  destruct (move_last_held m src dst) as [->|(v & l0 & l & -> & Hh)]; try done; [by apply Hp..|].
  split; [|done]. by apply proper_put_list; [apply proper_put_list|].
Qed.

Lemma set_held m ex key X : proper m ex → key ∈ sets →
  proper (put_set key X m) ex ∧ held ls (put_set key X m) ≡ₚ held ls m.
Proof. intros Hp Hk. split; [by apply proper_put_set|]. by rewrite held_set. Qed.

(** A command that is allowed keeps what is proper, and the packages. *)
Lemma effect_keeps {R} (c : cmd R) m ex r :
  proper m ex → allowed ls sets strings c → answered c m r →
  proper (server_effect c m) ex ∧ held ls (server_effect c m) ++ popped c r ≡ₚ held ls m ++ pushed c.
Proof.
  intros Hp Hc Ha. destruct c; cbn [allowed popped pushed] in *; try done; rewrite ?app_nil_r; try done.
  - by apply pushed_held.
  - by apply popped_held.
  - destruct Hc as (? & ? & ?). by apply moved_held.
  - destruct Hc as (? & ? & ?). by apply moved_held.
  - destruct (pr_sets _ _ Hp _ Hc) as [X HX]. cbn [server_effect]. rewrite HX. by apply set_held.
  - destruct (pr_sets _ _ Hp _ Hc) as [X HX]. cbn [server_effect]. rewrite HX. by apply set_held.
  - cbn [server_effect]. rewrite delete_id; [done|]. by apply (pr_strings _ _ Hp).
Qed.

Lemma served_keeps {R} (c : cmd R) s r s' :
  up s → proper (data s) (expiring s) → allowed ls sets strings c → waits c (data s) = false → serve c s = (r, s') →
  up s' ∧ proper (data s') (expiring s') ∧
  held ls (data s') ++ popped c r ≡ₚ held ls (data s) ++ pushed c.
Proof.
  intros Hup Hp Hc Hw E.
  assert (Hst : ∀ key, key ∈ string_keys c → key ∈ strings).
  { intros key Hk. destruct c; cbn [string_keys allowed] in Hk, Hc; try done;
      try (by apply elem_of_nil in Hk); by apply list_elem_of_singleton in Hk as ->. }
  destruct (serve_up c s r s' E Hup Hw) as (Hup' & Hd & Ha & He).
  - intros key Hk. apply (pr_lasting _ _ Hp). destruct c; cbn [lasting_keys allowed] in Hk, Hc;
      repeat (apply elem_of_cons in Hk as [->|Hk]); try (by apply elem_of_nil in Hk); apply elem_of_app; tauto.
  - intros key Hk. by apply (pr_strings _ _ Hp), Hst.
  - split; [done|]. rewrite Hd. destruct (effect_keeps c _ _ r Hp Hc Ha) as [[Hl Hs Ht Hx] Hh]. split; [|done].
    split; [done..|]. intros key Hk Hin. apply He in Hin as [Hin|Hin]; [by eapply Hx|].
    eapply (sep_strings key key Hk); [by apply Hst|done].
Qed.

End Held.

(** ** Operations of a queue *)

Section Operations.
Context `{JsonPackage} (q : bytes) (consumers : list bytes).

Definition queue_lists : list bytes :=
  queueInputKey q :: queueFailedKey q :: (consumerWorkingQueueKey q <$> consumers).
Definition queue_sets : list bytes := [masterQueueKey; queueWorkersKey q].
Definition queue_strings : list bytes := queueHeartbeatKey q :: (consumerHeartbeatKey q <$> consumers).

(** Every operation but the ones that delete packages. *)
Inductive operation : Type → Type :=
| OCreate : operation unit
| OSelect : operation unit
| OPut (now : Z) (payload : bytes) : operation unit
| ORequeueFailed : operation unit
| OInputLength : operation Z
| OFailedLength : operation Z
| OgetConsumers : operation (list bytes)
| OStart : operation unit
| OWrite (now later : Z) (b : BufferedQueue) : operation BufferedQueue
| OAddConsumer (c : bytes) : operation unit
| OBeat (c : bytes) : operation unit
| OQuit (c : bytes) : operation unit
| OHasUnacked (c : bytes) : operation bool
| OGet (c : bytes) : operation Package
| ONoWaitGet (c : bytes) : operation (option Package)
| OMultiGet (c : bytes) (n : Z) : operation (list Package)
| OGetUnacked (c : bytes) : operation Package
| OGetFailed (c : bytes) : operation Package
| OAck (c : bytes) (pack : Collection) : operation unit
| OMultiAck (c : bytes) (pack : Collection) : operation (list Package * outcome unit)
| ORequeue (c : bytes) (pack : Collection) : operation unit
| OFail (c : bytes) (pack : Collection) : operation unit
| ORequeueWorking (c : bytes) (fuel : nat) : operation unit.

Definition program {A} (o : operation A) : client A :=
  match o with
  | OCreate => CreateQueue q
  | OSelect => SelectQueue q
  | OPut now payload => Put q now payload
  | ORequeueFailed => RequeueFailed q
  | OInputLength => GetInputLength q
  | OFailedLength => GetFailedLength q
  | OgetConsumers => getConsumers q
  | OStart => Start q
  | OWrite now later b => write_buffer q now later b
  | OAddConsumer c => AddConsumer q c
  | OBeat c => startHeartbeat q c
  | OQuit c => Quit q c
  | OHasUnacked c => HasUnacked q c
  | OGet c => Get q c
  | ONoWaitGet c => NoWaitGet q c
  | OMultiGet c n => MultiGet q c n
  | OGetUnacked c => GetUnacked q c
  | OGetFailed c => GetFailed q c
  | OAck c pack => Ack q c pack
  | OMultiAck c pack => MultiAck q c pack
  | ORequeue c pack => Requeue q c pack
  | OFail c pack => Fail q c pack
  | ORequeueWorking c fuel => RequeueWorking fuel q c
  end.

(** *** What an operation is for

    The texts it puts in, how many packages it takes off, from which list to which
    it moves packages, and the commands it may send. *)
Definition puts_of {A} (o : operation A) : list bytes :=
  match o with
  | OPut now payload => [getString (mkPackage payload now false)]
  | OWrite _ _ b => map getString (bq_Buffer b)
  | _ => []
  end.
Definition acks_of {A} (o : operation A) : nat :=
  match o with
  | OAck _ _ => 1
  | OMultiAck _ (Some (_, i)) => S i
  | _ => 0
  end.
Definition acks_from {A} (o : operation A) (key : bytes) : Prop :=
  match o with OAck c _ | OMultiAck c _ => key = consumerWorkingQueueKey q c | _ => False end.
Definition moves {A} (o : operation A) (src dst : bytes) : Prop :=
  match o with
  | OGet c | ONoWaitGet c | OMultiGet c _ => src = queueInputKey q ∧ dst = consumerWorkingQueueKey q c
  | OGetFailed c => src = queueFailedKey q ∧ dst = consumerWorkingQueueKey q c
  | ORequeue c _ | ORequeueWorking c _ => src = consumerWorkingQueueKey q c ∧ dst = queueInputKey q
  | OFail c _ => src = consumerWorkingQueueKey q c ∧ dst = queueFailedKey q
  | ORequeueFailed => src = queueFailedKey q ∧ dst = queueInputKey q
  | _ => False
  end.
Definition may {A} (o : operation A) {R} (c : cmd R) : Prop :=
  match c with
  | LPush key values => key = queueInputKey q ∧ values = puts_of o
  | RPop key => acks_from o key
  | RPopLPush src dst | BRPopLPush src dst => moves o src dst
  | LLen key | LIndex key _ => key ∈ queue_lists
  | SAdd key _ | SRem key _ | SMembers key | SIsMember key _ => key ∈ queue_sets
  | Del key | RGet key | RSet key _ _ => key ∈ queue_strings
  | _ => False
  end.

Definition consumer_of {A} (o : operation A) : option bytes :=
  match o with
  | OAddConsumer c | OBeat c | OQuit c | OHasUnacked c | OGet c | ONoWaitGet c | OMultiGet c _ | OGetUnacked c
  | OGetFailed c | OAck c _ | OMultiAck c _ | ORequeue c _ | OFail c _ | ORequeueWorking c _ => Some c
  | _ => None
  end.
Definition known {A} (o : operation A) : Prop := ∀ c, consumer_of o = Some c → c ∈ consumers.

(** ** The system

    A client begins one operation after the other, each depending on all the
    results before, or is in the middle of one. *)
Inductive session : Type :=
| Over
| Begin {A} (o : operation A) (k : outcome A → session)
| Doing {A} (o : operation A) (p : client A) (k : outcome A → session).

Fixpoint fresh (se : session) : Prop :=
  match se with
  | Over => True
  | Begin o k => known o ∧ ∀ r, fresh (k r)
  | Doing _ _ _ => False
  end.

(** What happened: an operation was begun, and the server answered a command of one. *)
Inductive event : Type :=
| Begun {A} (o : operation A)
| Sent {A} (o : operation A) {R} (c : cmd R) (r : outcome R).

Definition pushed_by (e : event) : list bytes := match e with Sent _ c _ => pushed c | _ => [] end.
Definition removed_by (e : event) : list bytes := match e with Sent _ c r => popped c r | _ => [] end.
Definition to_put (e : event) : list bytes := match e with Begun o => puts_of o | _ => [] end.
Definition to_ack (e : event) : nat := match e with Begun o => acks_of o | _ => 0 end.
Definition permitted (e : event) : Prop := match e with Sent o c _ => may o c | _ => True end.

(** The server, what the clients have still to do, and what happened. *)
Record system `{Redis} := mkSystem {
  sy_server : redis;
  sy_clients : list session;
  sy_events : list event
}.
Arguments mkSystem {_} _ _ _.

Inductive sys_step `{RedisLaws} : system → system → Prop :=
| begun_step s cs es (i : nat) A (o : operation A) k :
    cs !! i = Some (Begin o k) →
    sys_step (mkSystem s cs es) (mkSystem s (<[i := Doing o (program o) k]> cs) (es ++ [Begun o]))
| answered_step s cs es (i : nat) A (o : operation A) R (c : cmd R) p k r s' :
    cs !! i = Some (Doing o (Call c p) k) → waits c (data s) = false → serve c s = (r, s') →
    sys_step (mkSystem s cs es) (mkSystem s' (<[i := Doing o (p r) k]> cs) (es ++ [Sent o c r]))
| counted_step s cs es (i : nat) A (o : operation A) dp p k :
    cs !! i = Some (Doing o (Count dp p) k) →
    sys_step (mkSystem s cs es) (mkSystem s (<[i := Doing o p k]> cs) es)
| ended_step s cs es (i : nat) A (o : operation A) r k :
    cs !! i = Some (Doing o (Done r) k) →
    sys_step (mkSystem s cs es) (mkSystem s (<[i := k r]> cs) es)
| stopped_step s cs es (i : nat) :
    sys_step (mkSystem s cs es) (mkSystem s (delete i cs) es)
| joined_step s cs es se :
    fresh se → sys_step (mkSystem s cs es) (mkSystem s (cs ++ [se]) es).

(** ** What an operation sends

    With [np] pushes and [na] acknowledgements left, whatever it is answered. *)
Definition pushes {R} (c : cmd R) : nat := match c with LPush _ _ => 1 | _ => 0 end.
Definition takes {R} (c : cmd R) : nat := match c with RPop _ => 1 | _ => 0 end.

Fixpoint keeps {B} (o : operation B) (np na : nat) {A} (p : client A) : Prop :=
  match p with
  | Done _ => True
  | Call c k => may o c ∧ pushes c ≤ np ∧ takes c ≤ na ∧ ∀ r, keeps o (np - pushes c) (na - takes c) (k r)
  | Count _ k => keeps o np na k
  end.

Section Op.
Context {B} (o : operation B).

Lemma keeps_more {A} (p : client A) np na np' na' :
  keeps o np na p → np ≤ np' → na ≤ na' → keeps o np' na' p.
Proof.
  revert np na np' na'. induction p as [r|R c k IH|dp k IH]; intros np na np' na' Hk Hp Ha; [done| |by eapply IH].
  destruct Hk as (Hc & ? & ? & Hr). split_and!; [done|lia..|]. intros r. eapply IH; [apply Hr|lia..].
Qed.

Lemma keeps_bind {A C} (p : client A) (f : A → client C) np na np' na' :
  keeps o np na p → (∀ a, keeps o np' na' (f a)) → keeps o (np + np') (na + na') (p ≫= f).
Proof.
  intros Hp Hf. revert np na Hp. induction p as [[]|R c k IH|dp k IH]; intros np na Hp; try done; [| |by apply IH].
  - eapply keeps_more; [apply Hf|lia..].
  - destruct Hp as (Hc & ? & ? & Hr). split_and!; [done|lia..|]. intros r.
    replace (np + np' - pushes c) with (np - pushes c + np') by lia.
    replace (na + na' - takes c) with (na - takes c + na') by lia. by apply IH.
Qed.

Lemma keeps_then {A C} (p : client A) (f : A → client C) np na :
  keeps o 0 0 p → (∀ a, keeps o np na (f a)) → keeps o np na (p ≫= f).
Proof. apply (keeps_bind p f 0 0 np na). Qed.

Lemma keeps_call {R} (c : cmd R) np na : may o c → pushes c ≤ np → takes c ≤ na → keeps o np na (call c).
Proof. done. Qed.
Lemma keeps_request {R} (c : cmd R) np na : may o c → pushes c ≤ np → takes c ≤ na → keeps o np na (request c).
Proof. done. Qed.
Lemma keeps_done {A} (r : outcome A) np na : keeps o np na (Done r).
Proof. done. Qed.
Lemma keeps_ret {A} (a : A) np na : keeps o np na (mret a : client A).
Proof. done. Qed.
Lemma keeps_fail {A} e np na : keeps o np na (cfail e : client A).
Proof. done. Qed.
Lemma keeps_count name n np na : keeps o np na (incrRate name n).
Proof. done. Qed.
End Op.

(** The keys of the operations. *)
Lemma key_input : queueInputKey q ∈ queue_lists.
Proof. by left. Qed.
Lemma key_failed : queueFailedKey q ∈ queue_lists.
Proof. by right; left. Qed.
Lemma key_working c : c ∈ consumers → consumerWorkingQueueKey q c ∈ queue_lists.
Proof. intros Hc. do 2 right. by apply list_elem_of_fmap_2. Qed.
Lemma key_heartbeat c : c ∈ consumers → consumerHeartbeatKey q c ∈ queue_strings.
Proof. intros Hc. right. by apply list_elem_of_fmap_2. Qed.
Lemma working_input c : consumerWorkingQueueKey q c ≠ queueInputKey q.
Proof. intros E. by apply (input_working q c). Qed.
Lemma working_failed c : consumerWorkingQueueKey q c ≠ queueFailedKey q.
Proof. intros E. by apply (failed_working q c). Qed.
Lemma failed_input : queueFailedKey q ≠ queueInputKey q.
Proof. intros E. by apply (input_failed q). Qed.
End Operations.

Arguments Begin {A} o k.

Arguments Doing {A} o p k.
Arguments mkSystem {_} _ _ _.

Create HintDb mq.
#[export] Hint Resolve keeps_then keeps_call keeps_request keeps_done keeps_ret keeps_fail keeps_count : mq.
#[export] Hint Resolve key_input key_failed key_working key_heartbeat input_failed input_working failed_working : mq.
#[export] Hint Resolve working_input working_failed failed_input : mq.
#[export] Hint Extern 1 (may _ _ _ _) => cbn [may moves acks_from]; split_and? : mq.
#[export] Hint Extern 1 (_ ≤ _) => cbn [pushes takes]; lia : mq.
#[export] Hint Extern 2 (_ ∈ queue_sets _) => unfold queue_sets; set_solver : mq.
#[export] Hint Extern 2 (_ ∈ queue_strings _ _) => unfold queue_strings; set_solver : mq.

Section Keeps.
Context `{JsonPackage} (q : bytes) (consumers : list bytes).
Abbreviation keeps := (keeps q consumers).

(** What an operation may send keeps the packages. *)
Lemma may_allowed {A} (o : operation A) {R} (c : cmd R) :
  known consumers o → may q consumers o c → allowed (queue_lists q consumers) (queue_sets q) (queue_strings q consumers) c.
Proof.
  intros Ho Hc. destruct c; cbn [may allowed] in *; try done.
  - destruct Hc as [-> _]. apply key_input.
  - destruct o; try done; cbn [acks_from] in Hc; subst; apply key_working; by apply Ho.
  - destruct o; try done; destruct Hc as [-> ->]; eauto using key_working with mq.
  - destruct o; try done; destruct Hc as [-> ->]; eauto using key_working with mq.
Qed.

(** Goes through an operation; what a command needs is left to the hints. *)
Ltac okay := repeat first
  [ apply keeps_then; [|intros ?]
  | match goal with |- context [match ?x with _ => _ end] => destruct x end
  | solve [eauto with mq] ].

Section One.
Context {B} (o : operation B) (Ho : known consumers o).

Lemma keeps_pipeline {R} (cs : list (cmd R)) :
  Forall (λ c, may q consumers o c ∧ pushes c = 0 ∧ takes c = 0) cs → keeps o 0 0 (pipeline cs).
Proof.
  induction 1 as [|c cs (Hc & Hp & Ht) _ IH]; cbn [pipeline]; [done|]. apply keeps_then; [|intros r; by apply keeps_then].
  split_and!; [done|lia..|done].
Qed.

Lemma keeps_HasUnacked c np na : c ∈ consumers → keeps o np na (HasUnacked q c).
Proof. intros Hc. unfold HasUnacked, GetUnackedLength. okay. Qed.
End One.

Lemma keeps_ack_each c pack positions collection np : c ∈ consumers →
  keeps (OMultiAck c pack) np (length positions) (ack_each q c positions collection).
Proof.
  intros Hc. revert collection. induction positions as [|i positions IH]; intros collection; cbn [ack_each]; [okay|].
  apply keeps_then; [okay|]. intros p. destruct (pk_Acked p); [eapply keeps_more; [apply IH|simpl; lia..]|].
  apply (keeps_bind _ _ _ _ _ 0 1 np (length positions)); [by split_and!|]. intros [u| | |]; okay.
Qed.

Lemma keeps_requeue_failed n np na : keeps ORequeueFailed np na (requeue_failed q n).
Proof. induction n as [|n IH]; cbn [requeue_failed]; okay. Qed.

Lemma keeps_RequeueWorking c n fuel np na : c ∈ consumers → keeps (ORequeueWorking c n) np na (RequeueWorking fuel q c).
Proof.
  intros Hc. pose proof (keeps_HasUnacked (ORequeueWorking c n) c) as Hu.
  induction fuel as [|fuel IH]; cbn [RequeueWorking]; [done|]. unfold GetUnacked, parseRedisAnswer. okay.
Qed.

Lemma keeps_MultiGet c n np na : c ∈ consumers → keeps (OMultiGet c n) np na (MultiGet q c n).
Proof.
  intros Hc. pose proof (keeps_HasUnacked (OMultiGet c n) c) as Hu. unfold MultiGet.
  apply keeps_then; [by apply Hu|]. intros [|]; [done|]. apply keeps_then.
  - apply keeps_pipeline. apply Forall_cons. split; [done|]. apply Forall_forall.
    by intros cm ->%list_elem_of_In%repeat_spec.
  - intros reqs. destruct (first_error reqs); okay.
Qed.

#[local] Hint Resolve keeps_HasUnacked keeps_requeue_failed keeps_MultiGet keeps_RequeueWorking : mq.

(** Every operation sends what it may send: one push at most, and as many
    acknowledgements as it is asked for. *)
Lemma program_keeps {A} (o : operation A) : known consumers o → keeps o 1 (acks_of o) (program q o).
Proof.
  intros Ho. assert (Hc : ∀ c, consumer_of o = Some c → c ∈ consumers) by exact Ho. clear Ho.
  destruct o; cbn [consumer_of] in Hc; try specialize (Hc _ eq_refl); cbn [program acks_of];
    unfold CreateQueue, newQueue, SelectQueue, Put, RequeueFailed, GetInputLength, GetFailedLength, length_of,
      getConsumers, Start, beat, write_buffer, AddConsumer, isActiveConsumer, startHeartbeat, Quit, Get, unsafeGet,
      NoWaitGet, GetUnacked, GetFailed, parseRedisAnswer, Ack, ackPackage, Requeue, Fail, reject,
      requeuePackage, failPackage; try solve [okay].
  - apply (keeps_bind _ _ _ _ _ 1 0 0 0); [by split_and!|]. intros r. okay.
  - case_match; [|done]. apply (keeps_bind _ _ _ _ _ 1 0 0 0); [by split_and!|]. intros r. okay.
  - by apply keeps_MultiGet.
  - destruct pack; [done|]. apply (keeps_bind _ _ _ _ _ 0 1 1 0); [by split_and!|]. intros r. okay.
  - destruct pack as [[collection i]|]; [|done]. cbn [MultiAck].
    pose proof (keeps_ack_each c (Some (collection, i)) (seq 0 (S i)) collection 1 Hc) as Hk.
    by rewrite length_seq in Hk.
Qed.
End Keeps.

(** ** Runs of the system *)

Section Runs.
Context `{JsonPackage} `{RedisLaws} (q : bytes) (consumers : list bytes).
Implicit Types (sy : system) (b : list bytes * nat).

(** The packages that wait, failed, or are with a consumer. *)
Definition packages (m : keyspace) : list bytes := held (queue_lists q consumers) m.

(** The keys of the queue are different. *)
Definition keys_apart : Prop := NoDup (queue_lists q consumers ++ queue_sets q ++ queue_strings q consumers).

(** Of each client, what it may still put in and how often it may still acknowledge. *)
Definition rest {A} (o : operation A) (np : nat) : list bytes := mjoin (replicate np (puts_of o)).
Definition ready b (se : session) : Prop :=
  match se with
  | Doing o p k =>
      known consumers o ∧ (∃ np na, keeps q consumers o np na p ∧ b = (rest o np, na)) ∧ ∀ r, fresh consumers (k r)
  | se => fresh consumers se ∧ b = ([], 0)
  end.
Definition all_puts (bs : list (list bytes * nat)) : list bytes := mjoin (fst <$> bs).
Definition all_acks (bs : list (list bytes * nat)) : nat := sum_list_with snd bs.

Lemma budget_insert bs i b b' : bs !! i = Some b →
  all_puts (<[i := b']> bs) ++ b.1 ≡ₚ all_puts bs ++ b'.1 ∧ all_acks (<[i := b']> bs) + b.2 = all_acks bs + b'.2.
Proof.
  unfold all_puts, all_acks. revert i. induction bs as [|b0 bs IH]; intros [|i] Hi; try done.
  - injection Hi as ->. cbn. split; [solve_Permutation|lia].
  - destruct (IH i Hi) as [HP HN]. split; cbn.
    + rewrite <- !app_assoc. by apply Permutation_app_head.
    + rewrite <- !Nat.add_assoc. by f_equal.
Qed.

Lemma budget_delete bs i b : bs !! i = Some b →
  all_puts (delete i bs) ++ b.1 ≡ₚ all_puts bs ∧ all_acks (delete i bs) + b.2 = all_acks bs.
Proof.
  unfold all_puts, all_acks. revert i. induction bs as [|b0 bs IH]; intros [|i] Hi; try done.
  - injection Hi as ->. cbn. split; [solve_Permutation|lia].
  - destruct (IH i Hi) as [HP HN]. split; cbn.
    + rewrite <- !app_assoc. by apply Permutation_app_head.
    + rewrite <- !Nat.add_assoc. by f_equal.
Qed.

(** What has been pushed and what may still be was asked for; so with the
    acknowledgements. *)
Definition within es bs : Prop :=
  mjoin (map pushed_by es) ++ all_puts bs ⊆+ mjoin (map to_put es) ∧
  length (mjoin (map removed_by es)) + all_acks bs ≤ sum_list_with to_ack es.

Definition sound (s0 : redis) sy : Prop :=
  up (sy_server sy) ∧
  proper (queue_lists q consumers) (queue_sets q) (queue_strings q consumers)
    (data (sy_server sy)) (expiring (sy_server sy)) ∧
  packages (data (sy_server sy)) ++ mjoin (map removed_by (sy_events sy))
    ≡ₚ packages (data s0) ++ mjoin (map pushed_by (sy_events sy)) ∧
  Forall (permitted q consumers) (sy_events sy) ∧
  ∃ bs, Forall2 ready bs (sy_clients sy) ∧ within (sy_events sy) bs.

(** A client goes on with less left. *)
Lemma within_less es bs i b b' :
  within es bs → bs !! i = Some b → (∃ l, b.1 ≡ₚ b'.1 ++ l) → b'.2 ≤ b.2 → within es (<[i := b']> bs).
Proof.
  intros [Hp Ha] Hi [l Hl] Hn. destruct (budget_insert bs i b b' Hi) as [HP HN]. split; [|lia].
  etransitivity; [|exact Hp]. apply submseteq_skips_l. rewrite Hl in HP.
  assert (Hx : all_puts (<[i := b']> bs) ++ l ≡ₚ all_puts bs).
  { apply (Permutation_app_inv_r b'.1). rewrite <- HP. solve_Permutation. }
  rewrite <- Hx. apply submseteq_inserts_r. done.
Qed.

Lemma within_begun {A} (o : operation A) es bs i :
  within es bs → bs !! i = Some ([], 0) → within (es ++ [Begun o]) (<[i := (rest o 1, acks_of o)]> bs).
Proof.
  intros [Hp Ha] Hi. destruct (budget_insert bs i _ (rest o 1, acks_of o) Hi) as [HP HN]. unfold within.
  rewrite !map_app, !join_app. split.
  - cbn in HP |- *. rewrite !app_nil_r in *. rewrite HP, app_assoc. by apply submseteq_skips_r.
  - cbn in HN |- *. rewrite app_nil_r. rewrite sum_list_with_app. cbn. lia.
Qed.

Lemma within_sent {A} (o : operation A) {R} (c : cmd R) r es bs i np na :
  within es bs → bs !! i = Some (rest o np, na) → may q consumers o c → pushes c ≤ np → takes c ≤ na →
  within (es ++ [Sent o c r]) (<[i := (rest o (np - pushes c), na - takes c)]> bs).
Proof.
  intros [Hp Ha] Hi Hc Hnp Hna. set (b' := (_, _)). destruct (budget_insert bs i _ b' Hi) as [HP HN].
  assert (Hr : rest o np = pushed c ++ rest o (np - pushes c)).
  { destruct c; cbn [pushes] in Hnp; cbn [pushed pushes app]; rewrite ?Nat.sub_0_r; try done.
    destruct Hc as [_ ->]. destruct np as [|np]; [lia|]. cbn [Nat.sub]. by rewrite Nat.sub_0_r. }
  assert (Ht : length (popped c r) ≤ takes c) by (destruct c; simpl; try lia; destruct r; simpl; lia).
  unfold within. rewrite !map_app, !join_app. cbn. rewrite !app_nil_r. cbn in HP, HN. split.
  - assert (Hx : pushed c ++ all_puts (<[i := b']> bs) ≡ₚ all_puts bs).
    { apply (Permutation_app_inv_r (rest o (np - pushes c))). rewrite <- HP, Hr. solve_Permutation. }
    by rewrite <- app_assoc, Hx.
  - rewrite length_app, sum_list_with_app. cbn. subst b'. cbn in HN. lia.
Qed.

Lemma sound_step s0 sy sy' : keys_apart → sys_step q consumers sy sy' → sound s0 sy → sound s0 sy'.
Proof.
  intros Hk Hst (Hu & Hp & Hh & He & bs & Hb & Hw).
  destruct Hst as [s cs es i A o k Hi|s cs es i A o R c p k r s' Hi Hwt E|s cs es i A o dp p k Hi|s cs es i A o r k Hi
    |s cs es i|s cs es se Hf]; unfold sound; cbn [sy_server sy_clients sy_events] in *.
  - destruct (Forall2_lookup_r _ _ _ _ _ Hb Hi) as (b & Hbi & (Ho & Hf) & ->). rewrite !map_app, !join_app.
    cbn [map removed_by pushed_by mjoin list_join]. rewrite !app_nil_r. split_and!; try done; [by apply Forall_app_2, Forall_singleton|].
    exists (<[i := (rest o 1, acks_of o)]> bs). split; [|by apply within_begun].
    apply Forall2_insert; [done|]. split_and!; [done| |done]. exists 1, (acks_of o). split; [by apply program_keeps|done].
  - destruct (Forall2_lookup_r _ _ _ _ _ Hb Hi) as (b & Hbi & Ho & (np & na & Hkp & ->) & Hf).
    destruct Hkp as (Hc & Hnp & Hna & Hkr).
    destruct (served_keeps _ _ _ Hk c s r s' Hu Hp (may_allowed _ _ o c Ho Hc) Hwt E) as (Hu' & Hp' & Hh').
    change (packages (data s') ++ popped c r ≡ₚ packages (data s) ++ pushed c) in Hh'.
    split_and!; [done..| |by apply Forall_app_2, Forall_singleton|].
    + rewrite !map_app, !join_app. cbn [map removed_by pushed_by mjoin list_join]. rewrite !app_nil_r, (app_assoc (packages (data s0))). rewrite <- Hh.
      transitivity ((packages (data s') ++ popped c r) ++ mjoin (map removed_by es)); [solve_Permutation|].
      rewrite Hh'. unfold packages. solve_Permutation.
    + exists (<[i := (rest o (np - pushes c), na - takes c)]> bs). split; [|by apply within_sent].
      apply Forall2_insert; [done|]. split_and!; [done| |done]. by exists (np - pushes c), (na - takes c).
  - destruct (Forall2_lookup_r _ _ _ _ _ Hb Hi) as (b & Hbi & Ho & (np & na & Hkp & ->) & Hf). split_and!; try done.
    exists bs. split; [|done]. rewrite <- (list_insert_id bs i _ Hbi). apply Forall2_insert; [done|].
    split_and!; [done| |done]. by exists np, na.
  - destruct (Forall2_lookup_r _ _ _ _ _ Hb Hi) as (b & Hbi & Ho & _ & Hf). split_and!; try done.
    exists (<[i := ([], 0)]> bs). split.
    + apply Forall2_insert; [done|]. specialize (Hf r). by destruct (k r).
    + eapply within_less; [done..| |cbn; lia]. by exists b.1.
  - split_and!; try done. destruct (cs !! i) as [se|] eqn:Hi.
    + destruct (Forall2_lookup_r _ _ _ _ _ Hb Hi) as (b & Hbi & _). exists (delete i bs).
      split; [by apply Forall2_delete|]. destruct Hw as [Hwp Hwa]. destruct (budget_delete bs i b Hbi) as [HP HN].
      split; [|lia]. etransitivity; [|exact Hwp]. apply submseteq_skips_l. rewrite <- HP. by apply submseteq_inserts_r.
    + apply lookup_ge_None in Hi. rewrite delete_take_drop, take_ge, drop_ge, app_nil_r by lia. by exists bs.
  - split_and!; try done. exists (bs ++ [([], 0)]). split.
    + apply Forall2_app; [done|]. constructor; [|constructor]. by destruct se.
    + unfold within, all_puts, all_acks. rewrite !fmap_app, join_app, sum_list_with_app. cbn.
      rewrite app_nil_r, Nat.add_0_r. exact Hw.
Qed.

Lemma sound_run s0 sy sy' : keys_apart → rtc (sys_step q consumers) sy sy' → sound s0 sy → sound s0 sy'.
Proof. intros Hk. induction 1; eauto using sound_step. Qed.
End Runs.

(** ** No package is lost *)


(** ** An instance

    A producer puts a package, a consumer takes it and stops before it
    acknowledges; it stays with the consumer's name.  In another run it
    acknowledges, and the package is off. *)

Module MqSafeDemo.
Import MapServer MqDemo.

Definition producer : session := Begin (OPut 0 (str "a")) (λ _, Over).
Definition consumer : session := Begin (OGet worker) (λ _, Begin (OAck worker None) (λ _, Over)).
Definition server : @redis map_server := ((<[consumerWorkingQueueKey jobs worker := LList [text_of "a"]]> ∅, ∅) : map_redis).

Lemma demo_apart : keys_apart jobs [worker].
Proof. apply (bool_decide_unpack _). vm_compute. exact I. Qed.

Lemma demo_proper :
  proper (queue_lists jobs [worker]) (queue_sets jobs) (queue_strings jobs [worker]) (data empty_redis) (expiring empty_redis).
Proof.
  split; [by exists []|by exists ∅|done|]. intros key _. simpl. rewrite dom_empty_L. by intros ?%not_elem_of_empty.
Qed.

(** The next step of a client. *)
Ltac go i := eapply rtc_l;
  [first [eapply (begun_step _ _ _ _ _ i); reflexivity | eapply (answered_step _ _ _ _ _ i); reflexivity
         |eapply (counted_step _ _ _ _ _ i); reflexivity | eapply (ended_step _ _ _ _ _ i); reflexivity]|].
Ltac join := eapply rtc_l; [apply (joined_step _ _ _ _ _ producer); split; [by intros c|done]|];
  eapply rtc_l; [apply (joined_step _ _ _ _ _ consumer); split; [by intros c [= <-]; left|];
                 intros r; split; [by intros c [= <-]; left|done]|].

Abbreviation run sy := (rtc (sys_step jobs [worker]) (mkSystem empty_redis [] []) sy).

Lemma demo_stopped : ∃ cs es, run (mkSystem server cs es) ∧
  mjoin (map removed_by es) = [] ∧ mjoin (map pushed_by es) = [text_of "a"].
Proof.
  do 2 eexists. split.
  - join. go 1. go 1. go 0. go 0. go 0. go 0. go 1. eapply rtc_l; [apply (stopped_step _ _ _ _ _ 1)|]. apply rtc_refl.
  - split; reflexivity.
Qed.

Lemma demo_acked : ∃ cs es, run (mkSystem empty_redis cs es) ∧ mjoin (map removed_by es) = [text_of "a"].
Proof.
  do 2 eexists. split.
  - join. go 1. go 1. go 0. go 0. go 0. go 0. go 1. go 1. go 1. go 1. go 1. go 1. apply rtc_refl.
  - reflexivity.
Qed.

End MqSafeDemo.
