(* ===== verification/MqStats.v ===== *)
(** * The statistics of a queue

    The writer that collects the data points of a queue by the second ([queue.go])
    and the observer that reads them ([observer.go]). *)

From Stdlib Require Import Strings.Byte ZifyNat.
From stdpp Require Import base strings numbers gmap list.
From S2P Require Import Prelude Text Platform Concrete Net Redis Mq.

Definition two_hours : Z := 7200.
Definition second_key (name : bytes) (sec : Z) : bytes := name ++ str "::" ++ Itoa sec.

(** ** The writer

    The counts of each second by their name, and the second of the last write. *)
Abbreviation counts := (gmap Z (gmap bytes Z)).
Record rateStats := mkRateStats { rs_rateStatsCache : counts; rs_lastStatsWrite : Z }.

Section Writer.
Context `{JsonPackage} `{GoRange}.

Definition add_count (now : Z) (dp : dataPoint) (cache : counts) : counts :=
  let names := default ∅ (cache !! now) in
  <[now := <[dp_name dp := int64_wrap (default 0%Z (names !! dp_name dp) + dp_value dp)]> names]> cache.

Definition write_rate (sec : Z) (rate : bytes * Z) : client unit :=
  _ ← call (IncrBy (second_key rate.1 sec) rate.2);
  _ ← call (Expire (second_key rate.1 sec) two_hours);
  mret tt.

(** The lengths of the lists are tracked under the time of the writing. *)
Definition write_lengths (queue : bytes) (now : Z) : client unit :=
  inputs ← GetInputLength queue;
  _ ← call (RSet (second_key (queueInputSizeKey queue) now) (Itoa inputs) two_hours);
  fails ← GetFailedLength queue;
  _ ← call (RSet (second_key (queueFailedSizeKey queue) now) (Itoa fails) two_hours);
  mret tt.

Fixpoint write_seconds (queue : bytes) (now : Z) (secs : list (Z * gmap bytes Z)) (cache : counts) : client counts :=
  match secs with
  | [] => mret cache
  | (sec, names) :: secs =>
      if (int64_wrap (now - 1) <=? sec)%Z then write_seconds queue now secs cache
      else
        _ ← cfor (go_range names) (write_rate sec);
        _ ← write_lengths queue now;
        write_seconds queue now secs (delete sec cache)
  end.
Definition writeStatsCacheToRedis (queue : bytes) (now : Z) (cache : counts) : client rateStats :=
  cache ← write_seconds queue now (go_range cache) cache;
  mret (mkRateStats cache now).

(** What the goroutine of [startStatsWriter] does with a data point. *)
Definition stats_point (queue : bytes) (now : Z) (dp : dataPoint) (st : rateStats) : client rateStats :=
  let cache := add_count now dp (rs_rateStatsCache st) in
  if (rs_lastStatsWrite st <? now)%Z then writeStatsCacheToRedis queue now cache
  else mret (mkRateStats cache (rs_lastStatsWrite st)).
End Writer.

(** ** The observer *)

Record ConsumerStat := mkConsumerStat { cs_WorkRateSecond : Z; cs_WorkRateMinute : Z; cs_WorkRateHour : Z }.
Record QueueStat := mkQueueStat {
  qs_InputSizeSecond : Z; qs_InputSizeMinute : Z; qs_InputSizeHour : Z;
  qs_FailSizeSecond : Z; qs_FailSizeMinute : Z; qs_FailSizeHour : Z;
  qs_InputRateSecond : Z; qs_InputRateMinute : Z; qs_InputRateHour : Z;
  qs_WorkRateSecond : Z; qs_WorkRateMinute : Z; qs_WorkRateHour : Z;
  qs_ConsumerStats : gmap bytes ConsumerStat
}.
Abbreviation observer := (gmap bytes QueueStat).

(** [num, _ := strconv.ParseInt(s, 10, 64)]: out of range, the nearest bound. *)
Definition parse_or_bound (s : bytes) : Z :=
  match Atoi s with
  | Ret z => z
  | Err e => if bool_decide (e = ELib "strconv.ErrRange")
             then if bool_decide (head s = Some "-"%byte) then - 2 ^ 63 else 2 ^ 63 - 1
             else 0
  | _ => 0
  end%Z.

(** The keys of the last [seconds] that are surely written, from the newest on. *)
Definition stat_keys (keyName : bytes) (now seconds : Z) : list bytes :=
  map (λ i : nat, second_key keyName (now - 2 - Z.of_nat i)) (seq 0 (Z.to_nat seconds)).
Definition sum_values (vals : list (option bytes)) : Z :=
  fold_left (λ sum val, match val with None => sum | Some s => int64_wrap (sum + parse_or_bound s) end) vals 0%Z.
Definition fetchStat (now : Z) (keyName : bytes) (seconds : Z) : client Z :=
  vals ← call (MGet (stat_keys keyName now seconds));
  match vals with
  | Ret vals => mret (Z.quot (sum_values vals) seconds)
  | _ => mret 0%Z
  end.

Section Observer.
(** The clock when a statistic is fetched. *)
Context (clock : bytes → Z → Z).

Definition fetch (keyName : bytes) (seconds : Z) : client Z := fetchStat (clock keyName seconds) keyName seconds.

Definition GetAllQueues : client (list bytes) := request (SMembers masterQueueKey).
Definition observer_getConsumers (queue : bytes) : client (list bytes) := request (SMembers (queueWorkersKey queue)).

(** An error ends the program. *)
Definition or_fatal {A} (p : client A) : client A :=
  (fix go p := match p with
   | Done (Err _) => Done (Panic PLog)
   | Done r => Done r
   | Call c k => Call c (λ r, go (k r))
   | Count dp k => Count dp (go k)
   end) p.

Definition consumer_stat (queue consumer : bytes) : client ConsumerStat :=
  second ← fetch (consumerWorkingRateKey queue consumer) 1;
  minute ← fetch (consumerWorkingRateKey queue consumer) 60;
  hour ← fetch (consumerWorkingRateKey queue consumer) 3600;
  mret (mkConsumerStat second minute hour).

Fixpoint consumer_stats (queue : bytes) (consumers : list bytes) (work : ConsumerStat)
    (stats : gmap bytes ConsumerStat) : client (ConsumerStat * gmap bytes ConsumerStat) :=
  match consumers with
  | [] => mret (work, stats)
  | consumer :: consumers =>
      stat ← consumer_stat queue consumer;
      let work := mkConsumerStat (int64_wrap (cs_WorkRateSecond work + cs_WorkRateSecond stat))
                    (int64_wrap (cs_WorkRateMinute work + cs_WorkRateMinute stat))
                    (int64_wrap (cs_WorkRateHour work + cs_WorkRateHour stat)) in
      consumer_stats queue consumers work (<[consumer := stat]> stats)
  end.

Definition UpdateQueueStats (queue : bytes) (o : observer) : client observer :=
  InputRateSecond ← fetch (queueInputRateKey queue) 1;
  InputSizeSecond ← fetch (queueInputSizeKey queue) 1;
  FailSizeSecond ← fetch (queueFailedSizeKey queue) 1;
  InputRateMinute ← fetch (queueInputRateKey queue) 60;
  InputSizeMinute ← fetch (queueInputSizeKey queue) 60;
  FailSizeMinute ← fetch (queueFailedSizeKey queue) 60;
  InputRateHour ← fetch (queueInputRateKey queue) 3600;
  InputSizeHour ← fetch (queueInputSizeKey queue) 3600;
  FailSizeHour ← fetch (queueFailedSizeKey queue) 3600;
  consumers ← or_fatal (observer_getConsumers queue);
  '(work, stats) ← consumer_stats queue consumers (mkConsumerStat 0 0 0) ∅;
  mret (<[queue := mkQueueStat InputSizeSecond InputSizeMinute InputSizeHour FailSizeSecond FailSizeMinute FailSizeHour
                     InputRateSecond InputRateMinute InputRateHour (cs_WorkRateSecond work) (cs_WorkRateMinute work)
                     (cs_WorkRateHour work) stats]> o).

Fixpoint update_queues (queues : list bytes) (o : observer) : client observer :=
  match queues with
  | [] => mret o
  | queue :: queues => o ← UpdateQueueStats queue o; update_queues queues o
  end.
Definition UpdateAllStats (o : observer) : client observer :=
  queues ← or_fatal GetAllQueues; update_queues queues o.
End Observer.

(** ** Every count is written once *)

Section Counts.
Context `{JsonPackage} `{GoRangeLaws}.

(** What a program adds to the counts of the server, if the answers make it end
    with a result. *)
Definition added_by {R} (c : cmd R) : list Z := match c with IncrBy _ n => [n] | _ => [] end.
Fixpoint adds {A} (p : client A) (l : list Z) (r : outcome A) : Prop :=
  match p with
  | Done r' => l = [] ∧ r' = r
  | Call c k => ∃ a l', l = added_by c ++ l' ∧ adds (k a) l' r
  | Count _ k => adds k l r
  end.
Definition sum (l : list Z) : Z := foldr Z.add 0%Z l.

Lemma sum_app l1 l2 : sum (l1 ++ l2) = (sum l1 + sum l2)%Z.
Proof. induction l1 as [|n l1 IH]; [done|]. simpl. rewrite IH. lia. Qed.

#[local] Instance sum_Permutation : Proper ((≡ₚ) ==> (=)) sum.
Proof. induction 1; simpl; lia. Qed.

Lemma adds_bind {A B} (p : client A) (f : A → client B) l b :
  adds (p ≫= f) l (Ret b) → ∃ l1 l2 a, l = l1 ++ l2 ∧ adds p l1 (Ret a) ∧ adds (f a) l2 (Ret b).
Proof.
  revert l. induction p as [[a|e|e|]|R c k IH|dp k IH]; intros l Ha.
  - by exists [], l, a.
  - by destruct Ha.
  - by destruct Ha.
  - by destruct Ha.
  - destruct Ha as (r & l' & -> & Ha). apply IH in Ha as (l1 & l2 & a & -> & H1' & H2').
    exists (added_by c ++ l1), l2, a. rewrite app_assoc. split; [done|]. split; [|done]. by exists r, l1.
  - by apply IH in Ha.
Qed.

Lemma adds_then {A B} (p : client A) (f : A → client B) l1 l2 a r :
  adds p l1 (Ret a) → adds (f a) l2 r → adds (p ≫= f) (l1 ++ l2) r.
Proof.
  revert l1. induction p as [r'|R c k IH|dp k IH]; intros l1 H1' H2'.
  - by destruct H1' as [-> ->].
  - destruct H1' as (a' & l' & -> & H1'). exists a', (l' ++ l2). rewrite app_assoc. split; [done|]. by apply IH.
  - by apply IH.
Qed.

Definition names_sum (names : gmap bytes Z) : Z := sum (map_to_list names).*2.
Definition cache_sum (cache : counts) : Z := sum (names_sum <$> (map_to_list cache).*2).

(** Taking an entry out of a map, in a sum over its entries. *)
Lemma sum_delete `{Countable K} {V} (g : V → Z) (m : gmap K V) k v :
  m !! k = Some v → sum (g <$> (map_to_list m).*2) = (g v + sum (g <$> (map_to_list (delete k m)).*2))%Z.
Proof. intros E. by rewrite <- (map_to_list_delete m k v E) at 1. Qed.

Lemma sum_insert `{Countable K} {V} (g : V → Z) (m : gmap K V) k v :
  sum (g <$> (map_to_list (<[k := v]> m)).*2)
  = (g v + sum (g <$> (map_to_list m).*2) - match m !! k with Some v => g v | None => 0 end)%Z.
Proof.
  rewrite (sum_delete g (<[k := v]> m) k v) by apply lookup_insert_eq. rewrite delete_insert_eq.
  destruct (m !! k) as [v'|] eqn:E; [rewrite (sum_delete g m k v' E); lia|]. rewrite delete_id by done. lia.
Qed.

Lemma names_sum_insert names name n :
  names_sum (<[name := n]> names) = (n + names_sum names - default 0 (names !! name))%Z.
Proof.
  unfold names_sum. pose proof (sum_insert id names name n) as Hs. rewrite !list_fmap_id in Hs. rewrite Hs.
  by destruct (names !! name).
Qed.

Lemma cache_sum_delete cache sec names :
  cache !! sec = Some names → (cache_sum (delete sec cache) + names_sum names = cache_sum cache)%Z.
Proof. intros E. unfold cache_sum. rewrite (sum_delete names_sum cache sec names E). lia. Qed.

Lemma cache_sum_insert cache sec names :
  cache_sum (<[sec := names]> cache) = (names_sum names + cache_sum cache - names_sum (default ∅ (cache !! sec)))%Z.
Proof. unfold cache_sum. rewrite sum_insert. by destruct (cache !! sec). Qed.

Lemma adds_rates sec rates l : adds (cfor rates (write_rate sec)) l (Ret tt) → sum l = sum rates.*2.
Proof.
  revert l. induction rates as [|[name n] rates IH]; intros l Ha; [by destruct Ha as [-> _]|].
  apply adds_bind in Ha as (l1 & l2 & [] & -> & H1' & H2'). rewrite sum_app, (IH _ H2').
  destruct H1' as (r & l3 & -> & r' & l4 & -> & -> & _). cbn [added_by app sum foldr fmap list_fmap snd]. rewrite Z.add_0_r. done.
Qed.

Lemma adds_lengths queue now l : adds (write_lengths queue now) l (Ret tt) → sum l = 0%Z.
Proof. intros (? & ? & -> & ? & ? & -> & ? & ? & -> & ? & ? & -> & -> & _). done. Qed.

Lemma adds_seconds queue now secs cache l cache' :
  NoDup secs.*1 → (∀ sec names, (sec, names) ∈ secs → cache !! sec = Some names) →
  adds (write_seconds queue now secs cache) l (Ret cache') →
  (sum l + cache_sum cache' = cache_sum cache)%Z.
Proof.
  revert cache l. induction secs as [|[sec names] secs IH]; intros cache l Hnd Hin Ha.
  { destruct Ha as [-> [= ->]]. simpl. lia. }
  apply NoDup_cons in Hnd as [Hni Hnd]. cbn [write_seconds] in Ha. destruct (_ <=? _)%Z.
  { apply IH in Ha; [done..|]. intros s n Hs. apply Hin. by right. }
  apply adds_bind in Ha as (l1 & l2 & [] & -> & H1' & Ha). apply adds_bind in Ha as (l3 & l4 & [] & -> & H3' & Ha).
  apply adds_rates in H1'. apply adds_lengths in H3'. apply IH in Ha; [|done|].
  - rewrite !sum_app, H1', H3'. rewrite <- (cache_sum_delete cache sec names) by (apply Hin; by left).
    unfold names_sum. rewrite go_range_Permutation. lia.
  - intros s n Hs. rewrite lookup_delete_ne; [apply Hin; by right|]. intros ->. apply Hni.
    apply list_elem_of_fmap. by exists (s, n).
Qed.

Lemma int64_wrap_mod z : ∃ k, int64_wrap z = (z + k * 2 ^ 64)%Z.
Proof.
  unfold int64_wrap. exists (- ((z + 2 ^ 63) / 2 ^ 64))%Z. pose proof (Z.div_mod (z + 2 ^ 63) (2 ^ 64)). lia.
Qed.
Lemma int64_wrap_congr x y : (∃ k, x = y + k * 2 ^ 64)%Z → int64_wrap x = int64_wrap y.
Proof.
  intros [k ->]. unfold int64_wrap. replace (y + k * 2 ^ 64 + 2 ^ 63)%Z with (y + 2 ^ 63 + k * 2 ^ 64)%Z by lia.
  by rewrite Z_mod_plus_full.
Qed.

(** whatever the server answers, a data point is counted once: what the writer
    adds on the server and what it then keeps is together, in the arithmetic of 64
    bits, what it kept before and the value of the point. *)
Theorem counts_conserved queue now dp st l st' :
  adds (stats_point queue now dp st) l (Ret st') →
  int64_wrap (sum l + cache_sum (rs_rateStatsCache st'))
  = int64_wrap (cache_sum (rs_rateStatsCache st) + dp_value dp).
Proof.
  unfold stats_point. set (cache := add_count now dp (rs_rateStatsCache st)). intros Ha.
  assert (Hc : int64_wrap (cache_sum cache) = int64_wrap (cache_sum (rs_rateStatsCache st) + dp_value dp)).
  { unfold cache, add_count. rewrite cache_sum_insert, names_sum_insert. set (v := default 0%Z _).
    rewrite (int64_wrap_congr (_ - _) (v + dp_value dp - v + cache_sum (rs_rateStatsCache st))); [f_equal; lia|].
    replace (int64_wrap (v + dp_value dp) + _ - v + _ - _)%Z
      with (int64_wrap (v + dp_value dp) - v + cache_sum (rs_rateStatsCache st))%Z by lia.
    destruct (int64_wrap_mod (v + dp_value dp)) as [k ->]. exists k. lia. }
  assert (Hs : (sum l + cache_sum (rs_rateStatsCache st') = cache_sum cache)%Z); [|by rewrite Hs].
  destruct (_ <? now)%Z; [|by destruct Ha as [-> [= <-]]].
  apply adds_bind in Ha as (l1 & l2 & cache' & -> & H1' & -> & [= <-]). rewrite app_nil_r.
  eapply adds_seconds; [| |exact H1'].
  - rewrite go_range_Permutation. apply NoDup_fst_map_to_list.
  - intros sec names Hin. rewrite go_range_Permutation in Hin. by apply elem_of_map_to_list.
Qed.
End Counts.

(** ** An instance *)

Module MqStatsDemo.
Import MapRange.

Definition old : rateStats := mkRateStats {[ 5%Z := {[ str "puts" := 3%Z ]} ]} 0.
Definition kept : rateStats := mkRateStats {[ 10%Z := {[ str "puts" := 1%Z ]} ]} 10.

Definition lost {R} : outcome R := Err (ELib "connection refused").

Lemma rate_lost sec name n : adds (write_rate sec (name, n)) [n] (Ret tt).
Proof. exists lost, []. split; [done|]. by exists lost, []. Qed.

Lemma lengths_lost queue now : adds (write_lengths queue now) [] (Ret tt).
Proof. do 4 (exists lost, []; split; [done|]). done. Qed.

(** The counts of second 5 are sent at second 10; no answer arrives. *)
Lemma demo_adds : adds (stats_point (str "jobs") 10 (mkDataPoint (str "puts") 1) old) [3%Z] (Ret kept).
Proof.
  set (cache := add_count 10 (mkDataPoint (str "puts") 1) (rs_rateStatsCache old)).
  change (adds (writeStatsCacheToRedis (str "jobs") 10 cache) ([3%Z] ++ []) (Ret kept)).
  unfold writeStatsCacheToRedis. replace (go_range cache) with [(5%Z, {[ str "puts" := 3%Z ]} : gmap bytes Z); (10%Z, {[ str "puts" := 1%Z ]})] by reflexivity.
  apply adds_then with (a := delete 5%Z cache); [|by split].
  cbn [write_seconds]. change [3%Z] with ([3%Z] ++ []). apply adds_then with (a := tt).
  - replace (go_range ({[ str "puts" := 3%Z ]} : gmap bytes Z)) with [(str "puts", 3%Z)] by reflexivity.
    change [3%Z] with ([3%Z] ++ []). apply adds_then with (a := tt); [apply rate_lost|by split].
  - change [] with (@nil Z ++ []). apply adds_then with (a := tt); [apply lengths_lost|by split].
Qed.

Lemma counts_conserved_witness :
  int64_wrap (sum [3%Z] + cache_sum (rs_rateStatsCache kept)) = int64_wrap (cache_sum (rs_rateStatsCache old) + 1)%Z.
Proof. exact (counts_conserved (str "jobs") 10 (mkDataPoint (str "puts") 1) old [3%Z] kept demo_adds). Defined.
End MqStatsDemo.
