(* ===== verification/ComCodecs.v ===== *)
(** * Encoders for the records of the network

    Executable [encoding/gob] instances for the records of [lib/nodeclient], made
    from the codecs of [Concrete.v], and a network without nodes; the witnesses
    about the server run on them. *)

From Stdlib Require Import Strings.Byte SpecFloat.
From stdpp Require Import base strings gmap list.
From S2P Require Import Prelude Float64 Platform Concrete Net NodeClient.

Module ComCodecs.

Definition addr_codec : codec NodeAddr :=
  codec_iso (codec_prod codec_bytes codec_Z) (λ a, (Host a, Port a)) (λ p, mkNodeAddr p.1 p.2)
    (λ '(mkNodeAddr _ _), eq_refl).

Definition ComBlock_codec : codec ComBlock :=
  codec_iso (codec_prod addr_codec codec_bytes)
    (λ x, (cb_AddrFrom x, cb_Block x))
    (λ p, mkComBlock p.1 p.2) (λ '(mkComBlock _ _), eq_refl).

Definition ComGetBlocks_codec : codec ComGetBlocks :=
  codec_iso (codec_prod addr_codec codec_bytes)
    (λ x, (cgb_AddrFrom x, cgb_StartFrom x))
    (λ p, mkComGetBlocks p.1 p.2) (λ '(mkComGetBlocks _ _), eq_refl).

Definition ComGetFirstBlocksData_codec : codec ComGetFirstBlocksData :=
  codec_iso (codec_prod (codec_list codec_bytes) codec_Z)
    (λ x, (cfb_Blocks x, cfb_Height x))
    (λ p, mkComGetFirstBlocksData p.1 p.2) (λ '(mkComGetFirstBlocksData _ _), eq_refl).

Definition ComGetData_codec : codec ComGetData :=
  codec_iso (codec_prod addr_codec (codec_prod codec_bytes codec_bytes))
    (λ x, (cgd_AddrFrom x, (cgd_Type x, cgd_ID x)))
    (λ p, mkComGetData p.1 p.2.1 p.2.2) (λ '(mkComGetData _ _ _), eq_refl).

Definition ComWalletBalance_codec : codec ComWalletBalance :=
  codec_iso (codec_prod codec_float (codec_prod codec_float codec_float))
    (λ x, (cwb_Total x, (cwb_Approved x, cwb_Pending x)))
    (λ p, mkComWalletBalance p.1 p.2.1 p.2.2) (λ '(mkComWalletBalance _ _ _), eq_refl).

Definition ComGetWalletBalance_codec : codec ComGetWalletBalance :=
  codec_iso codec_bytes
    (λ x, cgw_Address x)
    (λ p, mkComGetWalletBalance p) (λ '(mkComGetWalletBalance _), eq_refl).

Definition ComNewTransaction_codec : codec ComNewTransaction :=
  codec_iso (codec_prod codec_bytes codec_bytes)
    (λ x, (cnt_Address x, cnt_TX x))
    (λ p, mkComNewTransaction p.1 p.2) (λ '(mkComNewTransaction _ _), eq_refl).

Definition ComNewTransactionData_codec : codec ComNewTransactionData :=
  codec_iso (codec_prod codec_bytes (codec_prod codec_bytes ((codec_list codec_bytes))))
    (λ x, (cnd_Address x, (cnd_TX x, cnd_Signatures x)))
    (λ p, mkComNewTransactionData p.1 p.2.1 p.2.2) (λ '(mkComNewTransactionData _ _ _), eq_refl).

Definition ComRequestTransaction_codec : codec ComRequestTransaction :=
  codec_iso (codec_prod codec_bytes (codec_prod codec_bytes (codec_prod codec_float codec_bytes)))
    (λ x, (crt_PubKey x, (crt_To x, (crt_Amount x, crt_Signature x))))
    (λ p, mkComRequestTransaction p.1 p.2.1 p.2.2.1 p.2.2.2) (λ '(mkComRequestTransaction _ _ _ _), eq_refl).

Definition ComRequestTransactionData_codec : codec ComRequestTransactionData :=
  codec_iso (codec_prod codec_bytes ((codec_list codec_bytes)))
    (λ x, (crd_TX x, crd_DataToSign x))
    (λ p, mkComRequestTransactionData p.1 p.2) (λ '(mkComRequestTransactionData _ _), eq_refl).

Definition ComGetUnspentTransactions_codec : codec ComGetUnspentTransactions :=
  codec_iso (codec_prod codec_bytes codec_bytes)
    (λ x, (cgu_Address x, cgu_LastBlock x))
    (λ p, mkComGetUnspentTransactions p.1 p.2) (λ '(mkComGetUnspentTransactions _ _), eq_refl).

Definition ComUnspentTransaction_codec : codec ComUnspentTransaction :=
  codec_iso (codec_prod codec_bytes (codec_prod codec_Z (codec_prod codec_float (codec_prod codec_bool codec_bytes))))
    (λ x, (cut_TXID x, (cut_Vout x, (cut_Amount x, (cut_IsBase x, cut_From x)))))
    (λ p, mkComUnspentTransaction p.1 p.2.1 p.2.2.1 p.2.2.2.1 p.2.2.2.2) (λ '(mkComUnspentTransaction _ _ _ _ _), eq_refl).

Definition ComUnspentTransactions_codec : codec ComUnspentTransactions :=
  codec_iso (codec_prod (codec_list ComUnspentTransaction_codec) codec_bytes)
    (λ x, (cuts_Transactions x, cuts_LastBlock x))
    (λ p, mkComUnspentTransactions p.1 p.2) (λ '(mkComUnspentTransactions _ _), eq_refl).

Definition ComGetHistoryTransactions_codec : codec ComGetHistoryTransactions :=
  codec_iso codec_bytes
    (λ x, cgh_Address x)
    (λ p, mkComGetHistoryTransactions p) (λ '(mkComGetHistoryTransactions _), eq_refl).

Definition ComHistoryTransaction_codec : codec ComHistoryTransaction :=
  codec_iso (codec_prod codec_bool (codec_prod codec_bytes (codec_prod codec_float (codec_prod codec_bytes codec_bytes))))
    (λ x, (cht_IOType x, (cht_TXID x, (cht_Amount x, (cht_From x, cht_To x)))))
    (λ p, mkComHistoryTransaction p.1 p.2.1 p.2.2.1 p.2.2.2.1 p.2.2.2.2) (λ '(mkComHistoryTransaction _ _ _ _ _), eq_refl).

Definition ComInv_codec : codec ComInv :=
  codec_iso (codec_prod addr_codec (codec_prod codec_bytes ((codec_list codec_bytes))))
    (λ x, (ci_AddrFrom x, (ci_Type x, ci_Items x)))
    (λ p, mkComInv p.1 p.2.1 p.2.2) (λ '(mkComInv _ _ _), eq_refl).

Definition ComTx_codec : codec ComTx :=
  codec_iso (codec_prod addr_codec codec_bytes)
    (λ x, (ct_AddFrom x, ct_Transaction x))
    (λ p, mkComTx p.1 p.2) (λ '(mkComTx _ _), eq_refl).

Definition ComVersion_codec : codec ComVersion :=
  codec_iso (codec_prod codec_Z (codec_prod codec_Z addr_codec))
    (λ x, (cv_Version x, (cv_BestHeight x, cv_AddrFrom x)))
    (λ p, mkComVersion p.1 p.2.1 p.2.2) (λ '(mkComVersion _ _ _), eq_refl).

Definition ComManageNode_codec : codec ComManageNode :=
  codec_iso addr_codec
    (λ x, cmn_Node x)
    (λ p, mkComManageNode p) (λ '(mkComManageNode _), eq_refl).

Definition ComGetNodeState_codec : codec ComGetNodeState :=
  codec_iso (codec_prod codec_bytes (codec_prod codec_Z (codec_prod codec_Z (codec_prod codec_Z codec_Z))))
    (λ x, (gns_Host x, (gns_BlocksNumber x, (gns_ExpectingBlocksHeight x, (gns_TransactionsCached x, gns_UnspentOutputs x)))))
    (λ p, mkComGetNodeState p.1 p.2.1 p.2.2.1 p.2.2.2.1 p.2.2.2.2) (λ '(mkComGetNodeState _ _ _ _ _), eq_refl).

Definition go_string_codec : codec go_string :=
  codec_iso codec_bytes
    (λ x, string_bytes x)
    (λ p, mkString p) (λ '(mkString _), eq_refl).

#[export] Instance com_gob : ComGob := {
  gob_ComBlock := codec_gob ComBlock_codec;
  gob_ComGetBlocks := codec_gob ComGetBlocks_codec;
  gob_ComGetFirstBlocksData := codec_gob ComGetFirstBlocksData_codec;
  gob_ComGetData := codec_gob ComGetData_codec;
  gob_ComWalletBalance := codec_gob ComWalletBalance_codec;
  gob_ComGetWalletBalance := codec_gob ComGetWalletBalance_codec;
  gob_ComNewTransaction := codec_gob ComNewTransaction_codec;
  gob_ComNewTransactionData := codec_gob ComNewTransactionData_codec;
  gob_ComRequestTransaction := codec_gob ComRequestTransaction_codec;
  gob_ComRequestTransactionData := codec_gob ComRequestTransactionData_codec;
  gob_ComGetUnspentTransactions := codec_gob ComGetUnspentTransactions_codec;
  gob_ComUnspentTransactions := codec_gob ComUnspentTransactions_codec;
  gob_ComGetHistoryTransactions := codec_gob ComGetHistoryTransactions_codec;
  gob_ComHistoryTransactions := codec_gob (codec_list ComHistoryTransaction_codec);
  gob_ComInv := codec_gob ComInv_codec;
  gob_ComTx := codec_gob ComTx_codec;
  gob_ComVersion := codec_gob ComVersion_codec;
  gob_ComManageNode := codec_gob ComManageNode_codec;
  gob_ComGetNodeState := codec_gob ComGetNodeState_codec;
  gob_NodeAddrs := codec_gob (codec_list addr_codec);
  gob_bytes := codec_gob codec_bytes;
  gob_string := codec_gob go_string_codec
}.

#[export] Instance balance_laws : GobLaws ComWalletBalance := codec_gob_laws ComWalletBalance_codec.
#[export] Instance get_balance_laws : GobLaws ComGetWalletBalance := codec_gob_laws ComGetWalletBalance_codec.
#[export] Instance string_laws : GobLaws go_string := codec_gob_laws go_string_codec.
#[export] Instance inv_laws : GobLaws ComInv := codec_gob_laws ComInv_codec.

(** Every message is taken, no request is answered, and errors have one text. *)
#[export] Instance quiet_network : Network := {
  net_send _ _ _ := Sent;
  net_request _ _ _ := Err (EMsg "");
  Error _ := str "error"
}.
End ComCodecs.
