(* ===== verification/WalletCLI.v ===== *)
(** * Package [lib/wallet]: the commands of a wallet

    [cli.go]: what a wallet does for each command, from its wallets, a node it
    asks over the network, and what it prints.  A printed line is its format,
    with tabs as blanks and without the line end, and its arguments. *)

From Stdlib Require Import Strings.Byte ZifyNat.
From stdpp Require Import base strings numbers gmap list.
From S2P Require Import Prelude Float64 Platform Concrete Utils Blockchain Net Wire NodeClient ComCodecs Wallet.

Record AppInput := mkAppInput {
  in_Command : bytes;
  in_Address : bytes;
  in_ToAddress : bytes;
  in_Amount : float64;
  in_NodePort : Z;
  in_NodeHost : bytes;
  in_DataDir : bytes
}.

Abbreviation line := (string * list fmt_arg)%type.

(** The network object of a wallet has no storage: its methods are not there. *)
#[local] Instance no_storage : NodeNetworkStorage unit := {
  GetNodes := λ s, (Panic PNil, s);
  storage_AddNodeToKnown _ := λ s, (Panic PNil, s);
  storage_RemoveNodeFromKnown _ := λ s, (Panic PNil, s);
  GetCountOfKnownNodes := λ s, (Panic PNil, s)
}.

Section CLI.
Context `{Crypto} `{Network} `{ComGob} `{!Gob (option (gmap bytes Wallet))} `{GoRange}.
Context (write_error : bytes → option goerror).

(** [WalletsObj] is a nil pointer when the file of the wallets is there and
    cannot be read. *)
Record WalletCLI := mkWalletCLI {
  wc_Input : AppInput;
  wc_Node : NodeAddr;
  wc_NodeNet : NodeNetwork;
  wc_WalletsObj : option Wallets;
  wc_NodeMode : bool
}.

Definition initWallets (DataDir : bytes) (fs : gmap bytes bytes) : option Wallets :=
  let wallets := mkWallets DataDir (Some ∅) [] in
  match LoadFromFile wallets fs with
  | Ret wallets => Some wallets
  | Err e => if bool_decide (e = ErrNotExist) then Some wallets else None
  | _ => None
  end.

(** The error of [initWallets] is dropped. *)
Definition Init (input : AppInput) (fs : gmap bytes bytes) : WalletCLI :=
  mkWalletCLI input (mkNodeAddr (in_NodeHost input) (in_NodePort input)) (mkNodeNetwork [] false)
    (initWallets (in_DataDir input) fs) false.
Definition in_NodeMode (wc : WalletCLI) : WalletCLI :=
  mkWalletCLI (wc_Input wc) (wc_Node wc) (wc_NodeNet wc) (wc_WalletsObj wc) true.

(** The wallet, the files, and what was printed. *)
Definition cli_state : Type := WalletCLI * gmap bytes bytes * list line.

Definition the_cli {A} (g : WalletCLI → outcome A) : st cli_state A := ask (λ s, g s.1.1).
Definition Print (l : line) : st cli_state unit := λ '(wc, fs, out), (Ret tt, (wc, fs, out ++ [l])).
Definition on_wallets {A} (op : st (Wallets * gmap bytes bytes) A) : st cli_state A := λ '(wc, fs, out),
  match wc_WalletsObj wc with
  | None => (Panic PNil, (wc, fs, out))
  | Some ws =>
      let '(r, (ws, fs)) := op (ws, fs) in
      (r, (mkWalletCLI (wc_Input wc) (wc_Node wc) (wc_NodeNet wc) (Some ws) (wc_NodeMode wc), fs, out))
  end.

(** A wallet with no address of a node takes the first of the initial nodes, if
    they can be loaded. *)
Definition checkNodeAddress (fetched : outcome NodesListJSON) : st cli_state unit := λ '(wc, fs, out),
  if wc_NodeMode wc then (Ret tt, (wc, fs, out))
  else if bool_decide (Host (wc_Node wc) = []) then
    let '(_, (net, _)) := LoadInitialNodes None fetched (wc_NodeNet wc, tt) in
    let node := if (0 <? GetCountOfKnownNodes' net)%Z then nth 0 (nn_Nodes net) (wc_Node wc)
                else wc_Node wc in
    (Ret tt, (mkWalletCLI (wc_Input wc) node net (wc_WalletsObj wc) (wc_NodeMode wc), fs, out))
  else (Ret tt, (wc, fs, out)).

(** ** The commands *)

Definition commandCreatewallet (ks : key_source) : st cli_state unit :=
  address ← on_wallets (CreateWallet write_error ks);
  Print ("Your new address: %s"%string, [ABytes address]).

Definition the_addresses : st cli_state (list bytes) :=
  the_cli (λ wc, ws ← deref (wc_WalletsObj wc); Ret (GetAddresses ws)).

Definition commandListAddresses : st cli_state unit :=
  _ ← Print ("Wallets (addresses):"%string, []);
  addresses ← the_addresses;
  sfor addresses (λ _ address, Print (""%string, [ABytes address])) tt.

Definition balance_args (b : ComWalletBalance) : list fmt_arg :=
  [AFloat (cwb_Total b); AFloat (cwb_Approved b); AFloat (cwb_Pending b)].

Definition commandListAddressesExt (sent : outbox) : st cli_state unit :=
  addresses ← the_addresses;
  _ ← Print ("Balance for all addresses:"%string, []);
  _ ← Print (""%string, []);
  sfor addresses (λ _ address,
    balance ← the_cli (λ wc, SendGetBalance (wc_Node wc) address sent);
    Print ("%s: %.8f (Approved - %.8f, Pending - %.8f)"%string, ABytes address :: balance_args balance)) tt.

(** The check three commands start with. *)
Definition valid_or (e : goerror) (address : AppInput → bytes) : st cli_state unit :=
  valid ← the_cli (λ wc, ValidateAddress (address (wc_Input wc)));
  if negb valid then fail e else mret tt.
Definition err_address : goerror := EMsg "Address is not valid".

Definition history_line (rec : ComHistoryTransaction) : line :=
  if cht_IOType rec then ("%f In from %s"%string, [AFloat (cht_Amount rec); ABytes (cht_From rec)])
  else ("%f Out To %s"%string, [AFloat (cht_Amount rec); ABytes (cht_To rec)]).

Definition commandShowHistory (sent : outbox) : st cli_state unit :=
  _ ← valid_or err_address in_Address;
  list ← the_cli (λ wc, SendGetHistory (wc_Node wc) (in_Address (wc_Input wc)) sent);
  _ ← Print ("History of transactions:"%string, []);
  sfor list (λ _ rec, Print (history_line rec)) tt.

Definition unspent_line (tx : ComUnspentTransaction) : line :=
  ("%f from %s in transaction %s output #%d"%string,
   [AFloat (cut_Amount tx); ABytes (cut_From tx); AStr (hex_EncodeToString (cut_TXID tx)); AInt (cut_Vout tx)]).

Definition commandUnspentTransactions (sent : outbox) : st cli_state unit :=
  _ ← valid_or err_address in_Address;
  list ← the_cli (λ wc, SendGetUnspent (wc_Node wc) (in_Address (wc_Input wc)) [] sent);
  balance ← sfor (cuts_Transactions list) (λ balance tx,
    _ ← Print (unspent_line tx); mret (f64_add balance (cut_Amount tx))) f64_zero;
  Print ("Balance - %f"%string, [AFloat balance]).

Definition commandGetBalance (sent : outbox) : st cli_state unit :=
  _ ← valid_or err_address in_Address;
  balance ← the_cli (λ wc, SendGetBalance (wc_Node wc) (in_Address (wc_Input wc)) sent);
  address ← the_cli (λ wc, Ret (in_Address (wc_Input wc)));
  _ ← Print ("Balance of '%s': Total - %.8f"%string, [ABytes address; AFloat (cwb_Total balance)]);
  _ ← Print ("Approved - %.8f"%string, [AFloat (cwb_Approved balance)]);
  Print ("Pending - %.8f"%string, [AFloat (cwb_Pending balance)]).

(** The error of [SignDataSet] is overwritten before it is looked at; the
    signatures are then nil. *)
Definition commandSend (seeds : Z → Z → N) (sent : outbox) : st cli_state unit :=
  _ ← valid_or (EMsg "From Address is not valid") in_Address;
  _ ← valid_or (EMsg "To Address is not valid") in_ToAddress;
  amount ← the_cli (λ wc, Ret (in_Amount (wc_Input wc)));
  if f64_leb amount f64_zero then fail (EMsg "The amount of transaction must be more 0")
  else
    walletobj ← the_cli (λ wc, ws ← deref (wc_WalletsObj wc); GetWallet (in_Address (wc_Input wc)) ws);
    '(TXBytes, DataToSign) ← the_cli (λ wc, SendRequestNewTransaction (wc_Node wc)
                               (GetPublicKey walletobj) (in_ToAddress (wc_Input wc)) amount sent);
    signatures ← lift (ignore_err [] (SignDataSet (GetPublicKey walletobj) (GetPrivateKey walletobj)
                                        DataToSign seeds));
    NewTXID ← the_cli (λ wc, SendNewTransactionData (wc_Node wc) (in_Address (wc_Input wc))
                               TXBytes signatures sent);
    Print ("Success. New transaction: %x"%string, [ABytes NewTXID]).

(** What the commands take from outside: the keys and the random numbers, the
    list of initial nodes, and what was sent before. *)
Record cli_env := mkCliEnv {
  ce_keys : key_source;
  ce_seeds : Z → Z → N;
  ce_fetched : outcome NodesListJSON;
  ce_sent : outbox
}.

Definition local_commands : list bytes := [str "createwallet"; str "listaddresses"].

Definition ExecuteCommand (e : cli_env) : st cli_state unit :=
  command ← the_cli (λ wc, Ret (in_Command (wc_Input wc)));
  let cmd c := bool_decide (command = str c) in
  _ ← (if bool_decide (command ∈ local_commands) then mret tt else checkNodeAddress (ce_fetched e));
  if cmd "createwallet"%string then commandCreatewallet (ce_keys e)
  else if cmd "listaddresses"%string then commandListAddresses
  else if cmd "getbalances"%string || cmd "listbalances"%string then commandListAddressesExt (ce_sent e)
  else if cmd "getbalance"%string then commandGetBalance (ce_sent e)
  else if cmd "send"%string then commandSend (ce_seeds e) (ce_sent e)
  else if cmd "showunspent"%string then commandUnspentTransactions (ce_sent e)
  else if cmd "showhistory"%string then commandShowHistory (ce_sent e)
  else fail (EMsg "Unknown wallets command").
End CLI.

(** ** What the commands do *)

Section Laws.
Context `{CryptoLaws} `{Network} `{ComGob} `{!Gob (option (gmap bytes Wallet))} `{GoRangeLaws}.
Context `{!GobLaws (option (gmap bytes Wallet))} (write_error : bytes → option goerror).
Implicit Types (wc : WalletCLI) (fs : gmap bytes bytes) (out : list line).

Lemma Print_all {A} (g : A → line) l wc fs out :
  sfor l (λ _ a, Print (g a)) tt (wc, fs, out) = (Ret tt, (wc, fs, out ++ map g l)).
Proof.
  revert out. induction l as [|a l IH]; intros out; cbn; [by rewrite app_nil_r|].
  unfold mbind, st_bind. cbn. by rewrite IH, <- app_assoc.
Qed.

(** The lines [listaddresses] prints. *)
Definition address_line (address : bytes) : line := (""%string, [ABytes address]).

Lemma listaddresses_run e wc fs out ws :
  in_Command (wc_Input wc) = str "listaddresses" → wc_WalletsObj wc = Some ws →
  ExecuteCommand write_error e (wc, fs, out) =
  (Ret tt, (wc, fs, out ++ ("Wallets (addresses):"%string, []) :: map address_line (GetAddresses ws))).
Proof.
  intros Hc Hw. unfold ExecuteCommand, the_cli. unfold mbind at 1, st_bind at 1, ask. cbn [fst]. rewrite Hc.
  unfold mbind at 1, st_bind at 1. rewrite bool_decide_eq_true_2 by (right; left).
  change (bool_decide (str "listaddresses" = str "createwallet")) with false.
  change (bool_decide (str "listaddresses" = str "listaddresses")) with true. cbv iota.
  unfold commandListAddresses, the_addresses, the_cli, ask, mbind, st_bind. cbn [Print mret st_ret fst]. rewrite Hw. cbn.
  by rewrite Print_all, <- app_assoc.
Qed.

Lemma createwallet_run e wc fs out :
  in_Command (wc_Input wc) = str "createwallet" →
  ExecuteCommand write_error e (wc, fs, out) = commandCreatewallet write_error (ce_keys e) (wc, fs, out).
Proof.
  intros Hc. unfold ExecuteCommand, the_cli. unfold mbind at 1, st_bind at 1, ask. cbn [fst]. rewrite Hc.
  unfold mbind at 1, st_bind at 1. by rewrite bool_decide_eq_true_2 by left.
Qed.

(** C26: the address that [createwallet] prints is among those that [listaddresses]
    lists the next time the program runs with the same data directory, next to
    all that were there before. *)
Theorem created_is_listed e e' input input' fs ws m w :
  in_Command input = str "createwallet" → in_Command input' = str "listaddresses" →
  in_DataDir input' = in_DataDir input →
  initWallets (in_DataDir input) fs = Some ws → ws_Wallets ws = Some m →
  MakeWallet (ce_keys e) = Ret (Some w) → write_error (in_DataDir input ++ walletFile) = None →
  let address := GetAddress (w_PublicKey w) in
  ∃ wc fs' listed,
    ExecuteCommand write_error e (Init input fs, fs, []) =
      (Ret tt, (wc, fs', [("Your new address: %s"%string, [ABytes address])])) ∧
    ExecuteCommand write_error e' (Init input' fs', fs', []) =
      (Ret tt, (Init input' fs', fs', ("Wallets (addresses):"%string, []) :: map address_line listed)) ∧
    (∀ a, a ∈ listed ↔ a = address ∨ a ∈ GetAddresses ws).
Proof.
  intros Hc Hc' Hd Hws Hm Hw Hwrite address.
  assert (Hdir : ws_DataDir ws = in_DataDir input).
  { unfold initWallets in Hws. destruct (LoadFromFile _ fs) as [ws0|er|p|] eqn:El; [|case_bool_decide|..];
      simplify_eq; [|done]. unfold LoadFromFile in El. go_inv El. by simplify_eq. }
  destruct (CreateWallet_spec write_error (ce_keys e) w ws m fs Hw Hm) as (ws' & fs' & Hcr & _ & _ & _ & Hin & Hload);
    [by rewrite Hdir|]. rewrite Hdir in Hload.
  assert (Hinit : initWallets (in_DataDir input) fs' = Some (mkWallets (in_DataDir input) (ws_Wallets ws') [])).
  { unfold initWallets. by rewrite Hload. }
  eexists _, fs', (GetAddresses ws'). split; [|split].
  - rewrite createwallet_run by done. unfold commandCreatewallet, on_wallets, mbind, st_bind. cbn [wc_WalletsObj Init].
    rewrite Hws, Hcr. reflexivity.
  - rewrite (listaddresses_run e' _ fs' [] (mkWallets (in_DataDir input) (ws_Wallets ws') [])); [done..|].
    cbn. by rewrite Hd.
  - done.
Qed.

(** What [send] asks of the node, and signs, for the wallet [w]: the identity of
    the new transaction. *)
Definition payment (wc : WalletCLI) (w : Wallet) (seeds : Z → Z → N) (sent : outbox) : outcome bytes :=
  let input := wc_Input wc in
  '(TXBytes, DataToSign) ← SendRequestNewTransaction (wc_Node wc) (w_PublicKey w) (in_ToAddress input)
                             (in_Amount input) sent;
  signatures ← ignore_err [] (SignDataSet (w_PublicKey w) (w_PrivateKey w) DataToSign seeds);
  SendNewTransactionData (wc_Node wc) (in_Address input) TXBytes signatures sent.

(** The checks of [send] before it asks the node. *)
Definition send_checks (wc : WalletCLI) : outcome Wallet :=
  let input := wc_Input wc in
  from ← ValidateAddress (in_Address input);
  if negb from then Err (EMsg "From Address is not valid")
  else
    to ← ValidateAddress (in_ToAddress input);
    if negb to then Err (EMsg "To Address is not valid")
    else if f64_leb (in_Amount input) f64_zero then Err (EMsg "The amount of transaction must be more 0")
    else
      ws ← deref (wc_WalletsObj wc);
      GetWallet (in_Address input) ws.

(** [send] changes neither the wallets nor the files.  It stops at the first
    check that fails; it asks the node for a transaction with the key of the
    wallet at the address it sends from, returns the signed texts, and prints
    the identity of the new transaction when the node accepts it and nothing
    otherwise. *)
Theorem commandSend_spec seeds sent wc fs out :
  commandSend seeds sent (wc, fs, out) =
  let r := w ← send_checks wc; payment wc w seeds sent in
  (_ ← r; Ret tt, (wc, fs, match r with
                           | Ret id => out ++ [("Success. New transaction: %x"%string, [ABytes id])]
                           | _ => out
                           end)).
Proof.
  unfold commandSend, send_checks, payment, valid_or, the_cli, ask, fail, lift, GetPublicKey, GetPrivateKey.
  unfold mbind, st_bind, outcome_bind. cbn [fst].
  destruct (ValidateAddress (in_Address _)) as [[]|e|p|]; [|done..]. cbn [negb fst mret st_ret].
  destruct (ValidateAddress (in_ToAddress _)) as [[]|e|p|]; [|done..]. cbn [negb fst mret st_ret].
  destruct (f64_leb _ _); [done|]. cbn [fst]. destruct (wc_WalletsObj wc) as [ws|]; [|done]. cbn [deref].
  destruct (GetWallet _ ws) as [w|e|p|]; [|done..]. cbn [fst].
  destruct (SendRequestNewTransaction _ _ _ _ _) as [[tx texts]|e|p|]; [|done..].
  destruct (ignore_err _ _) as [sigs|e|p|]; [|done..]. cbn [fst].
  by destruct (SendNewTransactionData _ _ _ _ _) as [id|e|p|].
Qed.
End Laws.

(** ** An instance *)

Module WalletCLIDemo.
Import ToyCrypto MapRange ComCodecs WalletDemo.

Definition input (command : string) : AppInput :=
  mkAppInput (str command) [] [] f64_zero 0 [] (str "data/").
Definition env : cli_env := mkCliEnv keys (λ _ _, 0%N) (Err (ELib "http")) [].
Definition new_address : bytes := GetAddress [x07; x07].

Lemma created_is_listed_witness :
  ∃ wc fs' listed,
    ExecuteCommand no_error env (Init (input "createwallet") ∅, ∅, []) =
      (Ret tt, (wc, fs', [("Your new address: %s"%string, [ABytes new_address])])) ∧
    ExecuteCommand no_error env (Init (input "listaddresses") fs', fs', []) =
      (Ret tt, (Init (input "listaddresses") fs', fs',
                ("Wallets (addresses):"%string, []) :: map address_line listed)) ∧
    new_address ∈ listed.
Proof.
  destruct (created_is_listed no_error env env (input "createwallet") (input "listaddresses") ∅
    (empty_wallets []) ∅ made) as (wc & fs' & listed & Hc & Hl & Hin); try reflexivity.
  exists wc, fs', listed. split; [exact Hc|]. split; [exact Hl|]. apply Hin. by left.
Defined.

(** A file of wallets that cannot be read ends the next command in a panic. *)
Example unreadable_wallets_panic :
  let fs := {[ str "data/wallet.dat" := str "not a gob" ]} in
  (ExecuteCommand no_error env (Init (input "listaddresses") fs, fs, [])).1 = Panic PNil.
Proof. reflexivity. Qed.
End WalletCLIDemo.
