(* ===== verification/Daemon.v ===== *)
(** * Package [node/server]: the node as a background process

    [daemon.go]: the file with the process number, the port, the authentication
    text and the result of the start, through which the process that starts a
    node, the node itself and later commands talk to each other.  Signals and
    channels are in [Shutdown.v]. *)

From Stdlib Require Import Strings.Byte ZifyNat.
From stdpp Require Import base strings numbers gmap list.
From S2P Require Import Prelude Text Float64 Platform Concrete Utils Blockchain Net Wire NodeClient.
From S2P Require Import ComCodecs Wallet WalletCLI.

(** The content of the file, if it is there. *)
Abbreviation pid_file := (option bytes).

(** What [os.Create] and the writing return. *)
Record io_result := mkIO { io_create : option goerror; io_write : option goerror }.
Definition io_fine : io_result := mkIO None None.

(** *** [savePIDFile] and [loadPIDFile] *)

Definition pid_text (pid port : Z) (authstr startresult : bytes) : bytes :=
  Itoa pid ++ str " " ++ Itoa port ++ str " " ++ authstr ++ str " " ++ startresult.

(** [random] is the text that [utils.RandString] makes. *)
Definition savePIDFile (io : io_result) (random : bytes) (pid port : Z) (authstr startresult : bytes)
    : st pid_file bytes := λ file,
  match io_create io with
  | Some e => (Err e, file)
  | None =>
      let authstr := if bool_decide (authstr = []) then random else authstr in
      let startresult := if (1 <? Z.of_nat (length startresult))%Z
                         then base64_EncodeToString startresult else startresult in
      match io_write io with
      | Some e => (Err e, Some [])
      | None => (Ret authstr, Some (pid_text pid port authstr startresult))
      end
  end.

Definition err_pid_format : goerror := EMsg "PID file wrong format".

Definition loadPIDFile (file : pid_file) : outcome (Z * Z * bytes * bytes) :=
  match file with
  | None => Ret ((-1)%Z, 0%Z, [], [])
  | Some contents =>
      match Split " "%byte contents with
      | [pidstring; portstring; authstring; startresult] =>
          let startresult := if (1 <? Z.of_nat (length startresult))%Z
                             then base64_DecodeString startresult else startresult in
          port ← Atoi portstring;
          pid ← Atoi pidstring;
          Ret (pid, port, authstring, startresult)
      | _ => Err err_pid_format
      end
  end.

(** Callers that drop the error get zero values. *)
Definition pid_values (file : pid_file) : Z * Z * bytes * bytes :=
  match loadPIDFile file with Ret v => v | _ => (0%Z, 0%Z, [], []) end.

Section Processes.
(** The processes that exist. *)
Context (checkProcessExists : Z → bool).

(** A live process number in the file. *)
Definition running (file : pid_file) : option (Z * Z) :=
  match loadPIDFile file with
  | Ret (ProcessID, Port, _, _) =>
      if (0 <? ProcessID)%Z && checkProcessExists ProcessID then Some (ProcessID, Port) else None
  | _ => None
  end.

Definition err_running : goerror := EMsg "Already running or PID file exists".

Definition checkPIDFile : st pid_file unit := λ file,
  match file with
  | None => (Ret tt, file)
  | Some _ => match running file with
              | Some _ => (Err err_running, file)
              | None => (Ret tt, None)
              end
  end.

Definition GetServerState : st pid_file (bool * Z * Z) := λ file,
  match loadPIDFile file with
  | Ret (ProcessID, Port, _, _) =>
      if (0 <? ProcessID)%Z then
        if checkProcessExists ProcessID then (Ret (true, ProcessID, Port), file)
        else (Ret (false, 0%Z, 0%Z), None)
      else (Ret (false, 0%Z, 0%Z), file)
  | _ => (Ret (false, 0%Z, 0%Z), file)
  end.
End Processes.

Definition GetRunningProcessInfo (file : pid_file) : Z * bytes :=
  match loadPIDFile file with
  | Ret (_, port, authstr, _) => if (0 <? port)%Z then (port, authstr) else (0%Z, [])
  | _ => (0%Z, [])
  end.

(** The second component are the processes that got a signal; an error of the
    signal is dropped. *)
Definition StopServer : st (pid_file * list Z) unit := λ '(file, signals),
  match loadPIDFile file with
  | Ret (ProcessID, _, _, _) =>
      if (0 <? ProcessID)%Z then (Ret tt, (None, signals ++ [ProcessID])) else (Ret tt, (file, signals))
  | Err e => (Err e, (file, signals))
  | Panic p => (Panic p, (file, signals))
  | OutOfFuel => (OutOfFuel, (file, signals))
  end.

(** *** Starting *)

Section Start.
Context `{Crypto} `{!Gob (option (gmap bytes Wallet))}.

Definition checkArgumentsAreFine (port : Z) (MinterAddress DataDir : bytes) (fs : gmap bytes bytes)
    : outcome unit :=
  if (port <? 1)%Z then Err (EMsg "Node port is not provided")
  else if (port <? 1025)%Z || (65536 <? port)%Z
  then Err (EMsg "Node port has wrong value. Must be more 1024 and less 65536")
  else if bool_decide (MinterAddress = []) then Err (EMsg "Minter Address is not provided")
  else
    ws ← deref (initWallets DataDir fs);
    match GetWallet MinterAddress ws with
    | Err _ => Err (EMsg "Minter Address can not be loaded from wallet. Does it exist?")
    | r => _ ← r; Ret tt
    end.

(** The loop of [StartServer]; [polls i] is the file at the [i]-th look. *)
Fixpoint wait_started (fuel : nat) (i : Z) (polls : Z → pid_file) : outcome unit :=
  match fuel with
  | O => OutOfFuel
  | S fuel' =>
      match loadPIDFile (polls i) with
      | Ret (_, _, _, startres) =>
          if negb (bool_decide (startres = str "y")) && negb (bool_decide (startres = str "n"))
          then Err (EFmt "%s" [ABytes startres])
          else if bool_decide (startres = str "y") || (10 <? i)%Z then Ret tt
          else wait_started fuel' (i + 1) polls
      | _ => Ret tt
      end
  end.
Definition wait_fuel : nat := 12.

(** [started] is the new process; when it could not be started its number is read
    all the same.  The file is there from the call of [savePIDFile] on. *)
Definition StartServer (alive : Z → bool) (port : Z) (MinterAddress DataDir : bytes)
    (fs : gmap bytes bytes) (started : option Z) (io : io_result) (random : bytes)
    (polls : Z → pid_file) : st pid_file unit :=
  _ ← checkPIDFile alive;
  _ ← lift (checkArgumentsAreFine port MinterAddress DataDir fs);
  pid ← lift (deref started);
  _ ← drop_err (savePIDFile io random pid port [] (str "n"));
  lift (wait_started wait_fuel 0 polls).

(** Up to the start of the server, with the authentication text it gets. *)
Definition StartServerInteractive (alive : Z → bool) (port : Z) (MinterAddress DataDir : bytes)
    (fs : gmap bytes bytes) (pid : Z) (io : io_result) (random : bytes) : st pid_file bytes :=
  _ ← checkPIDFile alive;
  _ ← lift (checkArgumentsAreFine port MinterAddress DataDir fs);
  _ ← savePIDFile io random pid port [] (str "y");
  ask (λ file, Ret (pid_values file).1.2).
End Start.

(** [DaemonizeServer] reads the authentication text first of all. *)
Definition DaemonizeServer_auth (file : pid_file) : bytes := (pid_values file).1.2.

(** The result of the start is empty when it went well. *)
Definition waitServerStarted (io : io_result) (random result : bytes) : st pid_file unit := λ file,
  let result := if bool_decide (result = []) then str "y" else result in
  match loadPIDFile file with
  | Ret (pid, port, authstring, _) =>
      drop_err (savePIDFile io random pid port authstring result) file
  | _ => (Ret tt, file)
  end.

(** ** The file is read back *)

Definition no_blank (s : bytes) : Prop := " "%byte ∉ s.

(** Results that the file keeps: those of one character that is no blank, and
    all longer ones. *)
Definition kept (startresult : bytes) : Prop := 1 < length startresult ∨ no_blank startresult.

Definition encoded (startresult : bytes) : bytes :=
  if (1 <? Z.of_nat (length startresult))%Z then base64_EncodeToString startresult else startresult.
Definition decoded (startresult : bytes) : bytes :=
  if (1 <? Z.of_nat (length startresult))%Z then base64_DecodeString startresult else startresult.

Lemma decoded_encoded r : decoded (encoded r) = r.
Proof.
  unfold decoded, encoded. destruct (Z.ltb_spec 1 (Z.of_nat (length r))) as [Hl|Hl].
  - pose proof (base64_Encode_length r ltac:(by destruct r)).
    rewrite (proj2 (Z.ltb_lt _ _)) by lia. apply base64_DecodeString_EncodeToString.
  - by rewrite (proj2 (Z.ltb_ge _ _)) by lia.
Qed.

Lemma encoded_no_blank r : kept r → no_blank (encoded r).
Proof.
  intros Hk. unfold encoded. destruct (Z.ltb_spec 1 (Z.of_nat (length r))) as [Hl|Hl].
  - intros Hin. pose proof (base64_Encode_plain r) as Hp. rewrite Forall_forall in Hp.
    by destruct (Hp _ Hin).
  - destruct Hk; [lia|done].
Qed.

Lemma Itoa_no_blank z : no_blank (Itoa z).
Proof. apply Itoa_not; [left; vm_compute; reflexivity|done]. Qed.

Lemma loadPIDFile_text pid port authstr r :
  is_int64 pid → is_int64 port → no_blank authstr → no_blank r →
  loadPIDFile (Some (pid_text pid port authstr r)) = Ret (pid, port, authstr, decoded r).
Proof.
  intros Hpid Hport Ha Hr. unfold loadPIDFile.
  change (pid_text pid port authstr r)
    with (Itoa pid ++ " "%byte :: Itoa port ++ " "%byte :: authstr ++ " "%byte :: r).
  rewrite (Split_cons _ (Itoa pid)), (Split_cons _ (Itoa port)), (Split_cons _ authstr), (Split_notin _ r)
    by (done || apply Itoa_no_blank).
  by rewrite !Atoi_Itoa.
Qed.

Lemma savePIDFile_load random pid port authstr startresult file :
  is_int64 pid → is_int64 port → no_blank random → no_blank authstr → kept startresult →
  let auth := if bool_decide (authstr = []) then random else authstr in
  ∃ file', savePIDFile io_fine random pid port authstr startresult file = (Ret auth, file') ∧
    loadPIDFile file' = Ret (pid, port, auth, startresult).
Proof.
  intros Hpid Hport Hrnd Ha Hk auth. exists (Some (pid_text pid port auth (encoded startresult))).
  split; [reflexivity|]. rewrite loadPIDFile_text, decoded_encoded; [done..| |by apply encoded_no_blank].
  unfold auth. by case_bool_decide.
Qed.

(** what is saved about a process is read back by other processes: its number
    and port, the authentication text that was given or made, and the result of
    the start, whatever characters its text has. *)
Theorem loadPIDFile_savePIDFile random pid port authstr startresult file :
  is_int64 pid → is_int64 port → no_blank random → no_blank authstr → kept startresult →
  let auth := if bool_decide (authstr = []) then random else authstr in
  ∃ file', savePIDFile io_fine random pid port authstr startresult file = (Ret auth, file') ∧
    loadPIDFile file' = Ret (pid, port, auth, startresult) ∧
    ((0 < port)%Z → GetRunningProcessInfo file' = (port, auth)) ∧
    ∀ alive, (0 < pid)%Z →
      GetServerState alive file' = if alive pid then (Ret (true, pid, port), file')
                                   else (Ret (false, 0%Z, 0%Z), None).
Proof.
  intros Hpid Hport Hrnd Ha Hk auth.
  destruct (savePIDFile_load random pid port authstr startresult file) as (file' & Hs & Hl); [done..|].
  exists file'. split; [done|]. split; [done|]. split.
  - intros Hp. unfold GetRunningProcessInfo. rewrite Hl. by rewrite (proj2 (Z.ltb_lt 0 port)).
  - intros alive Hp. unfold GetServerState. rewrite Hl. by rewrite (proj2 (Z.ltb_lt 0 pid)).
Qed.

(** ** Starting a node *)

(** A start is refused exactly while the process of the file exists; what is left
    of another one is removed. *)
Lemma checkPIDFile_spec alive file :
  checkPIDFile alive file = match running alive file with
                            | Some _ => (Err err_running, file)
                            | None => (Ret tt, None)
                            end.
Proof. by destruct file. Qed.

(** The file before and after the node reported its start. *)
Lemma wait_started_spec n i polls before after k result :
  (i + Z.of_nat n = 12)%Z → (0 ≤ i)%Z → (i ≤ k)%Z → result ≠ str "n" →
  (∀ j, (i ≤ j < k)%Z → polls j = before) → (∀ j, (k ≤ j)%Z → polls j = after) →
  (∃ p, loadPIDFile before = Ret (p, str "n")) → (∃ p, loadPIDFile after = Ret (p, result)) →
  n ≠ 0 →
  wait_started n i polls = if (k <=? 11)%Z && negb (bool_decide (result = str "y"))
                           then Err (EFmt "%s" [ABytes result]) else Ret tt.
Proof.
  intros Hn Hi Hik Hr Hb Ha [[[p0 p1] p2] Hlb] [[[q0 q1] q2] Hla] Hn0.
  revert i Hn Hi Hik Hb Hn0. induction n as [|n IH]; [done|]. intros i Hn Hi Hik Hb _. cbn [wait_started].
  destruct (decide (i = k)) as [->|Hne].
  - rewrite (Ha k) by lia. rewrite Hla. rewrite (proj2 (Z.leb_le k 11)) by lia. cbn [andb].
    rewrite (bool_decide_eq_false_2 (result = str "n")) by done.
    case_bool_decide as Hy; [subst result|]; done.
  - rewrite (Hb i) by lia. rewrite Hlb. change (bool_decide (str "n" = str "y")) with false.
    change (bool_decide (str "n" = str "n")) with true. cbn [negb andb orb].
    destruct (Z.ltb_spec 10 i).
    + rewrite (proj2 (Z.leb_gt k 11)) by lia. done.
    + apply IH; try lia. intros j Hj. apply Hb. lia.
Qed.

(** The node reads its authentication text from the file the starting process
    saved, and then reports its start. *)
Definition node_reports (io : io_result) (random result : bytes) (file : pid_file) : bytes * pid_file :=
  (DaemonizeServer_auth file, (waitServerStarted io random result file).2).

(** C27: when the starting process has saved the file before the node reads it,
    the node gets the authentication text that later commands find in the file,
    and the starting process, which looks at the file once a second and at most
    twelve times, returns the error of the node if it reports one in time and
    no error otherwise. *)
Theorem start_reports random random' pid port result file k polls :
  is_int64 pid → is_int64 port → (0 < port)%Z → random ≠ [] → no_blank random → no_blank random' →
  (result = [] ∨ 1 < length result) → (0 ≤ k)%Z →
  let saved := (savePIDFile io_fine random pid port [] (str "n") file).2 in
  let '(auth, reported) := node_reports io_fine random' result saved in
  (∀ j, polls j = if (j <? k)%Z then saved else reported) →
  auth = random ∧ GetRunningProcessInfo reported = (port, auth) ∧
  wait_started wait_fuel 0 polls =
    if (k <=? 11)%Z && negb (bool_decide (result = [])) then Err (EFmt "%s" [ABytes result]) else Ret tt.
Proof.
  intros Hpid Hport Hp Hne Hrnd Hrnd' Hres Hk saved.
  destruct (savePIDFile_load random pid port [] (str "n") file) as (s & Hs & Hl); [done|done|done|by apply not_elem_of_nil| |].
  { right. by apply not_elem_of_cons; split; [|apply not_elem_of_nil]. }
  subst saved. rewrite Hs. cbn [snd].
  rewrite bool_decide_eq_true_2 in Hl, Hs by done.
  set (shown := if bool_decide (result = []) then str "y" else result).
  assert (Hshown : kept shown).
  { unfold shown. case_bool_decide; [right|left; naive_solver].
    by apply not_elem_of_cons; split; [|apply not_elem_of_nil]. }
  destruct (savePIDFile_load random' pid port random shown s) as (r & Hr & Hlr); [done..|].
  rewrite bool_decide_eq_false_2 in Hlr by done.
  unfold node_reports, waitServerStarted. rewrite Hl. fold shown. unfold drop_err. rewrite Hr. cbn [snd].
  intros Hpolls. unfold DaemonizeServer_auth, pid_values. rewrite Hl. cbn [fst snd]. split; [done|]. split.
  - unfold GetRunningProcessInfo. rewrite Hlr. by rewrite (proj2 (Z.ltb_lt 0 port)).
  - unfold wait_fuel. rewrite (wait_started_spec 12 0 polls s r k shown); [|lia|lia|lia| | | |by eexists|by eexists|done].
    + unfold shown. destruct (decide (result = [])) as [ ->|E]; [by destruct (k <=? 11)%Z|].
      rewrite (bool_decide_eq_false_2 (result = [])) by done.
      rewrite (bool_decide_eq_false_2 (result = str "y")); [done|]. intros ->. destruct Hres as [?|Hlen]; [done|].
      cbn in Hlen. lia.
    + unfold shown. destruct (decide (result = [])) as [ ->|E]; [done|].
      rewrite (bool_decide_eq_false_2 (result = [])) by done. intros ->.
      destruct Hres as [?|Hlen]; [done|]. cbn in Hlen. lia.
    + intros j Hj. rewrite Hpolls. by rewrite (proj2 (Z.ltb_lt j k)) by lia.
    + intros j Hj. rewrite Hpolls. by rewrite (proj2 (Z.ltb_ge j k)) by lia.
Qed.

(** ** The theorems at work *)

Module DaemonDemo.

Definition auth_text : bytes := str "kXbQpLmRtYcd".

Lemma plain_text (s : bytes) : forallb (λ c, negb (bool_decide (c = " "%byte))) s = true → no_blank s.
Proof.
  rewrite forallb_forall. intros Hf Hin. apply list_elem_of_In in Hin. specialize (Hf _ Hin).
  by rewrite bool_decide_eq_true_2 in Hf.
Qed.

Lemma loadPIDFile_savePIDFile_witness :
  ∃ file', loadPIDFile file' = Ret (4711%Z, 20000%Z, auth_text, str "Port is in use") ∧
    GetRunningProcessInfo file' = (20000%Z, auth_text).
Proof.
  destruct (loadPIDFile_savePIDFile auth_text 4711 20000 [] (str "Port is in use") None)
    as (file' & _ & Hl & Hi & _).
  - by vm_compute.
  - by vm_compute.
  - by apply plain_text.
  - by apply plain_text.
  - left. vm_compute. lia.
  - exists file'. split; [exact Hl|]. by apply Hi.
Defined.

Definition saved : pid_file := (savePIDFile io_fine auth_text 4711 20000 [] (str "n") None).2.
Definition failure : bytes := str "Port is in use".
Definition reported : pid_file := (node_reports io_fine auth_text failure saved).2.

(** The node reports its failure after five seconds. *)
Lemma start_reports_witness :
  wait_started wait_fuel 0 (λ j, if (j <? 5)%Z then saved else reported) = Err (EFmt "%s" [ABytes failure]).
Proof.
  destruct (start_reports auth_text auth_text 4711 20000 failure None 5
    (λ j, if (j <? 5)%Z then saved else reported)) as (_ & _ & Hw).
  - by vm_compute.
  - by vm_compute.
  - done.
  - done.
  - by apply plain_text.
  - by apply plain_text.
  - right. vm_compute. lia.
  - done.
  - done.
  - exact Hw.
Defined.

(** Nothing makes the node wait for the file: a node that reads it before it is
    saved has no authentication text and reports its start in a file that is then
    overwritten.  Later commands have a text that the node refuses. *)
Example node_reads_first :
  let '(auth, file) := node_reports io_fine (str "aaaa") [] None in
  let file := (savePIDFile io_fine auth_text 4711 20000 [] (str "n") file).2 in
  auth = [] ∧ GetRunningProcessInfo file = (20000%Z, auth_text) ∧
  wait_started wait_fuel 0 (λ _, file) = Ret tt.
Proof. by vm_compute. Qed.

(** A program that could not be started has no process number to read. *)
Example not_started_panics `{Crypto} `{!Gob (option (gmap bytes Wallet))} alive port minter dir fs io random polls file :
  checkArgumentsAreFine port minter dir fs = Ret tt → running alive file = None →
  (StartServer alive port minter dir fs None io random polls file).1 = Panic PNil.
Proof.
  intros Ha Hr. unfold StartServer, mbind at 1, st_bind at 1. rewrite checkPIDFile_spec, Hr.
  unfold mbind, st_bind, lift. by rewrite Ha.
Qed.
End DaemonDemo.
