(* ===== verification/Shutdown.v ===== *)
(** * Starting and stopping the server

    [DaemonizeServer] of [daemon.go] and the loops of [server.go]: the main routine,
    the routine that waits for a signal, the one that waits for the result of the
    start, the block builder and the routines of the requests.  What they work on is
    in the other files; here are the channels that they send on, wait at and close,
    and the file of the process. *)

From Stdlib Require Import Strings.Byte ZifyNat.
From stdpp Require Import base strings numbers gmap list relations.
From S2P Require Import Prelude Text Float64 Platform Concrete Utils Net Daemon.

(** Where the routines are.  The main routine listens, tells the result of the start,
    accepts, looks at [StopMainChan], closes [StopMainConfirmChan], tells the builder
    to exit and waits for [theendchan] and for [serverStartResult]; when it cannot
    listen it tells the error and closes [StopMainConfirmChan]. *)
Inductive main_pc := MListen | MFailed (text : bytes) | MFailedClose | MStarted | MAccept | MCheck | MClosing | MTelling | MWaitEnd | MWaitResult | MDone.
Inductive signal_pc := SWaiting | SClosing | SVoid | SConfirming | SRemoving | SEnding | SDone.
Inductive result_pc := RWaiting | RGot (result : bytes) | RClosing | RDone.
Inductive builder_pc := BNone | BWaiting | BWorking | BClosing | BDone.

(** Which channels are closed. *)
Record closed := mkClosed { c_StopMain : bool; c_StopMainConfirm : bool; c_theend : bool; c_StartResult : bool; c_BlockBilder : bool }.

(** The routines, how many requests there are, how many connections wait to be
    accepted, the signals to the builder, and the file of the process. *)
Record daemon := mkDaemon {
  d_main : main_pc; d_signal : signal_pc; d_result : result_pc; d_builder : builder_pc;
  d_requests : nat; d_backlog : nat; d_listening : bool;
  d_BlockBilderChan : list bytes; d_closed : closed;
  d_file : pid_file; d_panicked : bool
}.
Definition daemon_init (file : pid_file) : daemon :=
  mkDaemon MListen SWaiting RWaiting BNone 0 0 false [] (mkClosed false false false false false) file false.

Definition set_main (m : main_pc) '(mkDaemon _ g r b n k l q c f p) : daemon := mkDaemon m g r b n k l q c f p.
Definition set_signal (g : signal_pc) '(mkDaemon m _ r b n k l q c f p) : daemon := mkDaemon m g r b n k l q c f p.
Definition set_result (r : result_pc) '(mkDaemon m g _ b n k l q c f p) : daemon := mkDaemon m g r b n k l q c f p.
Definition set_builder (b : builder_pc) '(mkDaemon m g r _ n k l q c f p) : daemon := mkDaemon m g r b n k l q c f p.
Definition set_requests (n : nat) '(mkDaemon m g r b _ k l q c f p) : daemon := mkDaemon m g r b n k l q c f p.
Definition set_net (k : nat) (l : bool) '(mkDaemon m g r b n _ _ q c f p) : daemon := mkDaemon m g r b n k l q c f p.
Definition set_signals (q : list bytes) '(mkDaemon m g r b n k l _ c f p) : daemon := mkDaemon m g r b n k l q c f p.
Definition set_closed (c : closed) '(mkDaemon m g r b n k l q _ f p) : daemon := mkDaemon m g r b n k l q c f p.
Definition set_file (f : pid_file) '(mkDaemon m g r b n k l q c _ p) : daemon := mkDaemon m g r b n k l q c f p.
(** A run-time panic of a routine ends the program. *)
Definition panics '(mkDaemon m g r b n k l q c f _) : daemon := mkDaemon m g r b n k l q c f true.

(** Closing a channel twice panics. *)
Definition close (is_closed : closed → bool) (close_it : closed → closed) (s : daemon) : daemon :=
  if is_closed (d_closed s) then panics s else set_closed (close_it (d_closed s)) s.
Definition close_StopMain : daemon → daemon := close c_StopMain (λ '(mkClosed _ b c d e), mkClosed true b c d e).
Definition close_StopMainConfirm : daemon → daemon := close c_StopMainConfirm (λ '(mkClosed a _ c d e), mkClosed a true c d e).
Definition close_theend : daemon → daemon := close c_theend (λ '(mkClosed a b _ d e), mkClosed a b true d e).
Definition close_StartResult : daemon → daemon := close c_StartResult (λ '(mkClosed a b c _ e), mkClosed a b c true e).
Definition close_BlockBilder : daemon → daemon := close c_BlockBilder (λ '(mkClosed a b c d _), mkClosed a b c d true).

Definition signals_size : nat := 100.

(** [TryToMakeNewBlock]: the signal is dropped when the channel is full. *)
Definition send_signal (tx : bytes) (s : daemon) : daemon :=
  if c_BlockBilder (d_closed s) then panics s
  else if length (d_BlockBilderChan s) <? signals_size then set_signals (d_BlockBilderChan s ++ [tx]) s
  else s.

(** The next step of the main routine, where it is not the network's. *)
Definition main_step (s : daemon) : option daemon :=
  match d_main s, d_result s with
  | MFailed text, RWaiting => Some (set_result (RGot text) (set_main MFailedClose s))
  | MFailedClose, _ => Some (close_StopMainConfirm (set_main MWaitResult s))
  | MStarted, RWaiting => Some (set_result (RGot []) (set_builder BWaiting (set_main MAccept s)))
  | MAccept, _ => match d_backlog s with O => None | S k => Some (set_net k (d_listening s) (set_main MCheck s)) end
  | MCheck, _ =>
      if c_StopMain (d_closed s) then Some (set_main MClosing s)
      else Some (set_requests (S (d_requests s)) (set_main MAccept s))
  | MClosing, _ => Some (close_StopMainConfirm (set_net 0 false (set_main MTelling s)))
  | MTelling, _ =>
      if c_BlockBilder (d_closed s) then Some (panics s)
      else if length (d_BlockBilderChan s) <? signals_size
      then Some (set_signals (d_BlockBilderChan s ++ [[]]) (set_main MWaitEnd s))
      else None
  | MWaitEnd, _ => if c_theend (d_closed s) then Some (set_main MWaitResult s) else None
  | MWaitResult, _ => if c_StartResult (d_closed s) then Some (set_main MDone s) else None
  | _, _ => None
  end.

(** The routine that a signal wakes. *)
Definition signal_step (s : daemon) : option daemon :=
  match d_signal s with
  | SClosing => Some (close_StopMain (set_signal SVoid s))
  | SConfirming => if c_StopMainConfirm (d_closed s) then Some (set_signal SRemoving s) else None
  | SRemoving => Some (set_file None (set_signal SEnding s))
  | SEnding => Some (close_theend (set_signal SDone s))
  | _ => None
  end.

(** [waitServerStarted]. *)
Definition result_step (io : io_result) (random : bytes) (s : daemon) : option daemon :=
  match d_result s with
  | RGot result => Some (set_file (waitServerStarted io random result (d_file s)).2 (set_result RClosing s))
  | RClosing => Some (close_StartResult (set_result RDone s))
  | _ => None
  end.

(** [BlockBuilder]: an empty signal makes it exit. *)
Definition builder_step (s : daemon) : option daemon :=
  match d_builder s, d_BlockBilderChan s with
  | BWaiting, txID :: signals => Some (set_builder (if length txID =? 0 then BClosing else BWorking) (set_signals signals s))
  | BWorking, _ => Some (set_builder BWaiting s)
  | BClosing, _ => Some (close_BlockBilder (set_builder BDone s))
  | _, _ => None
  end.

(** What can happen: a routine goes on; [net.Listen] returns, with the text of an
    error; [Accept] fails; a signal comes; the void command of the signal's routine
    reaches the server or fails; a client connects; a request signals the builder or
    ends. *)
Inductive daemon_event := EMain | ESignal | EResult (io : io_result) (random : bytes) | EBuilder
  | EListen (error : option bytes) | EAcceptFails | EKill | EVoid (reached : bool)
  | EConnect | ERequestSignals (tx : bytes) | ERequestEnds.

Definition daemon_step (e : daemon_event) (s : daemon) : option daemon :=
  if d_panicked s then None
  else match d_main s with
  | MDone => None
  | _ =>
      match e with
      | EMain => main_step s
      | ESignal => signal_step s
      | EResult io random => result_step io random s
      | EBuilder => builder_step s
      | EListen error =>
          match d_main s, error with
          | MListen, None => Some (set_net 0 true (set_main MStarted s))
          | MListen, Some text => Some (set_main (MFailed text) s)
          | _, _ => None
          end
      | EAcceptFails => match d_main s with MAccept => Some (set_net 0 false (set_main MWaitResult s)) | _ => None end
      | EKill => match d_signal s with SWaiting => Some (set_signal SClosing s) | _ => None end
      | EVoid reached =>
          match d_signal s, reached with
          | SVoid, true => if d_listening s then Some (set_net (S (d_backlog s)) true (set_signal SConfirming s)) else None
          | SVoid, false => Some (set_signal SConfirming s)
          | _, _ => None
          end
      | EConnect => if d_listening s then Some (set_net (S (d_backlog s)) true s) else None
      | ERequestSignals tx => match d_requests s with O => None | S _ => Some (send_signal tx s) end
      | ERequestEnds => match d_requests s with O => None | S n => Some (set_requests n s) end
      end
  end.

Fixpoint run_daemon (es : list daemon_event) (s : daemon) : option daemon :=
  match es with [] => Some s | e :: es' => s' ← daemon_step e s; run_daemon es' s' end.

(** ** What holds at every moment *)

(** A file that names no process: there is none, it is empty, or its number is that
    of a missing file. *)
Definition no_process (file : pid_file) : Prop :=
  file = None ∨ file = Some [] ∨ ∃ port authstr r, file = Some (pid_text (-1) port authstr r).

Lemma no_process_load file : no_process file → match loadPIDFile file with Ret (pid, _, _, _) => pid = (-1)%Z | _ => True end.
Proof.
  intros [->|[->|(port & a & r & ->)]]; [done|done|]. unfold loadPIDFile.
  change (pid_text (-1) port a r) with (Itoa (-1) ++ " "%byte :: Itoa port ++ " "%byte :: a ++ " "%byte :: r).
  rewrite Split_cons by apply Itoa_no_blank. destruct (Split _ _) as [|p1 [|p2 [|p3 []]]]; try done.
  by destruct (Atoi p1).
Qed.

Lemma no_process_running file alive : no_process file → running alive file = None.
Proof.
  intros Hf%no_process_load. unfold running. destruct (loadPIDFile file) as [[[[pid port] a] r]|e|p|]; try done. by subst.
Qed.

Lemma no_process_save io random result file : no_process file → no_process (waitServerStarted io random result file).2.
Proof.
  intros Hf. pose proof (no_process_load file Hf) as Hl. unfold waitServerStarted.
  destruct (loadPIDFile file) as [[[[pid port] a] r]|e|p|]; try done. subst pid. unfold drop_err, savePIDFile.
  destruct (io_create io); [done|]. cbv zeta. destruct (io_write io); cbn [snd]; [by right; left|]. right; right. eauto.
Qed.

Record daemon_inv (s : daemon) : Prop := {
  inv_stop : c_StopMain (d_closed s) = match d_signal s with SWaiting | SClosing => false | _ => true end;
  inv_end : c_theend (d_closed s) = match d_signal s with SDone => true | _ => false end;
  inv_result : c_StartResult (d_closed s) = match d_result s with RDone => true | _ => false end;
  inv_block : c_BlockBilder (d_closed s) = match d_builder s with BDone => true | _ => false end;
  inv_told : match d_main s with MListen | MStarted | MFailed _ => d_result s = RWaiting | _ => d_result s ≠ RWaiting end;
  inv_confirm : match d_main s with
    | MTelling | MWaitEnd => c_StopMainConfirm (d_closed s) = true
    | MWaitResult | MDone => True
    | _ => c_StopMainConfirm (d_closed s) = false end;
  inv_builder : match d_main s with
    | MListen | MFailed _ | MFailedClose | MStarted => d_builder s = BNone
    | MAccept | MCheck | MClosing | MTelling => d_builder s = BWaiting ∨ d_builder s = BWorking
    | _ => True end;
  inv_ids : match d_main s with MWaitEnd | MWaitResult | MDone => True | _ => [] ∉ d_BlockBilderChan s end;
  inv_size : length (d_BlockBilderChan s) ≤ signals_size;
  inv_listening : match d_main s with MStarted | MAccept | MCheck | MClosing => d_listening s = true | _ => True end;
  inv_stopping : match d_main s with MClosing | MTelling | MWaitEnd => c_StopMain (d_closed s) = true | _ => True end;
  inv_removing : match d_signal s with SRemoving | SEnding | SDone => c_StopMainConfirm (d_closed s) = true | _ => True end;
  inv_file : match d_signal s with SEnding | SDone => no_process (d_file s) | _ => True end;
  inv_panic : d_panicked s = true → d_builder s = BDone
}.

(** A request never signals with the empty text, which is for the main routine. *)
Definition sends_id (e : daemon_event) : Prop := match e with ERequestSignals tx => tx ≠ [] | _ => True end.

#[local] Ltac eval_state := cbn -[signals_size Nat.ltb waitServerStarted] in *.
#[local] Ltac open_state s :=
  intros Hi Hp Hs; destruct s as [m g r b n k l q [c1 c2 c3 c4 c5] f p]; destruct Hi; eval_state; subst p.
#[local] Ltac settle :=
  split; [split; eval_state; try done; try tauto; try congruence;
          repeat case_match; try done; try tauto; try congruence; try lia;
          try (by match goal with H : _ ∨ _ |- _ => destruct H end) | done].

Lemma inv_main s s' : daemon_inv s → d_panicked s = false → main_step s = Some s' → daemon_inv s' ∧ d_panicked s' = false.
Proof.
  open_state s.
  destruct m; eval_state; try done; subst.
  - injection Hs as <-. settle.
  - injection Hs as <-. settle.
  - injection Hs as <-. settle.
  - destruct k; [done|]. injection Hs as <-. settle.
  - case_match; injection Hs as <-; settle.
  - injection Hs as <-. settle.
  - destruct inv_builder0 as [-> | ->]; eval_state; (destruct (Nat.ltb_spec (length q) signals_size); [|done]); injection Hs as <-; settle;
      rewrite length_app; cbn [length]; lia.
  - case_match; [|done]. injection Hs as <-. settle.
  - case_match; [|done]. injection Hs as <-. settle.
Qed.

Lemma inv_signal s s' : daemon_inv s → d_panicked s = false → signal_step s = Some s' → daemon_inv s' ∧ d_panicked s' = false.
Proof.
  open_state s.
  destruct g; eval_state; try done; subst.
  - injection Hs as <-. settle.
  - case_match; [|done]. injection Hs as <-. settle.
  - injection Hs as <-. settle; by left.
  - injection Hs as <-. settle.
Qed.

Lemma inv_results io random s s' :
  daemon_inv s → d_panicked s = false → result_step io random s = Some s' → daemon_inv s' ∧ d_panicked s' = false.
Proof.
  open_state s.
  destruct r; eval_state; try done; subst.
  - injection Hs as <-. split; [|done]. split; cbn -[signals_size waitServerStarted]; try done.
    + by destruct m.
    + destruct g; try done; by apply no_process_save.
  - injection Hs as <-. settle.
Qed.

Lemma inv_builds s s' : daemon_inv s → d_panicked s = false → builder_step s = Some s' → daemon_inv s' ∧ d_panicked s' = false.
Proof.
  open_state s.
  destruct b; eval_state; try done; subst.
  - destruct q as [|tx q]; [done|]. injection Hs as <-. cbn [length] in *.
    assert (Hq : ¬ ([] ∈ tx :: q) → length tx ≠ 0 ∧ [] ∉ q).
    { rewrite not_elem_of_cons. intros [Ht Hq]. split; [|done]. by destruct tx. }
    destruct (Nat.eqb_spec (length tx) 0); settle.
  - injection Hs as <-. settle.
  - injection Hs as <-. settle.
Qed.

(** Neither the network nor the clients can make a routine panic but by a signal to
    the builder after it has left. *)
Lemma inv_signals tx s s' : daemon_inv s → d_panicked s = false → Some (send_signal tx s) = Some s' → tx ≠ [] →
  daemon_inv s' ∧ (d_panicked s' = true → d_builder s = BDone).
Proof.
  open_state s. intros Htx. unfold send_signal in Hs. eval_state.
  assert (Hq : [] ∉ q → [] ∉ q ++ [tx]) by (rewrite not_elem_of_app, list_elem_of_singleton; naive_solver).
  destruct c5; [|destruct (Nat.ltb_spec (length q) signals_size)]; injection Hs as <-; eval_state.
  - split; [|by destruct b]. by destruct b.
  - split; [|done]. assert (length (q ++ [tx]) ≤ signals_size) by (rewrite length_app; cbn [length]; lia).
    split; try done. eval_state. destruct m; auto.
  - split; [|done]. by split.
Qed.

Definition from_outside (e : daemon_event) (s : daemon) : option daemon :=
  match e with
  | EMain | ESignal | EResult _ _ | EBuilder | ERequestSignals _ => None
  | _ => daemon_step e s
  end.

Lemma inv_outside e s s' : daemon_inv s → d_panicked s = false → from_outside e s = Some s' → daemon_inv s' ∧ d_panicked s' = false.
Proof.
  open_state s. destruct e as [| |io random| |error| | |reached| |tx|]; try done; unfold from_outside, daemon_step in Hs; eval_state.
  - destruct m, error; try done; injection Hs as <-; settle.
  - destruct m; try done; injection Hs as <-; settle.
  - destruct m, g; try done; injection Hs as <-; settle.
  - destruct m, g, reached; try done; try (destruct l; [|done]); injection Hs as <-; settle.
  - destruct m, l; try done; injection Hs as <-; settle.
  - destruct m, n; try done; injection Hs as <-; settle.
Qed.

Lemma daemon_inv_step e s s' : daemon_inv s → sends_id e → daemon_step e s = Some s' →
  daemon_inv s' ∧ (d_panicked s' = true → d_builder s = BDone ∧ ∃ tx, e = ERequestSignals tx).
Proof.
  intros Hi Hid Hs. pose proof Hs as Hs0. unfold daemon_step in Hs. destruct (d_panicked s) eqn:Hp; [done|].
  assert (Hgo : ∀ o : option daemon, (match d_main s with MDone => None | _ => o end) = Some s' → o = Some s') by (by destruct (d_main s)).
  apply Hgo in Hs. clear Hgo.
  assert (Hfine : daemon_inv s' ∧ d_panicked s' = false → daemon_inv s' ∧ (d_panicked s' = true → d_builder s = BDone ∧ ∃ tx, e = ERequestSignals tx)).
  { intros [? ?]. split; [done|congruence]. }
  destruct e as [| |io random| |error| | |reached| |tx|]; 
    try (apply Hfine; match type of Hs0 with daemon_step ?e _ = _ => exact (inv_outside e s s' Hi Hp Hs0) end).
  - apply Hfine. by apply (inv_main s).
  - apply Hfine. by apply (inv_signal s).
  - apply Hfine. by apply (inv_results io random s).
  - apply Hfine. by apply (inv_builds s).
  - destruct (d_requests s); [done|]. destruct (inv_signals tx s s') as [? ?]; eauto.
Qed.

Lemma daemon_init_inv file : daemon_inv (daemon_init file).
Proof. split; cbn; try done; [apply not_elem_of_nil|unfold signals_size; lia]. Qed.

Lemma daemon_inv_run es s s' : daemon_inv s → Forall sends_id es → run_daemon es s = Some s' → daemon_inv s'.
Proof.
  revert s. induction es as [|e es IH]; intros s Hi Hes Hs; [by injection Hs as <-|].
  apply Forall_cons in Hes as [He Hes]. apply bind_Some in Hs as (s1 & H1 & Hs). apply daemon_inv_step in H1 as [H1 _]; [|done..].
  by apply (IH s1).
Qed.

Lemma run_daemon_snoc es e s s' :
  run_daemon (es ++ [e]) s = Some s' → ∃ s1, run_daemon es s = Some s1 ∧ daemon_step e s1 = Some s'.
Proof.
  revert s. induction es as [|e0 es IH]; intros s Hs; apply bind_Some in Hs as (s1 & H1 & Hs).
  - injection Hs as <-. by exists s.
  - destruct (IH s1 Hs) as (s2 & H2 & Hs2). exists s2. split; [|done]. apply bind_Some. by exists s1.
Qed.

(** The one way to a panic: the last thing that happened is the signal of a request,
    and the builder had left on the word of the main routine. *)
Definition late_signal (file : pid_file) (es : list daemon_event) : Prop :=
  ∃ es0 tx s0, es = es0 ++ [ERequestSignals tx] ∧ run_daemon es0 (daemon_init file) = Some s0 ∧
    d_panicked s0 = false ∧ d_builder s0 = BDone ∧
    (d_main s0 = MWaitEnd ∨ d_main s0 = MWaitResult ∨ d_main s0 = MDone).

Lemma panicked_late file es s :
  Forall sends_id es → run_daemon es (daemon_init file) = Some s → d_panicked s = true → late_signal file es.
Proof.
  intros Hes Hr Hp. destruct es as [|e es _] using rev_ind; [by injection Hr as <-|].
  apply run_daemon_snoc in Hr as (s0 & H0 & Hs). apply Forall_app in Hes as [Hes He]. apply Forall_cons in He as [He _].
  pose proof (daemon_inv_run es _ s0 (daemon_init_inv file) Hes H0) as Hi.
  destruct (daemon_inv_step e s0 s Hi He Hs) as [_ [Hb [tx ->]]]; [done|]. exists es, tx, s0. split_and!; try done.
  - unfold daemon_step in Hs. by destruct (d_panicked s0).
  - pose proof (inv_builder s0 Hi) as Hm. rewrite Hb in Hm. destruct (d_main s0); auto; exfalso; naive_solver.
Qed.

(** ** The end is reached *)

(** The routines of the program but those of the requests. *)
Definition internal (e : daemon_event) : Prop :=
  match e with EMain | ESignal | EResult _ _ | EBuilder | EVoid _ => True | _ => False end.
Definition internal_step (s s' : daemon) : Prop := ∃ e, internal e ∧ daemon_step e s = Some s'.
Definition finishes (s : daemon) : Prop := ∃ s', rtc internal_step s s' ∧ d_main s' = MDone ∧ d_panicked s' = false.

Definition live (s : daemon) : Prop := daemon_inv s ∧ d_panicked s = false.

Lemma advance e s s' : live s → internal e → daemon_step e s = Some s' → (live s' → finishes s') → finishes s.
Proof.
  intros [Hi Hp] He Hs Hf. destruct (daemon_inv_step e s s' Hi) as [Hi' Hp']; [by destruct e|done|].
  destruct Hf as (s'' & Hr & Hm).
  { split; [done|]. destruct (d_panicked s'); [|done]. destruct Hp' as [_ [tx ->]]; done. }
  exists s''. split; [|done]. eapply rtc_l; [|exact Hr]. by exists e.
Qed.

#[local] Ltac expose s :=
  intros Hl; pose proof Hl as [Hi Hp]; destruct s as [m g r b n k l q [c1 c2 c3 c4 c5] f p];
  destruct Hi; eval_state; subst.
#[local] Ltac go e := eapply (advance e); [done|exact I|reflexivity|clear; intros Hl].

Lemma arrived s : live s → d_main s = MDone → finishes s.
Proof. intros [_ Hp] Hm. by exists s. Qed.

(** The main routine waits for the result to be written. *)
Lemma finishes_result s : live s → d_main s = MWaitResult → finishes s.
Proof.
  expose s. intros ->. destruct r; [done|..].
  - go (EResult io_fine []). go (EResult io_fine []). go EMain. by apply arrived.
  - go (EResult io_fine []). go EMain. by apply arrived.
  - go EMain. by apply arrived.
Qed.

(** It waits for the signal's routine, which waits for its confirmation. *)
Lemma finishes_end s : live s → d_main s = MWaitEnd → finishes s.
Proof.
  expose s. intros ->. eval_state. subst. destruct g; try done.
  - go (EVoid false). go ESignal. go ESignal. go ESignal. go EMain. by apply finishes_result.
  - go ESignal. go ESignal. go ESignal. go EMain. by apply finishes_result.
  - go ESignal. go ESignal. go EMain. by apply finishes_result.
  - go ESignal. go EMain. by apply finishes_result.
  - go EMain. by apply finishes_result.
Qed.

(** It tells the builder, which makes room first when the channel is full. *)
Lemma finishes_room s : live s → d_main s = MTelling → length (d_BlockBilderChan s) < signals_size → finishes s.
Proof.
  expose s. intros -> Hq. eval_state. eapply (advance EMain); [done|exact I| |].
  - unfold daemon_step. cbn -[signals_size Nat.ltb]. destruct inv_builder0 as [-> | ->]; rewrite (proj2 (Nat.ltb_lt _ _)) by done; reflexivity.
  - intros Hl'. by apply finishes_end.
Qed.

Lemma finishes_full s x tx signals : live s → d_main s = MTelling → d_builder s = BWaiting →
  d_BlockBilderChan s = (x :: tx) :: signals → finishes s.
Proof.
  expose s. intros -> -> ->. cbn [length] in inv_size0. eapply (advance EBuilder); [done|exact I|reflexivity|].
  intros Hl'. apply finishes_room; [done|done|]. cbn -[signals_size]. lia.
Qed.

Lemma finishes_telling s : live s → d_main s = MTelling → finishes s.
Proof.
  intros Hl Hm. destruct (decide (length (d_BlockBilderChan s) < signals_size)) as [Hq|Hq]; [by apply finishes_room|].
  revert Hl Hm Hq. expose s. intros -> Hq. eval_state. destruct q as [|[|x tx] q]; [by destruct Hq; vm_compute; lia| |].
  - destruct inv_ids0. by left.
  - destruct inv_builder0 as [-> | ->]; [by eapply finishes_full|]. go EBuilder. by eapply finishes_full.
Qed.

Lemma finishes_closing s : live s → d_main s = MClosing → finishes s.
Proof. expose s. intros ->. eval_state. subst. go EMain. by apply finishes_telling. Qed.

Lemma finishes_check s : live s → d_main s = MCheck → c_StopMain (d_closed s) = true → finishes s.
Proof.
  expose s. intros -> Hc. eapply (advance EMain); [done|exact I|unfold daemon_step; cbn; rewrite Hc; reflexivity|].
  intros Hl'. by apply finishes_closing.
Qed.

Lemma finishes_accept s : live s → d_main s = MAccept → c_StopMain (d_closed s) = true → 0 < d_backlog s → finishes s.
Proof. expose s. intros -> Hc Hk. destruct k; [lia|]. eapply (advance EMain); [done|exact I|reflexivity|]. intros Hl'. by apply finishes_check. Qed.

Lemma finishes_failed s : live s → d_main s = MFailedClose → finishes s.
Proof. expose s. intros ->. eval_state. subst. go EMain. by apply finishes_result. Qed.

(** A closed [StopMainChan] and a connection bring it there. *)
Lemma finishes_stopped s : live s → c_StopMain (d_closed s) = true →
  match d_main s with MListen => False | MStarted | MAccept => 0 < d_backlog s | MDone => True | _ => True end → finishes s.
Proof.
  intros Hl Hc Hm. destruct (d_main s) eqn:Em; try done.
  - revert Hl Hc Hm Em. expose s. intros Hc _ ->. eval_state. subst. eapply (advance EMain); [done|exact I|reflexivity|].
    intros Hl'. by apply finishes_failed.
  - by apply finishes_failed.
  - revert Hl Hc Hm Em. expose s. intros Hc Hk ->. eval_state. subst. eapply (advance EMain); [done|exact I|reflexivity|].
    intros Hl'. by apply finishes_accept.
  - by apply finishes_accept.
  - by apply finishes_check.
  - by apply finishes_closing.
  - by apply finishes_telling.
  - by apply finishes_end.
  - by apply finishes_result.
  - by apply arrived.
Qed.

(** The server has got the signal, and a connection is there or to come. *)
Definition woken (s : daemon) : Prop :=
  d_signal s ≠ SWaiting ∧
  match d_main s with
  | MListen => False
  | MStarted | MAccept => d_signal s = SClosing ∨ d_signal s = SVoid ∨ 0 < d_backlog s
  | _ => True
  end.

Lemma finishes_void s : live s → d_signal s = SVoid → d_main s ≠ MListen → finishes s.
Proof.
  expose s. intros -> Hm. destruct m; eval_state; subst; try done; try (by apply arrived).
  3, 4: eapply (advance (EVoid true)); [done|exact I|reflexivity|]; intros Hl'; apply finishes_stopped; [done|done|cbn; lia].
  all: eapply (advance (EVoid false)); [done|exact I|reflexivity|]; intros Hl'; by apply finishes_stopped.
Qed.

Lemma finishes_signalled s : live s → d_signal s = SClosing → d_main s ≠ MListen → finishes s.
Proof.
  expose s. intros -> Hm. destruct m; eval_state; subst; try done; try (by apply arrived).
  all: eapply (advance ESignal); [done|exact I|reflexivity|]; intros Hl'; by apply finishes_void.
Qed.

Lemma finishes_woken s : live s → woken s → finishes s.
Proof.
  intros Hl [Hs Hm]. assert (Hn : d_main s ≠ MListen) by (by destruct (d_main s)).
  destruct (d_signal s) eqn:Eg; [done|by apply finishes_signalled|by apply finishes_void|..];
    (apply finishes_stopped; [done|by rewrite (inv_stop _ (proj1 Hl)), Eg|]); destruct (d_main s); try done;
    destruct Hm as [Hm|[Hm|Hm]]; done.
Qed.

Lemma woken_main s s' : daemon_inv s → main_step s = Some s' → woken s → woken s'.
Proof.
  intros Hi Hs [Hg Hm]. destruct s as [m g r b n k l q [c1 c2 c3 c4 c5] f p]. destruct Hi. eval_state. unfold woken.
  destruct m; eval_state; try done; subst; try (injection Hs as <-; by split).
  - by destruct k; [|injection Hs as <-].
  - case_match; injection Hs as <-; split; try done. eval_state. destruct g; auto; done.
  - destruct b; eval_state; try (by destruct inv_builder0); (destruct (Nat.ltb_spec (length q) signals_size); [|done]); by injection Hs as <-.
  - case_match; [|done]. by injection Hs as <-.
  - case_match; [|done]. by injection Hs as <-.
Qed.

Lemma woken_signal s s' : daemon_inv s → signal_step s = Some s' → woken s → woken s'.
Proof.
  intros Hi Hs [Hg Hm]. destruct s as [m g r b n k l q [c1 c2 c3 c4 c5] f p]. destruct Hi. eval_state. unfold woken.
  destruct g; eval_state; try done; subst; [| |injection Hs as <-..].
  - injection Hs as <-. eval_state. split; [done|]. destruct m; try done; naive_solver.
  - destruct c2; [|done]. injection Hs as <-. eval_state. split; [done|]. destruct m; try done; naive_solver.
  - eval_state. split; [done|]. destruct m; try done; naive_solver.
  - eval_state. split; [done|]. destruct m; try done; naive_solver.
Qed.

Definition same_wake (s s' : daemon) : Prop := d_main s' = d_main s ∧ d_signal s' = d_signal s ∧ d_backlog s ≤ d_backlog s'.

Lemma woken_same s s' : same_wake s s' → woken s → woken s'.
Proof.
  unfold woken. intros (-> & -> & Hk) [Hg Hm]. split; [done|].
  destruct (d_main s); try done; destruct Hm as [?|[?|?]]; auto; right; right; lia.
Qed.

Lemma close_same i c s s' : same_wake s s' → same_wake s (close i c s').
Proof. unfold close. by destruct s', (i _). Qed.

Lemma woken_others e s s' : daemon_step e s = Some s' →
  match e with EResult _ _ | EBuilder | EConnect | ERequestSignals _ | ERequestEnds => same_wake s s' | _ => True end.
Proof.
  unfold daemon_step. destruct (d_panicked s); [done|].
  assert (Hgo : ∀ o : option daemon, (match d_main s with MDone => None | _ => o end) = Some s' → o = Some s') by (by destruct (d_main s)).
  intros Hs%Hgo. clear Hgo. destruct e as [| |io random| |error| | |reached| |tx|]; try done.
  - unfold result_step in Hs. destruct s as [m g r b n k l q c f p], r; try done; injection Hs as <-; [by split_and!|by apply close_same; split_and!].
  - unfold builder_step in Hs. destruct s as [m g r b n k l q c f p], b; try done; [destruct q; [done|]|..]; injection Hs as <-;
      [by split_and!..|by apply close_same; split_and!].
  - destruct s as [m g r b n k [] q c f p]; [|done]. injection Hs as <-. split_and!; cbn; auto.
  - destruct (d_requests s); [done|]. injection Hs as <-. unfold send_signal. destruct s as [m g r b n' k l q c f p].
    cbn [d_closed d_BlockBilderChan]. by destruct (c_BlockBilder c), (length q <? signals_size).
  - destruct s as [m g r b [|n] k l q c f p]; [done|]. injection Hs as <-. by split_and!.
Qed.

(** Nothing but a void command that fails takes it back. *)
Lemma woken_stable e s s' : daemon_inv s → daemon_step e s = Some s' → e ≠ EVoid false → woken s → woken s'.
Proof.
  intros Hi Hs He Hw. pose proof (woken_others e s s' Hs) as Ho. unfold daemon_step in Hs. destruct (d_panicked s); [done|].
  assert (Hgo : ∀ o : option daemon, (match d_main s with MDone => None | _ => o end) = Some s' → o = Some s') by (by destruct (d_main s)).
  apply Hgo in Hs. clear Hgo. destruct e as [| |io random| |error| | |[]| |tx|]; try (by apply (woken_same s)); try done.
  - by apply (woken_main s).
  - by apply (woken_signal s).
  - destruct Hw as [Hg Hm]. by destruct (d_main s).
  - destruct s as [[] g r b n k l q c f p]; try done. injection Hs as <-. by destruct Hw.
  - destruct Hw as [Hg _]. by destruct (d_signal s).
  - destruct s as [m [] r b n k [] q c f p]; try done. injection Hs as <-. destruct Hw as [Hg Hm]. split; [done|].
    destruct m; try done; right; right; cbn; lia.
Qed.


(** ** Instances *)

Module ShutdownDemo.
Definition the_file : pid_file := Some (pid_text 4242 20000 (str "secret") (str "n")).
Definition after (es : list daemon_event) : daemon := default (daemon_init None) (run_daemon es (daemon_init the_file)).

(** A client connects, a signal comes, and another client is before the void command. *)
Definition signalled : list daemon_event := [EListen None; EMain; EConnect; EMain; EMain; EKill].
Definition in_between : list daemon_event := [EConnect; ESignal; ERequestSignals [x00]; EVoid true; EMain; EMain].


(** A signal before the server listens is lost: the void command finds nobody, and the
    server waits for a client that may never come. *)
Example early_signal_lost :
  let s := after [EKill; ESignal; EVoid false; EListen None; EMain; EResult io_fine []; EResult io_fine []] in
  d_main s = MAccept ∧ ∀ e, internal e → daemon_step e s = None.
Proof. split; [vm_compute; reflexivity|]. by intros [| |io random| |error| | |[]| |tx|] He. Qed.

(** A request that signals the builder after it has left ends the program. *)
Definition stopped : list daemon_event :=
  [EListen None; EMain; EConnect; EMain; EMain; EKill; ESignal; EVoid true; EMain; EMain; EMain; EMain].
Example late_request_panics : d_panicked (after (stopped ++ [EBuilder; EBuilder; ERequestSignals [x01]])) = true.
Proof. vm_compute. reflexivity. Qed.

(** The program ends while a request is handled and the builder works. *)
Definition to_the_end : list daemon_event := [ESignal; ESignal; ESignal; EMain; EResult io_fine []; EResult io_fine []; EMain].
Example ends_in_a_request :
  let s := after (stopped ++ to_the_end) in d_main s = MDone ∧ d_requests s = 1 ∧ d_builder s = BWaiting ∧ d_BlockBilderChan s = [[]].
Proof. vm_compute. done. Qed.

(** The result that is saved after the file is removed makes a new one. *)
Example file_comes_back : d_file (after (stopped ++ to_the_end)) = Some (pid_text (-1) 0 [] (str "y")).
Proof. vm_compute. reflexivity. Qed.
End ShutdownDemo.
