(* ===== verification/Logger.v ===== *)
(** * Package [lib/utils]: the loggers

    [LoggerMan] of [utils.go]: which of the logs are enabled and where they are
    written.  What is written to them is not modelled. *)

From Stdlib Require Import Strings.Byte ZifyNat.
From stdpp Require Import base strings numbers gmap list.
From S2P Require Import Prelude Text Platform Concrete.

Inductive log_output := Discard | Stdout | ToFile (name : bytes).

(** [lg_loggers] are the open files, [lg_out] the outputs of the four loggers. *)
Record LoggerMan := mkLoggerMan {
  lg_State : gmap bytes bool;
  lg_loggers : gmap bytes (option bytes);
  lg_out : gmap bytes log_output
}.

Definition log_names : list bytes := [str "trace"; str "error"; str "info"; str "warning"].

Definition CreateLogger : LoggerMan :=
  mkLoggerMan (list_to_map ((λ n, (n, false)) <$> log_names)) (list_to_map ((λ n, (n, None)) <$> log_names))
    (list_to_map ((λ n, (n, Discard)) <$> log_names)).

(** [logger.State[name]], false when there is no entry. *)
Definition log_enabled (logger : LoggerMan) (name : bytes) : bool := default false (lg_State logger !! name).

Definition EnableLogs (logs : bytes) (logger : LoggerMan) : LoggerMan :=
  mkLoggerMan (fold_left (λ State lv, <[lv := true]> State) (Split ","%byte logs) (lg_State logger))
    (lg_loggers logger) (lg_out logger).

Section State.
Context `{GoRange}.

Definition logger_GetState (logger : LoggerMan) : bytes :=
  Join ","%byte (filter (λ p, p.2 = true) (go_range (lg_State logger))).*1.
End State.

Definition DisableLogging (logger : LoggerMan) : LoggerMan :=
  mkLoggerMan (lg_State logger) ((λ _, None) <$> lg_loggers logger)
    (foldr (λ name, <[name := Discard]>) (lg_out logger) log_names).

(** [opens] tells which files can be opened; an error leaves the output as it
    is. *)
Definition log_to_file (opens : bytes → bool) (name file : bytes) (logger : LoggerMan) : LoggerMan :=
  if log_enabled logger name && opens file
  then mkLoggerMan (lg_State logger) (<[name := Some file]> (lg_loggers logger))
         (<[name := ToFile file]> (lg_out logger))
  else logger.
Definition LogToFiles (opens : bytes → bool) (datadir trace info warning errorname : bytes) (logger : LoggerMan)
    : LoggerMan :=
  log_to_file opens (str "error") (datadir ++ errorname)
    (log_to_file opens (str "warning") (datadir ++ warning)
      (log_to_file opens (str "info") (datadir ++ info)
        (log_to_file opens (str "trace") (datadir ++ trace) logger))).

Definition log_to_stdout (name : bytes) (logger : LoggerMan) : LoggerMan :=
  if log_enabled logger name
  then mkLoggerMan (lg_State logger) (lg_loggers logger) (<[name := Stdout]> (lg_out logger))
  else logger.
Definition LogToStdout (logger : LoggerMan) : LoggerMan :=
  log_to_stdout (str "error") (log_to_stdout (str "warning")
    (log_to_stdout (str "info") (log_to_stdout (str "trace") logger))).

(** ** What is enabled *)

Lemma log_enabled_EnableLogs logs logger name :
  log_enabled (EnableLogs logs logger) name
  = bool_decide (name ∈ Split ","%byte logs) || log_enabled logger name.
Proof.
  unfold EnableLogs, log_enabled. simpl. generalize (lg_State logger). induction (Split ","%byte logs) as [|lv l IH]; intros m.
  { by rewrite bool_decide_eq_false_2 by apply not_elem_of_nil. }
  simpl. rewrite IH. destruct (decide (name = lv)) as [->|Hne].
  - rewrite lookup_insert_eq. simpl. rewrite orb_true_r. by rewrite bool_decide_eq_true_2 by left.
  - rewrite lookup_insert_ne by done. f_equal. apply bool_decide_ext. rewrite elem_of_cons. naive_solver.
Qed.

(** A fresh logger that is given the state of another one as text has the same logs
    enabled, among those that have a name. *)
Lemma EnableLogs_GetState `{GoRangeLaws} logger name :
  name ≠ [] → (∀ n, log_enabled logger n = true → ","%byte ∉ n) →
  log_enabled (EnableLogs (logger_GetState logger) CreateLogger) name = log_enabled logger name.
Proof.
  intros Hne Hc. rewrite log_enabled_EnableLogs. unfold logger_GetState.
  set (l := (filter (λ p, p.2 = true) (go_range (lg_State logger))).*1).
  assert (Hl : ∀ n, n ∈ l ↔ log_enabled logger n = true).
  { intros n. unfold l, log_enabled. split.
    - intros ([n' b] & -> & [E Hin]%list_elem_of_filter)%list_elem_of_fmap. simpl in *. subst b.
      rewrite go_range_Permutation in Hin. apply elem_of_map_to_list in Hin. by rewrite Hin.
    - destruct (lg_State logger !! n) as [[]|] eqn:E; try done. intros _. apply list_elem_of_fmap. exists (n, true).
      split; [done|]. apply list_elem_of_filter. split; [done|]. rewrite go_range_Permutation. by apply elem_of_map_to_list. }
  assert (Hf : log_enabled CreateLogger name = false).
  { unfold log_enabled. destruct (lg_State CreateLogger !! name) as [b|] eqn:E; [|done].
    apply elem_of_list_to_map_2 in E. by apply list_elem_of_fmap in E as (? & [= -> ->] & _). }
  rewrite Hf, orb_false_r. destruct (decide (l = [])) as [El|El].
  - rewrite El. simpl. rewrite bool_decide_eq_false_2 by (rewrite list_elem_of_singleton; done).
    symmetry. apply not_true_iff_false. rewrite <- Hl, El. apply not_elem_of_nil.
  - rewrite Split_Join; [|done|intros n Hn; apply Hc; by apply Hl].
    apply eq_true_iff_eq. rewrite bool_decide_eq_true. apply Hl.
Qed.
