(* ===== verification/Config.v ===== *)
(** * Package [node/config]: the command line and the configuration file

    [config.go]: the flags of the command line, as the package [flag] of the
    standard library reads them, the file [config.json] of the data directory,
    and how the two make the input of the node. *)

From Stdlib Require Import Strings.Byte ZifyNat.
From stdpp Require Import base strings numbers gmap list.
From S2P Require Import Prelude Text Float64 Platform Concrete Logger Blockchain Net Connections Wallet.

(** ** Data *)

Record AllPossibleArgs := mkAllPossibleArgs {
  aa_Address : bytes;
  aa_From : bytes;
  aa_To : bytes;
  aa_Port : Z;
  aa_Host : bytes;
  aa_NodePort : Z;
  aa_NodeHost : bytes;
  aa_Genesis : bytes;
  aa_Amount : float64;
  aa_LogDest : bytes;
  aa_Transaction : bytes;
  aa_View : bytes;
  aa_Clean : bool
}.

Record AppInput := mkAppInput {
  ai_Command : bytes;
  ai_MinterAddress : bytes;
  ai_Logs : bytes;
  ai_Port : Z;
  ai_Host : bytes;
  ai_DataDir : bytes;
  ai_Nodes : list NodeAddr;
  ai_Args : AllPossibleArgs;
  ai_Database : DatabaseConfig
}.

(** A nil slice and an empty one are the same here. *)
Record AppConfig := mkAppConfig {
  ac_Minter : bytes;
  ac_Port : Z;
  ac_Host : bytes;
  ac_Nodes : list NodeAddr;
  ac_Logs : list bytes;
  ac_Database : DatabaseConfig
}.
Definition no_config : AppConfig := mkAppConfig [] 0 [] [] [] (mkDatabaseConfig [] [] []).

(** ** Flags

    A flag has a value of one of four kinds, which is the default at first. *)
Inductive flag_value := VStr (s : bytes) | VInt (z : Z) | VFloat (x : float64) | VBool (b : bool).
Abbreviation flags := (gmap bytes flag_value).

(** [strconv.ParseInt] for base 0, which takes a decimal number without leading
    zeros as [Itoa] writes it and other notations, and [strconv.ParseFloat]. *)
Class GoParse := {
  strconv_ParseInt : bytes → outcome Z;
  strconv_ParseFloat : bytes → outcome float64
}.
Class GoParseLaws `{GoParse} : Prop := {
  ParseInt_Itoa z : is_int64 z → strconv_ParseInt (Itoa z) = Ret z
}.

Definition err_parse : goerror := ELib "flag: parse error".
Definition strconv_ParseBool (s : bytes) : outcome bool :=
  if bool_decide (s ∈ [str "1"; str "t"; str "T"; str "true"; str "TRUE"; str "True"]) then Ret true
  else if bool_decide (s ∈ [str "0"; str "f"; str "F"; str "false"; str "FALSE"; str "False"]) then Ret false
  else Err err_parse.

(** How an argument begins: no flag, a flag with the value after its first
    equals sign if there is one, or one that is malformed. *)
Inductive flag_head := NoFlag | BadFlag | AFlag (name : bytes) (value : option bytes).

Fixpoint cut_value (s : bytes) : bytes * option bytes :=
  match s with
  | [] => ([], None)
  | c :: s' =>
      if bool_decide (c = "="%byte) then ([], Some s')
      else let '(name, value) := cut_value s' in (c :: name, value)
  end.
Definition flag_of (name : bytes) : flag_head :=
  match name with
  | [] => BadFlag
  | c :: _ =>
      if bool_decide (c = "-"%byte) || bool_decide (c = "="%byte) then BadFlag
      else let '(name, value) := cut_value name in AFlag name value
  end.
Definition parse_head (s : bytes) : flag_head :=
  match s with
  | c :: s1 =>
      if negb (bool_decide (c = "-"%byte)) then NoFlag
      else match s1 with
           | [] => NoFlag
           | c :: s2 => if bool_decide (c = "-"%byte)
                        then match s2 with [] => NoFlag | _ => flag_of s2 end
                        else flag_of s1
           end
  | [] => NoFlag
  end.

Section Input.
Context `{GoParse}.

Definition set_value (v : flag_value) (s : bytes) : outcome flag_value :=
  match v with
  | VStr _ => Ret (VStr s)
  | VInt _ => z ← strconv_ParseInt s; Ret (VInt z)
  | VFloat _ => x ← strconv_ParseFloat s; Ret (VFloat x)
  | VBool _ => b ← strconv_ParseBool s; Ret (VBool b)
  end.

(** [cmd.Parse] of a set that ends the program on an error. *)
Fixpoint Parse (args : list bytes) (fl : flags) : outcome flags :=
  match args with
  | [] => Ret fl
  | s :: args =>
      match parse_head s with
      | NoFlag => Ret fl
      | BadFlag => Panic PExit
      | AFlag name value =>
          match fl !! name, value, args with
          | None, _, _ => Panic PExit
          | Some v, Some t, _ =>
              match set_value v t with Ret v => Parse args (<[name := v]> fl) | _ => Panic PExit end
          | Some (VBool _), None, _ => Parse args (<[name := VBool true]> fl)
          | Some v, None, t :: args =>
              match set_value v t with Ret v => Parse args (<[name := v]> fl) | _ => Panic PExit end
          | Some v, None, [] => Panic PExit
          end
      end
  end.

(** The flags of [GetAppInput] with their defaults. *)
Definition flag_defaults : flags := list_to_map
  [ (str "address", VStr []); (str "logs", VStr []); (str "minter", VStr []); (str "genesis", VStr []);
    (str "transaction", VStr []); (str "from", VStr []); (str "to", VStr []); (str "host", VStr []);
    (str "nodehost", VStr []); (str "port", VInt 0); (str "nodeport", VInt 0); (str "amount", VFloat f64_zero);
    (str "logdest", VStr (str "file")); (str "view", VStr []); (str "clean", VBool false);
    (str "datadir", VStr []) ].

Definition flag_str (fl : flags) (name : string) : bytes :=
  match fl !! str name with Some (VStr s) => s | _ => [] end.
Definition flag_int (fl : flags) (name : string) : Z :=
  match fl !! str name with Some (VInt z) => z | _ => 0%Z end.
Definition flag_float (fl : flags) (name : string) : float64 :=
  match fl !! str name with Some (VFloat x) => x | _ => f64_zero end.
Definition flag_bool (fl : flags) (name : string) : bool :=
  match fl !! str name with Some (VBool b) => b | _ => false end.

Definition args_of (fl : flags) : AllPossibleArgs :=
  mkAllPossibleArgs (flag_str fl "address") (flag_str fl "from") (flag_str fl "to") (flag_int fl "port")
    (flag_str fl "host") (flag_int fl "nodeport") (flag_str fl "nodehost") (flag_str fl "genesis")
    (flag_float fl "amount") (flag_str fl "logdest") (flag_str fl "transaction") (flag_str fl "view")
    (flag_bool fl "clean").

(** The data directory ends in a slash; without the flag it is next to the program,
    whose directory is [exe_dir] if [filepath.Abs] finds it. *)
Definition data_dir (flag : bytes) (exe_dir : option bytes) : bytes :=
  let DataDir := if bool_decide (flag = []) then []
                 else if bool_decide (last flag = Some "/"%byte) then flag else flag ++ str "/" in
  if bool_decide (DataDir = []) then match exe_dir with Some dir => dir ++ str "/data/" | None => DataDir end
  else DataDir.

(** ** The file

    The codec of [encoding/json] for the configuration; [open_error] tells which
    files that exist cannot be opened. *)
Class JsonConfig := {
  json_Encode : AppConfig → outcome bytes;
  json_Decode : bytes → outcome AppConfig
}.
Context `{JsonConfig} (open_error : bytes → option goerror).

Definition config_file (DataDir : bytes) : bytes := DataDir ++ str "config.json".

(** [None] is the nil pointer: there is no file. *)
Definition GetConfig (DataDir : bytes) (fs : gmap bytes bytes) : outcome (option AppConfig) :=
  match fs !! config_file DataDir with
  | None => Ret None
  | Some file =>
      match open_error (config_file DataDir) with
      | Some e => Err e
      | None =>
          config ← json_Decode file;
          Ret (Some (if DatabaseConfig_IsEmpty (ac_Database config)
                     then mkAppConfig (ac_Minter config) (ac_Port config) (ac_Host config) (ac_Nodes config)
                            (ac_Logs config) (SetDefault (ac_Database config))
                     else config))
      end
  end.

(** The file fills what the flags leave open. *)
Definition merge_config (input : AppInput) (config : AppConfig) : AppInput :=
  mkAppInput (ai_Command input)
    (if bool_decide (ai_MinterAddress input = []) && negb (bool_decide (ac_Minter config = []))
     then ac_Minter config else ai_MinterAddress input)
    (if bool_decide (ai_Logs input = []) && (0 <? Z.of_nat (length (ac_Logs config)))%Z
     then Join ","%byte (ac_Logs config) else ai_Logs input)
    (if (ai_Port input <? 1)%Z && (0 <? ac_Port config)%Z then ac_Port config else ai_Port input)
    (if bool_decide (ai_Host input = []) && negb (bool_decide (ac_Host config = []))
     then ac_Host config else ai_Host input)
    (ai_DataDir input)
    (if (0 <? Z.of_nat (length (ac_Nodes config)))%Z then ac_Nodes config else ai_Nodes input)
    (ai_Args input) (ac_Database config).

Definition with_database (db : DatabaseConfig) (input : AppInput) : AppInput :=
  mkAppInput (ai_Command input) (ai_MinterAddress input) (ai_Logs input) (ai_Port input) (ai_Host input)
    (ai_DataDir input) (ai_Nodes input) (ai_Args input) db.
Definition with_host (host : bytes) (input : AppInput) : AppInput :=
  mkAppInput (ai_Command input) (ai_MinterAddress input) (ai_Logs input) (ai_Port input) host
    (ai_DataDir input) (ai_Nodes input) (ai_Args input) (ai_Database input).

(** [GetAppInput] after the flags were read. *)
Definition input_of (command : bytes) (fl : flags) (exe_dir : option bytes) (fs : gmap bytes bytes)
    : outcome AppInput :=
  let args := args_of fl in
  let input := mkAppInput command (flag_str fl "minter") (flag_str fl "logs") (aa_Port args) (aa_Host args)
                 (data_dir (flag_str fl "datadir") exe_dir) [] args (mkDatabaseConfig [] [] []) in
  config ← GetConfig (ai_DataDir input) fs;
  let input := match config with
               | Some config => merge_config input config
               | None => with_database (SetDefault (ai_Database input)) input
               end in
  let input := with_database (mkDatabaseConfig (ai_DataDir input) (BlockchainFile (ai_Database input))
                                (NodesFile (ai_Database input))) input in
  Ret (with_host (if bool_decide (ai_Host input = []) then str "localhost" else ai_Host input) input).

(** [args] are [os.Args], with the name of the program.  Making the data directory
    does not change its files. *)
Definition GetAppInput (args : list bytes) (exe_dir : option bytes) (fs : gmap bytes bytes) : outcome AppInput :=
  match args with
  | _ :: command :: args =>
      fl ← Parse args flag_defaults;
      input_of command fl exe_dir fs
  | _ => Ret (mkAppInput (str "help") [] [] 0 [] [] []
                (mkAllPossibleArgs [] [] [] 0 [] 0 [] [] f64_zero [] [] [] false) (mkDatabaseConfig [] [] []))
  end.

Definition CheckNeedsHelp (input : AppInput) : bool :=
  bool_decide (ai_Command input = str "help") || bool_decide (ai_Command input = []).
Definition CheckConfigUpdateNeeded (input : AppInput) : bool :=
  bool_decide (ai_Command input = str "updateconfig").

(** *** [UpdateConfig] *)

Definition with_node (node : NodeAddr) (nodes : list NodeAddr) : list NodeAddr :=
  if existsb (CompareToAddress node) nodes then nodes else nodes ++ [node].

Definition updated_config (input : AppInput) (config : AppConfig) : AppConfig :=
  let args := ai_Args input in
  mkAppConfig
    (if bool_decide (ai_MinterAddress input = []) then ac_Minter config else ai_MinterAddress input)
    (if (0 <? ai_Port input)%Z then ai_Port input else ac_Port config)
    (if bool_decide (ai_Host input = []) then ac_Host config else ai_Host input)
    (if negb (bool_decide (aa_NodeHost args = [])) && (0 <? aa_NodePort args)%Z
     then with_node (mkNodeAddr (aa_NodeHost args) (aa_NodePort args)) (ac_Nodes config)
     else ac_Nodes config)
    (if bool_decide (ai_Logs input = []) then ac_Logs config
     else if bool_decide (ai_Logs input = str "no") then []
     else Split ","%byte (ai_Logs input))
    (ac_Database config).

(** Opening the file to write to it empties it; [write_error] is the error of the
    encoder, with what was written before. *)
Definition UpdateConfig (open_write : option goerror) (write_error : option (goerror * bytes)) (input : AppInput)
    : st (gmap bytes bytes) unit := λ fs,
  match GetConfig (ai_DataDir input) fs with
  | Ret config =>
      let config := updated_config input (default no_config config) in
      let name := config_file (ai_DataDir input) in
      match open_write, json_Encode config, write_error with
      | Some e, _, _ => (Err e, fs)
      | None, Ret text, None => (Ret tt, <[name := text]> fs)
      | None, _, Some (e, part) => (Err e, <[name := part]> fs)
      | None, Err e, None => (Err e, <[name := []]> fs)
      | None, Panic p, None => (Panic p, <[name := []]> fs)
      | None, OutOfFuel, None => (OutOfFuel, <[name := []]> fs)
      end
  | Err e => (Err e, fs)
  | Panic p => (Panic p, fs)
  | OutOfFuel => (OutOfFuel, fs)
  end.
End Input.

(** ** What the next run reads *)

Definition config_plain (c : AppConfig) : Prop :=
  plain_text (ac_Minter c) ∧ plain_text (ac_Host c) ∧ Forall (λ n, plain_text (Host n)) (ac_Nodes c) ∧
  Forall plain_text (ac_Logs c) ∧ plain_text (Connections.DataDir (ac_Database c)) ∧
  plain_text (BlockchainFile (ac_Database c)) ∧ plain_text (NodesFile (ac_Database c)).

Class JsonConfigLaws `{JsonConfig} : Prop := {
  json_roundtrip c : config_plain c → ∃ text, json_Encode c = Ret text ∧ json_Decode text = Ret c
}.

Section NextRun.
Context `{GoParse} `{JsonConfigLaws} (open_error : bytes → option goerror).
Implicit Types (fs : gmap bytes bytes) (c : AppConfig) (fl : flags).

Definition with_default_db c : AppConfig :=
  if DatabaseConfig_IsEmpty (ac_Database c)
  then mkAppConfig (ac_Minter c) (ac_Port c) (ac_Host c) (ac_Nodes c) (ac_Logs c) (SetDefault (ac_Database c))
  else c.

(** The configuration an input was merged with; without a file it is blank. *)
Definition current_config (DataDir : bytes) fs : outcome AppConfig :=
  config ← GetConfig open_error DataDir fs; Ret (default no_config config).

(** Flags that leave the settings to the file. *)
Definition no_settings fl : Prop :=
  flag_str fl "minter" = [] ∧ flag_str fl "logs" = [] ∧ flag_str fl "host" = [] ∧ flag_int fl "port" = 0%Z.

(** What an input has of the configuration it was merged with. *)
Definition reflects (inp : AppInput) c : Prop :=
  (ai_MinterAddress inp = [] → ac_Minter c = []) ∧
  (ai_Port inp < 1 → ac_Port c < 1)%Z ∧
  ai_Host inp ≠ [] ∧
  (ai_Logs inp = [] → Join ","%byte (ac_Logs c) = []) ∧
  ai_Nodes inp = ac_Nodes c ∧
  ai_Database inp = mkDatabaseConfig (ai_DataDir inp) (BlockchainFile (ac_Database (with_default_db c)))
                      (NodesFile (ac_Database (with_default_db c))).

Lemma with_default_db_twice c : with_default_db (with_default_db c) = with_default_db c.
Proof.
  unfold with_default_db. destruct (DatabaseConfig_IsEmpty (ac_Database c)) eqn:E; simpl; [done|]. by rewrite E.
Qed.

Lemma GetConfig_normal dir fs c : GetConfig open_error dir fs = Ret (Some c) → with_default_db c = c.
Proof.
  unfold GetConfig. destruct (fs !! _); [|done]. destruct (open_error _); [done|]. intros Hg. go_inv Hg.
  fold (with_default_db v). apply with_default_db_twice.
Qed.

Lemma nonempty_or {A} (l d : list A) : d ≠ [] → (if bool_decide (l = []) then d else l) ≠ [].
Proof. intros Hd. by case_bool_decide. Qed.

Lemma input_of_reflects command fl exe fs inp :
  input_of open_error command fl exe fs = Ret inp →
  ∃ c, current_config (ai_DataDir inp) fs = Ret c ∧ reflects inp c ∧ ai_Args inp = args_of fl.
Proof.
  unfold input_of, current_config. intros Hi. apply outcome_bind_Ret in Hi as (v & E & Hi). cbn [ai_DataDir] in E.
  set (dir := data_dir _ _) in *. exists (default no_config v).
  assert (ai_DataDir inp = dir ∧ ai_Args inp = args_of fl) as [-> Ha].
  { injection Hi as <-. by destruct v. }
  rewrite E. split; [done|]. split; [|done]. injection Hi as <-. destruct v as [c|]; unfold default, id.
  - pose proof (GetConfig_normal _ _ _ E) as En. unfold reflects. rewrite En. unfold merge_config, with_host, with_database. cbn.
    split_and!.
    + destruct (ac_Minter c) as [|b m]; [done|]. rewrite andb_true_r. intros Hm. exfalso. by case_bool_decide.
    + destruct (Z.ltb_spec (flag_int fl "port") 1), (Z.ltb_spec 0 (ac_Port c)); cbn; lia.
    + by apply nonempty_or.
    + destruct (ac_Logs c) as [|l ls] eqn:El; [done|].
      replace (0 <? Z.of_nat (length (l :: ls)))%Z with true by done. rewrite andb_true_r. intros Hj. by case_bool_decide.
    + by destruct (ac_Nodes c).
    + done.
  - unfold reflects, with_host, with_database. cbn. split_and!; try done. by apply nonempty_or.
Qed.

(** The nodes of the file after the update. *)
Definition updated_nodes (inp : AppInput) : list NodeAddr :=
  let args := ai_Args inp in
  if negb (bool_decide (aa_NodeHost args = [])) && (0 <? aa_NodePort args)%Z
  then with_node (mkNodeAddr (aa_NodeHost args) (aa_NodePort args)) (ai_Nodes inp)
  else ai_Nodes inp.

(** The input of a run that leaves the settings to the file. *)
Definition remembered (inp : AppInput) (command : bytes) fl : AppInput :=
  mkAppInput command (ai_MinterAddress inp)
    (if bool_decide (ai_Logs inp = str "no") then [] else ai_Logs inp)
    (if (0 <? ai_Port inp)%Z then ai_Port inp else 0) (ai_Host inp) (ai_DataDir inp)
    (updated_nodes inp) (args_of fl) (ai_Database inp).

Lemma GetConfig_written dir fs c text :
  open_error (config_file dir) = None → json_Decode text = Ret c →
  GetConfig open_error dir (<[config_file dir := text]> fs) = Ret (Some (with_default_db c)).
Proof. intros Ho Hd. unfold GetConfig. by rewrite lookup_insert_eq, Ho, Hd. Qed.

Lemma joined_logs (l : list bytes) :
  (if (0 <? Z.of_nat (length l))%Z then Join ","%byte l else []) = Join ","%byte l.
Proof. by destruct l. Qed.

Lemma own_nodes (l : list NodeAddr) : (if (0 <? Z.of_nat (length l))%Z then l else []) = l.
Proof. by destruct l. Qed.

(** Merging blank flags with the updated configuration gives the input back. *)
Lemma merge_updated inp c command fl :
  reflects inp c → no_settings fl →
  with_host (ai_Host inp) (with_database (ai_Database inp) (merge_config
    (mkAppInput command (flag_str fl "minter") (flag_str fl "logs") (flag_int fl "port") (flag_str fl "host")
       (ai_DataDir inp) [] (args_of fl) (mkDatabaseConfig [] [] [])) (updated_config inp c)))
  = remembered inp command fl.
Proof.
  intros (Hm & Hp & Hh & Hl & Hn & Hd) (-> & -> & -> & ->).
  unfold remembered, with_host, with_database, merge_config, updated_nodes. cbn. rewrite <- Hn. f_equal.
  - destruct (ai_MinterAddress inp) as [|b m]; [by rewrite Hm|done].
  - rewrite joined_logs. destruct (decide (ai_Logs inp = [])) as [E|E].
    + rewrite E. repeat case_bool_decide; try done; by apply Hl.
    + rewrite (bool_decide_eq_false_2 (ai_Logs inp = [])) by done. case_bool_decide; [done|]. apply Join_Split.
  - destruct (Z.ltb_spec 0 (ai_Port inp)) as [Hpos|Hpos].
    + by rewrite (proj2 (Z.ltb_lt 0 (ai_Port inp))) by done.
    + rewrite (proj2 (Z.ltb_ge 0 (ac_Port c))); [done|]. lia.
  - apply own_nodes.
Qed.

Lemma merge_default db i c :
  with_database db (merge_config i (with_default_db c)) = with_database db (merge_config i c).
Proof. unfold with_default_db. by destruct (DatabaseConfig_IsEmpty _). Qed.

Lemma updated_default_db inp c :
  ac_Database (with_default_db (updated_config inp c)) = ac_Database (with_default_db c).
Proof. unfold with_default_db. simpl. by destruct (DatabaseConfig_IsEmpty _). Qed.

Lemma input_of_written inp c text command fl exe fs :
  reflects inp c → no_settings fl → data_dir (flag_str fl "datadir") exe = ai_DataDir inp →
  open_error (config_file (ai_DataDir inp)) = None → json_Decode text = Ret (updated_config inp c) →
  input_of open_error command fl exe (<[config_file (ai_DataDir inp) := text]> fs) = Ret (remembered inp command fl).
Proof.
  intros Hr Hs Hdir Ho Hdec. pose proof (merge_updated inp c command fl Hr Hs) as Hm.
  destruct Hr as (_ & _ & Hh & _ & _ & Hd). unfold input_of. cbn [ai_DataDir]. rewrite Hdir.
  rewrite (GetConfig_written _ fs _ _ Ho Hdec), ret_bind. f_equal. cbn [ai_Args aa_Port aa_Host args_of] in *.
  assert (Hdb : ai_Database (merge_config (mkAppInput command (flag_str fl "minter") (flag_str fl "logs") (flag_int fl "port")
      (flag_str fl "host") (ai_DataDir inp) [] (args_of fl) (mkDatabaseConfig [] [] [])) (with_default_db (updated_config inp c)))
    = ac_Database (with_default_db c))
    by exact (updated_default_db inp c).
  change (ai_DataDir (merge_config _ _)) with (ai_DataDir inp). rewrite Hdb, <- Hd, merge_default, <- Hm.
  change (ai_Host (with_database ?d ?i)) with (ai_Host i). unfold with_host. f_equal.
  destruct Hs as (_ & _ & Eflag & _). cbn. rewrite Eflag.
  rewrite !(bool_decide_eq_false_2 (ai_Host inp = [])) by done. repeat case_bool_decide; done.
Qed.

(** [updateconfig] is remembered.  It writes the configuration file and no other;
    every later run with the same data directory that leaves the settings to the file
    has the minter, the host, the database, the nodes with the one that was given, and
    the port and the logs of the run that updated. *)
Theorem updateconfig_remembered prog command0 args0 exe fs inp :
  GetAppInput open_error (prog :: command0 :: args0) exe fs = Ret inp →
  open_error (config_file (ai_DataDir inp)) = None →
  (∀ c, current_config (ai_DataDir inp) fs = Ret c → config_plain (updated_config inp c)) →
  ∃ text, let fs' := <[config_file (ai_DataDir inp) := text]> fs in
    UpdateConfig open_error None None inp fs = (Ret tt, fs') ∧
    ∀ prog' command args fl, Parse args flag_defaults = Ret fl → no_settings fl →
      data_dir (flag_str fl "datadir") exe = ai_DataDir inp →
      GetAppInput open_error (prog' :: command :: args) exe fs' = Ret (remembered inp command fl).
Proof.
  intros Hin Ho Hpl. apply outcome_bind_Ret in Hin as (fl0 & _ & Hin).
  destruct (input_of_reflects _ _ _ _ _ Hin) as (c & Hc & Hr & _).
  destruct (json_roundtrip _ (Hpl c Hc)) as (text & He & Hdec). exists text. split.
  - unfold UpdateConfig. apply outcome_bind_Ret in Hc as (oc & -> & [= <-]). by rewrite He.
  - intros prog' command args fl Hfl Hs Hdir. unfold GetAppInput. rewrite Hfl, ret_bind.
    by apply (input_of_written inp c).
Qed.
End NextRun.

(** ** The background process

    [StartServer] of [node/server/daemon.go] starts the node as a process of its
    own with these arguments. *)

Definition Daemonprocesscommandline : bytes := str "tainnode".
Definition daemon_args (program DataDir Minter : bytes) (Port : Z) (Host logsstate : bytes) : list bytes :=
  [program; Daemonprocesscommandline; str "-datadir=" ++ DataDir; str "-minter=" ++ Minter;
   str "-port=" ++ Itoa Port; str "-host=" ++ Host; str "-logs=" ++ logsstate].

Section Background.
Context `{GoParseLaws} `{JsonConfig} `{GoRangeLaws} (open_error : bytes → option goerror).
Implicit Types (fs : gmap bytes bytes) (fl : flags).

(** The flags of that process. *)
Definition daemon_flags (DataDir Minter : bytes) (Port : Z) (Host logsstate : bytes) : flags :=
  <[str "logs" := VStr logsstate]> (<[str "host" := VStr Host]> (<[str "port" := VInt Port]>
    (<[str "minter" := VStr Minter]> (<[str "datadir" := VStr DataDir]> flag_defaults)))).

Lemma Parse_value s args fl name t v v' :
  parse_head s = AFlag name (Some t) → fl !! name = Some v → set_value v t = Ret v' →
  Parse (s :: args) fl = Parse args (<[name := v']> fl).
Proof. intros Hs Hl Hv. cbn [Parse]. rewrite Hs, Hl. by destruct v; rewrite Hv. Qed.

Lemma Parse_daemon_args DataDir Minter Port Host logsstate :
  is_int64 Port →
  Parse (drop 2 (daemon_args [] DataDir Minter Port Host logsstate)) flag_defaults
  = Ret (daemon_flags DataDir Minter Port Host logsstate).
Proof.
  intros Hp. change (drop 2 _) with [str "-datadir=" ++ DataDir; str "-minter=" ++ Minter;
    str "-port=" ++ Itoa Port; str "-host=" ++ Host; str "-logs=" ++ logsstate].
  erewrite Parse_value; [|reflexivity|reflexivity|reflexivity].
  erewrite Parse_value; [|reflexivity|reflexivity|reflexivity].
  erewrite Parse_value; [|reflexivity|reflexivity|cbn; rewrite ParseInt_Itoa by done; reflexivity].
  erewrite Parse_value; [|reflexivity|reflexivity|reflexivity].
  by erewrite Parse_value; [|reflexivity|reflexivity|reflexivity].
Qed.

Lemma data_dir_idem flag exe : data_dir (data_dir flag exe) exe = data_dir flag exe.
Proof.
  unfold data_dir at 2 3. set (d := if bool_decide (flag = []) then _ else _).
  assert (Hd : d = [] ∨ last d = Some "/"%byte).
  { subst d. case_bool_decide; [by left|]. right. case_bool_decide; [done|].
    change (str "/") with [x2f]. by rewrite last_snoc. }
  assert (Hs : ∀ d', last d' = Some "/"%byte → data_dir d' exe = d').
  { intros d' Hl. unfold data_dir. assert (d' ≠ []) by (by intros ->).
    rewrite (bool_decide_eq_false_2 (d' = [])), (bool_decide_eq_true_2 (last d' = _)) by done.
    by rewrite bool_decide_eq_false_2. }
  case_bool_decide as E.
  - destruct exe as [dir|]; [|by rewrite E]. apply Hs.
    replace (dir ++ str "/data/") with ((dir ++ str "/data") ++ [x2f]) by (by rewrite <- app_assoc).
    by rewrite last_snoc.
  - destruct Hd; [done|by apply Hs].
Qed.

(** The parts of an input that are not settings. *)
Definition same_settings (inp inp' : AppInput) : Prop :=
  ai_MinterAddress inp' = ai_MinterAddress inp ∧ ai_Port inp' = ai_Port inp ∧ ai_Host inp' = ai_Host inp ∧
  ai_DataDir inp' = ai_DataDir inp ∧ ai_Nodes inp' = ai_Nodes inp ∧ ai_Database inp' = ai_Database inp.

(** The input for flags with these values and this file. *)
Definition merged (command m l : bytes) (p : Z) (h dir : bytes) (args : AllPossibleArgs) (v : option AppConfig)
    : AppInput :=
  let input := mkAppInput command m l p h dir [] args (mkDatabaseConfig [] [] []) in
  let input := match v with
               | Some config => merge_config input config
               | None => with_database (SetDefault (ai_Database input)) input
               end in
  let input := with_database (mkDatabaseConfig dir (BlockchainFile (ai_Database input))
                                (NodesFile (ai_Database input))) input in
  with_host (if bool_decide (ai_Host input = []) then str "localhost" else ai_Host input) input.

Lemma input_of_merged command fl exe fs m l p h dir inp :
  flag_str fl "minter" = m → flag_str fl "logs" = l → flag_int fl "port" = p → flag_str fl "host" = h →
  data_dir (flag_str fl "datadir") exe = dir →
  input_of open_error command fl exe fs = Ret inp ↔
  ∃ v, GetConfig open_error dir fs = Ret v ∧ inp = merged command m l p h dir (args_of fl) v.
Proof.
  intros <- <- <- <- <-. unfold input_of, merged. rewrite outcome_bind_Ret. cbn [ai_DataDir aa_Port aa_Host args_of].
  split; intros (v & E & Hi); exists v; (split; [exact E|]); destruct v; [injection Hi as <-|injection Hi as <-|subst|subst]; done.
Qed.

Lemma daemon_input command fl exe fs inp logsstate :
  input_of open_error command fl exe fs = Ret inp → ai_MinterAddress inp ≠ [] → (1 ≤ ai_Port inp)%Z →
  ∃ inp' c, current_config open_error (ai_DataDir inp) fs = Ret c ∧
    input_of open_error Daemonprocesscommandline
      (daemon_flags (ai_DataDir inp) (ai_MinterAddress inp) (ai_Port inp) (ai_Host inp) logsstate) exe fs = Ret inp' ∧
    ai_Command inp' = Daemonprocesscommandline ∧ same_settings inp inp' ∧
    ai_Logs inp' = if bool_decide (logsstate = []) then Join ","%byte (ac_Logs c) else logsstate.
Proof.
  intros Hin Hm Hp. destruct (input_of_reflects _ _ _ _ _ _ Hin) as (c & Hc & (_ & _ & Hh & _) & _).
  apply (input_of_merged _ _ _ _ _ _ _ _ _ _ eq_refl eq_refl eq_refl eq_refl eq_refl) in Hin as (v & Ev & ->).
  set (inp := merged _ _ _ _ _ _ _ _) in *. set (dir := data_dir (flag_str fl "datadir") exe) in *.
  assert (Hdir : ai_DataDir inp = dir) by (by destruct v). rewrite Hdir in *.
  set (fl' := daemon_flags dir _ _ _ _).
  exists (merged Daemonprocesscommandline (ai_MinterAddress inp) logsstate (ai_Port inp) (ai_Host inp) dir (args_of fl') v), c.
  split; [done|]. split.
  { apply (input_of_merged _ fl' _ _ (ai_MinterAddress inp) logsstate (ai_Port inp) (ai_Host inp) dir);
      [reflexivity..|apply data_dir_idem|by exists v]. }
  unfold current_config in Hc. rewrite Ev in Hc. injection Hc as <-. unfold same_settings. rewrite Hdir.
  rewrite <- (bool_decide_eq_false (ai_MinterAddress inp = [])) in Hm.
  rewrite <- (bool_decide_eq_false (ai_Host inp = [])) in Hh.
  assert (Hp1 : (ai_Port inp <? 1)%Z = false) by (apply Z.ltb_ge; lia).
  unfold merged at 1 2 3 4 5 6 7 8. destruct v as [c|]; cbn -[bool_decide Z.ltb inp];
    rewrite ?Hm, ?Hh, ?Hp1; cbn -[bool_decide Z.ltb inp]; rewrite ?Hh; (split; [done|]); (split; [by split_and!|]).
  - destruct (decide (logsstate = [])) as [->|E]; [|by rewrite bool_decide_eq_false_2].
    rewrite bool_decide_eq_true_2 by done. apply joined_logs.
  - destruct (decide (logsstate = [])) as [->|E]; [by rewrite bool_decide_eq_true_2|by rewrite bool_decide_eq_false_2].
Qed.

(** the background process is started with the settings of the node that starts
    it.  From the arguments that [StartServer] builds, the flags and the file give the
    new process the minter, the port, the host, the data directory, the nodes and the
    database of the node, and the logs that the node has enabled, unless these have no
    name. *)
Theorem daemon_reads_settings prog command args exe fs inp :
  GetAppInput open_error (prog :: command :: args) exe fs = Ret inp →
  ai_MinterAddress inp ≠ [] → (1 ≤ ai_Port inp)%Z → is_int64 (ai_Port inp) →
  let logger := EnableLogs (ai_Logs inp) CreateLogger in
  (logger_GetState logger = [] → ai_Logs inp = []) →
  ∃ inp', GetAppInput open_error (daemon_args prog (ai_DataDir inp) (ai_MinterAddress inp) (ai_Port inp)
            (ai_Host inp) (logger_GetState logger)) exe fs = Ret inp' ∧
    ai_Command inp' = Daemonprocesscommandline ∧ same_settings inp inp' ∧
    ∀ name, name ≠ [] → log_enabled (EnableLogs (ai_Logs inp') CreateLogger) name = log_enabled logger name.
Proof.
  intros Hin Hm Hp H64 logger Hstate. apply outcome_bind_Ret in Hin as (fl & _ & Hin).
  destruct (daemon_input _ _ _ _ _ (logger_GetState logger) Hin Hm Hp) as (inp' & c & Hc & Hr & Hcmd & Hs & Hl).
  exists inp'. split_and!; [|done..|].
  - unfold GetAppInput, daemon_args.
    change [str "-datadir=" ++ _; _; _; _; _] with
      (drop 2 (daemon_args [] (ai_DataDir inp) (ai_MinterAddress inp) (ai_Port inp) (ai_Host inp) (logger_GetState logger))).
    by rewrite Parse_daemon_args, ret_bind.
  - intros name Hn. destruct (input_of_reflects _ _ _ _ _ _ Hin) as (c' & Hc' & (_ & _ & _ & Hlogs & _) & _).
    rewrite Hc in Hc'. injection Hc' as <-. rewrite Hl. case_bool_decide as E.
    + unfold logger. rewrite (Hstate E), (Hlogs (Hstate E)). done.
    + apply EnableLogs_GetState; [done|]. intros n. unfold logger. rewrite log_enabled_EnableLogs.
      intros [Hin'%bool_decide_eq_true|Hf]%orb_prop; [by eapply Split_parts|].
      unfold log_enabled in Hf. destruct (lg_State CreateLogger !! n) as [b|] eqn:El; [|done].
      apply elem_of_list_to_map_2 in El. by apply list_elem_of_fmap in El as (? & [= -> ->] & _).
Qed.
End Background.

(** ** Witnesses *)

Module ConfigDemo.
Import MapRange.

Definition addr_codec : codec NodeAddr :=
  codec_iso (codec_prod codec_bytes codec_Z) (λ a, (Host a, Port a)) (λ p, mkNodeAddr p.1 p.2)
    (λ '(mkNodeAddr _ _), eq_refl).
Definition db_codec : codec DatabaseConfig :=
  codec_iso (codec_prod codec_bytes (codec_prod codec_bytes codec_bytes))
    (λ d, (Connections.DataDir d, (BlockchainFile d, NodesFile d)))
    (λ p, mkDatabaseConfig p.1 p.2.1 p.2.2) (λ '(mkDatabaseConfig _ _ _), eq_refl).
Definition config_codec : codec AppConfig :=
  codec_iso (codec_prod codec_bytes (codec_prod codec_Z (codec_prod codec_bytes
      (codec_prod (codec_list addr_codec) (codec_prod (codec_list codec_bytes) db_codec)))))
    (λ c, (ac_Minter c, (ac_Port c, (ac_Host c, (ac_Nodes c, (ac_Logs c, ac_Database c))))))
    (λ p, mkAppConfig p.1 p.2.1 p.2.2.1 p.2.2.2.1 p.2.2.2.2.1 p.2.2.2.2.2)
    (λ '(mkAppConfig _ _ _ _ _ _), eq_refl).

#[export] Instance demo_parse : GoParse := {
  strconv_ParseInt := Atoi;
  strconv_ParseFloat _ := Err err_parse
}.
#[export] Instance demo_parse_laws : GoParseLaws.
Proof. split. apply Atoi_Itoa. Qed.

#[export] Instance demo_json : JsonConfig := {
  json_Encode := @gob_Encode AppConfig (codec_gob config_codec);
  json_Decode := @gob_Decode AppConfig (codec_gob config_codec)
}.
#[export] Instance demo_json_laws : JsonConfigLaws.
Proof.
  split. intros c _. pose proof (codec_gob_laws config_codec) as Hl.
  destruct (@gob_total _ (codec_gob config_codec) Hl c) as [text E]. exists text. split; [done|].
  by apply (@gob_roundtrip _ (codec_gob config_codec) Hl c text E).
Qed.

Abbreviation no_error := (λ _ : bytes, @None goerror).

(** A first run sets the minter, the port, the logs and a node. *)
Definition demo_args : list bytes :=
  [str "tain"; str "updateconfig"; str "-datadir"; str "/d"; str "--minter=M"; str "-port=2048"; str "-logs"; str "trace,error";
   str "-nodehost=n"; str "-nodeport=7"].
Definition demo_input : AppInput :=
  match GetAppInput no_error demo_args None ∅ with
  | Ret inp => inp
  | _ => mkAppInput [] [] [] 0 [] [] [] (args_of ∅) (mkDatabaseConfig [] [] [])
  end.
(** A later one gives the data directory alone. *)
Definition later_flags : flags := <[str "datadir" := VStr (str "/d/")]> flag_defaults.

Lemma updateconfig_remembered_witness :
  ∃ text, let fs' := <[str "/d/config.json" := text]> (∅ : gmap bytes bytes) in
    UpdateConfig no_error None None demo_input ∅ = (Ret tt, fs') ∧
    GetAppInput no_error [str "tain"; str "startnode"; str "-datadir=/d/"] None fs'
    = Ret (remembered demo_input (str "startnode") later_flags).
Proof.
  destruct (updateconfig_remembered no_error (str "tain") (str "updateconfig") (drop 2 demo_args) None ∅ demo_input)
    as (text & Hu & Hlater).
  - vm_compute. reflexivity.
  - reflexivity.
  - intros c Hc. injection Hc as <-. apply (bool_decide_unpack _). vm_compute. exact I.
  - exists text. split; [exact Hu|]. apply (Hlater _ _ [str "-datadir=/d/"]).
    + reflexivity.
    + split_and!; reflexivity.
    + reflexivity.
Defined.

Lemma daemon_reads_settings_witness :
  ∃ inp', GetAppInput no_error (daemon_args (str "tain") (str "/d/") (str "M") 2048 (str "localhost")
            (logger_GetState (EnableLogs (str "trace,error") CreateLogger))) None ∅ = Ret inp' ∧
    ai_Command inp' = Daemonprocesscommandline ∧ same_settings demo_input inp' ∧
    ∀ name, name ≠ [] →
      log_enabled (EnableLogs (ai_Logs inp') CreateLogger) name = log_enabled (EnableLogs (str "trace,error") CreateLogger) name.
Proof.
  apply (daemon_reads_settings no_error (str "tain") (str "updateconfig") (drop 2 demo_args) None ∅ demo_input).
  - vm_compute. reflexivity.
  - discriminate.
  - vm_compute. discriminate.
  - split; vm_compute; [discriminate|reflexivity].
  - vm_compute. discriminate.
Defined.

(** A database of which one file is named alone gets both default names. *)
Example one_file_named :
  ac_Database (with_default_db (mkAppConfig [] 0 [] [] [] (mkDatabaseConfig [] (str "mine.db") [])))
  = mkDatabaseConfig [] (str "blockchain.db") (str "nodeslist.db").
Proof. reflexivity. Qed.

(** A flag without its value, one that is not defined, and what follows an argument
    that is no flag. *)
Example flag_cases :
  Parse [str "-port"] flag_defaults = Panic PExit ∧
  Parse [str "-fee=1"] flag_defaults = Panic PExit ∧
  Parse [str "now"; str "-fee=1"] flag_defaults = Ret flag_defaults.
Proof. split_and!; reflexivity. Qed.
End ConfigDemo.
