(* ===== verification/Node.v ===== *)
(** * Package [node/nodemanager]: the node

    [database.go]: the connection, which [DB()] opens when it is closed.
    [nodeslist.go]: the storage of the known nodes in the nodes file.
    [blockchain.go] ([NodeBlockchain]), [blockchain_create.go]
    ([makeBlockchain]) and [node.go] ([Node]): the operations of a node over its
    database, its list of nodes and what it sends.  The session of a connection
    and the random seed of [Init] have no effect on the state and are left
    out. *)

From Stdlib Require Import Strings.Byte ZifyNat.
From stdpp Require Import base strings numbers gmap sorting list.
From S2P Require Import Prelude Float64 Platform Concrete Utils Structures Signing.
From S2P Require Import Database Blockchain TxIndex Pending Unspent TxManager Consensus.
From S2P Require Import Net Wire NodeClient.

(** ** [database.go] *)

Section Connection.
Context `{Bolt}.

Definition CheckConnectionIsOpen (db : DB) : bool := openedConn db.

Definition OpenConnectionIfNeeded : st DB bool := λ db,
  if openedConn db then (Ret false, db) else (Ret true, OpenConnection db).

(** [DB()]. *)
Definition get_DB : st DB unit := _ ← OpenConnectionIfNeeded; mret tt.

Definition close_conn : st DB unit := λ db, (Ret tt, CloseConnection db).

(** [defer CloseConnection()], if [b]. *)
Definition closing {A} (b : bool) (op : st DB A) : st DB A := λ db,
  let '(r, db) := op db in (r, if b then CloseConnection db else db).

(** A read-only operation on the database that [DB()] gives. *)
Definition asking {A} (f : DB → outcome A) : st DB A := _ ← get_DB; ask f.

(** [InitDatabase] on a connection of its own. *)
Definition db_InitDatabase : st DB unit := InitDatabase.

(** ** [nodeslist.go] *)

(** The errors of [LoadFromString] and of [ForEach] are dropped. *)
Definition stored_nodes (nddb : boltfile) : outcome (list NodeAddr) :=
  let '(r, nodes) := drop_err (NodesDB.ForEach (λ _ v nodes,
    (Ret tt, nodes ++ [(LoadFromString v).2])) nddb) [] in
  _ ← r; Ret nodes.

Definition list_GetNodes : st DB (list NodeAddr) :=
  _ ← get_DB;
  nddb ← ask GetNodesObject;
  lift (stored_nodes nddb).

(** The connection is closed afterwards if it was closed before. *)
Definition list_AddNodeToKnown (addr : NodeAddr) : st DB unit := λ db,
  closing (negb (CheckConnectionIsOpen db)) (drop_err (
    _ ← get_DB;
    _ ← ask GetNodesObject;
    let key := NodeAddrToString addr in
    on_nodes (NodesDB.PutNode key key))) db.

Definition list_RemoveNodeFromKnown (addr : NodeAddr) : st DB unit := λ db,
  closing (negb (CheckConnectionIsOpen db)) (drop_err (
    _ ← get_DB;
    _ ← ask GetNodesObject;
    on_nodes (NodesDB.DeleteNode (NodeAddrToString addr)))) db.

Definition list_GetCountOfKnownNodes : st DB Z :=
  _ ← get_DB;
  nddb ← ask GetNodesObject;
  lift (NodesDB.GetCount nddb).

#[export] Instance NodesListStorage : NodeNetworkStorage DB := {
  GetNodes := list_GetNodes;
  storage_AddNodeToKnown := list_AddNodeToKnown;
  storage_RemoveNodeFromKnown := list_RemoveNodeFromKnown;
  GetCountOfKnownNodes := list_GetCountOfKnownNodes
}.
End Connection.

(** ** [blockchain.go] *)

Section NodeBlockchain.
Context `{Crypto} `{Bolt} `{GoSort} `{GoRange} `{!Gob Transaction} `{!Gob Block} `{!Gob BlockShort}.
Context `{!Gob (list TXOutputIndependent)}.
Context `{!Gob (list bytes)} `{!Gob (list TransactionsIndexSpentOutputs)}.

Definition nbc_CheckBlockExists (blockHash : bytes) : st DB bool :=
  asking (bc_CheckBlockExists blockHash).

Definition nbc_GetBlock (hash : bytes) : st DB Block := asking (bc_GetBlock hash).

Definition nbc_GetBestHeight : st DB Z := asking GetBestHeight.

Definition nbc_GetTopBlockHash : st DB bytes :=
  state ← asking GetState;
  mret state.1.

Definition nbc_GetAddressHistory (fuel : nat) (address : bytes) : st DB (list TransactionsHistory) :=
  if bool_decide (address = []) then fail (EMsg "Address is missed")
  else
    valid ← lift (ValidateAddress address);
    if negb valid then fail (EMsg "Address is not valid")
    else
      bci ← asking NewBlockchainIterator;
      pubKeyHash ← lift (ignore_err [] (AddresToPubKeyHash address));
      ask (GetAddressHistory fuel bci pubKeyHash address).

Definition nbc_DropBlock : st DB Block := _ ← get_DB; bc_DeleteBlock.

Definition nbc_CheckBlockState (hash prevhash : bytes) : st DB Z :=
  exists_ ← nbc_CheckBlockExists hash;
  if (exists_ : bool) then mret BCBState_exists
  else
    exists_ ← nbc_CheckBlockExists prevhash;
    if (exists_ : bool) then mret BCBState_canAdd else mret BCBState_notExistAndPrevNotExist.

(** The block is verified before it is added. *)
Definition nbc_AddBlock (fuel : nat) (block : Block) : st DB Z :=
  blockstate ← nbc_CheckBlockState (blk_Hash block) (blk_PrevBlockHash block);
  if (blockstate =? BCBState_exists)%Z then mret BCBAddState_notAddedExists
  else if (blockstate =? BCBState_notExistAndPrevNotExist)%Z then mret BCBAddState_notAddedNoPrev
  else
    _ ← asking (VerifyBlock fuel block);
    _ ← get_DB;
    AddBlock fuel block.

(** An empty tip is the top, and stays empty when there is none. *)
Definition nbc_GetBranchesReplacement (fuel : nat) (sideBranchHash tip : bytes)
    : st DB (list Block * list Block) :=
  tip ← (if (Z.of_nat (length tip) =? 0)%Z
         then asking (λ db, ignore_err [] (state ← GetState db; Ret state.1))
         else mret tip);
  asking (GetBranchesReplacement fuel sideBranchHash tip).

(** [None] is the nil list: the hash is not known. *)
Definition nbc_GetBlocksAfter (fuel : nat) (hash : bytes) : st DB (option (list BlockShort)) :=
  exists_ ← nbc_CheckBlockExists hash;
  if negb exists_ then mret None
  else
    blocks ← asking (GetNextBlocks fuel hash);
    mret (Some blocks).

(** ** [blockchain_create.go] *)

(** [now] is the clock. *)
Definition prepareGenesisBlock (address genesisCoinbaseData : bytes) (now : Z) : outcome Block :=
  if bool_decide (address = []) then Err (EMsg "Geneisis block wallet address missed")
  else
    valid ← ValidateAddress address;
    if negb valid then Err (EMsg "Address is not valid")
    else if bool_decide (genesisCoinbaseData = []) then Err (EMsg "Geneisis block text missed")
    else
      cbtx ← MakeCoinbaseTX (mkTransaction [] [] [] 0) address genesisCoinbaseData (Ret []);
      Ret (PrepareNewBlock [cbtx] [] 0 now).

(** [addFirstBlock] once the database is there. *)
Definition put_genesis (genesis : Block) : st DB unit :=
  _ ← asking GetBlockchainObject;
  blockdata ← lift (blk_Serialize genesis);
  _ ← on_bc (BlockchainDB.PutBlockOnTop (blk_Hash genesis) blockdata);
  _ ← on_bc (BlockchainDB.SaveFirstHash (blk_Hash genesis));
  _ ← on_bc (BlockchainDB.AddToChain (blk_Hash genesis) []);
  _ ← get_DB;
  tm_BlockAdded genesis true.

Definition addFirstBlock (genesis : Block) : st DB unit :=
  _ ← close_conn;
  _ ← db_InitDatabase;
  put_genesis genesis.

Definition CreateBlockchain (fuel : nat) (MinterAddress genesisCoinbaseData : bytes) (now : Z)
    : st DB unit :=
  genesisBlock ← lift (prepareGenesisBlock MinterAddress genesisCoinbaseData now);
  Minter ← asking (λ db, Ret (NewConsensusManager MinterAddress db));
  let '(complete, _) := CompleteBlock fuel (SetPreparedBlock (Some genesisBlock) Minter) in
  genesisBlock ← lift complete;
  addFirstBlock genesisBlock.

(** The blocks after the first one; whatever [AddBlock] reports, the caches are
    updated as for a block on top.  The last height is returned. *)
Definition import_block (fuel : nat) (_ : Z) (blockdata : bytes) : st DB Z :=
  block ← lift (DeserializeBlock blockdata);
  _ ← nbc_AddBlock fuel block;
  _ ← tm_BlockAdded block true;
  mret (blk_Height block).

(** [result] is the answer of the other node. *)
Definition mk_InitBlockchainFromOther (fuel : nat) (result : outcome ComGetFirstBlocksData)
    : st DB bool :=
  result ← lift result;
  match cfb_Blocks result with
  | [] => fail (EMsg "No blocks found on taht node")
  | firstblockbytes :: rest =>
      block ← lift (DeserializeBlock firstblockbytes);
      _ ← wrap_err "Create DB abd add first block: %" (addFirstBlock block);
      closing true (
        _ ← get_DB;
        MH ← sfor rest (import_block fuel) (blk_Height block);
        mret (MH =? cfb_Height result)%Z)
  end.
End NodeBlockchain.

(** ** [node.go] *)

Section Node.
Context `{Crypto} `{Bolt} `{GoSort} `{GoRange} `{!Gob Transaction} `{!Gob Block} `{!Gob BlockShort}.
Context `{!Gob (list TXOutputIndependent)}.
Context `{!Gob (list bytes)} `{!Gob (list TransactionsIndexSpentOutputs)}.
Context `{Network} `{ComGob}.

Record Node := mkNode {
  nd_DB : DB;
  nd_Net : NodeNetwork;
  nd_Client : NodeClient;
  nd_MinterAddress : bytes;
  nd_Sent : outbox
}.

Definition set_DB (db : DB) (n : Node) : Node :=
  mkNode db (nd_Net n) (nd_Client n) (nd_MinterAddress n) (nd_Sent n).

(** Operations on the database, on the list of nodes with its storage, and of
    the client. *)
Definition on_db {A} (op : st DB A) : st Node A := λ n,
  let '(r, db) := op (nd_DB n) in (r, set_DB db n).
Definition on_net {A} (op : st net_state A) : st Node A := λ n,
  let '(r, (net, db)) := op (nd_Net n, nd_DB n) in
  (r, mkNode db net (nd_Client n) (nd_MinterAddress n) (nd_Sent n)).
Definition sending (op : NodeClient → st outbox unit) : st Node unit := λ n,
  let '(r, out) := op (nd_Client n) (nd_Sent n) in
  (r, mkNode (nd_DB n) (nd_Net n) (nd_Client n) (nd_MinterAddress n) out).

(** The known nodes, and whether a node is this one. *)
Definition known_nodes : st Node (list NodeAddr) := ask (λ n, Ret (nn_Nodes (nd_Net n))).
Definition is_self (node : NodeAddr) (n : Node) : bool :=
  CompareToAddress node (nc_NodeAddress (nd_Client n)).

(** A message to each node but this one; errors are dropped. *)
Definition send_each (nodes : list NodeAddr) (message : NodeAddr → NodeClient → st outbox unit)
    : st Node unit :=
  sfor nodes (λ _ node, λ n,
    if is_self node n then (Ret tt, n) else drop_err (sending (message node)) n) tt.

Definition nd_Init : st Node unit :=
  _ ← on_net SetExtraManager;
  on_net (SetNodes [] true).

Definition BlockchainExist : st DB bool :=
  r ← asking (λ db, ignore_err false (CheckDBExists db));
  _ ← close_conn;
  mret r.

(** [fetched] is the list of nodes of the document that [LoadInitialNodes]
    loads. *)
Definition load_known_nodes (fetched : outcome NodesListJSON) : st Node unit :=
  _ ← drop_err (on_net LoadNodes);
  nodes ← known_nodes;
  if (Z.of_nat (length nodes) =? 0)%Z then
    exists_ ← on_db BlockchainExist;
    if (exists_ : bool) then
      genesisHash ← on_db (asking (λ db, ignore_err None (h ← GetGenesisBlockHash db; Ret (Some h))));
      match genesisHash with
      | Some genesisHash => drop_err (on_net (LoadInitialNodes (Some genesisHash) fetched))
      | None => mret tt
      end
    else mret tt
  else mret tt.

Definition InitNodes (fetched : outcome NodesListJSON) (nodes : list NodeAddr) (force : bool)
    : st Node unit :=
  opened ← on_db OpenConnectionIfNeeded;
  effect (λ n,
    let '(r, n) := (if bool_decide (nodes = []) && negb force then load_known_nodes fetched
                    else on_net (SetNodes nodes true)) n in
    (r, if (opened : bool) then set_DB (CloseConnection (nd_DB n)) n else n)).

Definition nd_CreateBlockchain (fuel : nat) (address genesisCoinbaseData : bytes) (now : Z)
    : st Node unit :=
  on_db (CreateBlockchain fuel address genesisCoinbaseData now).

(** [pick] is the node that is drawn when no host is given. *)
Definition nd_InitBlockchainFromOther (fuel : nat) (fetched : outcome NodesListJSON) (pick : nat)
    (host : bytes) (port : Z) : st Node bool :=
  addr ← (if bool_decide (host = []) then
            _ ← drop_err (on_net (LoadInitialNodes None fetched));
            nodes ← known_nodes;
            match nodes with
            | [] => fail (EMsg "No known nodes to request a blockchain")
            | node :: _ => mret (default node (nodes !! (pick mod length nodes)))
            end
          else mret (mkNodeAddr host port));
  result ← ask (λ n, Ret (SendGetFirstBlocks addr (nd_Sent n)));
  complete ← on_db (mk_InitBlockchainFromOther fuel result);
  _ ← on_net (AddNodeToKnown addr);
  mret complete.

Definition SendTransactionToAll (tx : Transaction) : st Node unit :=
  nodes ← known_nodes;
  send_each nodes (λ node c, SendInv c node (str "tx") [tx_ID tx]).

(** The text of the block is made for each node; an error skips the node. *)
Definition SendBlockToAll (newBlock : Block) (skipaddr : NodeAddr) : st Node unit :=
  nodes ← known_nodes;
  send_each nodes (λ node c,
    blockshortdata ← lift (bs_Serialize (GetShortCopy newBlock));
    SendInv c node (str "block") [blockshortdata]).

Definition SendVersionToNodes (nodes : list NodeAddr) : st Node unit :=
  opened ← on_db OpenConnectionIfNeeded;
  bestHeight ← on_db (closing opened (λ db,
    match nbc_GetBestHeight db with
    | (Ret h, db) => (Ret (Some h), db)
    | (Err _, db) => (Ret None, db)
    | (Panic p, db) => (Panic p, db)
    | (OutOfFuel, db) => (OutOfFuel, db)
    end));
  match bestHeight with
  | None => mret tt
  | Some bestHeight =>
      all ← known_nodes;
      send_each (if bool_decide (nodes = []) then all else nodes)
        (λ node c, SendVersion c node bestHeight)
  end.

Definition CheckAddressKnown (addr : NodeAddr) : st Node bool :=
  known ← ask (λ n, Ret (CheckIsKnown addr (nd_Net n)));
  if negb known then
    nodes ← known_nodes;
    _ ← drop_err (sending (λ _, SendAddrList addr nodes));
    _ ← on_net (AddNodeToKnown addr);
    mret true
  else mret false.

Definition nd_AddNodeToKnown (addr : NodeAddr) (sendversion : bool) : st Node unit :=
  added ← CheckAddressKnown addr;
  if added && sendversion then SendVersionToNodes [addr] else mret tt.

Definition Send (PubKey : bytes) (privKey : PrivateKey) (to : bytes) (amount : float64)
    (now : Z) (seeds : Z → Z → N) : st Node bytes :=
  if bool_decide (to = []) then fail (EMsg "Recipient address is not provided")
  else
    valid ← lift (ValidateAddress to);
    if negb valid then fail (EMsg "Recipient address is not valid")
    else
      tx ← on_db (_ ← get_DB; CreateTransaction PubKey privKey to amount now seeds);
      _ ← SendTransactionToAll tx;
      mret (tx_ID tx).

(** *** Blocks *)

(** The caches after the main branch was replaced by another. *)
Definition replace_caches (fuel : nat) (newChain oldChain : list Block) : st DB unit :=
  _ ← sfor oldChain (λ _ block, _ ← get_DB; BlockRemovedFromPrimaryChain fuel block) tt;
  sfor newChain (λ _ block, _ ← get_DB; BlockAddedToPrimaryChain block) tt.

(** Nil branches come only together. *)
Definition db_AddBlock (fuel : nat) (block : Block) : st DB Z :=
  curLastHash ← asking (λ db, ignore_err [] (state ← GetState db; Ret state.1));
  addstate ← nbc_AddBlock fuel block;
  _ ← (if (addstate =? BCBAddState_addedToParallel)%Z || (addstate =? BCBAddState_addedToTop)%Z
          || (addstate =? BCBAddState_addedToParallelTop)%Z
       then _ ← get_DB; tm_BlockAdded block (addstate =? BCBAddState_addedToTop)%Z
       else mret tt);
  if (addstate =? BCBAddState_addedToParallelTop)%Z then
    branches ← nbc_GetBranchesReplacement fuel curLastHash [];
    let '(newChain, oldChain) := branches in
    _ ← replace_caches fuel newChain oldChain;
    mret addstate
  else mret addstate.

Definition nd_AddBlock (fuel : nat) (block : Block) : st Node Z := on_db (db_AddBlock fuel block).

Definition nd_DropBlock (fuel : nat) : st DB unit :=
  block ← nbc_DropBlock;
  _ ← get_DB;
  tm_BlockRemoved fuel block.

(** The block maker works on the database of the node: what it leaves is the
    database of the node. *)
Definition making (fuel : nat) (now : Z) (randData : outcome bytes) : st Node (Z * NodeBlockMaker) :=
  λ n,
    let '(r, Minter) := nb_PrepareNewBlock fuel now randData
                          (NewConsensusManager (nd_MinterAddress n) (OpenConnection (nd_DB n))) in
    ((prepres ← r; Ret (prepres, Minter)), set_DB (nb_DB Minter) n).

(** A pending transaction is sent to the other nodes. *)
Definition send_pending (txID : bytes) : st Node unit := λ n,
  match on_db (asking (GetIfUnapprovedExists txID)) n with
  | (Ret (Some tx), n) => SendTransactionToAll tx n
  | (Ret None, n) | (Err _, n) => (Ret tt, n)
  | (Panic p, n) => (Panic p, n)
  | (OutOfFuel, n) => (OutOfFuel, n)
  end.

(** [TryToMakeBlock] once a block was prepared or not; the connection is closed
    before and after. *)
Definition finish_block (fuel : nat) (newTransactionID : bytes) (prepres : Z) (Minter : NodeBlockMaker)
    : st Node bytes :=
  if negb (prepres =? BlockPrepare_Done)%Z then
    _ ← (if (1 <? Z.of_nat (length newTransactionID))%Z then send_pending newTransactionID
         else mret tt);
    mret []
  else
    block ← lift (CompleteBlock fuel Minter).1;
    _ ← on_db get_DB;
    _ ← nd_AddBlock fuel block;
    _ ← SendBlockToAll block (mkNodeAddr [] 0);
    mret (blk_Hash block).

Definition TryToMakeBlock (fuel : nat) (now : Z) (randData : outcome bytes) (newTransactionID : bytes)
    : st Node bytes :=
  minter ← ask (λ n, Ret (nd_MinterAddress n));
  valid ← lift (if bool_decide (minter = []) then Ret false else ValidateAddress minter);
  if negb valid then fail (EMsg "Minter address is not provided")
  else
    prepared ← making fuel now randData;
    let '(prepres, Minter) := prepared in
    _ ← on_db close_conn;
    effect (λ n,
      let '(r, n) := finish_block fuel newTransactionID prepres Minter n in
      (r, set_DB (CloseConnection (nd_DB n)) n)).

(** *** Blocks of other nodes *)

Definition ReceivedBlockFromOtherNode (addrfrom : NodeAddr) (bsdata : bytes) : st Node Z :=
  bs ← lift (bs_DeserializeBlock bsdata);
  blockstate ← on_db (nbc_CheckBlockState (bs_Hash bs) (bs_PrevBlockHash bs));
  if (blockstate =? BCBState_canAdd)%Z then
    _ ← drop_err (sending (λ c, SendGetData c addrfrom (str "block") (bs_Hash bs)));
    mret BCBState_canAdd
  else mret blockstate.

Definition ReceivedFullBlockFromOtherNode (fuel : nat) (blockdata : bytes)
    : st Node (Z * Z * Block) :=
  block ← lift (DeserializeBlock blockdata);
  blockstate ← on_db (nbc_CheckBlockState (blk_Hash block) (blk_PrevBlockHash block));
  addstate ← (if (blockstate =? BCBState_canAdd)%Z then nd_AddBlock fuel block
              else mret BCBAddState_error);
  mret (blockstate, addstate, block).

Definition GetNodeState : st DB ComGetNodeState :=
  bh ← nbc_GetBestHeight;
  unappr ← asking GetUnapprovedCount;
  unspent ← asking GetUnspentCount;
  mret (mkComGetNodeState [] (int64_wrap (bh + 1)) 0 unappr unspent).
End Node.
