(* ===== verification/NodeCLI.v ===== *)
(** * The commands of the node: [node/nodecli.go] and [node/main.go]

    What the program does for each command: it makes the node over the database
    files, or, when a node runs already, forwards the command to it as a wallet or
    as its manager; and what it prints.  A printed line is its format, without the
    line end and with tabs as blanks, and its arguments. *)

From Stdlib Require Import Strings.Byte ZifyNat.
From stdpp Require Import base strings numbers gmap list.
From S2P Require Import Prelude Float64 Platform Concrete Utils Logger Structures Codecs Signing.
From S2P Require Import Database Blockchain ChainIndex Branches BlockchainLookup TxIndex Pending Unspent TxManager Consensus.
From S2P Require Import Net Wire NodeClient ComCodecs Wallet WalletCLI Daemon Config Node.

(** ** [BlockSimpler] *)

Record BlockSimpler := mkBlockSimpler {
  bk_Timestamp : Z;
  bk_Transactions : list string;
  bk_PrevBlockHash : bytes;
  bk_Hash : bytes;
  bk_Nonce : Z;
  bk_Height : Z
}.

Section Simpler.
Context `{Crypto} `{!Gob Transaction}.

(** The time stamp and the nonce are not copied. *)
Definition GetSimpler (b : Block) : outcome BlockSimpler :=
  Transactions ← mfor (blk_Transactions b) (λ txs tx, s ← tx_String tx; Ret (txs ++ [s])) [];
  Ret (mkBlockSimpler 0 Transactions (blk_PrevBlockHash b) (blk_Hash b) 0 (blk_Height b)).
End Simpler.

Section NodeCLI.
Context `{Crypto} `{Bolt} `{GoSort} `{GoRange} `{!Gob Transaction} `{!Gob Block} `{!Gob BlockShort}.
Context `{!Gob (list TXOutputIndependent)}.
Context `{!Gob (list bytes)} `{!Gob (list TransactionsIndexSpentOutputs)}.
Context `{Network} `{ComGob} `{!Gob (option (gmap bytes Wallet))} `{GoParse} `{JsonConfig}.

(** ** The state

    [nc_Node] is the node, and before it is made a blank one over the files of the
    database; [nc_files] are the other files of the data directory, [nc_pid] the
    one of the running node. *)
Record NodeCLI := mkNodeCLI {
  nc_Input : Config.AppInput;
  nc_AlreadyRunningPort : Z;
  nc_AuthStr : bytes;
  nc_Node : Node;
  nc_created : bool;
  nc_files : gmap bytes bytes;
  nc_pid : pid_file;
  nc_signals : list Z;
  nc_out : list line
}.

(** What the commands take from outside: the fuel of the loops over blocks, the
    clock, random numbers, the document of initial nodes and the drawn one, errors
    of the file system, the keys and the random numbers of the wallet, and for the
    background process what the system makes of it. *)
Record node_env := mkNodeEnv {
  ne_fuel : nat;
  ne_now : Z;
  ne_rand : outcome bytes;
  ne_fetched : outcome NodesListJSON;
  ne_pick : nat;
  ne_write_error : bytes → option goerror;
  ne_keys : key_source;
  ne_seeds : Z → Z → N;
  ne_alive : Z → bool;
  ne_started : option Z;
  ne_io : io_result;
  ne_random : bytes;
  ne_polls : Z → pid_file;
  ne_own_pid : Z
}.

Abbreviation command := (st NodeCLI unit).

Definition on_cli_node {A} (op : st Node A) : st NodeCLI A := λ c,
  let '(r, n) := op (nc_Node c) in
  (r, mkNodeCLI (nc_Input c) (nc_AlreadyRunningPort c) (nc_AuthStr c) n (nc_created c) (nc_files c) (nc_pid c)
        (nc_signals c) (nc_out c)).
Definition node_db {A} (op : st DB A) : st NodeCLI A := on_cli_node (on_db op).
Definition on_pid {A} (op : st pid_file A) : st NodeCLI A := λ c,
  let '(r, pid) := op (nc_pid c) in
  (r, mkNodeCLI (nc_Input c) (nc_AlreadyRunningPort c) (nc_AuthStr c) (nc_Node c) (nc_created c) (nc_files c) pid
        (nc_signals c) (nc_out c)).
Definition println (l : line) : command := λ c,
  (Ret tt, mkNodeCLI (nc_Input c) (nc_AlreadyRunningPort c) (nc_AuthStr c) (nc_Node c) (nc_created c) (nc_files c)
             (nc_pid c) (nc_signals c) (nc_out c ++ [l])).
Definition printed (ls : list line) : command := sfor ls (λ _ l, println l) tt.
Definition set_command (name : bytes) : command := λ c,
  let i := nc_Input c in
  (Ret tt, mkNodeCLI (Config.mkAppInput name (ai_MinterAddress i) (ai_Logs i) (ai_Port i) (ai_Host i) (ai_DataDir i)
                        (ai_Nodes i) (ai_Args i) (ai_Database i))
             (nc_AlreadyRunningPort c) (nc_AuthStr c) (nc_Node c) (nc_created c) (nc_files c) (nc_pid c)
             (nc_signals c) (nc_out c)).

Definition cli_get {A} (g : NodeCLI → A) : st NodeCLI A := ask (λ c, Ret (g c)).
Definition cli_arg {A} (g : AllPossibleArgs → A) : st NodeCLI A := cli_get (λ c, g (ai_Args (nc_Input c))).

(** ** Making the objects *)

(** The client of a new node has the address of no node. *)
Definition blank_node (db : DB) (minter : bytes) : Node :=
  mkNode db (mkNodeNetwork [] false) (mkNodeClient (mkNodeAddr [] 0) []) minter [].

Definition getNodeCLI (input : Config.AppInput) (db : DB) (files : gmap bytes bytes) (pid : pid_file) : NodeCLI :=
  let '(port, authstr) := GetRunningProcessInfo pid in
  mkNodeCLI input port authstr (blank_node db (ai_MinterAddress input)) false files pid [] [].

(** The error of [InitNodes] is dropped. *)
Definition CreateNode (e : node_env) : command := λ c,
  if nc_created c then (Ret tt, c)
  else
    match (_ ← nd_Init; drop_err (InitNodes (ne_fetched e) (ai_Nodes (nc_Input c)) false)) (nc_Node c) with
    | (r, n) =>
        let n := mkNode (nd_DB n) (nd_Net n) (SetAuthStr (nc_AuthStr c) (nd_Client n)) (nd_MinterAddress n) (nd_Sent n) in
        (r, mkNodeCLI (nc_Input c) (nc_AlreadyRunningPort c) (nc_AuthStr c) n true (nc_files c) (nc_pid c)
              (nc_signals c) (nc_out c))
    end.

Definition interactive_commands : list bytes :=
  [str "createblockchain"; str "initblockchain"; str "printchain"; str "makeblock"; str "reindexcache"; str "send";
   str "getbalance"; str "getbalances"; str "createwallet"; str "listaddresses"; str "unapprovedtransactions";
   str "mineblock"; str "canceltransaction"; str "dropblock"; str "addrhistory"; str "showunspent"; str "shownodes";
   str "addnode"; str "removenode"].
Definition isInteractiveMode (Command : bytes) : bool := existsb (λ cm, bool_decide (cm = Command)) interactive_commands.

Definition isNodeManageMode (Command : bytes) : bool :=
  bool_decide (str "startnode" = Command) || bool_decide (str "startintnode" = Command)
  || bool_decide (str "stopnode" = Command) || bool_decide (Daemonprocesscommandline = Command)
  || bool_decide (str "nodestate" = Command).

(** *** The wallets of the node *)

Definition wallet_input (c : NodeCLI) : WalletCLI.AppInput :=
  let args := ai_Args (nc_Input c) in
  WalletCLI.mkAppInput (ai_Command (nc_Input c))
    (if bool_decide (aa_From args = []) then aa_Address args else aa_From args) (aa_To args) (aa_Amount args)
    (if (0 <? nc_AlreadyRunningPort c)%Z then nc_AlreadyRunningPort c else ai_Port (nc_Input c))
    (str "localhost") (ai_DataDir (nc_Input c)).

Definition getWalletsCLI (c : NodeCLI) : WalletCLI :=
  in_NodeMode (WalletCLI.Init (wallet_input c) (nc_files c)).

Definition forwardCommandToWallet (e : node_env) : command := λ c,
  let env := mkCliEnv (ne_keys e) (ne_seeds e) (ne_fetched e) (nd_Sent (nc_Node c)) in
  let '(r, (_, files, out)) :=
    WalletCLI.ExecuteCommand (ne_write_error e) env (getWalletsCLI c, nc_files c, nc_out c) in
  (r, mkNodeCLI (nc_Input c) (nc_AlreadyRunningPort c) (nc_AuthStr c) (nc_Node c) (nc_created c) files (nc_pid c)
        (nc_signals c) out).

(** A command that is forwarded when a node runs. *)
Definition or_forward (e : node_env) (local : command) : command :=
  port ← cli_get nc_AlreadyRunningPort;
  if (0 <? port)%Z then forwardCommandToWallet e else local.

(** The client of a command to the running node. *)
Definition getLocalNetworkClient (c : NodeCLI) : NodeClient :=
  SetNodeAddress (mkNodeAddr (str "localhost") (nc_AlreadyRunningPort c)) (nd_Client (nc_Node c)).
Definition ask_running {A} (request : NodeClient → outbox → outcome A) : st NodeCLI A :=
  ask (λ c, request (getLocalNetworkClient c) (nd_Sent (nc_Node c))).

(** ** The commands *)

Definition commandCreateBlockchain (e : node_env) : command :=
  Address ← cli_arg aa_Address;
  Genesis ← cli_arg aa_Genesis;
  _ ← on_cli_node (nd_CreateBlockchain (ne_fuel e) Address Genesis (ne_now e));
  println ("Done!"%string, []).

Definition commandInitBlockchain (e : node_env) : command :=
  exists_ ← node_db BlockchainExist;
  if (exists_ : bool) then fail (EMsg "Blockchain already exists")
  else
    NodeHost ← cli_arg aa_NodeHost;
    NodePort ← cli_arg aa_NodePort;
    alldone ← on_cli_node (nd_InitBlockchainFromOther (ne_fuel e) (ne_fetched e) (ne_pick e) NodeHost NodePort);
    if (alldone : bool) then println ("Done! "%string, [])
    else println ("Done! First part of bockchain loaded. Next part will be loaded on background when node started"%string, []).

(** *** Blocks as text *)

Definition short_body (block : BlockSimpler) : list line :=
  [ ("Hash: %x"%string, [ABytes (bk_Hash block)]);
    ("Height: %d, Transactions: %d"%string,
     [AInt (bk_Height block); AInt (Z.of_nat (length (bk_Transactions block)) - 1)]);
    ("Prev: %x"%string, [ABytes (bk_PrevBlockHash block)]) ].
Definition framed (body : list line) : list line :=
  ("==============="%string, []) :: body ++ [(""%string, [])].
Definition block_lines (title : string) (block : BlockSimpler) : list line :=
  [ (title, [ABytes (bk_Hash block)]); ("Height: %d"%string, [AInt (bk_Height block)]);
    ("Prev. block: %x"%string, [ABytes (bk_PrevBlockHash block)]) ]
  ++ map (λ tx, (""%string, [AStr tx])) (bk_Transactions block) ++ [(""%string, []); (""%string, [])].

(** The loop of [commandPrintChain]; [blocks] are the texts that are printed in
    reverse at the end. *)
Fixpoint print_blocks (fuel : nat) (View : bytes) (bci : BlockchainIterator) (blocks : list (list line))
    : st NodeCLI (list (list line)) :=
  match fuel with
  | O => lift OutOfFuel
  | S fuel' =>
      '(blockfull, bci) ← node_db (ask (Next bci));
      block ← lift (GetSimpler blockfull);
      blocks ← (if bool_decide (View = str "short") then _ ← printed (framed (short_body block)); mret blocks
                else if bool_decide (View = str "shortr") then mret (blocks ++ [short_body block])
                else _ ← printed (block_lines "============ Block %x ============" block); mret blocks);
      if (Z.of_nat (length (bk_PrevBlockHash block)) =? 0)%Z then mret blocks
      else print_blocks fuel' View bci blocks
  end.

Definition commandPrintChain (e : node_env) : command :=
  bci ← node_db (asking NewBlockchainIterator);
  View ← cli_arg aa_View;
  blocks ← print_blocks (ne_fuel e) View bci [];
  if bool_decide (View = str "shortr") then sfor (rev blocks) (λ _ block, printed (framed block)) tt
  else mret tt.

(** *** Transactions *)

(** The errors of [ForEachUnapprovedTransaction] are dropped; the number is then
    the one of the zero value. *)
Definition commandUnapprovedTransactions : command :=
  Clean ← cli_arg aa_Clean;
  if (Clean : bool) then node_db (_ ← get_DB; tm_CleanUnapprovedCache)
  else
    _ ← node_db get_DB;
    total ← (λ c,
      let '(r, out) := tm_ForEachUnapprovedTransaction (C := list line)
        (λ txhash txstr out, (Ret tt, out ++ [("============ Transaction %x ============"%string, [AStr txhash]);
                                              (""%string, [AStr txstr])]))
        (nd_DB (nc_Node c)) (nc_out c) in
      (ignore_err 0%Z r, mkNodeCLI (nc_Input c) (nc_AlreadyRunningPort c) (nc_AuthStr c) (nc_Node c) (nc_created c)
                           (nc_files c) (nc_pid c) (nc_signals c) out));
    printed [(""%string, []); ("Total transactions: %d"%string, [AInt total])].

Definition the_wallets : st NodeCLI Wallets := ask (λ c, deref (wc_WalletsObj (getWalletsCLI c))).

Definition wallet_balance_args (b : WalletBalance) : list fmt_arg :=
  [AFloat (wb_Total b); AFloat (wb_Approved b); AFloat (wb_Pending b)].

(** The balances are collected in a map, and printed in its order. *)
Definition commandAddressesBalance (e : node_env) : command := or_forward e (
  wallets ← the_wallets;
  result ← sfor (GetAddresses wallets) (λ (result : gmap bytes WalletBalance) address,
    balance ← node_db (asking (tm_GetAddressBalance address));
    mret (<[address := balance]> result)) ∅;
  _ ← printed [("Balance for all addresses:"%string, []); (""%string, [])];
  sfor (go_range result) (λ _ '(address, balance),
    println ("%s: %.8f (Approved - %.8f, Pending - %.8f)"%string, ABytes address :: wallet_balance_args balance)) tt).

Definition history_text (rec : TransactionsHistory) : line :=
  if th_IOType rec then ("%f In from %s"%string, [AFloat (th_Value rec); ABytes (th_Address rec)])
  else ("%f Out To %s"%string, [AFloat (th_Value rec); ABytes (th_Address rec)]).

(** The wallet calls this command by another name. *)
Definition commandAddressHistory (e : node_env) : command :=
  port ← cli_get nc_AlreadyRunningPort;
  if (0 <? port)%Z then _ ← set_command (str "showhistory"); forwardCommandToWallet e
  else
    Address ← cli_arg aa_Address;
    result ← node_db (nbc_GetAddressHistory (ne_fuel e) Address);
    _ ← println ("History of transactions:"%string, []);
    sfor result (λ _ rec, println (history_text rec)) tt.

Definition commandShowUnspent (e : node_env) : command := or_forward e (
  Address ← cli_arg aa_Address;
  _ ← node_db get_DB;
  balance ← (λ c,
    let '(r, (out, balance)) := tm_ForEachUnspentOutput (C := list line * float64) Address
      (λ fromaddr value txID output isbase '(out, balance),
        (Ret tt, (out ++ [("%f from %s in transaction %x output #%d"%string,
                           [AFloat value; ABytes fromaddr; ABytes txID; AInt output])], f64_add balance value)))
      (nd_DB (nc_Node c)) (nc_out c, f64_zero) in
    (_ ← r; Ret balance, mkNodeCLI (nc_Input c) (nc_AlreadyRunningPort c) (nc_AuthStr c) (nc_Node c) (nc_created c)
                           (nc_files c) (nc_pid c) (nc_signals c) out));
  printed [(""%string, []); ("Balance - %f"%string, [AFloat balance])]).

Definition commandGetBalance (e : node_env) : command := or_forward e (
  Address ← cli_arg aa_Address;
  balance ← node_db (asking (tm_GetAddressBalance Address));
  printed [("Balance of '%s': "%string, [ABytes Address]); ("Total - %.8f"%string, [AFloat (wb_Total balance)]);
           ("Approved - %.8f"%string, [AFloat (wb_Approved balance)]);
           ("Pending - %.8f"%string, [AFloat (wb_Pending balance)])]).

Definition commandSend (e : node_env) : command := or_forward e (
  wallets ← the_wallets;
  From ← cli_arg aa_From;
  walletobj ← lift (GetWallet From wallets);
  To ← cli_arg aa_To;
  Amount ← cli_arg aa_Amount;
  txid ← on_cli_node (Send (GetPublicKey walletobj) (GetPrivateKey walletobj) To Amount (ne_now e) (ne_seeds e));
  println ("Success. New transaction: %x"%string, [ABytes txid])).

Definition commandReindexCache (e : node_env) : command :=
  info ← node_db (_ ← get_DB; ReindexData (ne_fuel e));
  println ("Done! There are %d transactions in the UTXO set."%string, [AInt info]).

(** *** Blocks *)

Definition commandMakeBlock (e : node_env) : command :=
  block ← on_cli_node (TryToMakeBlock (ne_fuel e) (ne_now e) (ne_rand e) []);
  if (0 <? Z.of_nat (length block))%Z then println ("Done! New block mined with the hash %x."%string, [ABytes block])
  else println ("Not enough transactions to mine a block."%string, []).

Definition commandCancelTransaction : command :=
  Transaction ← cli_arg aa_Transaction;
  txID ← lift (hex_DecodeString (String.string_of_list_byte Transaction));
  _ ← node_db (_ ← get_DB; CancelTransaction txID);
  printed [("Done!"%string, []);
    ("NOTE. This canceled transaction only from local node. If it was already sent to other nodes, than a transaction still can be completed!"%string, [])].

(** The error of [Next] is dropped; it comes with no block. *)
Definition commandDropBlock (e : node_env) : command :=
  _ ← node_db (nd_DropBlock (ne_fuel e));
  bci ← node_db (asking NewBlockchainIterator);
  blockFull ← node_db (ask (λ db, ignore_err None (p ← Next bci db; Ret (Some p.1))));
  match blockFull with
  | None => fail (EMsg "This was last block!")
  | Some blockFull =>
      block ← lift (GetSimpler blockFull);
      _ ← println ("Done!"%string, []);
      printed (block_lines "============ Last Block %x ============" block)
  end.

(** *** Nodes *)

Definition state_lines (info : ComGetNodeState) : list line :=
  [("Blockchain state:"%string, []); ("  Number of blocks - %d"%string, [AInt (gns_BlocksNumber info)])]
  ++ (if (gns_BlocksNumber info <? gns_ExpectingBlocksHeight info)%Z
      then [("  Loaded %d of %d blocks"%string,
             [AInt (gns_BlocksNumber info); AInt (int64_wrap (gns_ExpectingBlocksHeight info + 1))])] else [])
  ++ [("  Number of unapproved transactions - %d"%string, [AInt (gns_TransactionsCached info)]);
      ("  Number of unspent transactions outputs - %d"%string, [AInt (gns_UnspentOutputs info)])].

(** The error of [GetServerState] is overwritten. *)
Definition commandShowState (e : node_env) : command :=
  '(Runnning, ProcessID, Port) ← on_pid (GetServerState (ne_alive e));
  _ ← println ("Node Server State:"%string, []);
  info ← (if (Runnning : bool) then
            _ ← println ("Server is running. Process: %d, listening on the port %d"%string, [AInt ProcessID; AInt Port]);
            ask_running SendGetState
          else
            _ ← println ("Server is not running"%string, []);
            node_db GetNodeState);
  printed (state_lines info).

Definition commandShowNodes : command :=
  port ← cli_get nc_AlreadyRunningPort;
  nodes ← (if (0 <? port)%Z then ask_running SendGetNodes else cli_get (λ c, nn_Nodes (nd_Net (nc_Node c))));
  _ ← println ("Nodes:"%string, []);
  sfor nodes (λ _ n, println ("   "%string, [ABytes (NodeAddrToString n)])) tt.

Definition commandAddNode : command :=
  NodeHost ← cli_arg aa_NodeHost;
  NodePort ← cli_arg aa_NodePort;
  let newaddr := mkNodeAddr NodeHost NodePort in
  port ← cli_get nc_AlreadyRunningPort;
  _ ← (if (0 <? port)%Z then ask_running (λ nc, SendAddNode nc newaddr)
       else on_cli_node (nd_AddNodeToKnown newaddr false));
  println ("Success!"%string, []).

Definition commandRemoveNode : command :=
  NodeHost ← cli_arg aa_NodeHost;
  NodePort ← cli_arg aa_NodePort;
  let remaddr := mkNodeAddr NodeHost NodePort in
  _ ← println ("Remove %s %d%v"%string, [ABytes NodeHost; AInt NodePort; ABytes (NodeAddrToString remaddr)]);
  port ← cli_get nc_AlreadyRunningPort;
  _ ← (if (0 <? port)%Z then ask_running (λ nc, SendRemoveNode nc remaddr)
       else on_cli_node (on_net (RemoveNodeFromKnown remaddr)));
  println ("Success!"%string, []).

(** ** Dispatch *)

(** The commands that need no blockchain. *)
Definition without_blockchain : list bytes :=
  [str "createblockchain"; str "initblockchain"; str "createwallet"; str "listaddresses"; str "nodestate"].

Definition err_no_blockchain : goerror := EMsg "Blockchain is not found. Must be created or inited".
Definition err_unknown : goerror := EMsg "Unknown management command".

Definition run_command (e : node_env) (Command : bytes) : command :=
  let cmd c := bool_decide (Command = str c) in
  if cmd "createblockchain"%string then commandCreateBlockchain e
  else if cmd "initblockchain"%string then commandInitBlockchain e
  else if cmd "printchain"%string then commandPrintChain e
  else if cmd "reindexcache"%string then commandReindexCache e
  else if cmd "getbalance"%string then commandGetBalance e
  else if cmd "getbalances"%string then commandAddressesBalance e
  else if cmd "listaddresses"%string then forwardCommandToWallet e
  else if cmd "createwallet"%string then forwardCommandToWallet e
  else if cmd "send"%string then commandSend e
  else if cmd "unapprovedtransactions"%string then commandUnapprovedTransactions
  else if cmd "makeblock"%string then commandMakeBlock e
  else if cmd "dropblock"%string then commandDropBlock e
  else if cmd "canceltransaction"%string then commandCancelTransaction
  else if cmd "addrhistory"%string then commandAddressHistory e
  else if cmd "showunspent"%string then commandShowUnspent e
  else if cmd "shownodes"%string then commandShowNodes
  else if cmd "addnode"%string then commandAddNode
  else if cmd "removenode"%string then commandRemoveNode
  else fail err_unknown.

(** The connection is closed when the command is done. *)
Definition close_node {A} (r : outcome A) : st NodeCLI A := λ c,
  (r, mkNodeCLI (nc_Input c) (nc_AlreadyRunningPort c) (nc_AuthStr c)
        (set_DB (CloseConnection (nd_DB (nc_Node c))) (nc_Node c)) (nc_created c) (nc_files c) (nc_pid c)
        (nc_signals c) (nc_out c)).

Definition ExecuteCommand (e : node_env) : command :=
  _ ← CreateNode e;
  Command ← cli_get (λ c, ai_Command (nc_Input c));
  exists_ ← (if bool_decide (Command ∈ without_blockchain) then mret true else node_db BlockchainExist);
  if negb exists_ then fail err_no_blockchain
  else effect (λ c, let '(r, c) := run_command e Command c in close_node r c).

(** *** Managing the running node *)

Definition createDaemonManager (e : node_env) : command :=
  _ ← CreateNode e;
  exists_ ← node_db BlockchainExist;
  if negb exists_ then fail err_no_blockchain else mret tt.

Definition on_daemon {A} (op : st (pid_file * list Z) A) : st NodeCLI A := λ c,
  let '(r, (pid, signals)) := op (nc_pid c, nc_signals c) in
  (r, mkNodeCLI (nc_Input c) (nc_AlreadyRunningPort c) (nc_AuthStr c) (nc_Node c) (nc_created c) (nc_files c) pid
        signals (nc_out c)).

(** The result is the authentication text of the server that this process goes on
    as, if it does. *)
Definition run_manage_command (e : node_env) (Command : bytes) : st NodeCLI (option bytes) :=
  port ← cli_get (λ c, ai_Port (nc_Input c));
  minter ← cli_get (λ c, nd_MinterAddress (nc_Node c));
  datadir ← cli_get (λ c, ai_DataDir (nc_Input c));
  files ← cli_get nc_files;
  if bool_decide (Command = str "startnode") then
    _ ← on_pid (StartServer (ne_alive e) port minter datadir files (ne_started e) (ne_io e) (ne_random e) (ne_polls e));
    mret None
  else if bool_decide (Command = str "startintnode") then
    auth ← on_pid (StartServerInteractive (ne_alive e) port minter datadir files (ne_own_pid e) (ne_io e) (ne_random e));
    mret (Some auth)
  else if bool_decide (Command = str "stopnode") then _ ← on_daemon StopServer; mret None
  else if bool_decide (Command = Daemonprocesscommandline) then
    auth ← cli_get (λ c, DaemonizeServer_auth (nc_pid c)); mret (Some auth)
  else if bool_decide (Command = str "nodestate") then
    _ ← CreateNode e; _ ← commandShowState e; mret None
  else fail (EMsg "Unknown node manage command").

Definition ExecuteManageCommand (e : node_env) : st NodeCLI (option bytes) :=
  _ ← createDaemonManager e;
  Command ← cli_get (λ c, ai_Command (nc_Input c));
  run_manage_command e Command.

(** ** [main.go]

    The input is read, and one of five things is done.  Errors of the commands are
    logged; the one of [UpdateConfig] is dropped. *)
Inductive main_result :=
| BadInput (e : goerror)
| Usage
| ConfigUpdated (files : gmap bytes bytes)
| Done (r : outcome (option bytes)) (c : NodeCLI)
| UnknownCommand.

Definition main (open_error : bytes → option goerror) (open_write : option goerror)
    (write_error : option (goerror * bytes)) (e : node_env) (args : list bytes) (exe_dir : option bytes)
    (files : gmap bytes bytes) (db : DB) (pid : pid_file) : outcome main_result :=
  match GetAppInput open_error args exe_dir files with
  | Err e => Ret (BadInput e)
  | Panic p => Panic p
  | OutOfFuel => OutOfFuel
  | Ret input =>
      if CheckNeedsHelp input then Ret Usage
      else if CheckConfigUpdateNeeded input then
        Ret (ConfigUpdated (drop_err (UpdateConfig open_error open_write write_error input) files).2)
      else
        let cli := getNodeCLI input db files pid in
        if isInteractiveMode (ai_Command input) then
          let '(r, c) := ExecuteCommand e cli in Ret (Done (_ ← r; Ret None) c)
        else if isNodeManageMode (ai_Command input) then
          let '(r, c) := ExecuteManageCommand e cli in Ret (Done r c)
        else Ret UnknownCommand
  end.
End NodeCLI.

(** ** What the chain is printed as *)

Section PrintChain.
Context `{Crypto} `{BoltLaws} `{GoSort} `{GoRange} `{!Gob Transaction} `{!Gob Block} `{!GobLaws Block} `{!Gob BlockShort}.
Context `{!Gob (list TXOutputIndependent)}.
Context `{!Gob (list bytes)} `{!Gob (list TransactionsIndexSpentOutputs)}.
Context `{Network} `{ComGob} `{!Gob (option (gmap bytes Wallet))} `{GoParse} `{JsonConfig}.
Implicit Types (c : NodeCLI) (f : boltfile) (bs : list Block).

(** The command line after it printed some lines. *)
Definition with_out (ls : list line) c : NodeCLI :=
  mkNodeCLI (nc_Input c) (nc_AlreadyRunningPort c) (nc_AuthStr c) (nc_Node c) (nc_created c) (nc_files c) (nc_pid c)
    (nc_signals c) (nc_out c ++ ls).

Lemma with_out_nil c : with_out [] c = c.
Proof. unfold with_out. rewrite app_nil_r. by destruct c. Qed.

Lemma with_out_app l1 l2 c : with_out l2 (with_out l1 c) = with_out (l1 ++ l2) c.
Proof. unfold with_out. simpl. by rewrite app_assoc. Qed.

Lemma printed_run ls c : printed ls c = (Ret tt, with_out ls c).
Proof.
  revert c. induction ls as [|l ls IH]; intros c; [by rewrite with_out_nil|].
  change (printed (l :: ls) c) with (printed ls (with_out [l] c)). by rewrite IH, with_out_app.
Qed.

Lemma printed_each {A} (g : A → list line) l c :
  sfor l (λ _ a, printed (g a)) tt c = (Ret tt, with_out (mjoin (map g l)) c).
Proof.
  revert c. induction l as [|a l IH]; intros c; [by rewrite with_out_nil|].
  simpl. unfold mbind, st_bind. rewrite printed_run, IH. by rewrite with_out_app.
Qed.

(** Reading the database of an open node changes nothing. *)
Lemma node_db_ask {A} (g : DB → outcome A) c : node_db (ask g) c = (g (nd_DB (nc_Node c)), c).
Proof. by destruct c as [? ? ? [] ? ? ? ? ?]. Qed.

Lemma node_db_asking {A} (g : DB → outcome A) c :
  openedConn (nd_DB (nc_Node c)) = true → node_db (asking g) c = (g (nd_DB (nc_Node c)), c).
Proof.
  intros Ho. destruct c as [? ? ? [db ? ? ? ?] ? ? ? ? ?]. simpl in *.
  unfold node_db, on_cli_node, on_db, asking, get_DB, OpenConnectionIfNeeded, mbind, st_bind. simpl. by rewrite Ho.
Qed.

(** The text of a block; every transaction of the chain has an input. *)
Definition simpler (b : Block) : BlockSimpler :=
  match GetSimpler b with Ret s => s | _ => mkBlockSimpler 0 [] [] [] 0 0 end.
Definition printable (b : Block) : Prop := Forall (λ tx, tx_Vin tx ≠ []) (blk_Transactions b).

Lemma GetSimpler_printable b :
  printable b → GetSimpler b = Ret (simpler b) ∧ bk_PrevBlockHash (simpler b) = blk_PrevBlockHash b.
Proof.
  intros Hp. unfold simpler, GetSimpler. destruct (mfor_snoc_total tx_String (blk_Transactions b) []) as (ss & E & _).
  - intros tx Hin. unfold printable in Hp. rewrite Forall_forall in Hp. specialize (Hp tx Hin).
    unfold tx_String. destruct (tx_Vin tx) as [|v vins]; [done|].
    change (index (v :: vins) 0) with (Ret v). rewrite ret_bind.
    destruct (destination _ _) as [to amount]. by eexists.
  - rewrite E. done.
Qed.

(** What the loop prints for a block, and what it keeps to print at the end. *)
Definition block_text (View : bytes) (b : Block) : list line :=
  if bool_decide (View = str "short") then framed (short_body (simpler b))
  else if bool_decide (View = str "shortr") then []
  else block_lines "============ Block %x ============" (simpler b).
Definition block_kept (View : bytes) (b : Block) : list (list line) :=
  if bool_decide (View = str "shortr") then [short_body (simpler b)] else [].

Lemma print_blocks_run f top bs View fuel c blocks :
  opened f (nd_DB (nc_Node c)) → path f top bs → Forall printable bs → length bs ≤ fuel →
  print_blocks fuel View (mkBlockchainIterator top) blocks c
  = (Ret (blocks ++ mjoin (map (block_kept View) bs)), with_out (mjoin (map (block_text View) bs)) c).
Proof.
  intros Ho Hp Hpr. revert top fuel c blocks Ho Hp. induction bs as [|b bs IH]; intros top fuel c blocks Ho Hp Hf.
  { by apply path_inv in Hp as (b & bs' & [=] & _). }
  apply Forall_cons in Hpr as [Hb Hpr]. apply path_inv in Hp as (b' & bs' & [= <- <-] & Hst & _ & Hnext).
  destruct fuel as [|fuel]; [simpl in Hf; lia|]. cbn [length] in Hf.
  destruct (GetSimpler_printable b Hb) as [Hs Hprev].
  cbn [print_blocks]. unfold mbind, st_bind at 1. rewrite node_db_ask, (Next_stored f _ _ b) by done.
  unfold st_bind at 1, lift. rewrite Hs.
  set (kept := blocks ++ block_kept View b). set (c1 := with_out (block_text View b) c).
  assert (Hbody : (if bool_decide (View = str "short") then st_bind _ _ (λ _, mret blocks) (printed (framed (short_body (simpler b))))
    else if bool_decide (View = str "shortr") then mret (blocks ++ [short_body (simpler b)])
    else st_bind _ _ (λ _, mret blocks) (printed (block_lines "============ Block %x ============" (simpler b)))) c = (Ret kept, c1)).
  { unfold kept, c1, block_kept, block_text.
    destruct (decide (View = str "short")) as [->|Hn1]; [|rewrite (bool_decide_eq_false_2 (View = str "short")) by done].
    - rewrite bool_decide_eq_true_2, bool_decide_eq_false_2 by done. unfold st_bind. rewrite printed_run. by rewrite app_nil_r.
    - case_bool_decide; [by rewrite with_out_nil|]. unfold st_bind. rewrite printed_run. by rewrite app_nil_r. }
  unfold st_bind at 1. rewrite Hbody, Hprev, is_first_nil. cbn [map mjoin list_join].
  rewrite <- with_out_app, app_assoc. fold c1 kept.
  destruct Hnext as [[-> ->]|[Hne Hp]]; [rewrite bool_decide_eq_true_2 by done; simpl; by rewrite app_nil_r, with_out_nil|].
  rewrite bool_decide_eq_false_2 by done. by apply (IH Hpr (blk_PrevBlockHash b)); [|done|lia].
Qed.

(** What [printchain] prints for a chain from the top to the first block. *)
Definition chain_text (View : bytes) bs : list line :=
  if bool_decide (View = str "short") then mjoin (map (λ b, framed (short_body (simpler b))) bs)
  else if bool_decide (View = str "shortr") then mjoin (map (λ b, framed (short_body (simpler b))) (rev bs))
  else mjoin (map (λ b, block_lines "============ Block %x ============" (simpler b)) bs).

(** [printchain] prints every block of the main chain once and changes nothing,
    from the top to the first block, and in reverse order for the view [shortr]. *)
Theorem commandPrintChain_spec e f top bs c :
  opened f (nd_DB (nc_Node c)) → bget f blocksBucket (str "l") = Some top → top ≠ [] → path f top bs →
  Forall printable bs → length bs ≤ ne_fuel e →
  commandPrintChain e c = (Ret tt, with_out (chain_text (aa_View (ai_Args (nc_Input c))) bs) c).
Proof.
  intros Ho Ht Hne Hp Hpr Hf. set (View := aa_View (ai_Args (nc_Input c))).
  unfold commandPrintChain, mbind, st_bind at 1. rewrite node_db_asking by apply Ho.
  rewrite (NewBlockchainIterator_top f _ top) by done.
  unfold st_bind at 1, cli_arg, cli_get, ask. fold View. unfold st_bind at 1.
  rewrite (print_blocks_run f top bs) by done. cbn [app]. unfold chain_text.
  destruct (decide (View = str "shortr")) as [E|E].
  - rewrite E. rewrite (bool_decide_eq_true_2 (str "shortr" = str "shortr")), (bool_decide_eq_false_2 (str "shortr" = str "short")) by done.
    rewrite printed_each, with_out_app. do 2 f_equal. unfold block_text, block_kept.
    rewrite (bool_decide_eq_true_2 (str "shortr" = str "shortr")), (bool_decide_eq_false_2 (str "shortr" = str "short")) by done.
    replace (mjoin (map (λ _, []) bs)) with (@nil line) by (by clear; induction bs).
    replace (mjoin (map (λ b, [short_body (simpler b)]) bs)) with (map (λ b, short_body (simpler b)) bs)
      by (clear; induction bs as [|b bs IH]; [done|]; simpl; by rewrite IH).
    by rewrite <- !map_rev, map_map.
  - rewrite (bool_decide_eq_false_2 (View = str "shortr")) by done. unfold block_text.
    rewrite (bool_decide_eq_false_2 (View = str "shortr")) by done. by case_bool_decide.
Qed.
End PrintChain.

(** ** An instance *)

Module NodeCLIDemo.
Import ToyCrypto MapBolt InsertionSort MapRange Codecs Demo IndexDemo ComCodecs WalletDemo ConfigDemo.

Definition demo_args (View : string) : AllPossibleArgs :=
  mkAllPossibleArgs [] [] [] 0 [] 0 [] [] f64_zero [] [] (str View) false.
Definition demo_cli (command View : string) : NodeCLI :=
  mkNodeCLI (Config.mkAppInput (str command) [] [] 2000 [] (str "/d/") [] (demo_args View)
               (Connections.mkDatabaseConfig [] [] [])) 0 []
    (blank_node demo_db []) true ∅ None [] [].
Definition demo_env : node_env :=
  mkNodeEnv 5 5 (Ret []) (Err (EMsg "none")) 0 (λ _, None) keys (λ _ _, 0%N) (λ _, false) None io_fine [] (λ _, None) 1.

Lemma commandPrintChain_spec_witness :
  commandPrintChain demo_env (demo_cli "printchain" "shortr") = (Ret tt, with_out
    [ ("==============="%string, []); ("Hash: %x"%string, [ABytes hash_g]);
      ("Height: %d, Transactions: %d"%string, [AInt 0; AInt (-1)]); ("Prev: %x"%string, [ABytes []]); (""%string, []);
      ("==============="%string, []); ("Hash: %x"%string, [ABytes hash_a]);
      ("Height: %d, Transactions: %d"%string, [AInt 1; AInt (-1)]); ("Prev: %x"%string, [ABytes hash_g]); (""%string, []) ]
    (demo_cli "printchain" "shortr")).
Proof.
  apply (commandPrintChain_spec demo_env demo_chain hash_a [blk_a; blk_g]).
  - apply demo_opened.
  - reflexivity.
  - discriminate.
  - apply demo_path_a.
  - apply Forall_cons. split; [constructor|]. apply Forall_cons. split; constructor.
  - cbn. lia.
Defined.

(** The interactive commands have one that is not dispatched. *)
Example mineblock_unknown :
  isInteractiveMode (str "mineblock") = true ∧
  (ExecuteCommand demo_env (demo_cli "mineblock" "")).1 = Err err_unknown.
Proof. split; reflexivity. Qed.
End NodeCLIDemo.
