(* ===== verification/Frames.v ===== *)
(** * What an operation can change

    [within R m]: every run of [m], also one that fails, relates the state
    before to the state after by the preorder [R].  Steps of a computation are
    framed by their parts, so that the frame of an operation follows from those
    of the bucket operations it calls: the transaction manager writes to the
    four transaction tables only, the chain of blocks to the two block buckets
    only. *)

From Stdlib Require Import Strings.Byte ZifyNat.
From stdpp Require Import base strings numbers gmap sorting list.
From S2P Require Import Prelude Float64 Platform Concrete Utils Merkle Structures Codecs Signing.
From S2P Require Import Database ChainIndex Tables Blockchain Branches BlockchainLookup.
From S2P Require Import BlockchainUpdate TxIndex Pending Unspent TxManager Consensus.

Definition within {S A} (R : relation S) (m : st S A) : Prop := ∀ s, R s (m s).2.

Create HintDb frame.

Section Rules.
Context {S : Type} (R : relation S) `{!PreOrder R}.

Lemma within_mret {A} (a : A) : within R (mret a).
Proof. intros s. reflexivity. Qed.
Lemma within_ask {A} (g : S → outcome A) : within R (ask g).
Proof. intros s. reflexivity. Qed.
Lemma within_lift {A} (m : outcome A) : within R (lift m).
Proof. intros s. reflexivity. Qed.
Lemma within_fail {A} e : within R (fail (A := A) e).
Proof. intros s. reflexivity. Qed.
Lemma within_stay {A} (r : outcome A) : within R (λ s, (r, s)).
Proof. intros s. reflexivity. Qed.

Lemma within_bind {A B} (m : st S A) (f : A → st S B) :
  within R m → (∀ a, within R (f a)) → within R (m ≫= f).
Proof.
  intros Hm Hf s. specialize (Hm s). unfold mbind, st_bind.
  destruct (m s) as [[a|e|p|] s']; try done. etrans; [exact Hm|apply Hf].
Qed.

Lemma within_drop_err {A} (m : st S A) : within R m → within R (drop_err m).
Proof. intros Hm s. specialize (Hm s). unfold drop_err. by destruct (m s) as [[a|e|p|] s']. Qed.

Lemma within_wrap_err {A} what (m : st S A) : within R m → within R (Pending.wrap_err what m).
Proof. intros Hm s. specialize (Hm s). unfold wrap_err. by destruct (m s) as [[a|e|p|] s']. Qed.

Lemma within_sfor {A B} (l : list A) (body : B → A → st S B) acc :
  (∀ b a, within R (body b a)) → within R (sfor l body acc).
Proof.
  intros Hb. revert acc. induction l as [|a l IH]; intros acc; simpl; [apply within_mret|].
  apply within_bind; auto.
Qed.

Lemma within_weaken {A} (R' : relation S) (m : st S A) :
  (∀ s s', R' s s' → R s s') → within R' m → within R m.
Proof. intros Hr Hm s. apply Hr, Hm. Qed.
End Rules.

#[export] Hint Resolve within_mret within_ask within_lift within_fail within_stay within_drop_err
  within_wrap_err : frame.

(** [frame]: case analysis on what the computation branches on, and the rules. *)
Ltac frame_step :=
  lazymatch goal with
  | |- within _ (_ ≫= _) => apply within_bind; [typeclasses eauto| |intros]
  | |- within _ (sfor _ _ _) => apply within_sfor; [typeclasses eauto|intros]
  | |- within _ (drop_err _) => apply within_drop_err
  | |- within _ (Pending.wrap_err _ _) => apply within_wrap_err
  | |- within _ (if ?b then _ else _) => destruct b
  | |- within _ (match ?x with _ => _ end) => destruct x
  | |- _ => progress intros
  end.
Ltac frame := repeat first [solve [eauto with frame typeclass_instances] | frame_step].

(** ** Files *)

Section Files.
Context `{Bolt}.

#[export] Instance only_preorder names : PreOrder (only names).
Proof. split; [intros f; apply only_refl|intros f1 f2 f3; apply only_trans]. Qed.

Lemma within_in_bucket names name (op : bucket → outcome bucket) :
  name ∈ names → within (only names) (in_bucket name op).
Proof.
  intros Hn f. unfold in_bucket. destruct (f !! name) as [b|] eqn:E; [|apply only_refl].
  destruct (op b) as [b'|e|p|]; try apply only_refl. simpl. split.
  - apply dom_insert_lookup_L. eauto.
  - intros name' k Hn'. unfold bget. by rewrite lookup_insert_ne by set_solver.
Qed.

Lemma within_Update {A} names (fn : st boltfile A) : within (only names) fn → within (only names) (Update fn).
Proof. intros Hf f. specialize (Hf f). unfold Update. by destruct (fn f) as [[a|e|p|] f']. Qed.

Lemma within_Put names name k v : name ∈ names → within (only names) (Put name k v).
Proof. intros. by apply within_in_bucket. Qed.
Lemma within_update_put names name k v : name ∈ names → within (only names) (update_put name k v).
Proof. intros. apply within_Update. frame. by apply within_in_bucket. Qed.
Lemma within_update_delete names name k : name ∈ names → within (only names) (update_delete name k).
Proof. intros. apply within_Update. frame. by apply within_in_bucket. Qed.
End Files.

#[export] Hint Resolve within_update_put within_update_delete within_Put within_Update : frame.
#[export] Hint Extern 1 (_ ∈ _) => set_solver : frame.
#[export] Hint Extern 1 (_ ⊆ _) => set_solver : frame.

(** ** Databases *)

Section Databases.
Context `{Bolt}.

(** The blockchain files differ in the buckets [names] only. *)
Definition bc_only (names : list string) (db db' : DB) : Prop :=
  option_Forall2 (only names) (bcFile db) (bcFile db').

#[export] Instance bc_only_preorder names : PreOrder (bc_only names).
Proof.
  unfold bc_only. split.
  - intros db. destruct (bcFile db); constructor. reflexivity.
  - intros db1 db2 db3 H12 H23. destruct H12; inversion H23; subst; constructor. by etrans.
Qed.

Lemma within_on_bc {A} names (op : st boltfile A) :
  within (only names) op → within (bc_only names) (on_bc op).
Proof.
  intros Hop db. unfold on_bc, bc_only. destruct (bcFile db) as [f|] eqn:E; simpl; [|rewrite E; constructor].
  specialize (Hop f). destruct (op f) as [r f']. simpl in *. by constructor.
Qed.

Lemma bc_only_weaken names names' db db' :
  names ⊆ names' → bc_only names db db' → bc_only names' db db'.
Proof. unfold bc_only. intros Hn Hb. destruct Hb; constructor. by eapply only_weaken. Qed.

Lemma bc_only_file names db db' f :
  bc_only names db db' → bcFile db = Some f → ∃ f', bcFile db' = Some f' ∧ only names f f'.
Proof. unfold bc_only. intros Hb E. rewrite E in Hb. inversion Hb; subst. eauto. Qed.
End Databases.

#[export] Hint Resolve within_on_bc : frame.

(** ** The transaction tables *)

Section TransactionTables.
Context `{Crypto} `{Bolt} `{GoSort} `{GoRange} `{!Gob Transaction} `{!Gob Block}.
Context `{!Gob (list TXOutputIndependent)}.
Context `{!Gob (list bytes)} `{!Gob (list TransactionsIndexSpentOutputs)}.
Implicit Types (block : Block) (tx : Transaction).

(** The pool. *)
Lemma within_pend_Add names tx :
  unapprovedTransactionsBucket ∈ names → within (bc_only names) (pend_Add tx).
Proof. intros. unfold pend_Add, UnapprovedTransactionsDB.PutTransaction. frame. Qed.
#[local] Hint Resolve within_pend_Add : frame.

Lemma within_pend_Delete names txid :
  unapprovedTransactionsBucket ∈ names → within (bc_only names) (pend_Delete txid).
Proof. intros. unfold pend_Delete, UnapprovedTransactionsDB.DeleteTransaction. frame. Qed.
#[local] Hint Resolve within_pend_Delete : frame.

Lemma within_AddFromCanceled names txs :
  unapprovedTransactionsBucket ∈ names → within (bc_only names) (AddFromCanceled txs).
Proof. unfold AddFromCanceled. frame. Qed.
#[local] Hint Resolve within_AddFromCanceled : frame.

Lemma within_DeleteFromBlock names block :
  unapprovedTransactionsBucket ∈ names → within (bc_only names) (DeleteFromBlock block).
Proof. unfold DeleteFromBlock. frame. Qed.
#[local] Hint Resolve within_DeleteFromBlock : frame.

(** The index. *)
Lemma within_ti_BlockAdded names block :
  index_buckets ⊆ names → within (bc_only names) (ti_BlockAdded block).
Proof.
  unfold index_buckets. intros. unfold ti_BlockAdded. frame. apply within_on_bc.
  unfold add_tx, add_link, add_spent, TranactionsDB.PutTXToBlockLink, TranactionsDB.PutTXSpentOutputs.
  frame.
Qed.
#[local] Hint Resolve within_ti_BlockAdded : frame.

Lemma within_ti_BlockRemoved names block :
  index_buckets ⊆ names → within (bc_only names) (ti_BlockRemoved block).
Proof.
  unfold index_buckets. intros. unfold ti_BlockRemoved. frame. apply within_on_bc.
  unfold remove_tx, remove_link, remove_spent, TranactionsDB.PutTXToBlockLink,
    TranactionsDB.PutTXSpentOutputs, TranactionsDB.DeleteTXToBlockLink, TranactionsDB.DeleteTXSpentData.
  frame.
Qed.
#[local] Hint Resolve within_ti_BlockRemoved : frame.

(** The set of unspent outputs. *)
Lemma within_UpdateOnBlockAdd names block :
  unspentTransactionsBucket ∈ names → within (bc_only names) (UpdateOnBlockAdd block).
Proof.
  intros. unfold UpdateOnBlockAdd. frame. apply within_on_bc.
  unfold add_outputs, spend_input, UnspentOutputsDB.PutDataForTransaction,
    UnspentOutputsDB.DeleteDataForTransaction.
  frame.
Qed.
#[local] Hint Resolve within_UpdateOnBlockAdd : frame.

Lemma within_restore_inputs names fuel prevHash base vins :
  unspentTransactionsBucket ∈ names → within (bc_only names) (restore_inputs fuel prevHash base vins).
Proof.
  intros Hn. induction vins as [|vin vins IH]; simpl; [apply within_mret; typeclasses eauto|].
  unfold restore_input, UnspentOutputsDB.PutDataForTransaction, UnspentOutputsDB.DeleteDataForTransaction.
  frame.
Qed.
#[local] Hint Resolve within_restore_inputs : frame.

Lemma within_UpdateOnBlockCancel names fuel block :
  unspentTransactionsBucket ∈ names → within (bc_only names) (UpdateOnBlockCancel fuel block).
Proof.
  intros. unfold UpdateOnBlockCancel, cancel_tx, UnspentOutputsDB.DeleteDataForTransaction. frame.
Qed.
#[local] Hint Resolve within_UpdateOnBlockCancel : frame.

(** The manager. *)
Lemma within_ReceivedNewTransaction names tx :
  unapprovedTransactionsBucket ∈ names → within (bc_only names) (ReceivedNewTransaction tx).
Proof. unfold ReceivedNewTransaction. frame. Qed.
#[local] Hint Resolve within_ReceivedNewTransaction : frame.

Lemma within_ReceivedNewTransactionData names data sigs :
  unapprovedTransactionsBucket ∈ names → within (bc_only names) (ReceivedNewTransactionData data sigs).
Proof. unfold ReceivedNewTransactionData. frame. Qed.
#[local] Hint Resolve within_ReceivedNewTransactionData : frame.

Lemma within_CreateTransaction names PubKey privKey to amount now seeds :
  unapprovedTransactionsBucket ∈ names →
  within (bc_only names) (CreateTransaction PubKey privKey to amount now seeds).
Proof. unfold CreateTransaction. frame. Qed.
#[local] Hint Resolve within_CreateTransaction : frame.

Lemma within_CancelTransaction names txid :
  unapprovedTransactionsBucket ∈ names → within (bc_only names) (CancelTransaction txid).
Proof.
  intros Hn db. pose proof (within_pend_Delete names txid Hn db) as Hd. unfold CancelTransaction.
  destruct (pend_Delete txid db) as [[[]|e|p|] db']; done.
Qed.
#[local] Hint Resolve within_CancelTransaction : frame.

Lemma within_choose names fuel number :
  unapprovedTransactionsBucket ∈ names →
  within (bc_only names) (GetUnapprovedTransactionsForNewBlock fuel number).
Proof.
  intros Hn. unfold GetUnapprovedTransactionsForNewBlock. frame.
  intros db. unfold choose_tx.
  assert (∀ A (r : A), within (bc_only names) (_ ← drop_err (CancelTransaction (tx_ID a0)); mret r)) as Hc
    by frame.
  destruct (VerifyTransaction fuel a0 b [] db) as [[]|e|p|]; try apply Hc; simpl; reflexivity.
Qed.
#[local] Hint Resolve within_choose : frame.

Lemma tx_buckets_parts :
  index_buckets ⊆ tx_buckets ∧ unapprovedTransactionsBucket ∈ tx_buckets ∧
  unspentTransactionsBucket ∈ tx_buckets.
Proof. unfold index_buckets, tx_buckets. set_solver. Qed.

Lemma within_tm_BlockAdded block ontop : within (bc_only tx_buckets) (tm_BlockAdded block ontop).
Proof.
  destruct tx_buckets_parts as (? & ? & ?). unfold tm_BlockAdded. frame.
Qed.
#[local] Hint Resolve within_tm_BlockAdded : frame.

Lemma within_tm_BlockRemoved fuel block : within (bc_only tx_buckets) (tm_BlockRemoved fuel block).
Proof.
  destruct tx_buckets_parts as (? & ? & ?). unfold tm_BlockRemoved. frame.
Qed.
#[local] Hint Resolve within_tm_BlockRemoved : frame.

Lemma within_BlockAddedToPrimaryChain block :
  within (bc_only tx_buckets) (BlockAddedToPrimaryChain block).
Proof.
  destruct tx_buckets_parts as (? & ? & ?). unfold BlockAddedToPrimaryChain. frame.
Qed.
#[local] Hint Resolve within_BlockAddedToPrimaryChain : frame.

Lemma within_BlockRemovedFromPrimaryChain fuel block :
  within (bc_only tx_buckets) (BlockRemovedFromPrimaryChain fuel block).
Proof.
  destruct tx_buckets_parts as (? & ? & ?). unfold BlockRemovedFromPrimaryChain. frame.
Qed.
#[local] Hint Resolve within_BlockRemovedFromPrimaryChain : frame.
End TransactionTables.

#[export] Hint Resolve within_pend_Add within_pend_Delete within_AddFromCanceled
  within_DeleteFromBlock within_ti_BlockAdded within_ti_BlockRemoved within_UpdateOnBlockAdd
  within_restore_inputs within_UpdateOnBlockCancel within_ReceivedNewTransaction
  within_ReceivedNewTransactionData within_CreateTransaction within_CancelTransaction
  within_choose within_tm_BlockAdded within_tm_BlockRemoved within_BlockAddedToPrimaryChain
  within_BlockRemovedFromPrimaryChain : frame.

(** ** The chain of blocks *)

Section Chain.
Context `{Bolt} `{!Gob Block}.

Definition chain_buckets : list string := [blocksBucket; blockChainBucket].

Lemma within_AddToChain hash prev : within (only chain_buckets) (BlockchainDB.AddToChain hash prev).
Proof. unfold BlockchainDB.AddToChain, chain_buckets. frame. apply within_Update. frame. Qed.
#[local] Hint Resolve within_AddToChain : frame.

Lemma within_RemoveFromChain hash : within (only chain_buckets) (BlockchainDB.RemoveFromChain hash).
Proof.
  unfold BlockchainDB.RemoveFromChain, chain_buckets. frame. apply within_Update. frame.
  unfold Delete. apply within_in_bucket. set_solver.
Qed.
#[local] Hint Resolve within_RemoveFromChain : frame.

Lemma within_remove_down fuel rem merge : within (only chain_buckets) (remove_down fuel rem merge).
Proof.
  revert rem.
  induction fuel as [|fuel IH]; intros rem; simpl; frame.
Qed.
#[local] Hint Resolve within_remove_down : frame.

Lemma within_add_up blocks merge : within (only chain_buckets) (add_up blocks merge).
Proof. unfold add_up. frame. Qed.
#[local] Hint Resolve within_add_up : frame.

Lemma within_AddBlock fuel block : within (bc_only chain_buckets) (AddBlock fuel block).
Proof.
  unfold AddBlock, AddBlock_store, AddBlock_top, UpdateChainOnNewBranch,
    BlockchainDB.PutBlock, BlockchainDB.SaveTopHash.
  assert (blocksBucket ∈ chain_buckets) by set_solver. frame.
Qed.
#[local] Hint Resolve within_AddBlock : frame.

(** The invariant of the chain does not depend on the other buckets. *)
Lemma chain_state_only n f f' top bs names :
  chain_state n f top bs → only names f f' → blocksBucket ∉ names → blockChainBucket ∉ names →
  chain_state n f' top bs.
Proof.
  intros Hs [Hd Hr] Hb Hc.
  assert (∀ h bs', npath n f h bs' → npath n f' h bs') as Hkeep.
  { intros h bs' [Hp Hh]. split; [|done]. eapply path_transport; [done|]. intros b _. by apply Hr. }
  split; [apply Hs| | |by apply Hkeep, Hs| | |].
  - rewrite Hd. apply Hs.
  - rewrite Hr by done. apply Hs.
  - pose proof (cs_chain _ _ _ _ Hs) as Hi. split; try apply Hi.
    + rewrite Hd. apply Hi.
    + intros i h Hl. rewrite Hr by done. by apply (ic_record _ _ _ Hi).
    + intros k Hk. rewrite Hr by done. by apply (ic_absent _ _ _ Hi).
  - rewrite Hr by done. apply Hs.
  - intros h data. rewrite Hr by done. intros Hg H1 H2.
    destruct (cs_rooted _ _ _ _ Hs h data Hg H1 H2) as (bs' & Hp & Hl). eauto.
Qed.
End Chain.

#[export] Hint Resolve within_AddToChain within_RemoveFromChain within_remove_down
  within_add_up within_AddBlock : frame.
