(* ===== verification/NodeChain.v ===== *)
(** * The node keeps its chain and its tables

    What [Node.v] does to the database: [addFirstBlock] makes a database on
    which the invariants of the chain and of the transaction tables hold; a
    block that is added keeps the invariant of the chain whatever comes of it,
    and one that is added on top is followed by all tables. *)

From Stdlib Require Import Strings.Byte ZifyNat.
From stdpp Require Import base strings numbers gmap sorting list.
From S2P Require Import Prelude Float64 Platform Concrete Utils Merkle Structures Codecs Signing.
From S2P Require Import Database ChainIndex Tables Blockchain Branches BlockchainLookup.
From S2P Require Import BlockchainUpdate TxIndex Pending Unspent TxManager Consensus Mining.
From S2P Require Import Net Wire NodeClient Node Frames.

Import BlockchainDB.

(** ** Steps that leave the blockchain file alone *)

Section SameFile.
Context `{Bolt}.

Definition same_bc (db db' : DB) : Prop := bcFile db' = bcFile db.

#[export] Instance same_bc_preorder : PreOrder same_bc.
Proof. unfold same_bc. split; [done|]. intros ??? -> . congruence. Qed.

Lemma within_get_DB : within same_bc get_DB.
Proof. intros db. unfold get_DB, OpenConnectionIfNeeded, mbind, st_bind. by destruct (openedConn db). Qed.
Lemma within_asking {A} (g : DB → outcome A) : within same_bc (asking g).
Proof. unfold asking. apply within_bind; [typeclasses eauto|apply within_get_DB|intros; apply within_ask; typeclasses eauto]. Qed.
Lemma within_close_conn : within same_bc close_conn.
Proof. intros db. done. Qed.
Lemma within_OpenConnectionIfNeeded : within same_bc OpenConnectionIfNeeded.
Proof. intros db. unfold OpenConnectionIfNeeded. by destruct (openedConn db). Qed.
Lemma within_on_nodes {A} (op : st boltfile A) : within same_bc (on_nodes op).
Proof. intros db. unfold on_nodes. destruct (nodesFile db) as [f|]; [by destruct (op f)|done]. Qed.
Lemma within_closing {A} b (op : st DB A) : within same_bc op → within same_bc (closing b op).
Proof. intros Ho db. specialize (Ho db). unfold closing. destruct (op db) as [r db']. by destruct b. Qed.
End SameFile.

#[export] Hint Resolve within_get_DB within_asking within_close_conn within_OpenConnectionIfNeeded
  within_on_nodes within_closing : frame.

(** What comes after a step that keeps [R0]. *)
Lemma bind_from {S A B} (R0 R : relation S) (m : st S A) (f : A → st S B) s :
  within R0 m → (∀ s', R0 s s' → R s s') → (∀ a s', R0 s s' → R s (f a s').2) →
  R s ((m ≫= f) s).2.
Proof.
  intros Hm Hr Hf. specialize (Hm s). unfold mbind, st_bind.
  destruct (m s) as [[a|e|p|] s']; simpl in *; auto.
Qed.

Lemma bind_at {S A B} (R : relation S) `{!PreOrder R} (m : st S A) (f : A → st S B) s :
  R s (m s).2 → (∀ a, within R (f a)) → R s ((m ≫= f) s).2.
Proof.
  intros Hm Hf. unfold mbind, st_bind. destruct (m s) as [[a|e|p|] s']; simpl in *; try done.
  etrans; [exact Hm|apply Hf].
Qed.

Section Chain.
Context `{Crypto} `{BoltLaws} `{GoSort} `{GoRange} `{!Gob Transaction} `{!Gob Block} `{!GobLaws Block}.
Context `{!Gob BlockShort} `{!Gob (list TXOutputIndependent)}.
Context `{!Gob (list bytes)} `{!Gob (list TransactionsIndexSpentOutputs)}.
Implicit Types (f : boltfile) (db : DB) (b block : Block).

(** The blockchain file has a chain, of hashes of [n] bytes. *)
Definition chain_ok (n : nat) db : Prop :=
  ∃ f top bs, bcFile db = Some f ∧ chain_state n f top bs.

(** What of a block the code does not check, and relies on. *)
Record well_formed (n : nat) block : Prop := {
  wf_hash : chain_hash n (blk_Hash block);
  wf_prev_l : blk_PrevBlockHash block ≠ key_l;
  wf_prev_f : blk_PrevBlockHash block ≠ key_f;
  wf_stored data : blk_Serialize block = Ret data → storable (blk_Hash block) data
}.

(** The rounds are more than the longest branch. *)
Definition enough (fuel : nat) db : Prop :=
  ∀ f h bs, bcFile db = Some f → path f h bs → S (length bs) < fuel.

Definition keeps_chain (n : nat) db db' : Prop := chain_ok n db → chain_ok n db'.

#[export] Instance keeps_chain_preorder n : PreOrder (keeps_chain n).
Proof. unfold keeps_chain. split; [by intros db|]. intros db1 db2 db3. tauto. Qed.

Lemma same_bc_keeps n db db' : same_bc db db' → keeps_chain n db db'.
Proof. unfold same_bc. intros E (f & top & bs & Hf & Hs). exists f, top, bs. by rewrite E. Qed.

Lemma tx_only_keeps n db db' : bc_only tx_buckets db db' → keeps_chain n db db'.
Proof.
  intros Hb (f & top & bs & Hf & Hs). destruct (bc_only_file _ _ _ _ Hb Hf) as (f' & Hf' & Ho).
  exists f', top, bs. split; [done|]. eapply chain_state_only; [done..| |]; unfold tx_buckets; set_solver.
Qed.

Lemma within_same_keeps {A} n (m : st DB A) : within same_bc m → within (keeps_chain n) m.
Proof. apply within_weaken, same_bc_keeps. Qed.
Lemma within_tx_keeps {A} n (m : st DB A) : within (bc_only tx_buckets) m → within (keeps_chain n) m.
Proof. apply within_weaken, tx_only_keeps. Qed.
#[local] Hint Resolve within_same_keeps within_tx_keeps : frame.

Lemma AddBlock_keeps n fuel block db :
  well_formed n block → enough fuel db → keeps_chain n db (AddBlock fuel block db).2.
Proof.
  intros [Hh Hl Hf Hst] He (f & top & bs & Ef & Hs). destruct (openedConn db) eqn:Eo.
  - assert (opened f db) as Ho by (split_and!; [done..|apply Hs]).
    destruct (AddBlock_spec n f db top bs block fuel Ho Hs Hh Hl Hf Hst) as (f' & top' & bs' & -> & Hs' & _).
    { intros h bs' Hp. by eapply He. }
    by exists f', top', bs'.
  - unfold AddBlock, mbind, st_bind, ask, GetBlockchainObject, getConnectionBC. rewrite Eo. simpl.
    by exists f, top, bs.
Qed.

Lemma within_CheckBlockState hash prev : within same_bc (nbc_CheckBlockState hash prev).
Proof. unfold nbc_CheckBlockState, nbc_CheckBlockExists. frame. Qed.

Lemma enough_same fuel db db' : same_bc db db' → enough fuel db → enough fuel db'.
Proof. unfold same_bc, enough. by intros ->. Qed.

Lemma nbc_AddBlock_keeps n fuel block db :
  well_formed n block → enough fuel db → keeps_chain n db (nbc_AddBlock fuel block db).2.
Proof.
  intros Hw He. unfold nbc_AddBlock.
  assert (∀ db', same_bc db db' → keeps_chain n db (AddBlock fuel block db').2) as Hadd.
  { intros db' Hs. transitivity db'; [by apply same_bc_keeps|].
    apply AddBlock_keeps; [done|by eapply enough_same]. }
  eapply bind_from; [apply within_CheckBlockState|by apply same_bc_keeps|]. intros state db1 H1'.
  destruct (state =? BCBState_exists)%Z; [by apply same_bc_keeps|].
  destruct (state =? BCBState_notExistAndPrevNotExist)%Z; [by apply same_bc_keeps|].
  transitivity db1; [by apply same_bc_keeps|]. eapply bind_from; [apply within_asking|by apply same_bc_keeps|].
  intros _ db2 H2'. eapply bind_from; [apply within_get_DB|..].
  - intros db3 H3'. apply same_bc_keeps. by trans db2.
  - intros _ db3 H3'. transitivity db; [|apply Hadd; by trans db1; [|trans db2]].
    apply same_bc_keeps. unfold same_bc in *. congruence.
Qed.
Lemma within_replace_caches n fuel new old : within (keeps_chain n) (replace_caches fuel new old).
Proof.
  unfold replace_caches. frame.
Qed.

(** Whatever comes of a block. *)
Lemma db_AddBlock_keeps n fuel block db :
  well_formed n block → enough fuel db → keeps_chain n db (db_AddBlock fuel block db).2.
Proof.
  intros Hw He. unfold db_AddBlock. eapply bind_from; [apply within_asking|by apply same_bc_keeps|].
  intros cur db1 Hs1. transitivity db1; [by apply same_bc_keeps|].
  apply bind_at; [typeclasses eauto|apply nbc_AddBlock_keeps; [done|by eapply enough_same]|].
  intros state. apply within_bind; [typeclasses eauto| |intros _].
  - destruct (_ || _ || _); [|apply within_mret; typeclasses eauto].
    apply within_bind; [typeclasses eauto|apply within_same_keeps, within_get_DB|intros _].
    apply within_tx_keeps, within_tm_BlockAdded.
  - destruct (state =? _)%Z; [|apply within_mret; typeclasses eauto].
    apply within_bind; [typeclasses eauto| |intros [new old]].
    + apply within_same_keeps. unfold nbc_GetBranchesReplacement. frame.
    + apply within_bind; [typeclasses eauto|apply within_replace_caches|intros _].
      apply within_mret; typeclasses eauto.
Qed.
End Chain.

(** ** A block on top of the chain *)

Section Runs.
Context `{Bolt}.

Lemma get_DB_run db : get_DB db = (Ret tt, OpenConnection db).
Proof. unfold get_DB, OpenConnectionIfNeeded, mbind, st_bind. by destruct db as [[] bc nodes]. Qed.
Lemma asking_run {A} (g : DB → outcome A) db : asking g db = (g (OpenConnection db), OpenConnection db).
Proof. unfold asking, mbind, st_bind. by rewrite get_DB_run. Qed.

(** The first step of a computation returned. *)
Lemma get_DB_then {A} (m : st DB A) db : (_ ← get_DB; m) db = m (OpenConnection db).
Proof. unfold mbind, st_bind. by rewrite get_DB_run. Qed.
Lemma asking_then {A B} (g : DB → outcome A) (m : A → st DB B) a db :
  g (OpenConnection db) = Ret a → (asking g ≫= m) db = m a (OpenConnection db).
Proof. intros E. unfold mbind at 1, st_bind at 1. by rewrite asking_run, E. Qed.
End Runs.

Section Top.
Context `{Crypto} `{BoltLaws} `{GoSortLaws} `{GoRangeLaws}.
Context `{!Gob Transaction} `{!GobLaws Transaction} `{!Gob Block} `{!GobLaws Block} `{!Gob BlockShort}.
Context `{!Gob (list TXOutputIndependent)} `{!GobLaws (list TXOutputIndependent)}.
Context `{!Gob (list bytes)} `{!GobLaws (list bytes)}.
Context `{!Gob (list TransactionsIndexSpentOutputs)} `{!GobLaws (list TransactionsIndexSpentOutputs)}.
Implicit Types (f : boltfile) (db : DB) (b block : Block).

Lemma CheckBlockExists_run n f db top bs h :
  opened f db → chain_state n f top bs → h ≠ key_l → h ≠ key_f →
  nbc_CheckBlockExists h db = (Ret (bool_decide (is_Some (bget f blocksBucket h))), db).
Proof.
  intros Ho Hs Hl Hf. unfold nbc_CheckBlockExists. rewrite asking_run.
  assert (OpenConnection db = db) as -> by (destruct Ho as [Ho _]; destruct db; simpl in *; by subst).
  f_equal. unfold bc_CheckBlockExists. rewrite (opened_object f db Ho), ret_bind.
  unfold CheckBlockExists. rewrite GetBlock_bget, ret_bind by apply Hs.
  destruct (bget f blocksBucket h) as [d|] eqn:E; [|done]. cbn [default].
  pose proof (cs_record_nonempty n f top bs h d Hs E Hl Hf).
  by rewrite (proj2 (Z.ltb_lt _ _)) by (destruct d; [done|simpl; lia]).
Qed.

(** [AddBlock] of the node's chain on a block that is verified, new and on top. *)
Lemma nbc_AddBlock_top n f db top bs block fuel :
  opened f db → chain_state n f top bs → well_formed n block → enough fuel db →
  blk_PrevBlockHash block = top → bget f blocksBucket (blk_Hash block) = None →
  (default 0 (blk_Height <$> head bs) < blk_Height block)%Z → VerifyBlock fuel block db = Ret tt →
  ∃ f', nbc_AddBlock fuel block db = (Ret BCBAddState_addedToTop, with_bc f' db) ∧
        chain_state n f' (blk_Hash block) (block :: bs) ∧ only chain_buckets f f'.
Proof.
  intros Ho Hs Hw He Hprev Hnew Hlt Hv. destruct Hw as [Hh Hpl Hpf Hst].
  pose proof (cs_width _ _ _ _ Hs) as Hn. destruct (chain_hash_special n _ Hn Hh) as (Hl & Hf & _).
  assert (is_Some (bget f blocksBucket top)) as Htop.
  { destruct (cs_head _ _ _ _ Hs) as (b & bs1 & _ & (d & Hd & _) & _). eauto. }
  destruct (AddBlock_spec n f db top bs block fuel Ho Hs Hh Hpl Hpf Hst) as (f' & top' & bs' & Ha & Hs' & _ & Hr).
  { intros h bs' Hp. eapply He; [apply Ho|done]. }
  unfold add_state in Ha, Hr. rewrite Hnew in Ha, Hr. rewrite Hprev in Ha, Hr.
  rewrite (bool_decide_eq_false_2 (bget f blocksBucket top = None)) in Ha, Hr by (by destruct Htop as [? ->]).
  rewrite (proj2 (Z.leb_gt _ _) Hlt), (bool_decide_eq_true_2 (top = top)) in Ha, Hr by done.
  simpl in Ha, Hr. destruct Hr as (-> & prev_bs & -> & Hp).
  assert (prev_bs = bs) as -> by (eapply path_fun; [done|apply (cs_path _ _ _ _ Hs)]).
  exists f'. split_and!; [|done|].
  - assert (OpenConnection db = db) as Eo by (destruct Ho as [Ho _]; destruct db; simpl in *; by subst).
    assert (nbc_CheckBlockState (blk_Hash block) (blk_PrevBlockHash block) db = (Ret BCBState_canAdd, db)) as Ec.
    { unfold nbc_CheckBlockState, mbind, st_bind.
      rewrite (CheckBlockExists_run n f db top bs) by done. rewrite Hnew. simpl.
      rewrite (CheckBlockExists_run n f db top bs) by done. rewrite Hprev.
      by rewrite bool_decide_eq_true_2. }
    unfold nbc_AddBlock. unfold mbind at 1, st_bind at 1. rewrite Ec. simpl.
    rewrite (asking_then _ _ tt) by by rewrite Eo. rewrite Eo, get_DB_then, Eo. exact Ha.
  - pose proof (within_AddBlock fuel block db) as Hb. rewrite Ha in Hb. destruct Ho as (_ & Ef & _).
    destruct (bc_only_file _ _ _ _ Hb Ef) as (f2 & E2 & Ho2). by injection E2 as <-.
Qed.

Lemma node_rep_only f f' L S txs T :
  node_rep f L S txs T → only chain_buckets f f' → ∃ txs', node_rep f' L S txs' T ∧ ∀ t, t ∈ txs' ↔ t ∈ txs.
Proof.
  intros (Hix & Hp & Hfree & HT) Ho. destruct (pool_kept f f' txs _ Hp Ho) as (txs' & Hp' & Hin); [set_solver|].
  exists txs'. split; [|done]. split_and!.
  - eapply index_kept; [done..| |]; unfold chain_buckets; set_solver.
  - done.
  - intros t1 t2 p H1' H2'. apply Hfree; by apply Hin.
  - eapply table_kept; [done..|]. unfold chain_buckets. set_solver.
Qed.

(** A verified new block above the top. *)
Lemma db_AddBlock_above n f db L S txs T top bs block fuel :
  opened f db → chain_state n f top bs → node_rep f L S txs T →
  well_formed n block → enough fuel db →
  blk_PrevBlockHash block = top → bget f blocksBucket (blk_Hash block) = None →
  (default 0 (blk_Height <$> head bs) < blk_Height block)%Z → VerifyBlock fuel block db = Ret tt →
  add_fits (block_ops block) (L, S) → block_ok T block →
  ∃ f' txs', db_AddBlock fuel block db = (Ret BCBAddState_addedToTop, with_bc f' db) ∧
    chain_state n f' (blk_Hash block) (block :: bs) ∧
    node_rep f' (λ k, L k ++ links_of k (block_ops block)) (λ k, S k ++ spent_of k (block_ops block))
      txs' (apply_block T block) ∧
    ∀ t, t ∈ txs' ↔ t ∈ txs ∧ tx_ID t ∉ block_ids block.
Proof.
  intros Ho Hs Hr Hw He Hprev Hnew Hlt Hv Hfit Hok.
  destruct (nbc_AddBlock_top n f db top bs block fuel) as (f1 & Ea & Hs1 & Ho1); try done.
  destruct (node_rep_only _ _ _ _ _ _ Hr Ho1) as (txs1 & Hr1 & Hin1).
  assert (opened f1 (with_bc f1 db)) as Hop1 by (eapply opened_with_bc; [done|apply Hs1]).
  destruct (tm_BlockAdded_spec f1 (with_bc f1 db) L S txs1 T block Hop1 Hr1 Hfit Hok)
    as (f2 & txs2 & Et & Hr2 & Ho2 & Hin2).
  assert (OpenConnection db = db) as Eo by (destruct Ho as [Ho _]; destruct db; simpl in *; by subst).
  assert (OpenConnection (with_bc f1 db) = with_bc f1 db) as Eo1.
  { destruct Ho as [Ho _]; destruct db; simpl in *; by subst. }
  exists f2, txs2. split_and!; [| |done|].
  - destruct (GetState_top n f db top bs Ho Hs) as (tb & _ & Est).
    unfold db_AddBlock. rewrite (asking_then _ _ top) by (rewrite Eo, Est; done). rewrite Eo.
    unfold mbind at 1, st_bind at 1. rewrite Ea. simpl. unfold mbind at 1, st_bind at 1.
    rewrite get_DB_then, Eo1, Et. done.
  - eapply chain_state_only; [done..| |]; unfold tx_buckets; set_solver.
  - intros t. by rewrite Hin2, Hin1.
Qed.

(** C6: a verified new block above the top is added, and everything follows it:
    the block is the top, the chain bucket ends with it, the index has its
    transactions and spendings, the pool loses its transactions and the set of
    unspent outputs is the one after the block. *)
Theorem db_AddBlock_top n f db L S txs T top bs block fuel :
  opened f db → chain_state n f top bs → node_rep f L S txs T →
  well_formed n block → enough fuel db →
  blk_PrevBlockHash block = top → bget f blocksBucket (blk_Hash block) = None →
  (default 0 (blk_Height <$> head bs) < blk_Height block)%Z → VerifyBlock fuel block db = Ret tt →
  add_fits (block_ops block) (L, S) → block_ok T block →
  ∃ f' txs', db_AddBlock fuel block db = (Ret BCBAddState_addedToTop, with_bc f' db) ∧
    chain_state n f' (blk_Hash block) (block :: bs) ∧
    node_rep f' (λ k, L k ++ links_of k (block_ops block)) (λ k, S k ++ spent_of k (block_ops block))
      txs' (apply_block T block) ∧
    ∀ t, t ∈ txs' ↔ t ∈ txs ∧ tx_ID t ∉ block_ids block.
Proof. apply db_AddBlock_above. Qed.
End Top.
