(* ===== verification/Genesis.v ===== *)
(** * The first block

    [addFirstBlock] of [blockchain_create.go] on a node without a database: the
    files and tables are created, and the invariants of the chain and of the
    transaction tables hold, with the first block as the whole chain.  Every
    theorem about a node that keeps these invariants starts here. *)

From Stdlib Require Import Strings.Byte ZifyNat.
From stdpp Require Import base strings numbers gmap sorting list.
From S2P Require Import Prelude Float64 Platform Concrete Utils Merkle Structures Codecs Signing.
From S2P Require Import Database ChainIndex Tables Blockchain Branches BlockchainLookup.
From S2P Require Import BlockchainUpdate TxIndex Pending Unspent TxManager Consensus Mining.
From S2P Require Import Net Wire NodeClient Node Frames NodeChain.

Import BlockchainDB.

Section Init.
Context `{BoltLaws}.

Definition bc_tables : list string := chain_buckets ++ tx_buckets.

(** Every table is there and has no record. *)
Definition empty_tables (names : list string) (f : boltfile) : Prop :=
  (∀ name, name ∈ names → name ∈ dom f) ∧ ∀ name k, bget f name k = None.

Definition new_file (names : list string) : boltfile :=
  foldr (λ name f, <[name := b_empty]> f) ∅ names.

Lemma new_file_lookup names name b : new_file names !! name = Some b → b = b_empty.
Proof.
  induction names as [|x names IH]; simpl; [by rewrite lookup_empty|].
  rewrite lookup_insert_Some. naive_solver.
Qed.

Lemma new_file_empty names : empty_tables names (new_file names).
Proof.
  split.
  - intros name. induction names as [|x names IH]; [by intros ?%elem_of_nil|]. simpl.
    rewrite dom_insert. set_solver.
  - intros name k. unfold bget. destruct (new_file names !! name) as [b|] eqn:E; [|done]. simpl.
    apply new_file_lookup in E as ->. apply b_Get_empty.
Qed.

Lemma InitDatabase_fresh db :
  bcFile db = None → nodesFile db = None →
  ∃ f g, InitDatabase db = (Ret tt, mkDB false (Some f) (Some g)) ∧
         empty_tables bc_tables f ∧ empty_tables [nodesBucket] g.
Proof.
  destruct db as [o bc nodes]; simpl. intros -> ->.
  exists (new_file [unspentTransactionsBucket; unapprovedTransactionsBucket;
    transactionsOutputsBucket; transactionsBucket; blockChainBucket; blocksBucket]),
    (new_file [nodesBucket]).
  split; [reflexivity|]. split; [|apply new_file_empty].
  split; [|apply new_file_empty]. intros name Hn. apply new_file_empty.
  unfold bc_tables, chain_buckets, tx_buckets in Hn. set_solver.
Qed.

(** A database that has the tables is not made again. *)
Lemma InitDatabase_again db f g :
  bcFile db = Some f → nodesFile db = Some g → blocksBucket ∈ dom f →
  InitDatabase db = (Err ErrBucketExists, CloseConnection db).
Proof.
  destruct db as [o bc nodes]; simpl. intros -> -> [b E]%elem_of_dom.
  assert (on_bc InitDB (mkDB true (Some f) (Some g)) = (Err ErrBucketExists, mkDB true (Some f) (Some g))) as Ei.
  { unfold on_bc, InitDB, Update, mbind, st_bind, CreateBucket. simpl. by rewrite E. }
  unfold InitDatabase, mbind, st_bind. change (create_files _) with (mkDB true (Some f) (Some g)).
  unfold ask at 1. simpl. by rewrite Ei.
Qed.

Lemma in_chain_empty n f :
  0 < n → (Z.of_nat n ≤ 32768)%Z → empty_tables bc_tables f → in_chain n f [].
Proof.
  intros Hn Hn' [Hd He]. split; try done.
  - apply Hd. unfold bc_tables, chain_buckets. set_solver.
  - intros h []%elem_of_nil.
  - constructor.
Qed.
End Init.

Section First.
Context `{Crypto} `{BoltLaws} `{GoSortLaws} `{GoRangeLaws}.
Context `{!Gob Transaction} `{!GobLaws Transaction} `{!Gob Block} `{!GobLaws Block} `{!Gob BlockShort}.
Context `{!Gob (list TXOutputIndependent)} `{!GobLaws (list TXOutputIndependent)}.
Context `{!Gob (list bytes)} `{!GobLaws (list bytes)}.
Context `{!Gob (list TransactionsIndexSpentOutputs)} `{!GobLaws (list TransactionsIndexSpentOutputs)}.
Implicit Types (f : boltfile) (db : DB) (b g : Block).

(** The three records and the chain of the first block. *)
Lemma put_first n f g data :
  empty_tables bc_tables f → 2 ≤ n → (Z.of_nat n ≤ 32768)%Z →
  chain_hash n (blk_Hash g) → blk_PrevBlockHash g = [] →
  blk_Serialize g = Ret data → storable (blk_Hash g) data →
  ∃ f1 f2 f3, PutBlockOnTop (blk_Hash g) data f = (Ret tt, f1) ∧
    SaveFirstHash (blk_Hash g) f1 = (Ret tt, f2) ∧ AddToChain (blk_Hash g) [] f2 = (Ret tt, f3) ∧
    chain_state n f3 (blk_Hash g) [g] ∧ only chain_buckets f f1 ∧ only chain_buckets f1 f2 ∧
    only chain_buckets f f3.
Proof.
  intros He Hn Hn' Hh Hprev Hser Hst. destruct (chain_hash_special n _ Hn Hh) as (Hl & Hf & Hne).
  assert (blocksBucket ∈ dom f) as Hd by (apply He; unfold bc_tables, chain_buckets; set_solver).
  destruct (update_put_spec f blocksBucket (blk_Hash g) data Hd Hst) as (f0 & E0 & R0).
  assert (∀ k, length k = 1 → storable k (blk_Hash g)) as Hsmall.
  { intros k Hk. destruct Hh as [Hlen _]. split_and!; [by intros ->|lia|lia]. }
  destruct (update_put_spec f0 blocksBucket key_l (blk_Hash g)) as (f1 & E1 & R1);
    [by rewrite (set_record_dom _ _ _ _ _ R0)|by apply Hsmall|].
  destruct (update_put_spec f1 blocksBucket key_f (blk_Hash g)) as (f2 & E2 & R2);
    [by rewrite (set_record_dom _ _ _ _ _ R1), (set_record_dom _ _ _ _ _ R0)|by apply Hsmall|].
  assert (only_bucket blocksBucket f f2) as Ho2.
  { eapply only_bucket_trans; [eapply only_bucket_trans|]; by eapply set_record_only. }
  assert (in_chain n f2 []) as Hc2.
  { eapply in_chain_blocks; [done|]. apply in_chain_empty; [lia|done|done]. }
  pose proof (AddToChain_refines n f2 [] (blk_Hash g) [] Hc2 Hh ltac:(apply not_elem_of_nil) ltac:(done)) as Ha.
  unfold chain_add in Ha. rewrite decide_True in Ha by by right.
  destruct Ha as (f3 & E3 & Hc3 & Ho3).
  assert (bget f3 blocksBucket (blk_Hash g) = Some data) as Hg3.
  { rewrite (only_bucket_record _ _ _ _ _ Ho3), (set_record_ne _ _ _ _ _ _ _ R2),
      (set_record_ne _ _ _ _ _ _ _ R1) by auto. by eapply set_record_eq. }
  assert (npath n f3 (blk_Hash g) [g]) as Hp.
  { split; [|by apply Forall_singleton]. apply path_first; [|done..]. exists data.
    destruct (gob_roundtrip g data Hser). by split_and!. }
  assert (only chain_buckets f f1) as Hb1.
  { eapply only_trans; eapply set_record_only_in; try done; unfold chain_buckets; set_solver. }
  assert (only chain_buckets f1 f2) as Hb2.
  { eapply set_record_only_in; try done; unfold chain_buckets; set_solver. }
  assert (only chain_buckets f2 f3) as Hb3.
  { destruct Ho3 as [Hd3 Hr3]. split; [done|]. intros name k Hk. apply Hr3.
    unfold chain_buckets in Hk. set_solver. }
  exists f1, f2, f3. split_and!; [|exact E2|exact E3| |done..|].
  - unfold PutBlockOnTop. apply st_bind_Ret. by exists tt, f0.
  - split; [done| | |done|done| |].
    + rewrite (proj1 Hb3), (proj1 Hb2), (proj1 Hb1). done.
    + rewrite (only_bucket_record _ _ _ _ _ Ho3), (set_record_ne _ _ _ _ _ _ _ R2) by (done || by right).
      by eapply set_record_eq.
    + rewrite (only_bucket_record _ _ _ _ _ Ho3) by done. by eapply set_record_eq.
    + intros h d Hd' H1' H2'. exists [g]. split; [|done].
      destruct (decide (h = blk_Hash g)) as [->|Hnh]; [done|]. exfalso.
      rewrite (only_bucket_record _ _ _ _ _ Ho3), (set_record_ne _ _ _ _ _ _ _ R2),
        (set_record_ne _ _ _ _ _ _ _ R1), (set_record_ne _ _ _ _ _ _ _ R0) in Hd' by auto.
      destruct He as [_ He]. by rewrite He in Hd'.
  - eapply only_trans; [|done]. by eapply only_trans.
Qed.

(** The other tables stay empty. *)
Lemma empty_rep f f' :
  empty_tables bc_tables f → only chain_buckets f f' →
  node_rep f' (λ _, []) (λ _, []) [] (λ _, []).
Proof.
  intros [Hd He] [Hd' Hr].
  assert (∀ name, name ∈ tx_buckets → name ∈ dom f' ∧ ∀ k, bget f' name k = None) as Ht.
  { intros name Hn. rewrite Hd'. split; [apply Hd; unfold bc_tables; set_solver|].
    intros k. rewrite Hr, He; [done|]. unfold tx_buckets, chain_buckets in *. set_solver. }
  unfold tx_buckets in Ht.
  split; [split; apply table_empty; apply Ht; set_solver|].
  split; [|split; [|apply table_empty; apply Ht; set_solver]].
  - destruct (Ht unapprovedTransactionsBucket) as [[b E]%elem_of_dom Hk]; [set_solver|].
    exists b. split; [done|]. destruct (b_Cursor b) as [|[k v] l] eqn:Ec; [constructor|].
    assert (b_Get b k = Some v) as Hg by (apply b_Cursor_Get; rewrite Ec; left).
    specialize (Hk k). rewrite (bget_lookup _ _ _ _ E) in Hk. congruence.
  - intros t1 t2 p []%elem_of_nil.
Qed.

(** C7: on a node without files, [addFirstBlock] makes the database, and on it
    the invariants hold: the chain is the first block, the index has what the
    block records, the pool is empty and the set of unspent outputs is what the
    block leaves of the empty set.  A second first block is refused and changes
    nothing. *)
Theorem addFirstBlock_spec n g db :
  bcFile db = None → nodesFile db = None → 2 ≤ n → (Z.of_nat n ≤ 32768)%Z →
  well_formed n g → blk_PrevBlockHash g = [] →
  add_fits (block_ops g) (λ _, [], λ _, []) → block_ok (λ _, []) g →
  ∃ f db', addFirstBlock g db = (Ret tt, db') ∧ opened f db' ∧
    chain_state n f (blk_Hash g) [g] ∧
    node_rep f (λ k, links_of k (block_ops g)) (λ k, spent_of k (block_ops g)) []
      (apply_block (λ _, []) g) ∧
    ∀ b, addFirstBlock b db' = (Err ErrBucketExists, CloseConnection db').
Proof.
  intros Hbc Hnodes Hn Hn' [Hh _ _ Hst] Hprev Hfit Hok.
  destruct (InitDatabase_fresh (CloseConnection db)) as (f0 & g0 & Ei & He & _); [done..|].
  destruct (gob_total g) as [data Hser].
  destruct (put_first n f0 g data) as (f1 & f2 & f3 & E1 & E2 & E3 & Hs & Hb1 & Hb2 & Hb3); [by try apply Hst..|].
  set (d0 := mkDB true (Some f0) (Some g0)).
  assert (opened f0 d0) as Ho0.
  { split_and!; [done..|]. apply He. unfold bc_tables, chain_buckets. set_solver. }
  assert (opened f1 (with_bc f1 d0)) as Ho1 by by eapply opened_only.
  assert (opened f2 (with_bc f2 d0)) as Ho2 by (eapply (opened_only f1 f2 (with_bc f1 d0)); done).
  assert (opened f3 (with_bc f3 d0)) as Ho3 by by eapply opened_only.
  destruct (tm_BlockAdded_spec f3 (with_bc f3 d0) (λ _, []) (λ _, []) [] (λ _, []) g Ho3)
    as (f4 & txs & Et & Hr & Hb4 & Hin); [by eapply empty_rep|done|done|].
  assert (txs = []) as ->.
  { destruct txs as [|t txs]; [done|]. assert (t ∈ t :: txs) as [[]%elem_of_nil _]%Hin by left. }
  exists f4, (with_bc f4 d0).
  assert (opened f4 (with_bc f4 d0)) as Ho4 by (eapply (opened_only f3 f4 (with_bc f3 d0)); done).
  split_and!; [|done| |done|].
  - unfold addFirstBlock. apply st_bind_Ret. exists tt, (CloseConnection db). split; [done|].
    apply st_bind_Ret. exists tt, (mkDB false (Some f0) (Some g0)). split; [done|].
    unfold put_genesis. rewrite (asking_then _ _ f0) by done.
    change (OpenConnection (mkDB false (Some f0) (Some g0))) with d0.
    apply st_bind_Ret. exists data, d0. split; [unfold lift; by f_equal|].
    apply st_bind_Ret. exists tt, (with_bc f1 d0). split; [by apply (on_bc_Ret _ f0)|].
    apply st_bind_Ret. exists tt, (with_bc f2 d0).
    split; [by apply (on_bc_Ret _ f1 (with_bc f1 d0) tt f2)|].
    apply st_bind_Ret. exists tt, (with_bc f3 d0).
    split; [by apply (on_bc_Ret _ f2 (with_bc f2 d0) tt f3)|].
    rewrite get_DB_then. exact Et.
  - eapply chain_state_only; [exact Hs|exact Hb4|..]; unfold tx_buckets; set_solver.
  - intros b. unfold addFirstBlock. unfold mbind at 1, st_bind at 1. simpl.
    unfold mbind, st_bind, db_InitDatabase.
    rewrite (InitDatabase_again _ f4 g0); [done|done|done|apply Ho4].
Qed.
End First.

(** ** Witnesses *)

Module NodeDemo.
Import ToyCrypto MapBolt InsertionSort MapRange Codecs Demo IndexDemo PendingDemo ManagerDemo MiningDemo.

Lemma small_well_formed b :
  chain_hash 32 (blk_Hash b) → blk_PrevBlockHash b ≠ key_l → blk_PrevBlockHash b ≠ key_f →
  match blk_Serialize b with Ret d => (Z.of_nat (length d) <=? 2 ^ 31 - 2)%Z | _ => true end = true →
  well_formed 32 b.
Proof.
  intros Hh Hl Hf Hs. split; [done..|]. intros d Ed. rewrite Ed in Hs.
  apply Z.leb_le in Hs. destruct Hh as [Hlen _]. split_and!; [by intros E; rewrite E in Hlen|lia|done].
Qed.

Definition no_db : DB := mkDB false None None.

Lemma addFirstBlock_spec_witness :
  ∃ f db', addFirstBlock blk_d no_db = (Ret tt, db') ∧ opened f db' ∧
    chain_state 32 f hash_d [blk_d] ∧
    node_rep f (λ k, links_of k (block_ops blk_d)) (λ k, spent_of k (block_ops blk_d)) []
      (apply_block (λ _, []) blk_d) ∧
    ∀ b, addFirstBlock b db' = (Err ErrBucketExists, CloseConnection db').
Proof.
  apply (addFirstBlock_spec 32 blk_d no_db); [done|done|lia|lia| |done| |].
  - apply small_well_formed; [by split|done|done|vm_compute; reflexivity].
  - apply add_fitsb_fits. vm_compute. reflexivity.
  - split; [split|done]; [done|]; apply fitsb_fits; vm_compute; reflexivity.
Defined.

(** An executable test for [block_ok]. *)
Fixpoint all_okb {X M} (okb : M → X → bool) (eff : M → X → M) (m : M) (xs : list X) : bool :=
  match xs with
  | [] => true
  | x :: xs' => okb m x && all_okb okb eff (eff m x) xs'
  end.

Lemma all_okb_ok {X M} (ok : M → X → Prop) okb (eff : M → X → M) m xs :
  (∀ m x, okb m x = true → ok m x) → all_okb okb eff m xs = true → all_ok ok eff m xs.
Proof.
  intros Hok. revert m. induction xs as [|x xs IH]; intros m; simpl; [done|].
  intros [H1 H2]%andb_prop. split; [by apply Hok|by apply IH].
Qed.

Definition block_okb T (block : Block) : bool :=
  all_okb (λ T tx, all_okb (λ T vin, fitsb (in_Txid vin) (spend T vin (in_Txid vin))) spend T (tx_inputs tx)
                   && fitsb (tx_ID tx) (tx_outputs (blk_Hash block) tx))
    (apply_tx (blk_Hash block)) T (blk_Transactions block).

Lemma block_okb_ok T block : block_okb T block = true → block_ok T block.
Proof.
  apply all_okb_ok. intros T' tx [H1 H2]%andb_prop. split; [|by apply fitsb_fits].
  revert H1. apply all_okb_ok. intros T1 vin Hf. by apply fitsb_fits.
Qed.

(** The block of [MiningDemo] under a short name. *)
Definition next_block : Block :=
  mkBlock (blk_Timestamp mint_block) (blk_Transactions mint_block) (blk_PrevBlockHash mint_block)
    (demo_hash x03) (blk_Nonce mint_block) (blk_Height mint_block).

Lemma mint_enough : enough 3 mint_db.
Proof.
  intros f h bs [= <-] Hp. apply path_inv in Hp as (b & bs' & -> & (d & Hd & _ & Hdec) & _ & Hrest).
  assert (b = blk_d) as ->.
  { pose proof Hd as Hk. apply mint_records in Hk as [->|[->| ->]]; vm_compute in Hd; injection Hd as <-;
      vm_compute in Hdec; [discriminate Hdec..|]. injection Hdec as <-. reflexivity. }
  destruct Hrest as [[E1 E2]|[Hne _]]; [|by destruct Hne]. by destruct bs'; [simpl; lia|].
Qed.

Lemma mint_rep : node_rep mint_file man_L (λ _, []) [pay_tx] man_T.
Proof.
  split; [split; [apply mint_links|by apply empty_table]|].
  split; [apply mint_pool|]. split; [apply mint_healthy|].
  apply (single_table _ _ _ (gob_text [out_d])); [done..|by vm_compute].
Qed.

Lemma db_AddBlock_top_witness :
  ∃ f' txs', db_AddBlock 3 next_block mint_db = (Ret BCBAddState_addedToTop, with_bc f' mint_db) ∧
    chain_state 32 f' (demo_hash x03) [next_block; blk_d] ∧
    node_rep f' (λ k, man_L k ++ links_of k (block_ops next_block))
      (λ k, [] ++ spent_of k (block_ops next_block)) txs' (apply_block man_T next_block) ∧
    ∀ t, t ∈ txs' ↔ t ∈ [pay_tx] ∧ tx_ID t ∉ block_ids next_block.
Proof.
  apply (db_AddBlock_top 32 mint_file mint_db man_L (λ _, []) [pay_tx] man_T hash_d [blk_d] next_block 3).
  - apply mint_opened.
  - apply mint_state.
  - apply mint_rep.
  - apply small_well_formed; [by split|vm_compute; discriminate..|vm_compute; reflexivity].
  - apply mint_enough.
  - vm_compute. reflexivity.
  - vm_compute. reflexivity.
  - vm_compute. reflexivity.
  - vm_compute. reflexivity.
  - apply add_fitsb_fits. vm_compute. reflexivity.
  - apply block_okb_ok. vm_compute. reflexivity.
Defined.
End NodeDemo.
