(* ===== verification/Minting.v ===== *)
(** * The node makes a block

    [TryToMakeBlock] from the pool to the announcement: the block that the maker
    prepares and completes verifies ([Mining.v]), is added on top of the chain
    ([NodeChain.v]), and its short copy is sent to the known nodes. *)

From Stdlib Require Import Strings.Byte ZifyNat.
From stdpp Require Import base strings numbers gmap sorting list.
From S2P Require Import Prelude Float64 Platform Concrete Utils Merkle Structures Codecs Signing.
From S2P Require Import Database ChainIndex Tables Blockchain Branches BlockchainLookup.
From S2P Require Import BlockchainUpdate TxIndex Pending Unspent TxManager Consensus Mining.
From S2P Require Import Net Wire Transit NodeClient ComCodecs Node Frames NodeChain Genesis.

(** ** Announcing a block *)

Section Announce.
Context `{Crypto} `{Bolt} `{GoSort} `{GoRange} `{!Gob Transaction} `{!Gob Block} `{!Gob BlockShort}.
Context `{!GobLaws BlockShort} `{Network} `{ComGob} `{!GobLaws ComInv}.
Implicit Types (m : Node) (block : Block) (node : NodeAddr).

Definition set_Sent (out : outbox) m : Node :=
  mkNode (nd_DB m) (nd_Net m) (nd_Client m) (nd_MinterAddress m) out.

(** The request that announces a block to another node. *)
Definition announces (c : NodeClient) block (data : bytes) : Prop :=
  ∃ short, gob_Encode (GetShortCopy block) = Ret short ∧
    BuildCommandData (str "inv") (Some (gob_Encode (mkComInv (nc_NodeAddress c) (str "block") [short])))
    = Ret data.

Lemma announces_exists c block : ∃ data, announces c block data.
Proof.
  destruct (gob_total (GetShortCopy block)) as [short Es].
  destruct (gob_total (mkComInv (nc_NodeAddress c) (str "block") [short])) as [inv Ei].
  eexists. exists short. split; [done|]. unfold BuildCommandData, doBuildCommandData.
  cbn [default]. rewrite Ei. reflexivity.
Qed.

(** The known nodes but this one. *)
Definition others m : list NodeAddr := filter (λ node, is_self node m = false) (nn_Nodes (nd_Net m)).

(** Every connection is made and every message is written. *)
Definition reliable : Prop := ∀ out to data, net_send out to data = Sent.

Lemma SendData_run node data out :
  ∃ r l, SendData node data out = (r, out ++ l) ∧ (r = Ret tt ∨ ∃ e, r = Err e) ∧
    l `sublist_of` [(NodeAddrToString node, data)] ∧
    (CheckNodeAddress node = Ret tt → reliable → l = [(NodeAddrToString node, data)]).
Proof.
  unfold SendData. destruct (CheckNodeAddress node) as [[]|e|p|] eqn:Ec.
  3-4: exfalso; revert Ec; unfold CheckNodeAddress; by repeat case_match.
  - destruct (net_send out (NodeAddrToString node) data) eqn:En.
    + exists (Ret tt), [(NodeAddrToString node, data)]. split_and!; auto.
    + eexists _, []. rewrite app_nil_r. split_and!; [done|eauto|apply sublist_nil_l|].
      intros _ Hr. by rewrite Hr in En.
    + eexists _, []. rewrite app_nil_r. split_and!; [done|eauto|apply sublist_nil_l|].
      intros _ Hr. by rewrite Hr in En.
  - eexists _, []. rewrite app_nil_r. split_and!; [done|eauto|apply sublist_nil_l|done].
Qed.

(** A message with one text to each of a list of nodes. *)
Lemma send_each_run nodes message data m :
  (∀ node out, node ∈ nodes → message node (nd_Client m) out = SendData node data out) →
  ∃ l, send_each nodes message m = (Ret tt, set_Sent (nd_Sent m ++ l) m) ∧
    let wanted := (λ node, (NodeAddrToString node, data)) <$> filter (λ node, is_self node m = false) nodes in
    l `sublist_of` wanted ∧
    (reliable → Forall (λ node, CheckNodeAddress node = Ret tt) nodes → l = wanted).
Proof.
  revert m. induction nodes as [|node nodes IH]; intros m Hm; cbv zeta.
  { exists []. rewrite app_nil_r. split_and!; [by destruct m|constructor|done]. }
  assert (∃ l, (if is_self node m then (Ret tt, m) else drop_err (sending (message node)) m)
               = (Ret tt, set_Sent (nd_Sent m ++ l) m) ∧
    l `sublist_of` (λ node, (NodeAddrToString node, data)) <$> filter (λ node, is_self node m = false) [node] ∧
    (reliable → CheckNodeAddress node = Ret tt →
     l = (λ node, (NodeAddrToString node, data)) <$> filter (λ node, is_self node m = false) [node])) as (l1 & E1 & Hs1 & Hr1).
  { rewrite filter_cons. destruct (is_self node m) eqn:Eself.
    - rewrite decide_False by done. exists []. rewrite app_nil_r. split_and!; [by destruct m|constructor|done].
    - rewrite decide_True by done. unfold drop_err, sending. rewrite Hm by (by left).
      destruct (SendData_run node data (nd_Sent m)) as (r & l & -> & Hr & Hs & Hrel).
      exists l. split_and!; [by destruct Hr as [->|[e ->]]|done|by auto]. }
  destruct (IH (set_Sent (nd_Sent m ++ l1) m)) as (l2 & E2 & Hs2 & Hr2).
  { intros a out Ha. apply Hm. by right. }
  exists (l1 ++ l2). split.
  - unfold send_each in E2 |- *. cbn [sfor]. unfold mbind at 1, st_bind at 1.
    rewrite E1, E2. cbn. by rewrite app_assoc.
  - rewrite (filter_app _ [node] nodes), fmap_app. split; [by apply sublist_app|].
    intros Hrel [Hc Hcs]%Forall_cons. by rewrite Hr1, Hr2.
Qed.

(** [SendBlockToAll] announces the block to the other nodes, and changes
    nothing else; what a network that fails drops is not sent again. *)
Lemma SendBlockToAll_run block skip data m :
  announces (nd_Client m) block data →
  ∃ l, SendBlockToAll block skip m = (Ret tt, set_Sent (nd_Sent m ++ l) m) ∧
    let wanted := (λ node, (NodeAddrToString node, data)) <$> others m in
    l `sublist_of` wanted ∧
    (reliable → Forall (λ node, CheckNodeAddress node = Ret tt) (nn_Nodes (nd_Net m)) → l = wanted).
Proof.
  intros (short & Es & Eb). unfold SendBlockToAll, known_nodes, mbind, st_bind, ask. cbn iota beta.
  apply send_each_run. intros node out _. unfold lift, bs_Serialize. rewrite Es.
  unfold SendInv, send_command. unfold mbind, st_bind, lift. by rewrite Eb.
Qed.
End Announce.

(** ** Making a block *)

Section Extend.
Context `{Crypto} `{BoltLaws} `{GoSortLaws} `{GoRangeLaws}.
Context `{!Gob Transaction} `{!GobLaws Transaction} `{!Gob Block} `{!GobLaws Block}.
Context `{!Gob BlockShort} `{!GobLaws BlockShort}.
Context `{!Gob (list TXOutputIndependent)} `{!GobLaws (list TXOutputIndependent)}.
Context `{!Gob (list bytes)} `{!GobLaws (list bytes)}.
Context `{!Gob (list TransactionsIndexSpentOutputs)} `{!GobLaws (list TransactionsIndexSpentOutputs)}.
Context `{Network} `{ComGob} `{!GobLaws ComInv}.
Implicit Types (f : boltfile) (db : DB) (m : Node) (block : Block).

(** The state of a consistent node: a chain whose heights count up, tables that
    represent functions, an index that has a transaction in at most one block of
    the chain, and a pool in which no output is spent twice. *)
Record consistent (n : nat) f top bs (L : bytes → list bytes) S txs
    (T : bytes → list TXOutputIndependent) db : Prop := {
  co_opened : opened f db;
  co_chain : chain_state n f top bs;
  co_heights : consecutive bs;
  co_rep : node_rep f L S txs T;
  co_located : links_located n bs L;
  co_healthy : healthy txs
}.

Lemma healthy_subset txs txs' : healthy txs → (∀ tx, tx ∈ txs' → tx ∈ txs) → healthy txs'.
Proof.
  intros [Hf Ho] Hin. split; [|by auto]. intros t1 t2 p H1' H2'. apply Hf; by apply Hin.
Qed.

Lemma links_of_In k h ops : h ∈ links_of k ops ↔ Link k h ∈ ops.
Proof.
  unfold links_of. rewrite list_elem_of_omap. split.
  - intros ([k' h'|] & Hin & E); [|done].
    simpl in E. case_bool_decide; [|done]. by simplify_eq.
  - intros Hin. eexists. split; [exact Hin|]. simpl. by rewrite bool_decide_eq_true_2.
Qed.

(** A block links its transactions to itself. *)
Lemma block_links k h block :
  h ∈ links_of k (block_ops block) → h = blk_Hash block ∧ k ∈ (tx_ID <$> blk_Transactions block).
Proof.
  rewrite links_of_In. unfold block_ops. intros (l & Hl & (tx & -> & Htx)%list_elem_of_fmap)%list_elem_of_join.
  unfold tx_ops in Hl. apply elem_of_cons in Hl as [[= -> ->]|Hl]; [by split; [|apply list_elem_of_fmap_2]|].
  destruct (IsCoinbase tx); [by apply elem_of_nil in Hl|]. by apply list_elem_of_fmap in Hl as (p & [=] & _).
Qed.

(** The index does not know the block, and no transaction of the block is in a
    block of the chain. *)
Definition fresh (L : bytes → list bytes) bs block : Prop :=
  ∀ k h, h ∈ L k → h ≠ blk_Hash block ∧
    (k ∈ (tx_ID <$> blk_Transactions block) → h ∉ hashes bs).

Lemma links_located_add n bs L block :
  links_located n bs L → length (blk_Hash block) = n → fresh L bs block →
  links_located n (block :: bs) (λ k, L k ++ links_of k (block_ops block)).
Proof.
  intros [Hw Hu] Hn Hf. split.
  - intros k h [Hh|[-> _]%block_links]%elem_of_app; [by eapply Hw|done].
  - assert (∀ k h, h ∈ L k → h ∈ hashes (block :: bs) → h ∈ hashes bs) as Hold.
    { intros k h Hh [->|Hin]%elem_of_cons; [by destruct (Hf k _ Hh)|done]. }
    intros k h h' Hh Hh' Hin Hin'.
    apply elem_of_app in Hh as [Hh|[-> Hk]%block_links], Hh' as [Hh'|[-> Hk']%block_links]; [| | |done].
    + eapply Hu; eauto.
    + by destruct (proj2 (Hf k h Hh) Hk'); eapply Hold.
    + by destruct (proj2 (Hf k h' Hh') Hk); eapply Hold.
Qed.

Lemma enough_only fuel f f' db names :
  bcFile db = Some f → only names f f' → blocksBucket ∉ names → enough fuel db → enough fuel (with_bc f' db).
Proof.
  intros Ef [Hd Hr] Hb He f2 h bs [= <-] Hp. apply (He f h bs Ef).
  eapply path_transport; [exact Hp|]. intros b _. by rewrite Hr.
Qed.

(** The pool alone has changed. *)
Lemma consistent_pool n f top bs L S txs T db db' :
  consistent n f top bs L S txs T db → pool_change f db txs db' →
  ∃ f1 txs1, db' = with_bc f1 db ∧ consistent n f1 top bs L S txs1 T db' ∧
    only [unapprovedTransactionsBucket] f f1 ∧ ∀ t, t ∈ txs1 → t ∈ txs.
Proof.
  intros [Ho Hs Hcons (Hix & Hp & Hfree & HT) Hl Hh] (f1 & txs1 & -> & Hp1 & Hb & Hin).
  exists f1, txs1. pose proof (healthy_subset _ _ Hh Hin) as Hh1. split_and!; [done| |done|done].
  split; [by eapply opened_only|by eapply chain_state_only; [done..| |]; set_solver|done| |done|done].
  split; [by eapply index_kept; [done..| |]; set_solver|]. split; [done|]. split; [apply Hh1|].
  eapply table_kept; [done..|]. set_solver.
Qed.

(** A verified block that extends a consistent node. *)
Lemma consistent_block n f top bs L S txs T db block fuel :
  consistent n f top bs L S txs T db → well_formed n block → enough fuel db →
  blk_PrevBlockHash block = top → bget f blocksBucket (blk_Hash block) = None →
  blk_Height block = (default 0 (blk_Height <$> head bs) + 1)%Z → VerifyBlock fuel block db = Ret tt →
  add_fits (block_ops block) (L, S) → block_ok T block → fresh L bs block →
  ∃ f' txs', db_AddBlock fuel block db = (Ret BCBAddState_addedToTop, with_bc f' db) ∧
    consistent n f' (blk_Hash block) (block :: bs) (λ k, L k ++ links_of k (block_ops block))
      (λ k, S k ++ spent_of k (block_ops block)) txs' (apply_block T block) (with_bc f' db) ∧
    ∀ t, t ∈ txs' ↔ t ∈ txs ∧ tx_ID t ∉ block_ids block.
Proof.
  intros [Ho Hs Hcons Hr Hl Hh] Hw He Hprev Hnew Hheight Hv Hfit Hok Hf.
  destruct (db_AddBlock_above n f db L S txs T top bs block fuel) as (f' & txs' & Ha & Hs' & Hr' & Hin);
    try done; [lia|].
  exists f', txs'. split_and!; [done| |done]. split; [|done| |done| |].
  - eapply opened_with_bc; [done|apply Hs'].
  - destruct bs as [|b bs]; [done|]. by split.
  - apply links_located_add; [done|apply Hw|done].
  - apply (healthy_subset txs); [done|]. intros t. by rewrite Hin; intros [].
Qed.

(** The run of [TryToMakeBlock] when a block is prepared, completed and added. *)
Lemma TryToMakeBlock_run fuel now randData txID m nb1 nb2 block state db' r :
  let db := OpenConnection (nd_DB m) in
  nd_MinterAddress m ≠ [] → ValidateAddress (nd_MinterAddress m) = Ret true →
  nb_PrepareNewBlock fuel now randData (NewConsensusManager (nd_MinterAddress m) db)
  = (Ret BlockPrepare_Done, nb1) →
  CompleteBlock fuel nb1 = (Ret block, nb2) →
  db_AddBlock fuel block (OpenConnection (nb_DB nb1)) = (Ret state, db') →
  SendBlockToAll block (mkNodeAddr [] 0) (set_DB db' m) = (Ret tt, r) →
  TryToMakeBlock fuel now randData txID m = (Ret (blk_Hash block), set_DB (CloseConnection (nd_DB r)) r).
Proof.
  intros db Hm Hv Hp Hc Ha Hsend. unfold TryToMakeBlock.
  unfold mbind at 1, st_bind at 1. unfold ask at 1.
  rewrite bool_decide_eq_false_2 by done. unfold mbind at 1, st_bind at 1. unfold lift at 1.
  rewrite Hv. cbn [negb]. unfold mbind at 1, st_bind at 1. unfold making. fold db. rewrite Hp, ret_bind.
  unfold mbind at 1, st_bind at 1. unfold on_db at 1. cbn [close_conn nd_DB set_DB].
  unfold effect, finish_block. rewrite Z.eqb_refl. cbn [negb].
  unfold mbind at 1, st_bind at 1. unfold lift at 1. rewrite Hc. cbn [fst].
  unfold mbind at 1, st_bind at 1. unfold on_db at 1. rewrite get_DB_run. cbn [nd_DB set_DB].
  unfold mbind at 1, st_bind at 1. unfold nd_AddBlock, on_db at 1. cbn [nd_DB set_DB].
  change (OpenConnection (CloseConnection (nb_DB nb1))) with (OpenConnection (nb_DB nb1)).
  rewrite Ha. unfold mbind at 1, st_bind at 1.
  change (set_DB db' _) with (set_DB db' m). by rewrite Hsend.
Qed.

(** C5: a node that makes a block of its pool: [TryToMakeBlock] returns the hash
    of the block, which is the new top; the chain, the three tables and the
    pool are those of a consistent node again, and the transactions of the block
    have left the pool.  The connection is closed.  The block is announced to
    the known nodes but the node itself, in their order, all of them when no
    message is lost. *)
Theorem TryToMakeBlock_extends n f top bs L S txs T m nb1 nb2 block data fuel now randData txID :
  let db := OpenConnection (nd_DB m) in
  consistent n f top bs L S txs T db → enough fuel db →
  is_int64 (default 0%Z (blk_Height <$> head bs) + 1) →
  nd_MinterAddress m ≠ [] → ValidateAddress (nd_MinterAddress m) = Ret true →
  nb_PrepareNewBlock fuel now randData (NewConsensusManager (nd_MinterAddress m) db)
  = (Ret BlockPrepare_Done, nb1) →
  CompleteBlock fuel nb1 = (Ret block, nb2) → (blk_Nonce block < maxNonce)%Z →
  well_formed n block → bget f blocksBucket (blk_Hash block) = None →
  add_fits (block_ops block) (L, S) → block_ok T block → fresh L bs block →
  announces (nd_Client m) block data →
  ∃ f' txs' l, TryToMakeBlock fuel now randData txID m
      = (Ret (blk_Hash block),
         set_Sent (nd_Sent m ++ l) (set_DB (CloseConnection (with_bc f' (nd_DB m))) m)) ∧
    consistent n f' (blk_Hash block) (block :: bs) (λ k, L k ++ links_of k (block_ops block))
      (λ k, S k ++ spent_of k (block_ops block)) txs' (apply_block T block) (with_bc f' db) ∧
    (∀ t, t ∈ txs' → t ∈ txs ∧ tx_ID t ∉ block_ids block) ∧
    let wanted := (λ node, (NodeAddrToString node, data)) <$> others m in
    l `sublist_of` wanted ∧
    (reliable → Forall (λ node, CheckNodeAddress node = Ret tt) (nn_Nodes (nd_Net m)) → l = wanted).
Proof.
  intros db Hco He Hint Hm Hv Hp Hc Hlt Hw Hnew Hfit Hok Hf Hann.
  pose proof Hco as [Ho Hs Hcons (Hix & Hpl & _ & _) Hl Hh].
  destruct (minted_block_spec n f top bs L txs (NewConsensusManager (nd_MinterAddress m) db) nb1 nb2
    fuel fuel now randData block Ho Hs Hcons (proj1 Hix) Hl Hpl Hh Hp Hc Hlt)
    as (Hver & Hprev & Hheight & Hpool & E2 & _).
  cbn [nb_DB NewConsensusManager] in Hpool.
  destruct (consistent_pool _ _ _ _ _ _ _ _ _ _ Hco Hpool) as (f1 & txs1 & E1 & Hco1 & Hb & Hin1).
  rewrite E2 in Hver. rewrite int64_wrap_id in Hheight by done.
  destruct (consistent_block n f1 top bs L S txs1 T (nb_DB nb1) block fuel) as (f' & txs' & Ha & Hco' & Hin);
    try done.
  { rewrite E1. eapply enough_only; [apply Hco|done| |done]. set_solver. }
  { rewrite (proj2 Hb); [done|set_solver]. }
  assert (OpenConnection (nb_DB nb1) = nb_DB nb1) as Eo by by rewrite E1.
  destruct (SendBlockToAll_run block (mkNodeAddr [] 0) data (set_DB (with_bc f' (nb_DB nb1)) m))
    as (l & Hsend & Hwanted); [done|].
  exists f', txs', l. split_and!; [| |by intros t Ht; apply Hin in Ht as [? ?]; auto|done..].
  - rewrite (TryToMakeBlock_run fuel now randData txID m nb1 nb2 block _ _ _ Hm Hv Hp Hc
      (eq_trans (f_equal _ Eo) Ha) Hsend).
    by rewrite E1.
  - by rewrite E1 in Hco'.
Qed.
End Extend.

(** ** A node that makes a block *)

Module MintingDemo.
Import ToyCrypto MapBolt InsertionSort MapRange Codecs Demo IndexDemo PendingDemo ManagerDemo MiningDemo.
Import ComCodecs NodeDemo.

Definition here : NodeAddr := mkNodeAddr (str "10.0.0.1") 20000.
Definition peer : NodeAddr := mkNodeAddr (str "10.0.0.2") 20000.

(** The chain of [MiningDemo] with the connection closed, and a known node. *)
Definition maker : Node :=
  mkNode (CloseConnection mint_db) (mkNodeNetwork [here; peer] true) (mkNodeClient here []) mint_address [].

Lemma maker_consistent :
  consistent 32 mint_file hash_d [blk_d] man_L (λ _, []) [pay_tx] man_T (OpenConnection (nd_DB maker)).
Proof.
  split; [apply mint_opened|apply mint_state|done|apply mint_rep|apply mint_located|apply mint_healthy].
Qed.

Definition inv_of (block : Block) : bytes :=
  match gob_Encode (GetShortCopy block) with
  | Ret short =>
      match BuildCommandData (str "inv") (Some (gob_Encode (mkComInv here (str "block") [short]))) with
      | Ret data => data
      | _ => []
      end
  | _ => []
  end.

Lemma mint_fresh : fresh man_L [blk_d] mint_block.
Proof.
  intros k h Hh. unfold man_L, upd in Hh. case_bool_decide as Ek; [subst k|by apply elem_of_nil in Hh].
  apply list_elem_of_singleton in Hh as ->. split; [vm_compute; discriminate|].
  intros Hk. exfalso. revert Hk. apply (bool_decide_unpack (_ ∉ _)). vm_compute. exact I.
Qed.

Lemma maker_others : others maker = [peer].
Proof. vm_compute. reflexivity. Qed.
Lemma peer_text : NodeAddrToString peer = str "10.0.0.2:20000".
Proof. vm_compute. reflexivity. Qed.

Lemma TryToMakeBlock_extends_witness :
  ∃ f' (txs' : list Transaction), TryToMakeBlock 3 5 (Ret [x01]) [x00] maker
      = (Ret (blk_Hash mint_block),
         set_Sent [(str "10.0.0.2:20000", inv_of mint_block)]
           (set_DB (CloseConnection (with_bc f' mint_db)) maker)) ∧
    chain_state 32 f' (blk_Hash mint_block) [mint_block; blk_d] ∧
    ∀ t, t ∈ txs' → t ∈ [pay_tx] ∧ tx_ID t ∉ block_ids mint_block.
Proof.
  destruct (TryToMakeBlock_extends 32 mint_file hash_d [blk_d] man_L (λ _, []) [pay_tx] man_T maker
    (nb_PrepareNewBlock 3 5 (Ret [x01]) (NewConsensusManager mint_address mint_db)).2
    (CompleteBlock 3 (nb_PrepareNewBlock 3 5 (Ret [x01]) (NewConsensusManager mint_address mint_db)).2).2
    mint_block (inv_of mint_block) 3 5 (Ret [x01]) [x00])
    as (f' & txs' & l & Hrun & Hco & Hpool & _ & Hl).
  - apply maker_consistent.
  - apply mint_enough.
  - split; [vm_compute; discriminate|reflexivity].
  - discriminate.
  - vm_compute. reflexivity.
  - apply run_result. vm_compute. reflexivity.
  - apply run_result. vm_compute. reflexivity.
  - vm_compute. reflexivity.
  - apply small_well_formed; [split; [vm_compute; reflexivity|vm_compute; discriminate]|vm_compute; discriminate..|vm_compute; reflexivity].
  - vm_compute. reflexivity.
  - apply add_fitsb_fits. vm_compute. reflexivity.
  - apply block_okb_ok. vm_compute. reflexivity.
  - apply mint_fresh.
  - eexists. split; vm_compute; reflexivity.
  - exists f', txs'. split_and!; [|apply Hco|exact Hpool].
    rewrite Hrun, Hl; [|intros ? ? ?; reflexivity|repeat constructor].
    rewrite maker_others. cbn [fmap list_fmap]. rewrite peer_text. reflexivity.
Defined.

(** Dropping the block again.  The chain is the one before, but the set of
    unspent outputs is not: [UpdateOnBlockCancel] runs before the index forgets
    the block and after the block was deleted, so it fails when it loads the
    block that the index names, and the output that the payment spent is in
    neither the set nor the chain of spendings. *)
Definition added : DB := (db_AddBlock 3 mint_block mint_db).2.
Definition dropped : DB := (nd_DropBlock 3 added).2.
Definition record (name : string) (k : bytes) (db : DB) : option bytes :=
  match bcFile db with Some f => bget f name k | None => None end.

Example dropped_block_outputs :
  (db_AddBlock 3 mint_block mint_db).1 = Ret BCBAddState_addedToTop ∧
  (nd_DropBlock 3 added).1 = Ret tt ∧
  (UpdateOnBlockCancel 3 mint_block (bc_DeleteBlock added).2).1 = Err (EMsg "Block is not found.") ∧
  record blocksBucket (str "l") dropped = Some hash_d ∧
  record unspentTransactionsBucket [x09] mint_db = Some (gob_text [out_d]) ∧
  record unspentTransactionsBucket [x09] dropped = None.
Proof. split_and!; vm_compute; reflexivity. Qed.
End MintingDemo.
