(* ===== verification/Verified.v ===== *)
(** * What verification accepts, read off the blocks

    [VerifyTransaction] ([node/transactions/manager.go]) asks the index where the
    transactions of its inputs are and what spends them.  This file says what it
    accepts in terms of the blocks alone, for any tip, on the main chain or not. *)

From Stdlib Require Import Strings.Byte ZifyNat.
From stdpp Require Import base strings numbers gmap sorting list.
From S2P Require Import Prelude Float64 Platform Concrete Utils Structures Codecs Signing.
From S2P Require Import Database ChainIndex Tables Blockchain Branches BlockchainLookup.
From S2P Require Import BlockchainUpdate UnderTip TxIndex Pending Unspent TxManager Consensus Mining Minting.

(** ** What the index has of some blocks *)

Lemma spent_of_In k so ops : so ∈ spent_of k ops ↔ Spent k so ∈ ops.
Proof.
  unfold spent_of. rewrite list_elem_of_omap. split.
  - intros ([|k' so'] & Hin & E); [done|]. simpl in E. case_bool_decide; [|done]. by simplify_eq.
  - intros Hin. eexists. split; [exact Hin|]. simpl. by rewrite bool_decide_eq_true_2.
Qed.

Lemma block_ops_Link k h b : Link k h ∈ block_ops b ↔ h = blk_Hash b ∧ k ∈ (tx_ID <$> blk_Transactions b).
Proof.
  rewrite <- links_of_In, links_of_block, !list_elem_of_fmap. setoid_rewrite list_elem_of_filter. naive_solver.
Qed.

Lemma block_ops_Spent k so b :
  Spent k so ∈ block_ops b →
  so_BlockHash so = blk_Hash b ∧ (k, so_OutInd so) ∈ spent_by (blk_Transactions b).
Proof.
  unfold block_ops. intros (l & Hl & (tx & -> & Htx)%list_elem_of_fmap)%list_elem_of_join.
  unfold tx_ops in Hl. apply elem_of_cons in Hl as [[=]|Hl]. destruct (IsCoinbase tx) eqn:Ec; [by apply elem_of_nil in Hl|].
  apply list_elem_of_fmap in Hl as ([i vin] & [= -> ->] & (j & _ & Hj)%elem_of_indexed). split; [done|].
  unfold spent_by. apply list_elem_of_join. eexists. split; [|by apply list_elem_of_fmap_2].
  unfold tx_inputs. rewrite Ec. apply (list_elem_of_fmap_2 outpoint_of _ vin). by eapply list_elem_of_lookup_2.
Qed.

Lemma spent_by_ops p b :
  p ∈ spent_by (blk_Transactions b) → ∃ so, Spent p.1 so ∈ block_ops b ∧ so_OutInd so = p.2 ∧ so_BlockHash so = blk_Hash b.
Proof.
  unfold spent_by. intros (l & Hp & (tx & -> & Htx)%list_elem_of_fmap)%list_elem_of_join.
  apply list_elem_of_fmap in Hp as (vin & -> & Hv). unfold tx_inputs in Hv.
  destruct (IsCoinbase tx) eqn:Ec; [by apply elem_of_nil in Hv|]. apply list_elem_of_lookup in Hv as [i Hi].
  exists (mkSpent (in_Vout vin) (tx_ID tx) (Z.of_nat i) (blk_Hash b)). split; [|done].
  unfold block_ops. apply list_elem_of_join. exists (tx_ops (blk_Hash b) tx). split; [|by apply list_elem_of_fmap_2].
  unfold tx_ops. rewrite Ec. right. apply list_elem_of_fmap. exists (Z.of_nat i, vin). split; [done|].
  apply elem_of_indexed. by exists i.
Qed.

(** The transaction that a block has under an identifier. *)
Definition tx_in (b : Block) (k : bytes) : option Transaction :=
  snd <$> list_find (λ tx, tx_ID tx = k) (blk_Transactions b).

Lemma tx_in_None b k : tx_in b k = None ↔ k ∉ (tx_ID <$> blk_Transactions b).
Proof.
  unfold tx_in. rewrite fmap_None, list_find_None, Forall_forall, list_elem_of_fmap. naive_solver.
Qed.

Section Verified.
Context `{Crypto} `{BoltLaws} `{GoSortLaws} `{GoRangeLaws}.
Context `{!Gob Transaction} `{!GobLaws Transaction} `{!Gob Block} `{!GobLaws Block}.
Context `{!Gob (list TXOutputIndependent)} `{!GobLaws (list TXOutputIndependent)}.
Context `{!Gob (list bytes)} `{!GobLaws (list bytes)}.
Context `{!Gob (list TransactionsIndexSpentOutputs)} `{!GobLaws (list TransactionsIndexSpentOutputs)}.
Implicit Types (f : boltfile) (db : DB) (tx t : Transaction) (b sb : Block) (vin : TXInput).

(** The tables are what the index records of the blocks [bl]. *)
Definition records (bl : list Block) (L : bytes → list bytes) (S : bytes → list TransactionsIndexSpentOutputs) : Prop :=
  (∀ k h, h ∈ L k ↔ h ∈ links_of k (mjoin (block_ops <$> bl))) ∧
  (∀ k so, so ∈ S k ↔ so ∈ spent_of k (mjoin (block_ops <$> bl))).

Lemma ops_In op bl : op ∈ mjoin (block_ops <$> bl) ↔ ∃ b, b ∈ bl ∧ op ∈ block_ops b.
Proof. rewrite list_elem_of_join. setoid_rewrite list_elem_of_fmap. naive_solver. Qed.

(** A node with a branch: its blocks, those of other branches too, and the index of
    them; a transaction is in one block of the branch at most. *)
Record branch_node (n : nat) f db top bs tip s m rest bl L S : Prop := {
  bn_opened : opened f db;
  bn_state : chain_state n f top bs;
  bn_heights : consecutive bs;
  bn_branch : branch_of n f bs tip s m rest;
  bn_stored b : b ∈ bl → stored f (blk_Hash b) b ∧ length (blk_Hash b) = n;
  bn_blocks b : b ∈ s ++ m :: rest → b ∈ bl;
  bn_index : index_rep f (L, S);
  bn_records : records bl L S;
  bn_unique b b' k : b ∈ s ++ m :: rest → b' ∈ s ++ m :: rest →
    k ∈ (tx_ID <$> blk_Transactions b) → k ∈ (tx_ID <$> blk_Transactions b') → b = b'
}.

Context (n : nat) (f : boltfile) (db : DB) (top : bytes) (bs : list Block).
Context (tip : bytes) (s : list Block) (m : Block) (rest : list Block).
Context (bl : list Block) (L : bytes → list bytes) (S : bytes → list TransactionsIndexSpentOutputs).
Hypothesis Hnode : branch_node n f db top bs tip s m rest bl L S.
Abbreviation branch := (s ++ m :: rest).

(** Which blocks are asked for spendings of an output of the block [b], with the
    blocks [hi] of the branch above it: those of the branch from [b] on, and blocks
    of other branches whose height fits. *)
Definition asked (hi : list Block) b sb : Prop :=
  if decide (sb ∈ branch) then sb ∈ hi ++ [b]
  else (s = [] ∨ b ∈ rest) ∧ (blk_Height b ≤ blk_Height sb ≤ blk_Height m)%Z.

(** The output is there, and nothing that is asked spends it. *)
Definition confirmed vin t : Prop :=
  ∃ hi b lo, branch = hi ++ b :: lo ∧ tx_in b (in_Txid vin) = Some t ∧
    ∀ sb, sb ∈ bl → asked hi b sb → outpoint_of vin ∉ spent_by (blk_Transactions sb).
(** No block of the branch has the transaction. *)
Definition unknown vin : Prop := Forall (λ b, tx_in b (in_Txid vin) = None) branch.

Lemma links_In k h : h ∈ L k ↔ ∃ b, b ∈ bl ∧ h = blk_Hash b ∧ k ∈ (tx_ID <$> blk_Transactions b).
Proof.
  rewrite (proj1 (bn_records _ _ _ _ _ _ _ _ _ _ _ _ Hnode)), links_of_In, ops_In.
  setoid_rewrite block_ops_Link. reflexivity.
Qed.

Lemma stored_block b b' : b ∈ bl → b' ∈ bl → blk_Hash b = blk_Hash b' → b = b'.
Proof.
  intros Hb Hb' E. apply (bn_stored _ _ _ _ _ _ _ _ _ _ _ _ Hnode) in Hb as [Hb _], Hb' as [Hb' _].
  rewrite <- E in Hb'. by eapply stored_inj.
Qed.

Lemma link_on_branch k h : h ∈ L k → h ∈ hashes branch →
  ∃ b, b ∈ branch ∧ h = blk_Hash b ∧ k ∈ (tx_ID <$> blk_Transactions b).
Proof.
  intros (b & Hb & -> & Hk)%links_In (b' & E & Hb')%list_elem_of_fmap.
  pose proof (bn_blocks _ _ _ _ _ _ _ _ _ _ _ _ Hnode b' Hb') as Hb2.
  rewrite (stored_block b b' Hb Hb2 E) in Hk |- *. by exists b'.
Qed.

(** Where the index finds the transaction of an input. *)
Lemma chosen_block fuel k : length s < fuel →
  ∃ o, ChooseHashUnderTip fuel (L k) tip db = Ret o ∧
  match o with
  | None => Forall (λ b, tx_in b k = None) branch
  | Some h => ∃ b t, b ∈ branch ∧ h = blk_Hash b ∧ tx_in b k = Some t
  end.
Proof.
  intros Hf. destruct Hnode as [Ho Hs Hc Hb Hst Hin _ _ Hu].
  eexists. split; [eapply (ChooseHashUnderTip_branch n f db top bs Ho Hs Hc tip s m rest Hb)|].
  - intros h (b & Hbl & -> & _)%links_In. by apply Hst.
  - intros h h' Hh Hh' Hbr Hbr'. destruct (link_on_branch k h Hh Hbr) as (b & Hb1 & -> & Hk).
    destruct (link_on_branch k h' Hh' Hbr') as (b' & Hb2 & -> & Hk'). by rewrite (Hu b b' k).
  - done.
  - destruct (filter _ (L k)) as [|h l] eqn:Ef; simpl.
    + apply Forall_forall. intros b Hb1. apply tx_in_None. intros Hk.
      apply (elem_of_nil (blk_Hash b)). rewrite <- Ef. apply list_elem_of_filter.
      split; [by apply list_elem_of_fmap_2|]. apply links_In. exists b. split; [by apply Hin|done].
    + assert (h ∈ filter (.∈ hashes branch) (L k)) as [Hh Hk]%list_elem_of_filter by (rewrite Ef; left).
      destruct (link_on_branch k h Hk Hh) as (b & Hb1 & -> & Hkb). exists b.
      destruct (tx_in b k) as [t|] eqn:Et; [by exists t|]. by apply tx_in_None in Et.
Qed.

(** Which spendings the index returns of those it has. *)
Lemma filterSpent_picks fuel outs h (P : TransactionsIndexSpentOutputs → bool) :
  (∀ so, so ∈ outs → CheckBlockIsInRange fuel (so_BlockHash so) h tip db = Ret (P so)) →
  filterTranactionOutputsSpent fuel outs h tip db = Ret (filter (λ so, P so = true) outs).
Proof.
  intros HP. unfold filterTranactionOutputsSpent.
  assert (Hl : ∀ acc, mfor outs (λ res o, present ← CheckBlockIsInRange fuel (so_BlockHash o) h tip db;
      Ret (if (present : bool) then res ++ [o] else res)) acc = Ret (acc ++ filter (λ so, P so = true) outs)); [|apply (Hl [])].
  induction outs as [|so outs IH]; intros acc; [by rewrite app_nil_r|].
  cbn [mfor]. rewrite HP, !ret_bind by left. rewrite IH by (intros so' ?; apply HP; by right).
  rewrite filter_cons. destruct (P so); [|done]. rewrite decide_True by done. by rewrite <- app_assoc.
Qed.

#[local] Instance asked_dec hi b sb : Decision (asked hi b sb).
Proof. unfold asked. destruct (decide (sb ∈ branch)); apply _. Defined.

Lemma in_range_asked fuel hi b lo sb :
  branch = hi ++ b :: lo → sb ∈ bl → length s < fuel →
  CheckBlockIsInRange fuel (blk_Hash sb) (blk_Hash b) tip db = Ret (bool_decide (asked hi b sb)).
Proof.
  intros E Hsb Hf. destruct Hnode as [Ho Hs Hc Hb Hst _ _ _ _].
  rewrite (CheckBlockIsInRange_branch n f db top bs Ho Hs Hc tip s m rest Hb sb b hi lo fuel) by (done || by apply Hst).
  f_equal. assert (Hx : ∀ x : bool, (x = true ↔ asked hi b sb) → x = bool_decide (asked hi b sb)).
  { intros x Hx. case_bool_decide as Ha; [by apply Hx|]. apply not_true_iff_false. by rewrite Hx. }
  apply Hx. unfold asked. destruct (decide (sb ∈ branch)); [apply bool_decide_eq_true|].
  by rewrite !andb_true_iff, bool_decide_eq_true, !Z.leb_le.
Qed.

(** The spendings that the index returns are those of the blocks that are asked. *)
Lemma spendings_asked fuel hi b lo k :
  branch = hi ++ b :: lo → length s < fuel →
  ∃ outs, GetTranactionOutputsSpent fuel k (blk_Hash b) tip db = Ret outs ∧
    ∀ i, existsb (λ o, so_OutInd o =? i)%Z outs = true ↔
      Exists (λ sb, asked hi b sb ∧ (k, i) ∈ spent_by (blk_Transactions sb)) bl.
Proof.
  intros E Hf. pose proof Hnode as [Ho _ _ _ _ _ [_ HS] [_ HrS] _]. setoid_rewrite spent_of_In in HrS. setoid_rewrite ops_In in HrS.
  set (P so := bool_decide (Exists (λ sb, blk_Hash sb = so_BlockHash so ∧ asked hi b sb) bl)).
  exists (filter (λ so, P so = true) (S k)). split.
  - unfold GetTranactionOutputsSpent, GetTransactionsObject, TranactionsDB.GetTXSpentOutputs.
    pose proof (opened_object f db Ho) as Eo. unfold GetBlockchainObject in Eo. rewrite Eo, ret_bind.
    destruct (table_find f _ k _ HS) as (o & -> & Hst). rewrite ret_bind. unfold outputs_or_none, DeserializeOutputs.
    rewrite (stores_decode o _ Hst), ret_bind. apply filterSpent_picks. intros so (sb & Hsb & Hso)%HrS.
    apply block_ops_Spent in Hso as [Eh _]. rewrite Eh, (in_range_asked fuel hi b lo sb E Hsb Hf). f_equal. unfold P. rewrite Eh.
    apply bool_decide_ext. rewrite Exists_exists. split; [by exists sb|]. intros (sb' & Hsb' & Eh' & Ha).
    by rewrite (stored_block sb sb').
  - intros i. rewrite existsb_exists, Exists_exists. split.
    + intros (so & Hso%list_elem_of_In & Hi%Z.eqb_eq). apply list_elem_of_filter in Hso as [HP Hso].
      apply HrS in Hso as (sb & Hsb & Hso). apply block_ops_Spent in Hso as [Eh Hsp]. rewrite Hi in Hsp.
      apply bool_decide_eq_true, Exists_exists in HP as (sb' & Hsb' & Eh' & Ha). 
      assert (sb' = sb) as -> by (apply stored_block; [done..|congruence]). by exists sb.
    + intros (sb & Hsb & Ha & Hsp). apply spent_by_ops in Hsp as (so & Hso & Hi & Eh). exists so. split; [|by apply Z.eqb_eq].
      apply list_elem_of_In, list_elem_of_filter. split; [|apply HrS; by exists sb].
      apply bool_decide_eq_true, Exists_exists. by exists sb.
Qed.

Definition spent_before : goerror := EMsg "Transaction input was already spent before".

(** What the index says of an input. *)
Lemma input_state_branch fuel vin :
  length s < fuel →
  (unknown vin ∧ input_state fuel tip vin db = Ret None) ∨
  ∃ hi b lo t, branch = hi ++ b :: lo ∧ tx_in b (in_Txid vin) = Some t ∧
    input_state fuel tip vin db =
      (if decide (Exists (λ sb, asked hi b sb ∧ outpoint_of vin ∈ spent_by (blk_Transactions sb)) bl)
       then Err spent_before else Ret (Some t)).
Proof.
  intros Hf. pose proof Hnode as [Ho Hs Hc Hb Hst Hin [HL HS] [_ HrS] Hu].
  unfold input_state. rewrite (GetTranactionBlocks_links f db Ho L HL), ret_bind.
  destruct (chosen_block fuel (in_Txid vin) Hf) as (o & -> & Hch). rewrite ret_bind. destruct o as [h|]; [|by left].
  right. destruct Hch as (b & t & Hbb & -> & Et). apply list_elem_of_split in Hbb as (hi & lo & E).
  exists hi, b, lo, t. split; [done|]. split; [done|].
  assert (b ∈ branch) as Hbb by (rewrite E; apply elem_of_app; right; left). unfold GetTransactionFromBlock.
  rewrite (bc_GetBlock_stored f db _ b Ho) by (by apply Hst, Hin). rewrite ret_bind. unfold tx_in in Et.
  apply fmap_Some in Et as ([j t'] & -> & ->). cbn [snd]. rewrite ret_bind.
  destruct (spendings_asked fuel hi b lo (in_Txid vin) E Hf) as (outs & -> & Hsp). rewrite ret_bind.
  specialize (Hsp (in_Vout vin)). destruct (decide (Exists _ bl)) as [Hx|Hx]; [by rewrite (proj2 Hsp Hx)|].
  destruct (existsb _ outs); [|done]. by destruct Hx; apply Hsp.
Qed.

Lemma branch_cut_unique hi b lo hi' lo' : branch = hi ++ b :: lo → branch = hi' ++ b :: lo' → hi = hi'.
Proof.
  intros E E'. pose proof (branch_NoDup n f bs tip s m rest (bn_branch _ _ _ _ _ _ _ _ _ _ _ _ Hnode)) as Hnd.
  apply NoDup_fmap_1 in Hnd. assert (El : length hi = length hi').
  { apply (NoDup_lookup branch _ _ b Hnd); [rewrite E|rewrite E']; by apply list_lookup_middle. }
  rewrite E in E'. by apply app_inj_1 in E' as [? _].
Qed.

Lemma input_state_iff fuel vin :
  length s < fuel →
  (input_state fuel tip vin db = Ret None ↔ unknown vin) ∧
  ∀ t, input_state fuel tip vin db = Ret (Some t) ↔ confirmed vin t.
Proof.
  intros Hf. destruct (input_state_branch fuel vin Hf) as [[Hk ->]|(hi & b & lo & t & E & Et & ->)].
  - split; [done|]. intros t. split; [done|]. intros (hi & b & lo & E & Et & _). unfold unknown in Hk.
    rewrite E, Forall_app, Forall_cons in Hk. destruct Hk as (_ & Hk & _). congruence.
  - split.
    { split; [by case_decide|]. unfold unknown. rewrite E, Forall_app, Forall_cons. intros (_ & Hk & _). congruence. }
    intros t'. split.
    + case_decide as Hx; [done|]. intros [= <-]. exists hi, b, lo. split_and!; [done..|]. intros sb Hsb Ha Hsp.
      apply Hx, Exists_exists. by exists sb.
    + intros (hi' & b' & lo' & E' & Et' & Hno).
      assert (b' = b) as ->.
      { apply (bn_unique _ _ _ _ _ _ _ _ _ _ _ _ Hnode _ _ (in_Txid vin)).
        - rewrite E'. apply elem_of_app. right. left.
        - rewrite E. apply elem_of_app. right. left.
        - destruct (decide (in_Txid vin ∈ (tx_ID <$> blk_Transactions b'))) as [|Hn]; [done|]. apply tx_in_None in Hn. congruence.
        - destruct (decide (in_Txid vin ∈ (tx_ID <$> blk_Transactions b))) as [|Hn]; [done|]. apply tx_in_None in Hn. congruence. }
      rewrite <- (branch_cut_unique _ _ _ _ _ E E') in Hno. rewrite decide_False; [congruence|].
      intros (sb & Hsb & Ha & Hsp)%Exists_exists. by apply (Hno sb).
Qed.

(** The first of the transactions before it with the identifier. *)
Definition pending_before (prevtxs : list Transaction) vin t : Prop :=
  snd <$> list_find (λ t, in_Txid vin = tx_ID t) prevtxs = Some t.

#[local] Instance unknown_dec vin : Decision (unknown vin).
Proof. unfold unknown. apply _. Defined.

Lemma missing_unknown fuel vins : length s < fuel →
  missing (λ vin, input_state fuel tip vin db) vins = filter unknown vins.
Proof.
  intros Hf. unfold missing. apply list_filter_iff. intros vin. destruct (input_state_iff fuel vin Hf) as [Hu _].
  rewrite <- Hu. unfold is_missing. by destruct (input_state fuel tip vin db) as [[]|e|p|].
Qed.

(** The empty tip stands for the top. *)
Lemma VerifyTransaction_tip fuel tx prevtxs tip0 : tip0 = tip ∨ tip0 = [] ∧ tip = top →
  VerifyTransaction fuel tx prevtxs tip0 db = VerifyTransaction fuel tx prevtxs tip db.
Proof.
  intros [->|[-> Et]]; [done|]. pose proof Hnode as [Ho Hs Hc Hb Hst Hin [HL _] _ Hu].
  rewrite Et. apply (VerifyTransaction_top n f db top bs Ho Hs L HL); [|done].
  assert (E : bs = branch).
  { eapply path_fun; [apply (cs_path _ _ _ _ Hs)|]. rewrite <- Et. apply (br_path _ _ _ _ _ _ _ Hb). }
  split; [by intros k h (b & Hbl & -> & _)%links_In; apply Hst|]. intros k h h' Hh Hh' Hbr Hbr'. rewrite E in Hbr, Hbr'.
  destruct (link_on_branch k h Hh Hbr) as (b & Hb1 & -> & Hk), (link_on_branch k h' Hh' Hbr') as (b' & Hb2 & -> & Hk').
  by rewrite (Hu b b' k).
Qed.

End Verified.

(** ** An instance

    The chain of one block of [MiningDemo], where the payment verifies for both
    tips; once a block has it, it does not. *)

Module VerifiedDemo.
Import ToyCrypto MapBolt InsertionSort MapRange Codecs Demo IndexDemo PendingDemo ManagerDemo MiningDemo MintingDemo.

Lemma mint_index : index_rep mint_file (man_L, λ _, []).
Proof.
  split; [apply mint_links|]. by apply empty_table.
Qed.

Lemma mint_recorded : records [blk_d] man_L (λ _, []).
Proof.
  split; [|done]. intros k h. change (mjoin (block_ops <$> [blk_d])) with [Link [x09] hash_d].
  unfold man_L, upd. simpl. case_bool_decide as E; case_bool_decide as E'; try done; congruence.
Qed.

Lemma mint_node : branch_node 32 mint_file mint_db hash_d [blk_d] hash_d [] blk_d [] [blk_d] man_L (λ _, []).
Proof.
  split.
  - apply mint_opened.
  - apply mint_state.
  - exact I.
  - split; [apply mint_path|by intros b ?%elem_of_nil|by left].
  - intros b ->%list_elem_of_singleton. split; [|done]. eapply path_stored; [apply mint_path|by left].
  - done.
  - apply mint_index.
  - apply mint_recorded.
  - by intros b b' k ->%list_elem_of_singleton ->%list_elem_of_singleton.
Qed.

Lemma pay_confirmed : confirmed [] blk_d [] [blk_d] (mkTXInput [x09] 0 (demo_sig (f64_of_Z 3)) demo_pub) demo_prev.
Proof.
  exists [], blk_d, []. split; [done|]. split; [reflexivity|].
  intros sb ->%list_elem_of_singleton _. apply not_elem_of_nil.
Qed.


(** The payment is in the block on top. *)
Example paid_before :
  VerifyTransaction 3 pay_tx [] [] added = Err spent_before ∧
  VerifyTransaction 3 pay_tx [] hash_d added = Ret true.
Proof. split; vm_compute; reflexivity. Qed.
End VerifiedDemo.
