(* ===== verification/SendCommand.v ===== *)
(** * A payment from the command line

    [commandSend] of [node/nodecli.go] with no running node, through all the parts
    it goes: the wallet's file, the node, the transactions manager with the index,
    the unspent outputs and the pool, and the announcement to the other nodes. *)

From Stdlib Require Import Strings.Byte ZifyNat.
From stdpp Require Import base strings numbers gmap sorting list.
From S2P Require Import Prelude Float64 Platform Concrete Utils Logger Structures Codecs Signing.
From S2P Require Import Connections Database Blockchain ChainIndex Tables Branches BlockchainUpdate TxIndex Pending Unspent TxManager.
From S2P Require Import Consensus Mining Payment Net Wire NodeClient ComCodecs Wallet WalletCLI Daemon Config.
From S2P Require Import Node NodeCLI NodeChain Minting.

Section Send.
Context `{CryptoLaws} `{BoltLaws} `{GoSortLaws} `{GoRangeLaws}.
Context `{!Gob Transaction} `{!GobLaws Transaction} `{!Gob Block} `{!GobLaws Block} `{!Gob BlockShort}.
Context `{!Gob (list TXOutputIndependent)} `{!GobLaws (list TXOutputIndependent)}.
Context `{!Gob (list bytes)} `{!Gob (list TransactionsIndexSpentOutputs)}.
Context `{Network} `{ComGob} `{!GobLaws ComInv} `{!Gob (option (gmap bytes Wallet))} `{GoParse} `{JsonConfig}.
Implicit Types (c : NodeCLI) (f : boltfile) (db : DB) (m : Node) (tx : Transaction) (txs : list Transaction).

(** The command line with another node and one more line printed. *)
Definition with_node_out m (l : line) c : NodeCLI :=
  mkNodeCLI (nc_Input c) (nc_AlreadyRunningPort c) (nc_AuthStr c) m (nc_created c) (nc_files c) (nc_pid c)
    (nc_signals c) (nc_out c ++ [l]).

(** The request that announces a transaction. *)
Definition tx_announcement (client : NodeClient) tx : outcome bytes :=
  BuildCommandData (str "inv") (Some (gob_Encode (mkComInv (nc_NodeAddress client) (str "tx") [tx_ID tx]))).

Lemma SendTransactionToAll_run tx m :
  ∃ data l, tx_announcement (nd_Client m) tx = Ret data ∧
    SendTransactionToAll tx m = (Ret tt, set_Sent (nd_Sent m ++ l) m) ∧
    let wanted := (λ node, (NodeAddrToString node, data)) <$> others m in
    l `sublist_of` wanted ∧
    (reliable → Forall (λ node, CheckNodeAddress node = Ret tt) (nn_Nodes (nd_Net m)) → l = wanted).
Proof.
  assert (∃ data, tx_announcement (nd_Client m) tx = Ret data) as [data Ed].
  { unfold tx_announcement, BuildCommandData, doBuildCommandData.
    destruct (gob_total (mkComInv (nc_NodeAddress (nd_Client m)) (str "tx") [tx_ID tx])) as [inv Ei].
    cbn [default]. rewrite Ei. by eexists. }
  destruct (send_each_run (nn_Nodes (nd_Net m)) (λ node client, SendInv client node (str "tx") [tx_ID tx]) data m) as (l & Hr & Hl).
  { intros node out _. unfold SendInv, send_command, mbind, st_bind, lift.
    unfold tx_announcement in Ed. by rewrite Ed. }
  exists data, l. split; [done|]. split; [|done]. exact Hr.
Qed.

(** C3: a payment from the command line goes all the way.  When no node runs, the
    file of the wallets has the key, and the free outputs of the key cover the
    amount, [send] makes a transaction that spends such outputs, pays the recipient
    and gives the change back; the pool has it and no conflict; it is announced to
    the other nodes, to all of them when the network delivers; and its identifier is
    printed.  Files, blocks and the other tables stay. *)
Theorem commandSend_pays e c f txs T ws w toHash inputs prevTXs totalamount :
  let args := ai_Args (nc_Input c) in let m := nc_Node c in let db := OpenConnection (nd_DB m) in
  let amount := parse_fixed8 (aa_Amount args) in
  (nc_AlreadyRunningPort c ≤ 0)%Z → wc_WalletsObj (getWalletsCLI c) = Some ws → GetWallet (aa_From args) ws = Ret w →
  ledger f db txs T → signer (w_PublicKey w) (w_PrivateKey w) (ne_seeds e) →
  f64_leb (aa_Amount args) f64_zero = false → aa_To args ≠ [] →
  ValidateAddress (aa_To args) = Ret true → AddresToPubKeyHash (aa_To args) = Ret toHash →
  payment_inputs (w_PublicKey w) (aa_To args) amount db = Ret (inputs, prevTXs, totalamount) →
  settles (w_PublicKey w) toHash amount totalamount →
  (∀ tx, Payment.payment db (w_PublicKey w) (w_PrivateKey w) (aa_To args) (aa_Amount args) (ne_now e) (ne_seeds e) = Ret tx → tx_fits tx) →
  ∃ tx f' txs' data l,
    commandSend e c = (Ret tt, with_node_out (set_Sent (nd_Sent m ++ l) (set_DB (with_bc f' db) m))
                                 ("Success. New transaction: %x"%string, [ABytes (tx_ID tx)]) c) ∧
    outpoints tx = outpoint_of <$> inputs ∧ tx_Vout tx = payment_outputs (w_PublicKey w) toHash amount totalamount ∧
    pool f' txs' ∧ with_tx tx txs txs' ∧ conflict_free txs' ∧ only [unapprovedTransactionsBucket] f f' ∧
    tx_announcement (nd_Client m) tx = Ret data ∧
    let wanted := (λ node, (NodeAddrToString node, data)) <$> others m in
    l `sublist_of` wanted ∧
    (reliable → Forall (λ node, CheckNodeAddress node = Ret tt) (nn_Nodes (nd_Net m)) → l = wanted).
Proof.
  intros args m db amount Hport Hws Hw Hld Hsg Hpos Hne Hval Hto Hin Hset Hfit.
  destruct (CreateTransaction_pays f db txs T Hld (w_PublicKey w) (w_PrivateKey w) (aa_To args) toHash (aa_Amount args) inputs prevTXs
    totalamount (ne_now e) (ne_seeds e)) as (tx & f' & txs' & Hc & Ho & Hout & Hp & Hwt & Hcf & Hb); [done..|].
  destruct (SendTransactionToAll_run tx (set_DB (with_bc f' db) m)) as (data & l & Hd & Hs & Hl).
  exists tx, f', txs', data, l. split_and!; [|done..].
  assert (Hsend : Send (w_PublicKey w) (w_PrivateKey w) (aa_To args) (aa_Amount args) (ne_now e) (ne_seeds e) m
    = (Ret (tx_ID tx), set_Sent (nd_Sent m ++ l) (set_DB (with_bc f' db) m))).
  { unfold Send. rewrite bool_decide_eq_false_2 by done. unfold mbind, st_bind at 1, lift. rewrite Hval. cbn [negb].
    unfold st_bind at 1, on_db. unfold st_bind at 1. rewrite get_DB_run. fold db. rewrite Hc.
    unfold st_bind. by rewrite Hs. }
  unfold commandSend, or_forward, cli_get. unfold mbind, st_bind at 1, ask. rewrite (proj2 (Z.ltb_ge _ _)) by done.
  unfold st_bind at 1, the_wallets, ask. rewrite Hws. cbn [deref].
  unfold st_bind at 1, cli_arg, cli_get, ask. fold args. unfold st_bind at 1, lift. rewrite Hw.
  unfold st_bind at 1. unfold st_bind at 1. unfold st_bind at 1, on_cli_node. fold m.
  unfold GetPublicKey, GetPrivateKey. fold args. rewrite Hsend. reflexivity.
Qed.
End Send.

(** ** An instance

    The key of [PaymentDemo] has its wallet in the file of the data directory, the
    node knows one other node, and pays one coin to the shop. *)

Module SendDemo.
Import ToyCrypto MapBolt InsertionSort MapRange Codecs Demo IndexDemo PendingDemo ManagerDemo PaymentDemo.
Import ComCodecs WalletDemo ConfigDemo.

Definition payer : bytes := GetAddress demo_pub.
Definition payer_wallet : Wallet := mkWallet (7%Z : PrivateKey) demo_pub.
Definition payer_wallets : Wallets := mkWallets (str "/d/") (Some {[ payer := payer_wallet ]}) [].
Definition payer_files : gmap bytes bytes :=
  {[ str "/d/wallet.dat" := gob_text (Some {[ payer := payer_wallet ]} : option (gmap bytes Wallet)) ]}.
Definition send_args : AllPossibleArgs :=
  mkAllPossibleArgs [] payer shop 0 [] 0 [] [] (f64_of_Z 1) [] [] [] false.
Definition send_cli : NodeCLI :=
  mkNodeCLI (Config.mkAppInput (str "send") [] [] 2000 [] (str "/d/") [] send_args (Connections.mkDatabaseConfig [] [] [])) 0 []
    (mkNode (mkDB false (Some man_file) None) (mkNodeNetwork [mkNodeAddr (str "host") 2000] false)
       (mkNodeClient (mkNodeAddr (str "here") 2000) []) payer [])
    true payer_files None [] [].
Definition send_env : node_env :=
  mkNodeEnv 5 5 (Ret []) (Err (EMsg "none")) 0 (λ _, None) keys (λ _ _, 0%N) (λ _, false) None io_fine []
    (λ _, None) 1.

Definition spent_inputs : list TXInput := shop_inputs.1.1.
Definition spent_total : float64 := shop_inputs.2.

Lemma commandSend_pays_witness :
  ∃ tx f' txs' data l,
    commandSend send_env send_cli = (Ret tt, with_node_out
      (set_Sent l (set_DB (with_bc f' man_db) (nc_Node send_cli)))
      ("Success. New transaction: %x"%string, [ABytes (tx_ID tx)]) send_cli) ∧
    outpoints tx = outpoint_of <$> spent_inputs ∧
    tx_Vout tx = payment_outputs demo_pub shop_hash (parse_fixed8 (f64_of_Z 1)) spent_total ∧
    pool f' txs' ∧ with_tx tx [] txs' ∧ conflict_free txs' ∧ only [unapprovedTransactionsBucket] man_file f' ∧
    tx_announcement (nd_Client (nc_Node send_cli)) tx = Ret data ∧ l = [(str "host:2000", data)].
Proof.
  destruct (commandSend_pays send_env send_cli man_file [] man_T payer_wallets payer_wallet shop_hash
    spent_inputs shop_inputs.1.2 spent_total) as (tx & f' & txs' & data & l & Hc & H1 & H2 & H3 & H4 & H5 & H6 & H7 & _ & Hall).
  - discriminate.
  - reflexivity.
  - reflexivity.
  - apply demo_ledger.
  - apply demo_signer.
  - reflexivity.
  - discriminate.
  - reflexivity.
  - reflexivity.
  - reflexivity.
  - split_and!; reflexivity.
  - apply shop_fits.
  - exists tx, f', txs', data, l. split_and!; [exact Hc|exact H1|exact H2|exact H3|exact H4|exact H5|exact H6|exact H7|].
    apply Hall; [by intros ? ? ?|]. apply Forall_cons. split; [reflexivity|constructor].
Defined.
End SendDemo.
