(* ===== verification/Server.v ===== *)
(** * Package [node/server]: handling requests

    [handle.go] and what [server.go] does around it.  A request is handled on a
    clone of the node: it has its own connection, list of nodes and client, and
    shares the files, what is sent, the queues of announced blocks and the
    channel of the block builder with the server.  A panic of a handler is one
    of its goroutine, and ends the node.  Reading a request is in [Wire.v]. *)

From Stdlib Require Import Strings.Byte ZifyNat.
From stdpp Require Import base strings numbers gmap sorting list.
From S2P Require Import Prelude Float64 Platform Concrete Utils Structures Signing.
From S2P Require Import Database Blockchain TxIndex Pending Unspent TxManager Consensus.
From S2P Require Import Net Wire Transit NodeClient Node.

Section Server.
Context `{Crypto} `{Bolt} `{GoSort} `{GoRange} `{!Gob Transaction} `{!Gob Block} `{!Gob BlockShort}.
Context `{!Gob (list TXOutputIndependent)}.
Context `{!Gob (list bytes)} `{!Gob (list TransactionsIndexSpentOutputs)}.
Context `{Network} `{ComGob}.

(** ** [NodeServer] *)

Record NodeServer := mkNodeServer {
  sv_Node : Node;
  sv_NodeAddress : NodeAddr;
  sv_Transit : nodeTransit;
  sv_BlockBilderChan : list bytes;
  sv_NodeAuthStr : bytes
}.

Definition set_Node (n : Node) (s : NodeServer) : NodeServer :=
  mkNodeServer n (sv_NodeAddress s) (sv_Transit s) (sv_BlockBilderChan s) (sv_NodeAuthStr s).
Definition set_Transit (t : nodeTransit) (s : NodeServer) : NodeServer :=
  mkNodeServer (sv_Node s) (sv_NodeAddress s) t (sv_BlockBilderChan s) (sv_NodeAuthStr s).
Definition set_Chan (c : list bytes) (s : NodeServer) : NodeServer :=
  mkNodeServer (sv_Node s) (sv_NodeAddress s) (sv_Transit s) c (sv_NodeAuthStr s).

(** The channel holds a hundred signals; one that finds it full is dropped. *)
Definition TryToMakeNewBlock (tx : bytes) (s : NodeServer) : NodeServer :=
  if (Z.of_nat (length (sv_BlockBilderChan s)) <? 100)%Z
  then set_Chan (sv_BlockBilderChan s ++ [tx]) s else s.

(** The node [n] with the files and the messages of [m]. *)
Definition with_files (m n : Node) : Node :=
  mkNode (mkDB (openedConn (nd_DB n)) (bcFile (nd_DB m)) (nodesFile (nd_DB m)))
    (nd_Net n) (nd_Client n) (nd_MinterAddress n) (nd_Sent m).

(** A forced list of nodes needs no document to load. *)
Definition CloneNode (s : NodeServer) : outcome unit * Node :=
  let orignode := sv_Node s in
  let node := with_files orignode
    (mkNode (mkDB false None None) (mkNodeNetwork [] false)
       (mkNodeClient (mkNodeAddr [] 0) []) (nd_MinterAddress orignode) []) in
  (_ ← nd_Init;
   _ ← effect (λ n, (Ret tt, mkNode (nd_DB n) (nd_Net n) (SetNodeAddress (sv_NodeAddress s) (nd_Client n))
                               (nd_MinterAddress n) (nd_Sent n)));
   drop_err (InitNodes (Err (EMsg "")) (nn_Nodes (nd_Net orignode)) true)) node.

(** ** [NodeServerRequest] *)

Record NodeServerRequest := mkRequest {
  rq_Node : Node;
  rq_S : NodeServer;
  rq_Request : bytes;
  rq_RequestIP : bytes;
  rq_HasResponse : bool;
  rq_Response : option bytes;
  rq_NodeAuthStrIsGood : bool
}.

Abbreviation handler := (st NodeServerRequest).

Definition on_node {A} (op : st Node A) : handler A := λ r,
  let '(a, n) := op (rq_Node r) in
  (a, mkRequest n (rq_S r) (rq_Request r) (rq_RequestIP r) (rq_HasResponse r) (rq_Response r)
        (rq_NodeAuthStrIsGood r)).

(** An operation on the server, and one on the node of the server. *)
Definition on_server {A} (op : NodeServer → outcome A * NodeServer) : handler A := λ r,
  let '(a, s) := op (rq_S r) in
  (a, mkRequest (rq_Node r) s (rq_Request r) (rq_RequestIP r) (rq_HasResponse r) (rq_Response r)
        (rq_NodeAuthStrIsGood r)).
Definition on_server_node {A} (op : st Node A) : handler A := λ r,
  let '(a, n) := op (with_files (rq_Node r) (sv_Node (rq_S r))) in
  (a, mkRequest (with_files n (rq_Node r)) (set_Node n (rq_S r)) (rq_Request r) (rq_RequestIP r)
        (rq_HasResponse r) (rq_Response r) (rq_NodeAuthStrIsGood r)).
Definition on_transit {A} (op : st nodeTransit A) : handler A :=
  on_server (λ s, let '(a, t) := op (sv_Transit s) in (a, set_Transit t s)).

Definition has_response : handler unit := λ r,
  (Ret tt, mkRequest (rq_Node r) (rq_S r) (rq_Request r) (rq_RequestIP r) true (rq_Response r)
             (rq_NodeAuthStrIsGood r)).
Definition set_response (b : bytes) : handler unit := λ r,
  (Ret tt, mkRequest (rq_Node r) (rq_S r) (rq_Request r) (rq_RequestIP r) (rq_HasResponse r) (Some b)
             (rq_NodeAuthStrIsGood r)).

Definition respond {A} `{Gob A} (a : A) : handler unit :=
  b ← lift (gob_Encode a);
  set_response b.

Definition signal (tx : bytes) : handler unit := on_server (λ s, (Ret tt, TryToMakeNewBlock tx s)).
Definition check_known (addr : NodeAddr) : handler unit := drop_err (on_node (CheckAddressKnown addr)).

Definition parseRequestData {A} `{Gob A} : handler A :=
  wrap_err "Parse request: " (ask (λ r, gob_Decode (rq_Request r))).

(** A message of the client of the clone; its error is dropped. *)
Definition post (message : NodeClient → st outbox unit) : handler unit :=
  drop_err (on_node (sending message)).

(** *** Requests of wallets *)

Definition handleGetUnspent : handler unit :=
  _ ← has_response;
  payload ← parseRequestData (A := ComGetUnspentTransactions);
  LastBlock ← on_node (on_db nbc_GetTopBlockHash);
  transactions ← on_node (on_db (asking (λ db,
    let '(r, uts) := tm_ForEachUnspentOutput (cgu_Address payload)
      (λ fromaddr value txID output isbase uts,
         (Ret tt, uts ++ [mkComUnspentTransaction txID output value isbase fromaddr])) db [] in
    _ ← r; Ret uts)));
  respond (mkComUnspentTransactions transactions LastBlock).

Definition history_record (t : TransactionsHistory) : ComHistoryTransaction :=
  mkComHistoryTransaction (th_IOType t) (th_TXID t) (th_Value t)
    (if th_IOType t then th_Address t else []) (if th_IOType t then [] else th_Address t).

Definition handleGetHistory (fuel : nat) : handler unit :=
  _ ← has_response;
  payload ← parseRequestData (A := ComGetHistoryTransactions);
  history ← on_node (on_db (nbc_GetAddressHistory fuel (cgh_Address payload)));
  respond (map history_record history).

Definition handleGetBalance : handler unit :=
  _ ← has_response;
  payload ← parseRequestData (A := ComGetWalletBalance);
  balance ← on_node (on_db (asking (tm_GetAddressBalance (cgw_Address payload))));
  respond (mkComWalletBalance (wb_Total balance) (wb_Approved balance) (wb_Pending balance)).

(** The error of [DeserializeTransaction] is dropped: the transaction is then
    taken to be the zero one. *)
Definition handleTxFull : handler unit :=
  _ ← has_response;
  payload ← parseRequestData (A := ComNewTransaction);
  TX ← lift (ignore_err (mkTransaction [] [] [] 0) (DeserializeTransaction (cnt_TX payload)));
  _ ← wrap_err "Transaction accepting error: %s"
        (on_node (on_db (_ ← get_DB; ReceivedNewTransaction TX)));
  _ ← signal (tx_ID TX);
  wrap_err "TXFull Response Error: %s" (respond (cnt_TX payload)).

Definition handleTxData : handler unit :=
  _ ← has_response;
  payload ← parseRequestData (A := ComNewTransactionData);
  TX ← wrap_err "Transaction accepting error: %s"
         (on_node (on_db (_ ← get_DB; ReceivedNewTransactionData (cnd_TX payload) (cnd_Signatures payload))));
  _ ← signal (tx_ID TX);
  wrap_err "TXFull Response Error: %s" (respond (tx_ID TX)).

(** [now] is the clock. *)
Definition handleTxRequest (now : Z) : handler unit :=
  _ ← has_response;
  payload ← parseRequestData (A := ComRequestTransaction);
  tx ← on_node (on_db (asking
         (PrepareNewTransaction (crt_PubKey payload) (crt_To payload) (crt_Amount payload) now)));
  let '(TXBytes, DataToSign) := tx in
  respond (mkComRequestTransactionData TXBytes DataToSign).

(** *** Requests of nodes *)

Definition handleGetFirstBlocks (fuel : nat) : handler unit :=
  _ ← has_response;
  r ← on_node (on_db (asking (GetFirstBlocks fuel 10)));
  let '(blocks, height) := r in
  data ← lift (mmap blk_Serialize blocks);
  respond (mkComGetFirstBlocksData data height).

Definition handleAddr : handler unit :=
  payload ← parseRequestData (A := list NodeAddr);
  addednodes ← sfor payload (λ addednodes node,
    added ← on_server_node (on_net (AddNodeToKnown node));
    mret (if (added : bool) then addednodes ++ [node] else addednodes)) [];
  if (0 <? Z.of_nat (length addednodes))%Z then on_node (SendVersionToNodes addednodes) else mret tt.

(** The loop of [handleBlock] and [handleInv] over the announcements of a node:
    it goes on until a block is asked for or nothing is left. *)
Fixpoint next_announced (fuel : nat) (from : NodeAddr) : handler unit :=
  match fuel with
  | O => lift OutOfFuel
  | S fuel' =>
      blockdata ← on_transit (ShiftNextBlock from);
      blockstate ← on_node (ReceivedBlockFromOtherNode from blockdata);
      if (blockstate =? BCBState_canAdd)%Z then mret tt
      else
        _ ← (if (blockstate =? BCBState_notExistAndPrevNotExist)%Z then
               _ ← on_transit (λ t, (Ret tt, CleanBlocks from t));
               bs ← lift (bs_DeserializeBlock blockdata);
               post (λ c, SendGetBlocks c from (bs_PrevBlockHash bs))
             else mret tt);
        left ← on_transit (λ t, (Ret (GetBlocksCount from t), t));
        if (left =? 0)%Z then mret tt else next_announced fuel' from
  end.

Definition handleBlock (fuel : nat) : handler unit :=
  payload ← parseRequestData (A := ComBlock);
  let from := cb_AddrFrom payload in
  r ← on_node (ReceivedFullBlockFromOtherNode fuel (cb_Block payload));
  let '(blockstate, addstate, block) := r in
  _ ← (if (blockstate =? BCBState_canAdd)%Z then on_node (SendBlockToAll block from) else mret tt);
  left ← on_transit (λ t, (Ret (GetBlocksCount from t), t));
  _ ← (if (0 <? left)%Z then next_announced fuel from else mret tt);
  _ ← (if (addstate =? BCBAddState_addedToParallelTop)%Z then signal [x01] else mret tt);
  check_known from.

(** A nil transaction without an error is one that is not known. *)
Definition ask_for_tx (fuel : nat) (from : NodeAddr) (txID : bytes) : handler unit := λ r,
  match on_node (on_db (asking (tm_GetIfExists fuel txID))) r with
  | (Ret None, r) => post (λ c, SendGetData c from (str "tx") txID) r
  | (Ret (Some _), r) | (Err _, r) => (Ret tt, r)
  | (Panic p, r) => (Panic p, r)
  | (OutOfFuel, r) => (OutOfFuel, r)
  end.

Definition handleInv (fuel : nat) : handler unit :=
  payload ← parseRequestData (A := ComInv);
  let from := ci_AddrFrom payload in
  _ ← (if bool_decide (ci_Type payload = str "block") then
         _ ← on_transit (λ t, (Ret tt, AddBlocks from (ci_Items payload) t));
         next_announced fuel from
       else mret tt);
  _ ← (if bool_decide (ci_Type payload = str "tx") then
         txID ← lift (index (ci_Items payload) 0);
         ask_for_tx fuel from txID
       else mret tt);
  check_known from.

(** The announcements, the lowest block first; an error leaves an empty text. *)
Definition announcements (blocks : list BlockShort) : outcome (list bytes) :=
  mmap (λ b, ignore_err [] (bs_Serialize b)) (reverse blocks).

Definition handleGetBlocks (fuel : nat) : handler unit :=
  payload ← parseRequestData (A := ComGetBlocks);
  blocks ← on_node (on_db (asking (GetBlocksShortInfo fuel (cgb_StartFrom payload) 1000)));
  data ← lift (announcements blocks);
  _ ← check_known (cgb_AddrFrom payload);
  on_node (sending (λ c, SendInv c (cgb_AddrFrom payload) (str "block") data)).

Definition handleGetBlocksUpper (fuel : nat) : handler unit :=
  payload ← parseRequestData (A := ComGetBlocks);
  blocks ← on_node (on_db (nbc_GetBlocksAfter fuel (cgb_StartFrom payload)));
  blocks ← (match blocks with
            | Some blocks => mret blocks
            | None => on_node (on_db (asking (GetBlocksShortInfo fuel [] 1000)))
            end);
  data ← lift (announcements blocks);
  _ ← check_known (cgb_AddrFrom payload);
  on_node (sending (λ c, SendInv c (cgb_AddrFrom payload) (str "block") data)).

(** The block is sent if it has a text; a pending transaction if it is found. *)
Definition return_block (from : NodeAddr) (hash : bytes) : handler unit :=
  block ← on_node (on_db (nbc_GetBlock hash));
  bs ← lift (ignore_err None (b ← blk_Serialize block; Ret (Some b)));
  match bs with
  | Some bs => post (λ c, SendBlock c from bs)
  | None => mret tt
  end.
Definition return_tx (from : NodeAddr) (txid : bytes) : handler unit :=
  txe ← on_node (on_db (asking (λ db, ignore_err None (GetIfUnapprovedExists txid db))));
  match txe with
  | Some txe =>
      txser ← lift (tx_Serialize txe);
      post (λ c, SendTx c from txser)
  | None => mret tt
  end.

Definition handleGetData : handler unit :=
  payload ← parseRequestData (A := ComGetData);
  let from := cgd_AddrFrom payload in
  _ ← (if bool_decide (cgd_Type payload = str "block") then return_block from (cgd_ID payload)
       else mret tt);
  _ ← (if bool_decide (cgd_Type payload = str "tx") then return_tx from (cgd_ID payload)
       else mret tt);
  check_known from.

(** A transaction that is known is ignored. *)
Definition handleTx (fuel : nat) : handler unit :=
  payload ← parseRequestData (A := ComTx);
  tx ← lift (DeserializeTransaction (ct_Transaction payload));
  txe ← on_node (on_db (asking (λ db, ignore_err None (tm_GetIfExists fuel (tx_ID tx) db))));
  match txe with
  | Some _ => mret tt
  | None =>
      _ ← on_node (on_db (_ ← get_DB; ReceivedNewTransaction tx));
      signal [x00]
  end.

Definition handleVersion : handler unit :=
  payload ← parseRequestData (A := ComVersion);
  state ← on_node (on_db (asking GetState));
  let '(topHash, myBestHeight) := state in
  ip ← ask (λ r, Ret (rq_RequestIP r));
  let from := cv_AddrFrom payload in
  let from := if bool_decide (Host from = str "localhost") then mkNodeAddr ip (Port from) else from in
  let foreignerBestHeight := cv_BestHeight payload in
  _ ← (if (myBestHeight <? foreignerBestHeight)%Z then
         _ ← on_transit (λ t, (Ret tt,
               if (tr_MaxKnownHeigh t <? foreignerBestHeight)%Z
               then mkTransit (tr_Blocks t) foreignerBestHeight else t));
         post (λ c, SendGetBlocksUpper c from topHash)
       else if (foreignerBestHeight <? myBestHeight)%Z then post (λ c, SendVersion c from myBestHeight)
       else mret tt);
  _ ← on_server_node (CheckAddressKnown from);
  mret tt.

(** *** Management *)

Definition handleGetNodes : handler unit :=
  _ ← has_response;
  nodes ← ask (λ r, Ret (nn_Nodes (nd_Net (sv_Node (rq_S r)))));
  respond nodes.

Definition auth_required {A} (h : handler A) : handler A := λ r,
  if rq_NodeAuthStrIsGood r then h r else (Err (EMsg "Local Network Auth is required"), r).

Definition handleAddNode : handler unit := auth_required (
  _ ← has_response;
  payload ← parseRequestData (A := ComManageNode);
  _ ← on_server_node (nd_AddNodeToKnown (cmn_Node payload) true);
  set_response []).

Definition handleRemoveNode : handler unit := auth_required (
  _ ← has_response;
  payload ← parseRequestData (A := ComManageNode);
  _ ← on_server_node (on_net (RemoveNodeFromKnown (cmn_Node payload)));
  set_response []).

Definition handleGetState : handler unit := auth_required (
  _ ← has_response;
  info ← on_node (on_db GetNodeState);
  known ← on_transit (λ t, (Ret (tr_MaxKnownHeigh t), t));
  respond (mkComGetNodeState (gns_Host info) (gns_BlocksNumber info) known
             (gns_TransactionsCached info) (gns_UnspentOutputs info))).

(** ** [handleConnection] *)

Definition dispatch (fuel : nat) (now : Z) (command : bytes) : handler unit :=
  let cmd c := bool_decide (command = str c) in
  if cmd "addr" then handleAddr
  else if cmd "viod" then mret tt
  else if cmd "block" then handleBlock fuel
  else if cmd "inv" then handleInv fuel
  else if cmd "getblocks" then handleGetBlocks fuel
  else if cmd "getblocksup" then handleGetBlocksUpper fuel
  else if cmd "getdata" then handleGetData
  else if cmd "getunspent" then handleGetUnspent
  else if cmd "gethistory" then handleGetHistory fuel
  else if cmd "getbalance" then handleGetBalance
  else if cmd "getfblocks" then handleGetFirstBlocks fuel
  else if cmd "tx" then handleTx fuel
  else if cmd "txfull" then handleTxFull
  else if cmd "txdata" then handleTxData
  else if cmd "txrequest" then handleTxRequest now
  else if cmd "getnodes" then handleGetNodes
  else if cmd "addnode" then handleAddNode
  else if cmd "removenode" then handleRemoveNode
  else if cmd "getstate" then handleGetState
  else if cmd "version" then handleVersion
  else fail (EMsg "Unknown command!").

(** What [sendErrorBack] writes. *)
Definition sendErrorBack (e : goerror) : outcome (option bytes) :=
  payload ← ignore_err None (b ← gob_Encode (mkString (Error e)); Ret (Some b));
  Ret (match payload with Some payload => Some (x00 :: payload) | None => None end).

(** What is written back after a handler. *)
Definition written_back (rerr : outcome unit) (r : NodeServerRequest) : outcome (option bytes) :=
  match rerr with
  | Ret _ => Ret (if rq_HasResponse r
                  then match rq_Response r with Some b => Some (x01 :: b) | None => None end
                  else None)
  | Err e => if rq_HasResponse r then sendErrorBack e else Ret None
  | Panic p => Panic p
  | OutOfFuel => OutOfFuel
  end.

(** A command that was read. *)
Definition handle_command (fuel : nat) (now : Z) (command request authstring RequestIP : bytes)
    : st NodeServer (option bytes) := λ s,
  let '(r, node) := CloneNode s in
  match r with
  | Ret _ | Err _ =>
      let good := bool_decide (sv_NodeAuthStr s = authstring)
                  && (0 <? Z.of_nat (length authstring))%Z in
      let requestobj := mkRequest (set_DB (OpenConnection (nd_DB node)) node) s request RequestIP
                          false None good in
      let '(rerr, r) := dispatch fuel now command requestobj in
      (written_back rerr r, set_Node (with_files (rq_Node r) (sv_Node (rq_S r))) (rq_S r))
  | Panic p => (Panic p, set_Node (with_files node (sv_Node s)) s)
  | OutOfFuel => (OutOfFuel, set_Node (with_files node (sv_Node s)) s)
  end.

Definition handleConnection (fuel : nat) (now : Z) (c : conn) (RequestIP : bytes)
    : st NodeServer (option bytes) := λ s,
  match readRequest fuel c with
  | Ret (command, request, authstring, _) =>
      handle_command fuel now command request authstring RequestIP s
  | Err e => (sendErrorBack (EWrap "Network Data Reading Error: " e), s)
  | Panic p => (Panic p, s)
  | OutOfFuel => (OutOfFuel, s)
  end.

(** ** [StartServer] and [BlockBuilder] *)

Definition StartServer_init : st NodeServer unit := λ s,
  let n := sv_Node s in
  let n := mkNode (nd_DB n) (nd_Net n) (SetNodeAddress (sv_NodeAddress s) (nd_Client n))
             (nd_MinterAddress n) (nd_Sent n) in
  let '(r, n) := SendVersionToNodes [] n in
  (r, set_Chan [] (set_Node n s)).

(** A round of the loop: the next signal, and whether the routine goes on; no
    signal leaves it waiting.  The error of [TryToMakeBlock] is logged. *)
Definition BlockBuilder_round (fuel : nat) (now : Z) (randData : outcome bytes) : st NodeServer bool :=
  λ s,
    match sv_BlockBilderChan s with
    | [] => (Ret true, s)
    | txID :: signals =>
        let s := set_Chan signals s in
        if (Z.of_nat (length txID) =? 0)%Z then (Ret false, s)
        else
          let '(r, node) := CloneNode s in
          let '(r, node) := (_ ← lift r; drop_err (TryToMakeBlock fuel now randData txID)) node in
          ((_ ← r; Ret true), set_Node (with_files node (sv_Node s)) s)
    end.
End Server.
