(* ===== verification/ServerSafe.v ===== *)
(** * The server keeps its chain

    Requests are handled and blocks are made in any order and number: the
    invariant of the chain holds as long as the blocks that arrive and those that
    are made are well formed, which the code does not check.  The block builder closes its connection while it looks for a
    nonce, so its work is two steps, and requests are handled between them. *)

From Stdlib Require Import Strings.Byte ZifyNat.
From stdpp Require Import base strings numbers gmap sorting relations list.
From S2P Require Import Prelude Float64 Platform Concrete Utils Merkle Structures Codecs Signing.
From S2P Require Import Database ChainIndex Tables Blockchain Branches BlockchainLookup.
From S2P Require Import BlockchainUpdate TxIndex Pending Unspent TxManager Consensus Mining.
From S2P Require Import Net Wire Transit NodeClient Node Frames NodeChain Server.

Section System.
Context `{Crypto} `{Bolt} `{GoSort} `{GoRange} `{!Gob Transaction} `{!Gob Block} `{!Gob BlockShort}.
Context `{!Gob (list TXOutputIndependent)}.
Context `{!Gob (list bytes)} `{!Gob (list TransactionsIndexSpentOutputs)}.
Context `{Network} `{ComGob}.

(** The server, and the block that is being made: the signal, what
    [PrepareNewBlock] reported, the block maker, and the clone it is made on. *)
Record building := mkBuilding {
  bld_txID : bytes;
  bld_prepres : Z;
  bld_Minter : NodeBlockMaker;
  bld_Node : Node
}.
Record system := mkSystem { sys_Server : NodeServer; sys_Building : option building }.

Definition sys_DB (s : system) : DB := nd_DB (sv_Node (sys_Server s)).

(** The first part of [TryToMakeBlock], up to the search for a nonce. *)
Definition begin_block (fuel : nat) (now : Z) (randData : outcome bytes)
    : st Node (Z * NodeBlockMaker) :=
  minter ← ask (λ n, Ret (nd_MinterAddress n));
  valid ← lift (if bool_decide (minter = []) then Ret false else ValidateAddress minter);
  if negb valid then fail (EMsg "Minter address is not provided")
  else
    prepared ← making fuel now randData;
    _ ← on_db close_conn;
    mret prepared.

(** The second part, and the end of the function. *)
Definition end_block (fuel : nat) (newTransactionID : bytes) (prepres : Z) (Minter : NodeBlockMaker)
    : st Node bytes := λ n,
  let '(r, n) := finish_block fuel newTransactionID prepres Minter n in
  (r, set_DB (CloseConnection (nd_DB n)) n).

Lemma TryToMakeBlock_parts fuel now randData txID n :
  TryToMakeBlock fuel now randData txID n
  = ('(prepres, Minter) ← begin_block fuel now randData; end_block fuel txID prepres Minter) n.
Proof.
  unfold TryToMakeBlock, begin_block, mbind, st_bind, ask, lift.
  destruct (if bool_decide (nd_MinterAddress n = []) then Ret false else ValidateAddress (nd_MinterAddress n))
    as [[]|e|p|]; simpl; try done.
  destruct (making fuel now randData n) as [[[prepres Minter]|e|p|] n']; simpl; try done.
Qed.

(** The builder takes a signal and prepares a block on a clone. *)
Definition builder_begins (fuel : nat) (now : Z) (randData : outcome bytes) (s : NodeServer)
    : system :=
  match sv_BlockBilderChan s with
  | [] => mkSystem s None
  | txID :: signals =>
      let s := set_Chan signals s in
      if (Z.of_nat (length txID) =? 0)%Z then mkSystem s None
      else
        let '(_, node) := CloneNode s in
        let '(r, node) := begin_block fuel now randData node in
        mkSystem (set_Node (with_files node (sv_Node s)) s)
          (match r with
           | Ret (prepres, Minter) => Some (mkBuilding txID prepres Minter node)
           | _ => None
           end)
  end.

(** It finishes the block on the files as they are then. *)
Definition builder_ends (fuel : nat) (b : building) (s : NodeServer) : system :=
  let '(_, node) := end_block fuel (bld_txID b) (bld_prepres b) (bld_Minter b)
                      (with_files (sv_Node s) (bld_Node b)) in
  mkSystem (set_Node (with_files node (sv_Node s)) s) None.

(** A request for a block brings a block that is well formed. *)
Definition brings_well_formed (n : nat) (command request : bytes) : Prop :=
  ∀ payload block, command = str "block" → gob_Decode request = Ret payload →
    DeserializeBlock (cb_Block payload) = Ret block → well_formed n block.

(** The steps of the system; a loop has rounds enough for the branches that are
    stored when it starts. *)
Inductive sys_step (n : nat) : system → system → Prop :=
| step_request fuel now c ip s b :
    enough fuel (nd_DB (sv_Node s)) →
    (∀ command request authstring c',
       readRequest fuel c = Ret (command, request, authstring, c') →
       brings_well_formed n command request) →
    sys_step n (mkSystem s b) (mkSystem (handleConnection fuel now c ip s).2 b)
| step_begin fuel now randData s :
    sys_step n (mkSystem s None) (builder_begins fuel now randData s)
| step_end fuel b s :
    enough fuel (nd_DB (sv_Node s)) →
    (∀ block, (CompleteBlock fuel (bld_Minter b)).1 = Ret block → well_formed n block) →
    sys_step n (mkSystem s (Some b)) (builder_ends fuel b s).
End System.

(** ** Frames of the operations of the node *)

Section Frames.
Context `{Crypto} `{BoltLaws} `{GoSort} `{GoRange} `{!Gob Transaction} `{!Gob Block} `{!GobLaws Block}.
Context `{!Gob BlockShort} `{!Gob (list TXOutputIndependent)}.
Context `{!Gob (list bytes)} `{!Gob (list TransactionsIndexSpentOutputs)}.
Context `{Network} `{ComGob}.
Context (n : nat).

(** The relation of the database, on nodes, on the list of nodes and its
    storage, and on requests. *)
Definition node_keeps (m m' : Node) : Prop := keeps_chain n (nd_DB m) (nd_DB m').
Definition net_keeps (x y : net_state (S := DB)) : Prop := same_bc x.2 y.2.
Definition request_keeps (r r' : NodeServerRequest) : Prop := node_keeps (rq_Node r) (rq_Node r').

#[local] Instance node_keeps_preorder : PreOrder node_keeps.
Proof. unfold node_keeps. split; [intros m; reflexivity|]. intros m1 m2 m3 H12 H23. by etrans. Qed.
#[local] Instance net_keeps_preorder : PreOrder net_keeps.
Proof. unfold net_keeps. split; [intros m; reflexivity|]. intros m1 m2 m3 H12 H23. by etrans. Qed.
#[local] Instance request_keeps_preorder : PreOrder request_keeps.
Proof. unfold request_keeps. split; [intros m; reflexivity|]. intros m1 m2 m3 H12 H23. by etrans. Qed.

Lemma within_on_db {A} (op : st DB A) : within (keeps_chain n) op → within node_keeps (on_db op).
Proof. intros Ho m. specialize (Ho (nd_DB m)). unfold on_db. by destruct (op (nd_DB m)). Qed.
Lemma within_sending op : within node_keeps (sending op).
Proof. intros m. unfold sending. destruct (op (nd_Client m) (nd_Sent m)). by intros ?. Qed.
Lemma within_on_net {A} (op : st (net_state (S := DB)) A) : within net_keeps op → within node_keeps (on_net op).
Proof.
  intros Ho m. specialize (Ho (nd_Net m, nd_DB m)). unfold on_net.
  destruct (op (nd_Net m, nd_DB m)) as [r [net db]]. by apply same_bc_keeps.
Qed.
Lemma within_same {A} (op : st DB A) : within same_bc op → within (keeps_chain n) op.
Proof. apply within_same_keeps. Qed.
Lemma within_pool {A} (op : st DB A) :
  within (bc_only [unapprovedTransactionsBucket]) op → within (keeps_chain n) op.
Proof.
  intros Ho. apply within_tx_keeps. eapply within_weaken; [|exact Ho]. intros db db'.
  apply bc_only_weaken. unfold tx_buckets. set_solver.
Qed.

(** The list of nodes. *)
Lemma within_in_storage (op : st DB unit) : within same_bc op → within net_keeps (in_storage op).
Proof.
  intros Ho [net db]. unfold in_storage. destruct (nn_Storage net); [|by simpl].
  specialize (Ho db). by destruct (op db).
Qed.
Lemma within_list_Add addr : within same_bc (list_AddNodeToKnown addr).
Proof. intros db. unfold list_AddNodeToKnown. apply within_closing. frame. Qed.
Lemma within_list_Remove addr : within same_bc (list_RemoveNodeFromKnown addr).
Proof. intros db. unfold list_RemoveNodeFromKnown. apply within_closing. frame. Qed.

Lemma within_set_nodes nodes : within net_keeps (set_nodes nodes).
Proof. by intros [net db]. Qed.
Lemma within_the_nodes : within net_keeps the_nodes.
Proof. by intros [net db]. Qed.
#[local] Hint Resolve within_in_storage within_list_Add within_list_Remove within_set_nodes
  within_the_nodes : frame.

Lemma within_net_Add addr : within net_keeps (AddNodeToKnown addr).
Proof. unfold AddNodeToKnown. frame; apply within_in_storage, within_list_Add. Qed.
Lemma within_net_Remove addr : within net_keeps (RemoveNodeFromKnown addr).
Proof. unfold RemoveNodeFromKnown. frame; apply within_in_storage, within_list_Remove. Qed.
Lemma within_SetNodes nodes replace : within net_keeps (SetNodes nodes replace).
Proof. unfold SetNodes. frame; apply within_in_storage, within_list_Add. Qed.
Lemma within_SetExtraManager : within net_keeps SetExtraManager.
Proof. by intros [net db]. Qed.
#[local] Hint Resolve within_on_db within_sending within_on_net within_same within_pool within_net_Add
  within_net_Remove within_SetNodes within_SetExtraManager : frame.

(** Messages. *)
Lemma within_send_each nodes message : within node_keeps (send_each nodes message).
Proof.
  unfold send_each. frame. intros m. destruct (is_self a m); [reflexivity|].
  apply within_drop_err, within_sending.
Qed.
#[local] Hint Resolve within_send_each : frame.

Lemma within_known_nodes : within node_keeps known_nodes.
Proof. unfold known_nodes. frame. Qed.
#[local] Hint Resolve within_known_nodes : frame.

Lemma within_SendVersionToNodes nodes : within node_keeps (SendVersionToNodes nodes).
Proof.
  unfold SendVersionToNodes. frame. apply within_on_db, within_same, within_closing.
  intros db. pose proof (within_asking GetBestHeight db) as Ha. fold nbc_GetBestHeight in Ha.
  by destruct (nbc_GetBestHeight db) as [[h|e|p|] db'].
Qed.
Lemma within_CheckAddressKnown addr : within node_keeps (CheckAddressKnown addr).
Proof. unfold CheckAddressKnown. frame. Qed.
#[local] Hint Resolve within_SendVersionToNodes within_CheckAddressKnown : frame.
Lemma within_nd_AddNodeToKnown addr b : within node_keeps (nd_AddNodeToKnown addr b).
Proof. unfold nd_AddNodeToKnown. frame. Qed.
Lemma within_SendBlockToAll b addr : within node_keeps (SendBlockToAll b addr).
Proof. unfold SendBlockToAll. frame. Qed.
Lemma within_SendTransactionToAll tx : within node_keeps (SendTransactionToAll tx).
Proof. unfold SendTransactionToAll. frame. Qed.
#[local] Hint Resolve within_nd_AddNodeToKnown within_SendBlockToAll within_SendTransactionToAll
  within_CheckBlockState : frame.

Lemma within_ReceivedBlockFromOtherNode addr data : within node_keeps (ReceivedBlockFromOtherNode addr data).
Proof. unfold ReceivedBlockFromOtherNode. frame. Qed.
#[local] Hint Resolve within_ReceivedBlockFromOtherNode : frame.

(** *** Requests *)

Lemma within_on_node {A} (op : st Node A) : within node_keeps op → within request_keeps (on_node op).
Proof. intros Ho r. specialize (Ho (rq_Node r)). unfold on_node. by destruct (op (rq_Node r)). Qed.
Lemma within_on_server {A} (op : NodeServer → outcome A * NodeServer) : within request_keeps (on_server op).
Proof. intros r. unfold on_server. destruct (op (rq_S r)). by intros ?. Qed.
Lemma within_on_transit {A} (op : st nodeTransit A) : within request_keeps (on_transit op).
Proof. apply within_on_server. Qed.

Lemma keeps_files db1 db1' db2 db2' :
  bcFile db1 = bcFile db2 → bcFile db1' = bcFile db2' → keeps_chain n db1 db1' → keeps_chain n db2 db2'.
Proof. unfold keeps_chain, chain_ok. intros -> ->. done. Qed.

Lemma within_on_server_node {A} (op : st Node A) :
  within node_keeps op → within request_keeps (on_server_node op).
Proof.
  intros Ho r. specialize (Ho (with_files (rq_Node r) (sv_Node (rq_S r)))). unfold on_server_node.
  destruct (op _) as [a m]. revert Ho. by apply keeps_files.
Qed.
Lemma within_has_response : within request_keeps has_response.
Proof. intros r. by intros ?. Qed.
Lemma within_set_response b : within request_keeps (set_response b).
Proof. intros r. by intros ?. Qed.
Lemma within_auth_required {A} (h : st NodeServerRequest A) : within request_keeps h → within request_keeps (auth_required h).
Proof. intros Hh r. unfold auth_required. destruct (rq_NodeAuthStrIsGood r); [apply Hh|by intros ?]. Qed.
#[local] Hint Resolve within_on_node within_on_server within_on_transit within_on_server_node
  within_has_response within_set_response within_auth_required : frame.

Lemma within_respond {A} `{Gob A} (a : A) : within request_keeps (respond a).
Proof. unfold respond. frame. Qed.
Lemma within_parse {A} `{Gob A} : within request_keeps (parseRequestData (A := A)).
Proof. unfold parseRequestData. frame. Qed.
Lemma within_post message : within request_keeps (post message).
Proof. unfold post. frame. Qed.
Lemma within_signal tx : within request_keeps (signal tx).
Proof. unfold signal. frame. Qed.
Lemma within_check_known addr : within request_keeps (check_known addr).
Proof. unfold check_known. frame. Qed.
#[local] Hint Resolve within_respond within_parse within_post within_signal within_check_known : frame.

(** A read of the database, and a change of the pool. *)
Lemma within_read {A} (op : st DB A) : within same_bc op → within request_keeps (on_node (on_db op)).
Proof. intros Ho. by apply within_on_node, within_on_db, within_same. Qed.
Lemma within_write {A} (op : st DB A) :
  within (bc_only [unapprovedTransactionsBucket]) op →
  within request_keeps (on_node (on_db (_ ← get_DB; op))).
Proof.
  intros Ho. apply within_on_node, within_on_db, within_bind; [typeclasses eauto|frame|].
  intros _. by apply within_pool.
Qed.
#[local] Hint Resolve within_read within_write within_ReceivedNewTransaction
  within_ReceivedNewTransactionData : frame.

Lemma within_handleGetUnspent : within request_keeps handleGetUnspent.
Proof.
  unfold handleGetUnspent, nbc_GetTopBlockHash. frame.
  apply within_read. frame.
Qed.
Lemma within_GetAddressHistory fuel address : within same_bc (nbc_GetAddressHistory fuel address).
Proof. unfold nbc_GetAddressHistory. frame. Qed.
#[local] Hint Resolve within_GetAddressHistory : frame.
Lemma within_handleGetHistory fuel : within request_keeps (handleGetHistory fuel).
Proof. unfold handleGetHistory. frame. Qed.
Lemma within_handleGetBalance : within request_keeps handleGetBalance.
Proof. unfold handleGetBalance. frame. Qed.
Lemma within_handleTxFull : within request_keeps handleTxFull.
Proof. unfold handleTxFull. frame. Qed.
Lemma within_handleTxData : within request_keeps handleTxData.
Proof. unfold handleTxData. frame. Qed.
Lemma within_handleTxRequest now : within request_keeps (handleTxRequest now).
Proof. unfold handleTxRequest. frame. Qed.
Lemma within_handleGetFirstBlocks fuel : within request_keeps (handleGetFirstBlocks fuel).
Proof. unfold handleGetFirstBlocks. frame. Qed.
Lemma within_handleAddr : within request_keeps handleAddr.
Proof. unfold handleAddr. frame. Qed.
Lemma within_next_announced fuel from : within request_keeps (next_announced fuel from).
Proof. induction fuel as [|fuel IH]; simpl; frame. Qed.
#[local] Hint Resolve within_next_announced : frame.
Lemma within_ask_for_tx fuel from txID : within request_keeps (ask_for_tx fuel from txID).
Proof.
  intros r. unfold ask_for_tx.
  pose proof (within_read _ (within_asking (tm_GetIfExists fuel txID)) r) as Hr.
  destruct (on_node _ r) as [[[tx|]|e|p|] r']; try done. etrans; [exact Hr|apply within_post].
Qed.
#[local] Hint Resolve within_ask_for_tx : frame.
Lemma within_handleInv fuel : within request_keeps (handleInv fuel).
Proof. unfold handleInv. frame. Qed.
Lemma within_handleGetBlocks fuel : within request_keeps (handleGetBlocks fuel).
Proof. unfold handleGetBlocks. frame. Qed.
Lemma within_GetBlocksAfter fuel hash : within same_bc (nbc_GetBlocksAfter fuel hash).
Proof. unfold nbc_GetBlocksAfter, nbc_CheckBlockExists. frame. Qed.
#[local] Hint Resolve within_GetBlocksAfter : frame.
Lemma within_handleGetBlocksUpper fuel : within request_keeps (handleGetBlocksUpper fuel).
Proof. unfold handleGetBlocksUpper. frame. Qed.
Lemma within_handleGetData : within request_keeps handleGetData.
Proof. unfold handleGetData, return_block, return_tx, nbc_GetBlock. frame. Qed.
Lemma within_handleTx fuel : within request_keeps (handleTx fuel).
Proof. unfold handleTx. frame. Qed.
Lemma within_handleVersion : within request_keeps handleVersion.
Proof. unfold handleVersion. frame. Qed.
Lemma within_handleGetNodes : within request_keeps handleGetNodes.
Proof. unfold handleGetNodes. frame. Qed.
Lemma within_handleAddNode : within request_keeps handleAddNode.
Proof. unfold handleAddNode. apply within_auth_required. frame. Qed.
Lemma within_handleRemoveNode : within request_keeps handleRemoveNode.
Proof. unfold handleRemoveNode. apply within_auth_required. frame. Qed.
Lemma within_handleGetState : within request_keeps handleGetState.
Proof.
  unfold handleGetState. apply within_auth_required. unfold GetNodeState, nbc_GetBestHeight. frame.
  apply within_read. frame.
Qed.
#[local] Hint Resolve within_handleGetUnspent within_handleGetHistory within_handleGetBalance
  within_handleTxFull within_handleTxData within_handleTxRequest within_handleGetFirstBlocks
  within_handleAddr within_handleInv within_handleGetBlocks within_handleGetBlocksUpper
  within_handleGetData within_handleTx within_handleVersion within_handleGetNodes
  within_handleAddNode within_handleRemoveNode within_handleGetState : frame.

(** *** Blocks that arrive *)

Definition node_same (m m' : Node) : Prop := same_bc (nd_DB m) (nd_DB m').
Lemma within_on_db_same {A} (op : st DB A) : within same_bc op → within node_same (on_db op).
Proof. intros Ho m. specialize (Ho (nd_DB m)). unfold on_db. by destruct (op (nd_DB m)). Qed.

Lemma nd_AddBlock_keeps fuel block m :
  well_formed n block → enough fuel (nd_DB m) → node_keeps m (nd_AddBlock fuel block m).2.
Proof.
  intros Hw He. pose proof (db_AddBlock_keeps n fuel block (nd_DB m) Hw He) as Hk.
  unfold nd_AddBlock, on_db, node_keeps. by destruct (db_AddBlock fuel block (nd_DB m)).
Qed.

Lemma ReceivedFullBlock_keeps fuel data m :
  (∀ block, DeserializeBlock data = Ret block → well_formed n block) → enough fuel (nd_DB m) →
  node_keeps m (ReceivedFullBlockFromOtherNode fuel data m).2.
Proof.
  intros Hw He. unfold ReceivedFullBlockFromOtherNode. unfold mbind at 1, st_bind at 1, lift.
  destruct (DeserializeBlock data) as [block|e|p|]; try (by intros ?).
  assert (∀ m', node_same m m' → node_keeps m m') as Hsame by (intros m'; apply same_bc_keeps).
  eapply (bind_from node_same); [apply within_on_db_same, within_CheckBlockState|done|].
  intros state m' Hm. transitivity m'; [by apply Hsame|].
  apply bind_at; [typeclasses eauto| |intros; apply within_mret; typeclasses eauto].
  destruct (state =? BCBState_canAdd)%Z; [|reflexivity].
  apply nd_AddBlock_keeps; [by apply Hw|by eapply enough_same].
Qed.

Lemma handleBlock_keeps fuel r :
  enough fuel (nd_DB (rq_Node r)) → brings_well_formed n (str "block") (rq_Request r) →
  request_keeps r (handleBlock fuel r).2.
Proof.
  intros He Hw. unfold handleBlock. unfold mbind at 1, st_bind at 1.
  destruct (parseRequestData r) as [[payload|e|p|] r'] eqn:Ep;
    pose proof (within_parse (A := ComBlock) r) as Hp; rewrite Ep in Hp; simpl in Hp; try exact Hp.
  assert (r' = r ∧ gob_Decode (rq_Request r) = Ret payload) as [-> Hd].
  { unfold parseRequestData, wrap_err, ask in Ep. destruct (gob_Decode (rq_Request r)); by simplify_eq. }
  apply bind_at; [typeclasses eauto| |intros [[state addstate] block]; frame].
  pose proof (ReceivedFullBlock_keeps fuel (cb_Block payload) (rq_Node r)) as Hk.
  unfold on_node, request_keeps. destruct (ReceivedFullBlockFromOtherNode fuel (cb_Block payload) (rq_Node r)).
  apply Hk; [|done]. intros b Hb. by eapply Hw.
Qed.

Lemma dispatch_keeps fuel now command r :
  enough fuel (nd_DB (rq_Node r)) → brings_well_formed n command (rq_Request r) →
  request_keeps r (dispatch fuel now command r).2.
Proof.
  intros He Hw. unfold dispatch.
  assert (∀ h : st NodeServerRequest unit, within request_keeps h → request_keeps r (h r).2) as Hh by (intros h; auto).
  case_bool_decide; [apply Hh; frame|]. case_bool_decide; [reflexivity|].
  case_bool_decide as E; [subst command; by apply handleBlock_keeps|].
  apply Hh. repeat (case_bool_decide; [frame|]). frame.
Qed.

(** *** The server *)

Lemma CloneNode_same s : same_bc (nd_DB (sv_Node s)) (nd_DB (CloneNode s).2).
Proof.
  unfold CloneNode. set (node := with_files _ _).
  assert (node_same node ((_ ← nd_Init; _ ← effect (λ n, (Ret tt, mkNode (nd_DB n) (nd_Net n)
    (SetNodeAddress (sv_NodeAddress s) (nd_Client n)) (nd_MinterAddress n) (nd_Sent n)));
    drop_err (InitNodes (Err (EMsg "")) (nn_Nodes (nd_Net (sv_Node s))) true)) node).2) as Hn; [|exact Hn].
  assert (PreOrder node_same) as Hpre.
  { unfold node_same. split; [intros m; reflexivity|]. intros m1 m2 m3 H12 H23. by etrans. }
  assert (∀ A (op : st (net_state (S := DB)) A), within net_keeps op → within node_same (on_net op)) as Hnet.
  { intros A op Ho m. specialize (Ho (nd_Net m, nd_DB m)). unfold on_net.
    by destruct (op (nd_Net m, nd_DB m)) as [? [? ?]]. }
  generalize node. apply (within_bind node_same); [|intros _; apply (within_bind node_same); [by intros m|intros _]].
  - unfold nd_Init. apply (within_bind node_same); [by apply Hnet, within_SetExtraManager|].
    intros _. apply Hnet, within_SetNodes.
  - apply within_drop_err. unfold InitNodes.
    apply (within_bind node_same); [by apply within_on_db_same, within_OpenConnectionIfNeeded|].
    intros opened m. pose proof (Hnet _ _ (within_SetNodes (nn_Nodes (nd_Net (sv_Node s))) true) m) as Hm.
    unfold effect. replace (bool_decide _ && negb true) with false by by rewrite andb_false_r.
    destruct (on_net _ m) as [r m']. by destruct opened.
Qed.

Lemma handle_command_keeps fuel now command request authstring ip s :
  enough fuel (nd_DB (sv_Node s)) → brings_well_formed n command request →
  keeps_chain n (nd_DB (sv_Node s)) (nd_DB (sv_Node (handle_command fuel now command request authstring ip s).2)).
Proof.
  intros He Hw. unfold handle_command. pose proof (CloneNode_same s) as Hs.
  destruct (CloneNode s) as [rc node]. simpl in Hs.
  assert (∀ m', keeps_chain n (nd_DB node) (nd_DB m') →
    ∀ sv, keeps_chain n (nd_DB (sv_Node s)) (nd_DB (with_files m' sv))) as Hk.
  { intros m' Hm sv. eapply keeps_files; [| |exact Hm]; [exact Hs|done]. }
  destruct rc as [u|e|p|]; [| |by apply Hk|by apply Hk].
  all: set (r0 := mkRequest _ _ _ _ _ _ _);
    pose proof (dispatch_keeps fuel now command r0) as Hd;
    destruct (dispatch fuel now command r0) as [rerr r];
    apply Hk; apply Hd; [|done]; by eapply enough_same.
Qed.

Lemma handleConnection_keeps fuel now c ip s :
  enough fuel (nd_DB (sv_Node s)) →
  (∀ command request authstring c', readRequest fuel c = Ret (command, request, authstring, c') →
     brings_well_formed n command request) →
  keeps_chain n (nd_DB (sv_Node s)) (nd_DB (sv_Node (handleConnection fuel now c ip s).2)).
Proof.
  intros He Hw. unfold handleConnection.
  destruct (readRequest fuel c) as [[[[command request] auth] c']|e|p|]; try reflexivity.
  apply handle_command_keeps; [done|]. by eapply Hw.
Qed.

(** *** The block builder *)

Definition maker_keeps (m m' : NodeBlockMaker) : Prop :=
  bc_only [unapprovedTransactionsBucket] (nb_DB m) (nb_DB m').
#[local] Instance maker_keeps_preorder : PreOrder maker_keeps.
Proof. unfold maker_keeps. split; [intros m; reflexivity|]. intros m1 m2 m3 H12 H23. by etrans. Qed.

Lemma within_on_DB {A} (op : st DB A) :
  within (bc_only [unapprovedTransactionsBucket]) op → within maker_keeps (on_DB op).
Proof. intros Ho m. specialize (Ho (nb_DB m)). unfold on_DB. by destruct (op (nb_DB m)). Qed.
Lemma within_set_prepared b : within maker_keeps (effect (λ m, (Ret tt, SetPreparedBlock b m))).
Proof. intros m. unfold maker_keeps. simpl. reflexivity. Qed.

Lemma within_PrepareNewBlock fuel now randData : within maker_keeps (nb_PrepareNewBlock fuel now randData).
Proof.
  intros m. unfold nb_PrepareNewBlock. destruct (IsBlockPrepared m); [reflexivity|].
  destruct (negb _); [reflexivity|]. revert m. fold (within maker_keeps (A := Z)).
  match goal with |- ∀ m, maker_keeps m (?op m).2 => change (within maker_keeps op) end.
  unfold doPrepareNewBlock.
  pose proof (within_set_prepared) as Hs. pose proof (@within_on_DB) as Hd.
  assert (unapprovedTransactionsBucket ∈ [unapprovedTransactionsBucket]) as Hu by left.
  pose proof (λ f c, within_choose _ f c Hu) as Hc. frame.
Qed.

Lemma making_keeps fuel now randData : within node_keeps (making fuel now randData).
Proof.
  intros m. unfold making.
  pose proof (within_PrepareNewBlock fuel now randData
    (NewConsensusManager (nd_MinterAddress m) (OpenConnection (nd_DB m)))) as Hp.
  destruct (nb_PrepareNewBlock _ _ _ _) as [r Minter]. unfold maker_keeps in Hp. simpl in Hp.
  unfold node_keeps. simpl. eapply (keeps_files (OpenConnection (nd_DB m))); [done|done|].
  apply tx_only_keeps. eapply bc_only_weaken; [|exact Hp]. unfold tx_buckets. set_solver.
Qed.
#[local] Hint Resolve making_keeps : frame.

Lemma begin_block_keeps fuel now randData : within node_keeps (begin_block fuel now randData).
Proof. unfold begin_block. frame. Qed.

Lemma within_send_pending txID : within node_keeps (send_pending txID).
Proof.
  intros m. unfold send_pending.
  pose proof (within_on_db _ (within_same _ (within_asking (GetIfUnapprovedExists txID))) m) as Hm.
  destruct (on_db _ m) as [[[tx|]|e|p|] m']; try exact Hm. etrans; [exact Hm|apply within_SendTransactionToAll].
Qed.
#[local] Hint Resolve within_send_pending : frame.

Lemma end_block_keeps fuel txID prepres Minter m :
  enough fuel (nd_DB m) → (∀ block, (CompleteBlock fuel Minter).1 = Ret block → well_formed n block) →
  node_keeps m (end_block fuel txID prepres Minter m).2.
Proof.
  intros He Hw. unfold end_block.
  assert (node_keeps m (finish_block fuel txID prepres Minter m).2) as Hf.
  { unfold finish_block. destruct (negb (prepres =? BlockPrepare_Done)%Z).
    { apply within_bind; [typeclasses eauto|frame|frame]. }
    unfold mbind at 1, st_bind at 1, lift. destruct (CompleteBlock fuel Minter).1 as [block|e|p|] eqn:Ec;
      try (by intros ?).
    eapply (bind_from node_same); [apply within_on_db_same, within_get_DB|intros m'; apply same_bc_keeps|].
    intros _ m' Hm. transitivity m'; [by apply same_bc_keeps|].
    apply bind_at; [typeclasses eauto| |intros _; frame].
    apply nd_AddBlock_keeps; [by apply Hw|by eapply enough_same]. }
  destruct (finish_block fuel txID prepres Minter m) as [r m']. revert Hf. by apply keeps_files.
Qed.

Lemma builder_begins_keeps fuel now randData s :
  keeps_chain n (nd_DB (sv_Node s)) (sys_DB (builder_begins fuel now randData s)).
Proof.
  unfold builder_begins. destruct (sv_BlockBilderChan s) as [|txID signals]; [by intros ?|].
  destruct (Z.of_nat (length txID) =? 0)%Z; [by intros ?|]. cbv zeta.
  pose proof (CloneNode_same (set_Chan signals s)) as Hs. destruct (CloneNode _) as [rc node].
  pose proof (begin_block_keeps fuel now randData node) as Hb. destruct (begin_block _ _ _ _) as [r node'].
  revert Hb. by apply keeps_files.
Qed.

Lemma builder_ends_keeps fuel b s :
  enough fuel (nd_DB (sv_Node s)) →
  (∀ block, (CompleteBlock fuel (bld_Minter b)).1 = Ret block → well_formed n block) →
  keeps_chain n (nd_DB (sv_Node s)) (sys_DB (builder_ends fuel b s)).
Proof.
  intros He Hw. unfold builder_ends.
  pose proof (end_block_keeps fuel (bld_txID b) (bld_prepres b) (bld_Minter b)
    (with_files (sv_Node s) (bld_Node b))) as Hk.
  destruct (end_block _ _ _ _ _) as [r node]. revert Hk. intros Hk.
  eapply keeps_files; [| |apply Hk; [|exact Hw]]; [done|done|]. by eapply enough_same.
Qed.

(** C2: as long as the blocks that arrive and those that are made are well formed
    ([well_formed]; no check of the code sees to that) and the loops have rounds
    enough, a server keeps the invariant of the chain in its blockchain file,
    whatever other requests it handles, in whatever order with the two halves of
    the making of blocks, and whatever comes of each, refused, failed or panicked:
    one path of stored blocks from the first block to the top, the chain bucket
    lists it, and every stored block is on a path from the first block. *)
Theorem system_keeps_chain s s' :
  rtc (sys_step n) s s' → chain_ok n (sys_DB s) → chain_ok n (sys_DB s').
Proof.
  induction 1 as [s|s1 s2 s3 Hstep _ IH]; [done|]. intros Hc. apply IH. revert Hc. clear IH.
  destruct Hstep as [fuel now c ip s b He Hw|fuel now randData s|fuel b s He Hw].
  - by apply handleConnection_keeps.
  - apply builder_begins_keeps.
  - by apply builder_ends_keeps.
Qed.
End Frames.
