(* ===== verification/ServerReplies.v ===== *)
(** * What the server answers and asks for

    What a client reads from the answer of a handler, who may manage the node,
    and what the announcements of blocks lead to. *)

From Stdlib Require Import Strings.Byte ZifyNat.
From stdpp Require Import base strings numbers gmap sorting list.
From S2P Require Import Prelude Float64 Platform Concrete Utils Merkle Structures Codecs Signing.
From S2P Require Import Database ChainIndex Tables Blockchain Branches BlockchainLookup.
From S2P Require Import BlockchainUpdate TxIndex Pending Unspent TxManager Consensus Mining.
From S2P Require Import Net Wire Transit NodeClient Node Frames NodeChain Server.

(** The first announced block that is not known, whether the block before it
    is, and the number of announcements after it. *)
Fixpoint first_unknown (known : bytes → bool) (bss : list BlockShort) : option (BlockShort * bool * nat) :=
  match bss with
  | [] => None
  | bs :: bss' => if known (bs_Hash bs) then first_unknown known bss'
                  else Some (bs, known (bs_PrevBlockHash bs), length bss')
  end.

Lemma first_unknown_later known bss b p later :
  first_unknown known bss = Some (b, p, later) → later < length bss.
Proof.
  induction bss as [|x bss IH]; simpl; [done|]. destruct (known (bs_Hash x)); [intros ?%IH; lia|].
  intros [= _ _ <-]. lia.
Qed.

Section Replies.
Context `{Crypto} `{BoltLaws} `{GoSort} `{GoRange} `{!Gob Transaction} `{!Gob Block} `{!GobLaws Block}.
Context `{!Gob BlockShort} `{!Gob (list TXOutputIndependent)}.
Context `{!Gob (list bytes)} `{!Gob (list TransactionsIndexSpentOutputs)}.
Context `{Network} `{ComGob}.

(** ** Answers *)

Section Laws.
Context `{!GobLaws go_string}.

Lemma written_back_Err {A} (decode : bytes → outcome A) e (r : NodeServerRequest) :
  rq_HasResponse r = true →
  ∃ w, written_back (Err e) r = Ret (Some w) ∧
       read_response decode w = Err (EFmt "%s" [ABytes (Error e)]).
Proof.
  intros Hr. unfold written_back, sendErrorBack. rewrite Hr.
  destruct (gob_total (mkString (Error e))) as [b Eb]. rewrite Eb. simpl.
  exists (x00 :: b). split; [done|]. unfold read_response.
  destruct (gob_roundtrip _ _ Eb) as [_ Hd]. simpl. by rewrite Hd.
Qed.

Lemma written_back_respond {A} `{GobLaws A} (a : A) (r : NodeServerRequest) :
  rq_HasResponse r = true →
  ∃ r' w, respond a r = (Ret tt, r') ∧ written_back (Ret tt) r' = Ret (Some w) ∧
          read_response gob_Decode w = Ret a.
Proof.
  intros Hr. destruct (gob_total a) as [b Eb]. destruct (gob_roundtrip _ _ Eb) as [_ Hd].
  unfold respond, mbind, st_bind, lift. rewrite Eb. do 2 eexists. split; [reflexivity|].
  unfold written_back. simpl. rewrite Hr. by split.
Qed.

(** A query: a handler that decodes its request, reads the database and
    answers. *)
Definition query {P A B} `{Gob P} `{Gob B} (g : P → DB → outcome A) (mk : A → B)
    : st NodeServerRequest unit :=
  _ ← has_response;
  payload ← parseRequestData (A := P);
  a ← on_node (on_db (asking (g payload)));
  respond (mk a).

Lemma query_reply {P A B} `{Gob P} `{GobLaws B} (g : P → DB → outcome A) (mk : A → B) p (r : NodeServerRequest) :
  gob_Decode (rq_Request r) = Ret p →
  let '(rerr, r') := query g mk r in
  match g p (OpenConnection (nd_DB (rq_Node r))) with
  | Ret a => ∃ w, written_back rerr r' = Ret (Some w) ∧ read_response gob_Decode w = Ret (mk a)
  | Err e => ∃ w, written_back rerr r' = Ret (Some w) ∧
                  read_response (gob_Decode (A := B)) w = Err (EFmt "%s" [ABytes (Error e)])
  | Panic q => written_back rerr r' = Panic q
  | OutOfFuel => written_back rerr r' = OutOfFuel
  end.
Proof.
  intros Hp. unfold query. unfold mbind at 1, st_bind at 1, has_response.
  unfold mbind at 1, st_bind at 1, parseRequestData, wrap_err, ask.
  cbn [rq_Request]. rewrite Hp. unfold mbind at 1, st_bind at 1, on_node, on_db. cbn [rq_Node].
  rewrite asking_run. destruct (g p (OpenConnection (nd_DB (rq_Node r)))) as [a|e|q|] eqn:Eg; [| |done..].
  - match goal with |- context [respond (mk a) ?r0] => destruct (written_back_respond (mk a) r0) as (r' & w & -> & Hw) end; [done|].
    by exists w.
  - by apply written_back_Err.
Qed.

(** a client that asks a node for a balance gets the balance that the node's
    database gives, and the error of the node where that fails: whatever the
    segments in which the request arrives, the answer that is written back is
    read as the result of the balance manager. *)
Theorem balance_request `{!GobLaws ComGetWalletBalance} `{!GobLaws ComWalletBalance} address (s : NodeServer) c rest fuel now ip payload request :
  gob_Encode (mkComGetWalletBalance address) = Ret payload →
  (Z.of_nat (length payload) < 2 ^ 32)%Z →
  BuildCommandData (str "getbalance") (Some (gob_Encode (mkComGetWalletBalance address))) = Ret request →
  delivered c = request ++ rest → unbroken c → pauses_of c ≤ 31 → length c < fuel →
  (CloneNode s).1 = Ret tt →
  let answer := (handleConnection fuel now c ip s).1 in
  match tm_GetAddressBalance address (OpenConnection (nd_DB (CloneNode s).2)) with
  | Ret b => ∃ w, answer = Ret (Some w) ∧
      read_response gob_Decode w = Ret (mkComWalletBalance (wb_Total b) (wb_Approved b) (wb_Pending b))
  | Err e => ∃ w, answer = Ret (Some w) ∧
      read_response (gob_Decode (A := ComWalletBalance)) w = Err (EFmt "%s" [ABytes (Error e)])
  | Panic q => answer = Panic q
  | OutOfFuel => answer = OutOfFuel
  end.
Proof.
  intros Henc Hlen Hbuild Hd Hu Hp Hf Hclone answer. subst answer.
  destruct (gob_roundtrip _ _ Henc) as [_ Hdec].
  assert (readRequest_of : ∃ c', readRequest fuel c = Ret (str "getbalance", payload, [], c')).
  { destruct (readRequest_built (str "getbalance") payload [] c rest fuel) as (req & Er & Hr);
      [by apply (bool_decide_unpack _); vm_compute|by apply (bool_decide_unpack _); vm_compute
      |vm_compute; lia|done|done|done|done|done|].
    unfold BuildCommandData in Hbuild. rewrite Henc, Er in Hbuild. injection Hbuild as ->.
    destruct (Hr Hd) as (c' & E & _). by exists c'. }
  destruct readRequest_of as (c' & Ec). unfold handleConnection. rewrite Ec. unfold handle_command.
  destruct (CloneNode s) as [rc node]. simpl in Hclone. subst rc. cbn [snd].
  set (r := mkRequest _ _ _ _ _ _ _).
  change (dispatch fuel now (str "getbalance")) with (query
    (λ p : ComGetWalletBalance, tm_GetAddressBalance (cgw_Address p))
    (λ b, mkComWalletBalance (wb_Total b) (wb_Approved b) (wb_Pending b))).
  pose proof (query_reply (λ p : ComGetWalletBalance, tm_GetAddressBalance (cgw_Address p))
    (λ b, mkComWalletBalance (wb_Total b) (wb_Approved b) (wb_Pending b)) _ r Hdec) as Hq.
  destruct (query _ _ r) as [rerr r']. simpl in Hq.
  change (OpenConnection (OpenConnection (nd_DB node))) with (OpenConnection (nd_DB node)) in Hq.
  exact Hq.
Qed.
End Laws.

(** ** Management *)

Definition managing : list bytes := [str "addnode"; str "removenode"; str "getstate"].

(** C10: a request that manages the node is refused without the node's own
    authentication text: the server is left as by the empty command, and nothing
    is written back, not even the error. *)
Theorem management_needs_auth fuel now command request authstring ip (s : NodeServer) :
  command ∈ managing → sv_NodeAuthStr s ≠ authstring ∨ authstring = [] →
  handle_command fuel now command request authstring ip s
  = handle_command fuel now (str "viod") request authstring ip s ∧
  ∀ w, (handle_command fuel now (str "viod") request authstring ip s).1 ≠ Ret (Some w).
Proof.
  intros Hc Ha. unfold handle_command.
  assert (bool_decide (sv_NodeAuthStr s = authstring) && (0 <? Z.of_nat (length authstring))%Z = false) as ->.
  { destruct Ha as [Ha| ->]; [by rewrite bool_decide_eq_false_2|by rewrite andb_false_r]. }
  split; [|by destruct (CloneNode s) as [[u|e|p|] node]].
  unfold managing in Hc. repeat (apply elem_of_cons in Hc as [->|Hc]; [reflexivity|]).
  by apply elem_of_nil in Hc.
Qed.

(** ** Announcements *)

(** The request with other queues. *)
Definition with_transit (t : nodeTransit) (r : NodeServerRequest) : NodeServerRequest :=
  mkRequest (rq_Node r) (set_Transit t (rq_S r)) (rq_Request r) (rq_RequestIP r) (rq_HasResponse r)
    (rq_Response r) (rq_NodeAuthStrIsGood r).
Definition transit_of (r : NodeServerRequest) : nodeTransit := sv_Transit (rq_S r).

Lemma with_transit_twice t t' r : with_transit t (with_transit t' r) = with_transit t r.
Proof. done. Qed.
Lemma with_transit_same r : with_transit (transit_of r) r = r.
Proof. by destruct r as [? [] ]. Qed.

Lemma on_transit_run {A} (op : st nodeTransit A) r :
  on_transit op r = ((op (transit_of r)).1, with_transit (op (transit_of r)).2 r).
Proof. unfold on_transit, on_server. fold (transit_of r). by destruct (op (transit_of r)). Qed.

(** What is known to the database. *)
Definition known_block (f : boltfile) (h : bytes) : bool := bool_decide (is_Some (bget f blocksBucket h)).
Definition plain_hash (h : bytes) : Prop := h ≠ key_l ∧ h ≠ key_f.

Lemma CheckBlockState_run n f db top bs hash prev :
  opened f db → chain_state n f top bs → plain_hash hash → plain_hash prev →
  nbc_CheckBlockState hash prev db
  = (Ret (if known_block f hash then BCBState_exists
          else if known_block f prev then BCBState_canAdd else BCBState_notExistAndPrevNotExist), db).
Proof.
  intros Ho Hs [H1' H2'] [H3' H4']. unfold nbc_CheckBlockState. unfold mbind at 1, st_bind at 1.
  rewrite (CheckBlockExists_run n f db top bs) by done. fold (known_block f hash).
  destruct (known_block f hash); [done|]. unfold mbind, st_bind.
  rewrite (CheckBlockExists_run n f db top bs) by done. fold (known_block f prev).
  by destruct (known_block f prev).
Qed.

(** What one announcement leads to. *)
Lemma announcement_run n f db top bs from d b r :
  opened f db → chain_state n f top bs → nd_DB (rq_Node r) = db → gob_Decode d = Ret b →
  plain_hash (bs_Hash b) → plain_hash (bs_PrevBlockHash b) →
  on_node (ReceivedBlockFromOtherNode from d) r
  = if known_block f (bs_Hash b) then (Ret BCBState_exists, r)
    else if known_block f (bs_PrevBlockHash b) then
      (_ ← post (λ c, SendGetData c from (str "block") (bs_Hash b)); mret BCBState_canAdd) r
    else (Ret BCBState_notExistAndPrevNotExist, r).
Proof.
  intros Ho Hs Hdb Hd Hh Hp. unfold on_node, ReceivedBlockFromOtherNode.
  unfold mbind at 1, st_bind at 1, lift, bs_DeserializeBlock. rewrite Hd.
  unfold mbind at 1, st_bind at 1, on_db. rewrite Hdb.
  rewrite (CheckBlockState_run n f db top bs) by done.
  assert (set_DB db (rq_Node r) = rq_Node r) as -> by (rewrite <- Hdb; by destruct (rq_Node r)).
  destruct (known_block f (bs_Hash b)); [by destruct r|].
  destruct (known_block f (bs_PrevBlockHash b)); [|by destruct r].
  simpl. unfold mbind, st_bind, post, drop_err, on_node.
  by destruct (sending _ (rq_Node r)) as [[u|e|p|] m].
Qed.

(** A message is sent or the handler panics; the queues stay. *)
Lemma post_then {A} (message : NodeClient → st outbox unit) (k : unit → st NodeServerRequest A) a r :
  (∀ r', transit_of r' = transit_of r → k tt r' = (Ret a, r')) →
  (post message ≫= k) r
  = match post message r with
    | (Ret _, r') => (Ret a, r')
    | (Err e, r') => (Err e, r')
    | (Panic p, r') => (Panic p, r')
    | (OutOfFuel, r') => (OutOfFuel, r')
    end.
Proof.
  intros Hk. unfold mbind, st_bind. destruct (post message r) as [[[]|e|p|] r'] eqn:Ep; try done.
  apply Hk. revert Ep. unfold post, drop_err, on_node.
  destruct (sending message (rq_Node r)) as [[u|e|p|] m]; intros [= <-]; done.
Qed.

Lemma post_unit message r :
  match post message r with
  | (Ret _, r') => (Ret tt, r')
  | (Err e, r') => (Err e, r')
  | (Panic p, r') => (Panic p, r')
  | (OutOfFuel, r') => (OutOfFuel, r')
  end = post message r.
Proof. by destruct (post message r) as [[[]|e|p|] r']. Qed.

(** A round of the loop. *)
Lemma next_announced_round n f db top bs from d b t1 fuel r :
  opened f db → chain_state n f top bs → nd_DB (rq_Node r) = db →
  ShiftNextBlock from (transit_of r) = (Ret d, t1) → gob_Decode d = Ret b →
  plain_hash (bs_Hash b) → plain_hash (bs_PrevBlockHash b) →
  next_announced (S fuel) from r
  = if known_block f (bs_Hash b) then
      if (Z.of_nat (length (queue from t1)) =? 0)%Z then (Ret tt, with_transit t1 r)
      else next_announced fuel from (with_transit t1 r)
    else if known_block f (bs_PrevBlockHash b) then
      post (λ c, SendGetData c from (str "block") (bs_Hash b)) (with_transit t1 r)
    else post (λ c, SendGetBlocks c from (bs_PrevBlockHash b)) (with_transit (CleanBlocks from t1) r).
Proof.
  intros Ho Hs Hdb E1 Hd Hh Hp. cbn [next_announced]. unfold mbind at 1, st_bind at 1.
  rewrite on_transit_run, E1. cbn [fst snd]. unfold mbind at 1, st_bind at 1.
  rewrite (announcement_run n f db top bs from d b (with_transit t1 r)) by done.
  destruct (known_block f (bs_Hash b)).
  { simpl. unfold mbind at 1, st_bind at 1. simpl. unfold mbind at 1, st_bind at 1.
    rewrite on_transit_run. cbn [fst snd]. change (transit_of (with_transit t1 r)) with t1.
    rewrite with_transit_twice, GetBlocksCount_queue. by destruct (_ =? 0)%Z. }
  destruct (known_block f (bs_PrevBlockHash b)).
  { unfold mbind at 1, st_bind at 1.
    by destruct (post _ (with_transit t1 r)) as [[[]|e|p|] r'] eqn:Ep. }
  set (t2 := CleanBlocks from t1). destruct (CleanBlocks_queue from t1) as [Q2 O2].
  assert ((_ ← on_transit (λ t, (Ret tt, CleanBlocks from t)); bs ← lift (bs_DeserializeBlock d);
           post (λ c, SendGetBlocks c from (bs_PrevBlockHash bs))) (with_transit t1 r)
          = post (λ c, SendGetBlocks c from (bs_PrevBlockHash b)) (with_transit t2 r)) as Ep.
  { unfold mbind at 1, st_bind at 1. rewrite on_transit_run. cbn [fst snd].
    unfold mbind, st_bind, lift, bs_DeserializeBlock. by rewrite Hd. }
  simpl. unfold mbind at 1, st_bind at 1. rewrite Ep.
  rewrite <- (post_unit _ (with_transit t2 r)) at 2.
  rewrite <- (post_then _ (λ _, left ← on_transit (λ t, (Ret (GetBlocksCount from t), t));
    if (left =? 0)%Z then mret tt else next_announced fuel from) tt); [done|].
  intros r' Hr'. unfold mbind, st_bind. rewrite on_transit_run. cbn [fst snd].
  rewrite with_transit_same, Hr'. change (transit_of (with_transit t2 r)) with t2.
  unfold t2. by rewrite GetBlocksCount_queue, Q2.
Qed.

(** C9: the loop over the announcements of a node asks for the first block that is
    not known: for the block itself when the block before it is known, and the
    announcements after it wait; for the blocks below it when not, and the
    announcements are dropped.  When all are known nothing is sent.  A round for
    each announcement is enough, and no other queue changes. *)
Theorem next_announced_spec n f db top bs from ds bss fuel r :
  opened f db → chain_state n f top bs → nd_DB (rq_Node r) = db →
  queue from (transit_of r) = ds → ds ≠ [] → Forall2 (λ d b, gob_Decode d = Ret b) ds bss →
  Forall (λ b, plain_hash (bs_Hash b) ∧ plain_hash (bs_PrevBlockHash b)) bss → length ds ≤ fuel →
  ∃ t', (∀ c, other from c → queue c t' = queue c (transit_of r)) ∧
    match first_unknown (known_block f) bss with
    | None => next_announced fuel from r = (Ret tt, with_transit t' r) ∧ queue from t' = []
    | Some (b, true, later) =>
        next_announced fuel from r
        = post (λ c, SendGetData c from (str "block") (bs_Hash b)) (with_transit t' r) ∧
        queue from t' = drop (length ds - later) ds
    | Some (b, false, _) =>
        next_announced fuel from r
        = post (λ c, SendGetBlocks c from (bs_PrevBlockHash b)) (with_transit t' r) ∧
        queue from t' = []
    end.
Proof.
  intros Ho Hs Hdb Hq Hne Hdec Hplain Hf. revert fuel r Hdb Hq Hne Hf.
  induction Hdec as [|d b ds bss Hd Hdec IH]; intros [|fuel] r Hdb Hq Hne Hf; simpl in Hf; try lia; [done..|].
  apply Forall_cons in Hplain as [[Hh Hp] Hplain]. clear Hne. pose proof (Forall2_length _ _ _ Hdec) as Hl.
  destruct (ShiftNextBlock_cons from (transit_of r) d ds Hq) as (t1 & E1 & Q1 & O1 & _).
  pose proof (next_announced_round n f db top bs from d b t1 fuel r Ho Hs Hdb E1 Hd Hh Hp) as En.
  rewrite Q1 in En. cbn [first_unknown]. destruct (known_block f (bs_Hash b)).
  - destruct (Z.eqb_spec (Z.of_nat (length ds)) 0) as [E|E].
    + destruct ds; [|done]. inversion Hdec; subst. exists t1. by rewrite En.
    + destruct (IH Hplain fuel (with_transit t1 r)) as (t' & Ot & Ht);
        [done|done|by intros ->|lia|]. exists t'. split; [intros c Hc; by rewrite Ot, <- O1|].
      rewrite En. destruct (first_unknown (known_block f) bss) as [[[b' []] later]|] eqn:Ef; [|done|done].
      destruct Ht as [-> ->]. split; [done|]. apply first_unknown_later in Ef.
      cbn [length]. rewrite Nat.sub_succ_l by lia. done.
  - destruct (known_block f (bs_PrevBlockHash b)).
    + exists t1. split; [done|]. split; [done|].
      cbn [length]. replace (S (length ds) - length bss) with 1 by lia. done.
    + destruct (CleanBlocks_queue from t1) as [Q2 O2]. exists (CleanBlocks from t1).
      split; [intros c Hc; by rewrite O2, O1|]. by split.
Qed.

Lemma ShiftNextBlock_empty from t :
  queue from t = [] → (ShiftNextBlock from (AddBlocks from [] t)).1 = Panic PIndex.
Proof.
  unfold queue, ShiftNextBlock, AddBlocks. intros Hq.
  destruct (tr_Blocks t !! NodeAddrToString from) as [l|]; simpl in *; subst;
    by rewrite lookup_insert_eq.
Qed.

(** any peer can end the node: an inventory without items makes the handler
    index an empty list, for blocks when nothing else of the sender waits, for
    transactions always. *)
Theorem empty_inventory_panics fuel now request authstring ip from kind (s : NodeServer) :
  gob_Decode request = Ret (mkComInv from kind []) → (CloneNode s).1 = Ret tt →
  kind = str "block" ∧ queue from (sv_Transit s) = [] ∨ kind = str "tx" →
  (handle_command (S fuel) now (str "inv") request authstring ip s).1 = Panic PIndex.
Proof.
  intros Hd Hc Hk. unfold handle_command. destruct (CloneNode s) as [rc node]. simpl in Hc. subst rc.
  set (r := mkRequest _ _ _ _ _ _ _). change (dispatch (S fuel) now (str "inv")) with (handleInv (S fuel)).
  unfold handleInv. unfold mbind at 1, st_bind at 1, parseRequestData, wrap_err, ask.
  change (rq_Request r) with request. rewrite Hd. cbn [ci_AddrFrom ci_Type ci_Items].
  destruct Hk as [[-> Hq]| ->].
  - rewrite (bool_decide_eq_true_2 (str "block" = str "block")) by done. unfold mbind at 1, st_bind at 1.
    unfold mbind at 1, st_bind at 1. rewrite on_transit_run. cbn [fst snd next_announced].
    unfold mbind at 1, st_bind at 1. rewrite on_transit_run.
    change (transit_of (with_transit _ r)) with (AddBlocks from [] (sv_Transit s)).
    by rewrite ShiftNextBlock_empty.
  - rewrite (bool_decide_eq_false_2 (str "tx" = str "block")) by (vm_compute; discriminate). done.
Qed.
End Replies.
