(* ===== verification/ServerDemo.v ===== *)
(** * A server at work

    The theorems about the server at concrete inputs: a node with the chain of
    [MiningDemo], and the requests of a peer and of a wallet. *)

From Stdlib Require Import Strings.Byte ZifyNat.
From stdpp Require Import base strings numbers gmap sorting relations list.
From S2P Require Import Prelude Float64 Platform Concrete Utils Merkle Structures Codecs Signing.
From S2P Require Import Database ChainIndex Tables Blockchain Branches BlockchainLookup.
From S2P Require Import BlockchainUpdate TxIndex Pending Unspent TxManager Consensus Mining.
From S2P Require Import Net Wire Transit NodeClient ComCodecs Node Frames NodeChain Genesis Server.
From S2P Require Import ServerSafe ServerReplies.

Module ServerDemo.
Import ToyCrypto MapBolt InsertionSort MapRange Codecs Demo IndexDemo PendingDemo ManagerDemo MiningDemo.
Import ComCodecs NodeDemo.

Definition here : NodeAddr := mkNodeAddr (str "10.0.0.1") 20000.
Definition peer : NodeAddr := mkNodeAddr (str "10.0.0.2") 20000.

Definition demo_server : NodeServer :=
  mkNodeServer (mkNode mint_db (mkNodeNetwork [] true) (mkNodeClient here []) mint_address [])
    here transit_Init [] (str "secret").

Definition text_of {A} `{Gob A} (a : A) : bytes := match gob_Encode a with Ret d => d | _ => [] end.
Definition built (command : string) (payload : bytes) : bytes :=
  match BuildCommandData (str command) (Some (Ret payload)) with Ret b => b | _ => [] end.

(** A peer sends the next block, and the block is the top. *)
Definition block_payload : bytes := text_of (mkComBlock peer (text_of next_block)).
Definition block_conn : conn := [Data (built "block" block_payload)].
Definition after_block : NodeServer := (handleConnection 3 5 block_conn [] demo_server).2.

Lemma demo_chain_ok : chain_ok 32 (nd_DB (sv_Node demo_server)).
Proof. exists mint_file, hash_d, [blk_d]. split; [done|apply mint_state]. Qed.

Lemma system_keeps_chain_witness :
  chain_ok 32 (nd_DB (sv_Node after_block)) ∧
  match bcFile (nd_DB (sv_Node after_block)) with
  | Some f => bget f blocksBucket (str "l") = Some (demo_hash x03)
  | None => False
  end.
Proof.
  split; [|vm_compute; reflexivity].
  apply (system_keeps_chain 32 (mkSystem demo_server None) (mkSystem after_block None)).
  - apply rtc_once. apply (step_request 32 3 5 block_conn [] demo_server None).
    + apply mint_enough.
    + intros command request authstring c' Hr payload block -> Hp Hb.
      vm_compute in Hr. injection Hr as <- <- <-. vm_compute in Hp. injection Hp as <-.
      vm_compute in Hb. injection Hb as <-.
      apply small_well_formed; [by split|vm_compute; discriminate..|vm_compute; reflexivity].
  - apply demo_chain_ok.
Defined.

(** A wallet asks for a balance. *)
Definition demo_address : bytes := PubKeyToAddres demo_pub.
Definition balance_payload : bytes := text_of (mkComGetWalletBalance demo_address).
Definition balance_conn : conn := [Data (built "getbalance" balance_payload)].

Lemma balance_request_witness :
  ∃ w, (handleConnection 3 5 balance_conn [] demo_server).1 = Ret (Some w) ∧
    ∃ b, read_response (gob_Decode (A := ComWalletBalance)) w = Ret b.
Proof.
  pose proof (balance_request demo_address demo_server balance_conn [] 3 5 [] balance_payload
    (built "getbalance" balance_payload)) as Hb.
  destruct (tm_GetAddressBalance demo_address (OpenConnection (nd_DB (CloneNode demo_server).2)))
    as [b|e|q|] eqn:E; [|vm_compute in E; discriminate E..].
  destruct Hb as (w & Hw & Hr).
  - reflexivity.
  - vm_compute. reflexivity.
  - reflexivity.
  - vm_compute. reflexivity.
  - by repeat constructor.
  - vm_compute. lia.
  - vm_compute. lia.
  - reflexivity.
  - exists w. split; [exact Hw|]. eexists. exact Hr.
Defined.

(** A peer without the text of the node asks for its state. *)
Lemma management_needs_auth_witness :
  handle_command 3 5 (str "getstate") [] (str "guess") [] demo_server
  = handle_command 3 5 (str "viod") [] (str "guess") [] demo_server.
Proof.
  apply (management_needs_auth 3 5 (str "getstate") [] (str "guess") [] demo_server).
  - unfold managing. right. right. left.
  - left. vm_compute. discriminate.
Defined.

(** A peer announces a known block, the next one and one above it. *)
Definition short_next : BlockShort := mkBlockShort hash_d (demo_hash x03) 1.
Definition short_above : BlockShort := mkBlockShort (demo_hash x03) (demo_hash x04) 2.
Definition announced : list bytes := text_of <$> [GetShortCopy blk_d; short_next; short_above].
Definition announcing : NodeServerRequest :=
  mkRequest (sv_Node demo_server) (set_Transit (AddBlocks peer announced transit_Init) demo_server)
    [] [] false None false.

Lemma next_announced_spec_witness :
  ∃ t', next_announced 3 peer announcing
        = post (λ c, SendGetData c peer (str "block") (demo_hash x03)) (with_transit t' announcing) ∧
        queue peer t' = [text_of short_above].
Proof.
  destruct (next_announced_spec 32 mint_file mint_db hash_d [blk_d] peer announced
    [GetShortCopy blk_d; short_next; short_above] 3 announcing) as (t' & _ & Ht).
  - apply mint_opened.
  - apply mint_state.
  - reflexivity.
  - vm_compute. reflexivity.
  - discriminate.
  - repeat constructor.
  - repeat constructor; discriminate.
  - vm_compute. lia.
  - exists t'. exact Ht.
Defined.

Lemma empty_inventory_panics_witness :
  (handle_command 1 5 (str "inv") (text_of (mkComInv peer (str "block") [])) [] [] demo_server).1
  = Panic PIndex.
Proof.
  apply (empty_inventory_panics 0 5 _ [] [] peer (str "block") demo_server).
  - reflexivity.
  - vm_compute. reflexivity.
  - left. split; reflexivity.
Defined.
End ServerDemo.
