(* ===== verification/Served.v ===== *)
(** * A payment over the server

    The command [send] of a wallet and the server that answers it: the two requests
    of [lib/wallet/cli.go] as they are handled by [handleTxRequest] and
    [handleTxData] of [node/server/handle.go]. *)

From Stdlib Require Import Strings.Byte ZifyNat.
From stdpp Require Import base strings numbers gmap sorting relations list.
From S2P Require Import Prelude Float64 Platform Concrete Utils Wallet Merkle Structures Codecs Signing.
From S2P Require Import Database ChainIndex Tables Blockchain Branches BlockchainLookup.
From S2P Require Import BlockchainUpdate TxIndex Pending Unspent TxManager Consensus Mining Payment.
From S2P Require Import Net Wire Transit NodeClient ComCodecs WalletCLI Node Frames NodeChain Genesis Server.
From S2P Require Import ServerSafe ServerReplies SendCommand.

(** ** Requests that arrive *)

Section Requests.
Context `{Crypto} `{BoltLaws} `{GoSort} `{GoRange} `{!Gob Transaction} `{!Gob Block} `{!GobLaws Block}.
Context `{!Gob BlockShort} `{!Gob (list TXOutputIndependent)}.
Context `{!Gob (list bytes)} `{!Gob (list TransactionsIndexSpentOutputs)}.
Context `{Network} `{ComGob} `{!GobLaws go_string}.
Implicit Types (s : NodeServer) (c : conn).

(** A connection on which a request arrives whole, in whatever segments. *)
Definition carries_request (fuel : nat) c (request : bytes) : Prop :=
  delivered c = request ∧ unbroken c ∧ pauses_of c ≤ 31 ∧ length c < fuel.

Lemma request_handled command payload request fuel now c ip s :
  ascii_bytes command → x00 ∉ command → length command ≤ 12 → (Z.of_nat (length payload) < 2 ^ 32)%Z →
  BuildCommandData command (Some (Ret payload)) = Ret request → carries_request fuel c request →
  handleConnection fuel now c ip s = handle_command fuel now command payload [] ip s.
Proof.
  intros Ha Hz Hl Hp Hb (Hd & Hu & Hpa & Hf). unfold BuildCommandData in Hb.
  destruct (readRequest_built command payload [] c [] fuel) as (req & Er & Hr); try done.
  rewrite Er in Hb. injection Hb as ->. rewrite app_nil_r in Hr. destruct (Hr Hd) as (c' & E & _).
  unfold handleConnection. by rewrite E.
Qed.

(** What the database of a request is made of. *)
Definition request_db s : DB := OpenConnection (nd_DB (CloneNode s).2).

Lemma request_db_file s : bcFile (request_db s) = bcFile (nd_DB (sv_Node s)).
Proof. apply CloneNode_same. Qed.
(** What [respond] writes; it leaves the node and the server. *)
Lemma respond_served {A} `{GobLaws A} (a : A) (r : NodeServerRequest) :
  rq_HasResponse r = true →
  ∃ r' w, respond a r = (Ret tt, r') ∧ written_back (Ret tt) r' = Ret (Some w) ∧ read_response gob_Decode w = Ret a ∧
    rq_Node r' = rq_Node r ∧ rq_S r' = rq_S r.
Proof.
  intros Hr. destruct (written_back_respond a r Hr) as (r' & w & E & Hw & Hread). exists r', w. split_and!; [done..| |];
    revert E; unfold respond, mbind, st_bind, lift; destruct (gob_Encode a); try done; by intros [= <-].
Qed.

(** The first request of a wallet: the node prepares a transaction. *)
Lemma txrequest_served `{!GobLaws ComRequestTransactionData} payload pub to amount inputs fuel now auth ip s txBytes texts :
  gob_Decode payload = Ret (mkComRequestTransaction pub to amount inputs) → (CloneNode s).1 = Ret tt →
  PrepareNewTransaction pub to amount now (request_db s) = Ret (txBytes, texts) →
  ∃ w s', handle_command fuel now (str "txrequest") payload auth ip s = (Ret (Some w), s') ∧
    read_response gob_Decode w = Ret (mkComRequestTransactionData txBytes texts) ∧
    bcFile (nd_DB (sv_Node s')) = bcFile (nd_DB (sv_Node s)) ∧ sv_BlockBilderChan s' = sv_BlockBilderChan s.
Proof.
  intros Hd Hc Hp. pose proof (request_db_file s) as Hf. unfold handle_command, request_db in *.
  destruct (CloneNode s) as [rc node]. simpl in Hc. subst rc. cbn [snd] in *.
  set (r := mkRequest _ _ _ _ _ _ _).
  change (dispatch fuel now (str "txrequest")) with (handleTxRequest now).
  unfold handleTxRequest. unfold mbind, st_bind at 1, has_response. unfold st_bind at 1, parseRequestData, wrap_err, ask.
  cbn [rq_Request r]. rewrite Hd. unfold st_bind at 1, on_node, on_db. cbn [rq_Node nd_DB set_DB].
  rewrite asking_run. change (OpenConnection (nd_DB (rq_Node r))) with (OpenConnection (nd_DB node)).
  cbn [crt_PubKey crt_To crt_Amount]. rewrite Hp.
  match goal with |- context [respond ?a ?r0] =>
    destruct (respond_served a r0) as (r' & w & E & Hw & Hread & En & Es); [done|] end.
  rewrite E, Hw. exists w. eexists. split; [done|]. split; [done|]. rewrite En, Es. by split.
Qed.

(** The second one: the pool takes the transaction, and the block builder hears of
    it when there is room for a signal. *)
Lemma txdata_served `{!GobLaws bytes} payload from txBytes sigs fuel now auth ip s tx db' :
  gob_Decode payload = Ret (mkComNewTransactionData from txBytes sigs) → (CloneNode s).1 = Ret tt →
  ReceivedNewTransactionData txBytes sigs (request_db s) = (Ret tx, db') →
  ∃ w s', handle_command fuel now (str "txdata") payload auth ip s = (Ret (Some w), s') ∧
    read_response gob_Decode w = Ret (tx_ID tx) ∧ bcFile (nd_DB (sv_Node s')) = bcFile db' ∧
    sv_BlockBilderChan s' = sv_BlockBilderChan (TryToMakeNewBlock (tx_ID tx) s).
Proof.
  intros Hd Hc Hr. unfold handle_command, request_db in *.
  destruct (CloneNode s) as [rc node]. simpl in Hc. subst rc. cbn [snd] in *.
  set (r := mkRequest _ _ _ _ _ _ _).
  change (dispatch fuel now (str "txdata")) with handleTxData.
  unfold handleTxData. unfold mbind, st_bind at 1, has_response. unfold st_bind at 1, parseRequestData, wrap_err, ask.
  cbn [rq_Request r]. rewrite Hd. unfold st_bind at 1, on_node, on_db. cbn [rq_Node nd_DB set_DB].
  unfold st_bind at 1. rewrite get_DB_run.
  change (OpenConnection (nd_DB (rq_Node r))) with (OpenConnection (nd_DB node)).
  cbn [cnd_TX cnd_Signatures]. rewrite Hr. unfold st_bind at 1, signal, on_server.
  match goal with |- context [respond ?a ?r0] =>
    destruct (respond_served a r0) as (r' & w & E & Hw & Hread & En & Es); [done|] end.
  rewrite E, Hw. exists w. eexists. split; [done|]. split; [done|]. rewrite En, Es. by split.
Qed.
End Requests.

(** ** What a payment reads

    Everything a payment reads is in the file of the blockchain. *)

Section File.
Context `{CryptoLaws} `{BoltLaws} `{GoSortLaws} `{GoRangeLaws}.
Context `{!Gob Transaction} `{!GobLaws Transaction} `{!Gob Block} `{!GobLaws Block}.
Context `{!Gob (list TXOutputIndependent)} `{!GobLaws (list TXOutputIndependent)}.
Context `{!Gob (list bytes)} `{!Gob (list TransactionsIndexSpentOutputs)}.

Lemma opened_db f db : opened f db → db = mkDB true (Some f) (nodesFile db).
Proof. destruct db. by intros (? & ? & _); simpl in *; subst. Qed.

Lemma PrepareNewTransaction_file f n n' pub to amount now :
  PrepareNewTransaction pub to amount now (mkDB true (Some f) n) = PrepareNewTransaction pub to amount now (mkDB true (Some f) n').
Proof. reflexivity. Qed.

Lemma payment_inputs_file f n n' pub to amount :
  payment_inputs pub to amount (mkDB true (Some f) n) = payment_inputs pub to amount (mkDB true (Some f) n').
Proof. reflexivity. Qed.

Lemma ledger_file f n n' txs T : ledger f (mkDB true (Some f) n) txs T → ledger f (mkDB true (Some f) n') txs T.
Proof. intros [Ho ? ? ? ? Hs ? ?]. split; try done. Qed.
End File.

(** ** The payment *)

Section Send.
Context `{CryptoLaws} `{BoltLaws} `{GoSortLaws} `{GoRangeLaws}.
Context `{!Gob Transaction} `{!GobLaws Transaction} `{!Gob Block} `{!GobLaws Block} `{!Gob BlockShort}.
Context `{!Gob (list TXOutputIndependent)} `{!GobLaws (list TXOutputIndependent)}.
Context `{!Gob (list bytes)} `{!Gob (list TransactionsIndexSpentOutputs)} `{!Gob (option (gmap bytes Wallet))}.
Context `{Network} `{ComGob} `{!GobLaws go_string} `{!GobLaws bytes}.
Context `{!GobLaws ComRequestTransaction} `{!GobLaws ComRequestTransactionData} `{!GobLaws ComNewTransactionData}.

(** The server, the clock and the fuel of its two requests, the address that the
    wallet's requests come from, and what the wallet has sent before. *)
Context (srv : NodeServer) (fuel : nat) (t1 t2 : Z) (ip : bytes) (sent : outbox).
Context (wc : WalletCLI) (w : Wallet) (seeds : Z → Z → N).

Let to := in_ToAddress (wc_Input wc).
Let amount := in_Amount (wc_Input wc).

Definition request1 : outcome bytes :=
  BuildCommandData (str "txrequest") (Some (gob_Encode (mkComRequestTransaction (w_PublicKey w) to amount []))).
Definition request2 (txBytes : bytes) (sigs : list bytes) : outcome bytes :=
  BuildCommandData (str "txdata") (Some (gob_Encode (mkComNewTransactionData (in_Address (wc_Input wc)) txBytes sigs))).

(** The network brings a request to the server [s], whole, and the answer back. *)
Definition reaches (now : Z) (s : NodeServer) (request : bytes) : Prop :=
  ∃ c, carries_request fuel c request ∧ ∀ r s', handleConnection fuel now c ip s = (Ret (Some r), s') →
    net_request sent (NodeAddrToString (wc_Node wc)) request = Ret r.

(** A request fits the header of the protocol. *)
Definition sendable {A} `{Gob A} (a : A) : Prop := ∀ payload, gob_Encode a = Ret payload → (Z.of_nat (length payload) < 2 ^ 32)%Z.

(** What the first request leaves. *)
Definition left_by (s : NodeServer) : Prop :=
  ∃ request c r, request1 = Ret request ∧ carries_request fuel c request ∧ handleConnection fuel t1 c ip srv = (Ret (Some r), s).

Lemma request_ready command {A} `{GobLaws A} (a : A) : ascii_bytes command → x00 ∉ command → length command ≤ 12 → sendable a →
  ∃ payload request, gob_Encode a = Ret payload ∧ gob_Decode payload = Ret a ∧
    BuildCommandData command (Some (gob_Encode a)) = Ret request ∧
    ∀ now c s, carries_request fuel c request → handleConnection fuel now c ip s = handle_command fuel now command payload [] ip s.
Proof.
  clear t1 t2 seeds. intros Ha Hz Hl Hs. destruct (gob_total a) as [payload Ep]. destruct (gob_roundtrip _ _ Ep) as [_ Hd].
  destruct (readRequest_built command payload [] [] [] 1) as (request & Er & _); try done; try (by apply Hs); try (cbn; lia); [constructor|].
  exists payload, request. split_and!; [done..|by rewrite Ep|]. intros now c s Hc. eapply request_handled; try done. by apply Hs.
Qed.

Lemma first_request txBytes texts :
  CheckNodeAddress (wc_Node wc) = Ret tt → sendable (mkComRequestTransaction (w_PublicKey w) to amount []) →
  (∀ request, request1 = Ret request → reaches t1 srv request) → (CloneNode srv).1 = Ret tt →
  PrepareNewTransaction (w_PublicKey w) to amount t1 (request_db srv) = Ret (txBytes, texts) →
  ∃ s1, left_by s1 ∧ SendRequestNewTransaction (wc_Node wc) (w_PublicKey w) to amount sent = Ret (txBytes, texts) ∧
    bcFile (nd_DB (sv_Node s1)) = bcFile (nd_DB (sv_Node srv)) ∧ sv_BlockBilderChan s1 = sv_BlockBilderChan srv.
Proof.
  intros Hck Hs Hreach Hcl Hp.
  destruct (request_ready (str "txrequest") (mkComRequestTransaction (w_PublicKey w) to amount []) ltac:(by apply (bool_decide_unpack _); vm_compute) ltac:(by apply (bool_decide_unpack _); vm_compute)
    ltac:(vm_compute; lia) Hs) as (payload & request & Ep & Hd & Hb & Hhandle).
  destruct (Hreach request Hb) as (c & Hc & Hnet).
  destruct (txrequest_served payload _ _ _ _ fuel t1 [] ip srv txBytes texts Hd Hcl Hp) as (r & s1 & Hh & Hread & Hf & Hch).
  specialize (Hhandle t1 c srv Hc). rewrite Hh in Hhandle.
  exists s1. split; [by exists request, c, r|]. split; [|done].
  unfold SendRequestNewTransaction. unfold request1 in Hb. rewrite Hb, ret_bind. unfold SendDataWaitResponse.
  rewrite Hck, ret_bind, (Hnet r s1 Hhandle), ret_bind. by rewrite Hread.
Qed.

Lemma second_request s1 txBytes sigs tx db' :
  CheckNodeAddress (wc_Node wc) = Ret tt → sendable (mkComNewTransactionData (in_Address (wc_Input wc)) txBytes sigs) →
  (∀ request, request2 txBytes sigs = Ret request → reaches t2 s1 request) → (CloneNode s1).1 = Ret tt →
  ReceivedNewTransactionData txBytes sigs (request_db s1) = (Ret tx, db') →
  ∃ c r s2, handleConnection fuel t2 c ip s1 = (Ret (Some r), s2) ∧
    SendNewTransactionData (wc_Node wc) (in_Address (wc_Input wc)) txBytes sigs sent = Ret (tx_ID tx) ∧
    bcFile (nd_DB (sv_Node s2)) = bcFile db' ∧ sv_BlockBilderChan s2 = sv_BlockBilderChan (TryToMakeNewBlock (tx_ID tx) s1).
Proof.
  intros Hck Hs Hreach Hcl Hp.
  destruct (request_ready (str "txdata") (mkComNewTransactionData (in_Address (wc_Input wc)) txBytes sigs) ltac:(by apply (bool_decide_unpack _); vm_compute) ltac:(by apply (bool_decide_unpack _); vm_compute)
    ltac:(vm_compute; lia) Hs) as (payload & request & Ep & Hd & Hb & Hhandle).
  destruct (Hreach request Hb) as (c & Hc & Hnet).
  destruct (txdata_served payload _ _ _ fuel t2 [] ip s1 tx db' Hd Hcl Hp) as (r & s2 & Hh & Hread & Hf & Hch).
  specialize (Hhandle t2 c s1 Hc). rewrite Hh in Hhandle. exists c, r, s2. split; [done|]. split; [|done].
  unfold SendNewTransactionData. unfold request2 in Hb. rewrite Hb, ret_bind. unfold SendDataWaitResponse.
  by rewrite Hck, ret_bind, (Hnet r s2 Hhandle), ret_bind.
Qed.

(** C4: a payment of a wallet that is not on the node's machine goes all the way.
    When its two requests reach a server whose tables are consistent, and the free
    outputs of the wallet's key cover the amount, [send] prints the identifier of a
    transaction that spends such outputs, pays the recipient and gives the change
    back; the server has verified it, its pool has it and no conflict, and its block
    builder is told of it.  The server does not keep anything of the first request. *)
Theorem wallet_send_served f txs T toHash inputs prevTXs totalamount fs out :
  let key := w_PublicKey w in let paid := parse_fixed8 amount in
  send_checks wc = Ret w → CheckNodeAddress (wc_Node wc) = Ret tt →
  AddresToPubKeyHash to = Ret toHash → signer key (w_PrivateKey w) seeds →
  (CloneNode srv).1 = Ret tt → ledger f (request_db srv) txs T →
  payment_inputs key to paid (request_db srv) = Ret (inputs, prevTXs, totalamount) → settles key toHash paid totalamount →
  (∀ tx, Payment.payment (request_db srv) key (w_PrivateKey w) to amount t1 seeds = Ret tx → tx_fits tx) →
  sendable (mkComRequestTransaction key to amount []) →
  (∀ request, request1 = Ret request → reaches t1 srv request) →
  (∀ s1 txBytes texts sigs, left_by s1 → PrepareNewTransaction key to amount t1 (request_db srv) = Ret (txBytes, texts) →
     SignDataSet key (w_PrivateKey w) texts seeds = Ret sigs →
     (CloneNode s1).1 = Ret tt ∧ sendable (mkComNewTransactionData (in_Address (wc_Input wc)) txBytes sigs) ∧
     ∀ request, request2 txBytes sigs = Ret request → reaches t2 s1 request) →
  ∃ tx s1 s2 c r f' txs', left_by s1 ∧ handleConnection fuel t2 c ip s1 = (Ret (Some r), s2) ∧
    commandSend seeds sent (wc, fs, out) = (Ret tt, (wc, fs, out ++ [("Success. New transaction: %x"%string, [ABytes (tx_ID tx)])])) ∧
    outpoints tx = outpoint_of <$> inputs ∧ tx_Vout tx = payment_outputs key toHash paid totalamount ∧
    bcFile (nd_DB (sv_Node s1)) = Some f ∧ bcFile (nd_DB (sv_Node s2)) = Some f' ∧
    pool f' txs' ∧ with_tx tx txs txs' ∧ conflict_free txs' ∧ only [unapprovedTransactionsBucket] f f' ∧
    sv_BlockBilderChan s2 = sv_BlockBilderChan (TryToMakeNewBlock (tx_ID tx) srv).
Proof.
  intros key paid Hchk Hck Hto Hsg Hcl Hld Hin Hset Hfit Hs1 Hr1 Hr2.
  destruct (payment_spec f _ txs T Hld key (w_PrivateKey w) to toHash amount inputs prevTXs totalamount t1 seeds Hsg Hto Hin Hset)
    as (txBytes & texts & sigs & tx0 & tx & Hp & Hs & Hd & Hsig & Ho & Hout & _).
  destruct (first_request txBytes texts Hck Hs1 Hr1 Hcl Hp) as (s1 & Hleft & Hask & Hf1 & Hch1).
  destruct (Hr2 s1 txBytes texts sigs Hleft Hp Hs) as (Hcl1 & Hs2 & Hreach2).
  assert (Ed : request_db srv = mkDB true (Some f) (nodesFile (request_db srv))) by apply opened_db, Hld.
  assert (Hf0 : bcFile (nd_DB (sv_Node s1)) = Some f) by (rewrite Hf1, <- request_db_file, Ed; done).
  assert (Ed1 : request_db s1 = mkDB true (Some f) (nodesFile (request_db s1))) by (rewrite <- Hf0, <- request_db_file; done).
  rewrite Ed in Hld, Hin, Hp, Hfit. apply (ledger_file f _ (nodesFile (request_db s1))) in Hld. rewrite <- Ed1 in Hld.
  rewrite (payment_inputs_file f _ (nodesFile (request_db s1))), <- Ed1 in Hin.
  rewrite (PrepareNewTransaction_file f _ (nodesFile (request_db s1))), <- Ed1 in Hp.
  destruct (payment_spec f _ txs T Hld key (w_PrivateKey w) to toHash amount inputs prevTXs totalamount t1 seeds Hsg Hto Hin Hset)
    as (txBytes' & texts' & sigs' & tx0' & tx' & Hp' & Hs' & Hd' & Hsig' & _ & _ & Hrec).
  rewrite Hp in Hp'. injection Hp' as <- <-. rewrite Hs in Hs'. injection Hs' as <-.
  rewrite Hd in Hd'. injection Hd' as <-. rewrite Hsig in Hsig'. injection Hsig' as <-.
  destruct Hrec as (f' & txs' & Hrec & Hp2 & Hw & Hcf & Hb).
  { apply Hfit. unfold Payment.payment.
    rewrite (PrepareNewTransaction_file f _ (nodesFile (request_db s1))), <- Ed1, Hp, ret_bind, Hs, ret_bind, Hd, ret_bind. done. }
  destruct (second_request s1 txBytes sigs tx (with_bc f' (request_db s1)) Hck Hs2 Hreach2 Hcl1) as (c & r & s2 & Hh2 & Hsend & Hf2 & Hch2).
  { unfold ReceivedNewTransactionData, mbind, st_bind, lift. by rewrite Hd, Hsig, Hrec. }
  exists tx, s1, s2, c, r, f', txs'. split_and!; try done.
  - rewrite commandSend_spec, Hchk, ret_bind. unfold WalletCLI.payment. cbv zeta. fold to amount. rewrite Hask, ret_bind.
    fold key. rewrite Hs. cbn [ignore_err]. by rewrite ret_bind, Hsend.
  - rewrite Hch2. unfold TryToMakeNewBlock. rewrite Hch1. by destruct (_ <? 100)%Z.
Qed.
End Send.

(** ** An instance

    The payment of [SendDemo] with the node on another machine: its database has
    the output of [PaymentDemo], and the wallet's key pays one coin to the shop. *)

Module ServedDemo.
Import ToyCrypto MapBolt InsertionSort MapRange Codecs Demo IndexDemo PendingDemo ManagerDemo PaymentDemo.
Import ComCodecs WalletDemo SendDemo.

Definition node_here : NodeAddr := mkNodeAddr (str "10.0.0.1") 20000.
Definition serving : NodeServer :=
  mkNodeServer (mkNode (mkDB false (Some man_file) None) (mkNodeNetwork [] true) (mkNodeClient node_here []) [] [])
    node_here transit_Init [] [].
Definition remote_cli : WalletCLI :=
  mkWalletCLI (mkAppInput (str "send") payer shop (f64_of_Z 1) 20000 (str "10.0.0.1") (str "/d/")) node_here
    (mkNodeNetwork [] false) (Some payer_wallets) true.
Definition no_seeds (_ _ : Z) : N := 0.

(** What the wallet sends, and what the server answers. *)
Definition or_empty (r : outcome bytes) : bytes := match r with Ret b => b | _ => [] end.
Definition sent1 : bytes := or_empty (request1 remote_cli payer_wallet).
Definition prepared : bytes * list bytes :=
  match PrepareNewTransaction demo_pub shop (f64_of_Z 1) 5 (request_db serving) with Ret p => p | _ => ([], []) end.
Definition signed : list bytes :=
  match SignDataSet demo_pub 7%Z prepared.2 no_seeds with Ret s => s | _ => [] end.
Definition sent2 : bytes := or_empty (request2 remote_cli prepared.1 signed).
Definition reply (now : Z) (data : bytes) (s : NodeServer) : bytes * NodeServer :=
  match handleConnection 3 now [Data data] [] s with
  | (Ret (Some r), s') => (r, s')
  | (_, s') => ([], s')
  end.
Definition after_first : NodeServer := (reply 5 sent1 serving).2.

(** The network between the wallet and the server. *)
#[local] Instance to_server : Network := {
  net_send _ _ _ := Sent;
  net_request _ _ data := Ret (if bool_decide (data = sent1) then (reply 5 sent1 serving).1 else (reply 6 sent2 after_first).1);
  Error _ := str "error"
}.
#[local] Instance request_laws : GobLaws ComRequestTransaction := codec_gob_laws ComRequestTransaction_codec.
#[local] Instance request_data_laws : GobLaws ComRequestTransactionData := codec_gob_laws ComRequestTransactionData_codec.
#[local] Instance new_data_laws : GobLaws ComNewTransactionData := codec_gob_laws ComNewTransactionData_codec.
#[local] Instance text_laws : GobLaws bytes := codec_gob_laws codec_bytes.

(** The server after the first request, and what it answers over this network. *)
Definition between : NodeServer := (handleConnection 3 5 [Data sent1] [] serving).2.

Lemma sent1_small : sendable (mkComRequestTransaction (w_PublicKey payer_wallet) shop (f64_of_Z 1) []).
Proof. intros d E. vm_compute in E. injection E as <-. vm_compute. done. Qed.

Lemma sent2_small : sendable (mkComNewTransactionData payer prepared.1 signed).
Proof. intros d E. vm_compute in E. injection E as <-. vm_compute. done. Qed.

Lemma carried data : carries_request 3 [Data data] data.
Proof. split_and!; [apply app_nil_r|by apply Forall_singleton|destruct data; cbn; lia|cbn; lia]. Qed.

(** Whatever the connection of the first request, the server is the same after it. *)
Lemma left_between s1 : left_by serving 3 5 [] remote_cli payer_wallet s1 → s1 = between.
Proof.
  intros (request & c & r & Eq & Hc & Hh).
  destruct (request_ready 3 [] (str "txrequest")
    (mkComRequestTransaction (w_PublicKey payer_wallet) shop (f64_of_Z 1) [])) as (payload & request' & _ & _ & Hb & Hrun);
    [by apply (bool_decide_unpack _); vm_compute|by apply (bool_decide_unpack _); vm_compute|vm_compute; lia|apply sent1_small|].
  assert (E : Ret request' = Ret request) by (rewrite <- Hb, <- Eq; reflexivity). injection E as ->.
  assert (E : sent1 = request) by (unfold sent1; rewrite Eq; reflexivity).
  unfold between. rewrite E, (Hrun 5%Z [Data request] serving) by apply carried.
  rewrite <- (Hrun 5%Z c serving Hc). by rewrite Hh.
Qed.

Lemma between_ready : (CloneNode between).1 = Ret tt.
Proof. vm_compute. reflexivity. Qed.

Lemma answer_is {A} (p : outcome (option bytes) * A) x r s' : p.1 = Ret (Some x) → p = (Ret (Some r), s') → r = x.
Proof. intros Hx ->. by injection Hx. Qed.

Lemma first_reply : (handleConnection 3 5 [Data sent1] [] serving).1 = Ret (Some (reply 5 sent1 serving).1).
Proof. vm_compute. reflexivity. Qed.

Lemma second_reply : (handleConnection 3 6 [Data sent2] [] between).1 = Ret (Some (reply 6 sent2 after_first).1).
Proof. vm_compute. reflexivity. Qed.

Lemma first_reaches request : request1 remote_cli payer_wallet = Ret request → reaches 3 [] [] remote_cli 5 serving request.
Proof.
  intros E. exists [Data request]. split; [apply carried|]. intros r s' Hh.
  assert (Es : request = sent1) by (unfold sent1; by rewrite E). rewrite Es in *.
  rewrite (answer_is _ _ r s' first_reply Hh).
  cbn [net_request to_server]. by rewrite bool_decide_eq_true_2 by done.
Qed.

Lemma second_reaches request : request2 remote_cli prepared.1 signed = Ret request → reaches 3 [] [] remote_cli 6 between request.
Proof.
  intros E. exists [Data request]. split; [apply carried|]. intros r s' Hh.
  assert (Es : request = sent2) by (unfold sent2; by rewrite E). rewrite Es in *.
  rewrite (answer_is _ _ r s' second_reply Hh).
  cbn [net_request to_server]. by rewrite bool_decide_eq_false_2 by (vm_compute; discriminate).
Qed.

Lemma ret_inj {A} (a b : A) : Ret a = Ret b → a = b.
Proof. congruence. Qed.

Lemma prepared_run : PrepareNewTransaction demo_pub shop (f64_of_Z 1) 5 (request_db serving) = Ret prepared.
Proof. vm_compute. reflexivity. Qed.

Lemma signed_run : SignDataSet demo_pub 7%Z prepared.2 no_seeds = Ret signed.
Proof. vm_compute. reflexivity. Qed.

Lemma prepared_only txBytes texts sigs :
  PrepareNewTransaction demo_pub shop (f64_of_Z 1) 5 (request_db serving) = Ret (txBytes, texts) →
  SignDataSet demo_pub 7%Z texts no_seeds = Ret sigs → txBytes = prepared.1 ∧ sigs = signed.
Proof.
  rewrite prepared_run. intros Hp%ret_inj Hs. rewrite Hp. split; [reflexivity|]. 
  apply ret_inj. rewrite <- Hs, <- signed_run, Hp. reflexivity.
Qed.

(** The wallet's command prints the identifier, and the builder has the signal. *)
Lemma wallet_send_served_witness :
  ∃ tx s1 s2 c r f' txs',
    left_by serving 3 5 [] remote_cli payer_wallet s1 ∧ handleConnection 3 6 c [] s1 = (Ret (Some r), s2) ∧
    commandSend no_seeds [] (remote_cli, ∅, []) =
      (Ret tt, (remote_cli, ∅, [("Success. New transaction: %x"%string, [ABytes (tx_ID tx)])])) ∧
    outpoints tx = outpoint_of <$> spent_inputs ∧
    tx_Vout tx = payment_outputs demo_pub shop_hash (parse_fixed8 (f64_of_Z 1)) spent_total ∧
    bcFile (nd_DB (sv_Node s1)) = Some man_file ∧ bcFile (nd_DB (sv_Node s2)) = Some f' ∧
    pool f' txs' ∧ with_tx tx [] txs' ∧ conflict_free txs' ∧ only [unapprovedTransactionsBucket] man_file f' ∧
    sv_BlockBilderChan s2 = [tx_ID tx].
Proof.
  apply (wallet_send_served serving 3 5 6 [] [] remote_cli payer_wallet no_seeds man_file [] man_T shop_hash
    spent_inputs shop_inputs.1.2 spent_total ∅ []).
  - reflexivity.
  - reflexivity.
  - reflexivity.
  - apply demo_signer.
  - reflexivity.
  - apply demo_ledger.
  - reflexivity.
  - split_and!; reflexivity.
  - apply shop_fits.
  - apply sent1_small.
  - apply first_reaches.
  - intros s1 txBytes texts sigs ->%left_between Hp Hs.
    destruct (prepared_only txBytes texts sigs Hp Hs) as [-> ->].
    split; [apply between_ready|]. split; [apply sent2_small|apply second_reaches].
Defined.
End ServedDemo.
