(* ===== verification/Runes.v ===== *)
(** * White space and runes

    [strings.TrimSpace], [strings.HasSuffix] and [utf8.ValidString], as the packages
    [log] and [config] use them. *)

From Stdlib Require Import Strings.Byte ZifyNat.
From stdpp Require Import base strings numbers list.
From S2P Require Import Prelude Platform Concrete Text Net.

Definition IsSpace (r : Z) : bool :=
  bool_decide (r ∈ [9; 10; 11; 12; 13; 32; 133; 160; 5760; 8232; 8233; 8239; 8287; 12288]%Z) || ((8192 <=? r) && (r <=? 8202))%Z.

(** The runes of a text, each with its bytes. *)
Fixpoint rune_chunks (fuel : nat) (s : bytes) : list (Z * bytes) :=
  match fuel, s with
  | S fuel', _ :: _ => let '(r, n) := decode_rune s in (r, take n s) :: rune_chunks fuel' (drop n s)
  | _, _ => []
  end.
Fixpoint drop_space (l : list (Z * bytes)) : list (Z * bytes) :=
  match l with
  | [] => []
  | c :: l' => if IsSpace c.1 then drop_space l' else l
  end.
Definition TrimSpace (s : bytes) : bytes :=
  concat (reverse (drop_space (reverse (drop_space (rune_chunks (length s) s)))).*2).

(** [utf8.ValidString]: [regexp.Compile] refuses other texts. *)
Definition ValidString (s : bytes) : bool :=
  forallb (λ c, negb (bool_decide (length c.2 = 1) && (c.1 =? RuneError)%Z)) (rune_chunks (length s) s).

Definition HasSuffix (s suffix : bytes) : bool := bool_decide (drop (length s - length suffix) s = suffix ∧ length suffix ≤ length s).

(** ** ASCII texts *)

Definition ascii_space (c : byte) : bool := IsSpace (byte_Z c).
Fixpoint drop_space_bytes (s : bytes) : bytes :=
  match s with
  | [] => []
  | c :: s' => if ascii_space c then drop_space_bytes s' else s
  end.

Lemma rune_chunks_ascii fuel s : length s ≤ fuel → plain_text s → rune_chunks fuel s = (λ c, (byte_Z c, [c])) <$> s.
Proof.
  revert s. induction fuel as [|fuel IH]; intros s Hf Hs; [by destruct s; [|simpl in Hf; lia]|].
  destruct s as [|c s]; [done|]. apply Forall_cons in Hs as [Hc Hs]. cbn [rune_chunks].
  rewrite decode_rune_ascii by done. csimpl. f_equal. apply IH; [simpl in Hf; lia|done].
Qed.

Lemma drop_space_ascii s : drop_space ((λ c, (byte_Z c, [c])) <$> s) = (λ c, (byte_Z c, [c])) <$> drop_space_bytes s.
Proof. induction s as [|c s IH]; [done|]. csimpl. unfold ascii_space. by destruct (IsSpace (byte_Z c)). Qed.

Lemma concat_singles (s : bytes) : concat ((λ c, (byte_Z c, [c])) <$> s).*2 = s.
Proof. induction s as [|c s IH]; [done|]. csimpl. by rewrite IH. Qed.

Lemma TrimSpace_ascii s : plain_text s → TrimSpace s = reverse (drop_space_bytes (reverse (drop_space_bytes s))).
Proof.
  intros Hs. unfold TrimSpace. rewrite rune_chunks_ascii by done. rewrite drop_space_ascii.
  rewrite <- (fmap_reverse (λ c, (byte_Z c, [c]))), drop_space_ascii, <- !fmap_reverse. apply concat_singles.
Qed.

(** A text without white space at its ends. *)
Definition trimmed (s : bytes) : Prop :=
  (∀ c s', s = c :: s' → ascii_space c = false) ∧ (∀ c s', s = s' ++ [c] → ascii_space c = false).

Lemma drop_space_bytes_id s : (∀ c s', s = c :: s' → ascii_space c = false) → drop_space_bytes s = s.
Proof. destruct s as [|c s]; intros Hs; [done|]. simpl. by rewrite (Hs c s). Qed.

(** White space around it goes. *)
Lemma TrimSpace_trimmed pre s post :
  plain_text (pre ++ s ++ post) → trimmed s → Forall (λ c, ascii_space c = true) pre → Forall (λ c, ascii_space c = true) post →
  TrimSpace (pre ++ s ++ post) = s.
Proof.
  intros Hp [Hf Hl] Hpre Hpost. rewrite TrimSpace_ascii by done. clear Hp.
  assert (Hskip : ∀ a b, Forall (λ c, ascii_space c = true) a → drop_space_bytes (a ++ b) = drop_space_bytes b).
  { intros a b Ha. induction Ha as [|c a Hc _ IH]; [done|]. simpl. by rewrite Hc. }
  rewrite Hskip by done. destruct (decide (s = [])) as [->|Hne].
  { rewrite app_nil_l. rewrite <- (app_nil_r post), Hskip by done. done. }
  rewrite (drop_space_bytes_id (s ++ post)).
  - rewrite reverse_app, Hskip by (by apply Forall_reverse). rewrite drop_space_bytes_id; [apply reverse_involutive|].
    intros c s' E. apply (Hl c (reverse s')). by rewrite <- reverse_cons, <- E, reverse_involutive.
  - destruct s as [|x s]; [done|]. intros c s' [= <- _]. by apply (Hf x s).
Qed.
