(* ===== verification/LogNumbers.v ===== *)
(** * Numbers in a log

    The integers of [log/format.go]: [FormatLogfmtInt64], [FormatLogfmtUint64] and
    [formatLogfmtBigInt] write them with a comma between the thousands, from the
    last digit, into a buffer of fixed size. *)

From Stdlib Require Import Strings.Byte ZifyNat.
From stdpp Require Import base strings numbers list.
From S2P Require Import Prelude Platform Concrete Net.

(** ** The code *)

(** [out[i] = b]. *)
Definition store (out : bytes) (i : Z) (b : byte) : outcome bytes :=
  _ ← index out i; Ret (<[Z.to_nat i := b]> out).

Definition comma_byte : byte := ","%byte.
Definition minus_byte : byte := "-"%byte.

(** The loop over the digits of an unsigned number. *)
Fixpoint write_digits (fuel : nat) (n comma i : Z) (out : bytes) : outcome (Z * bytes) :=
  match fuel with
  | O => OutOfFuel
  | S fuel' =>
      if (0 <? n)%Z then
        if (comma =? 3)%Z then out ← store out i comma_byte; write_digits fuel' n 0 (i - 1) out
        else out ← store out i (Z_byte (48 + n `mod` 10)); write_digits fuel' (n / 10) (comma + 1) (i - 1) out
      else Ret (i, out)
  end.

Definition maxLength : Z := 26.

Definition formatLogfmtUint64 (n : Z) (neg : bool) : outcome bytes :=
  if (n <? 100000)%Z then Ret (Itoa (if neg then int64_wrap (- n) else n))
  else
    '(i, out) ← write_digits 64 n 0 (maxLength - 1) (zeros (Z.to_nat maxLength));
    if neg then out ← store out i minus_byte; slice out i maxLength
    else slice out (i + 1) maxLength.

Definition uint64_wrap (z : Z) : Z := (z `mod` 2 ^ 64)%Z.

Definition FormatLogfmtInt64 (n : Z) : outcome bytes :=
  if (n <? 0)%Z then formatLogfmtUint64 (uint64_wrap (int64_wrap (- n))) true
  else formatLogfmtUint64 (uint64_wrap n) false.

Definition FormatLogfmtUint64 (n : Z) : outcome bytes := formatLogfmtUint64 n false.

(** [big.Int.String]. *)
Definition decimal (z : Z) : bytes := digits (S (Z.to_nat (Z.log2 z))) z.
Definition big_String (n : Z) : bytes := if (n <? 0)%Z then minus_byte :: decimal (- n) else decimal n.

(** The loop over a text from its end, [j] the number of characters that are left. *)
Fixpoint write_text (text : bytes) (j : nat) (comma i : Z) (buf : bytes) : outcome (Z * bytes) :=
  match j with
  | O => Ret (i, buf)
  | S j' =>
      c ← index text (Z.of_nat j');
      if bool_decide (c = minus_byte) then buf ← store buf i c; write_text text j' comma (i - 1) buf
      else if (comma =? 3)%Z then
        buf ← store buf i comma_byte; buf ← store buf (i - 1) c; write_text text j' 1 (i - 2) buf
      else buf ← store buf i c; write_text text j' (comma + 1) (i - 1) buf
  end.

Definition formatLogfmtBigInt (n : Z) : outcome bytes :=
  if ((0 <=? n) && (n <? 2 ^ 64))%Z then FormatLogfmtUint64 n
  else if ((- 2 ^ 63 <=? n) && (n <? 2 ^ 63))%Z then FormatLogfmtInt64 n
  else
    let text := big_String n in
    let size := (length text + length text `div` 3)%nat in
    '(i, buf) ← write_text text (length text) 0 (Z.of_nat size - 1) (zeros size);
    slice buf (i + 1) (Z.of_nat size).

Example min_int64 : FormatLogfmtInt64 (- 2 ^ 63) = Ret (str "-9,223,372,036,854,775,808").
Proof. vm_compute. reflexivity. Qed.
Example max_uint64 : FormatLogfmtUint64 (2 ^ 64 - 1) = Ret (str "18,446,744,073,709,551,615").
Proof. vm_compute. reflexivity. Qed.
Example small_number : FormatLogfmtInt64 (- 99999) = Ret (str "-99999").
Proof. vm_compute. reflexivity. Qed.
Example large_number : FormatLogfmtInt64 100000 = Ret (str "100,000").
Proof. vm_compute. reflexivity. Qed.
Example big_number : formatLogfmtBigInt (- 11122233344455567899900) = Ret (str "-11,122,233,344,455,567,899,900").
Proof. vm_compute. reflexivity. Qed.

(** ** What they write

    The thousands of a number, each of three digits but the first. *)

Definition three_digits (r : Z) : bytes := [digit (r / 100); digit ((r / 10) `mod` 10); digit (r `mod` 10)].
Fixpoint thousands (fuel : nat) (z : Z) : bytes :=
  match fuel with
  | O => []
  | S fuel' => if (z <? 1000)%Z then digits 3 z else thousands fuel' (z / 1000) ++ comma_byte :: three_digits (z `mod` 1000)
  end.

(** The loops as functions on lists: the characters that come before [acc]. *)
Fixpoint grouped (fuel : nat) (n comma : Z) (acc : bytes) : bytes :=
  match fuel with
  | O => acc
  | S fuel' =>
      if (0 <? n)%Z then
        if (comma =? 3)%Z then grouped fuel' n 0 (comma_byte :: acc)
        else grouped fuel' (n / 10) (comma + 1) (digit (n `mod` 10) :: acc)
      else acc
  end.

Lemma store_last pre c b acc : store (pre ++ [c] ++ acc) (Z.of_nat (length (pre ++ [c])) - 1) b = Ret (pre ++ b :: acc).
Proof.
  replace (Z.of_nat (length (pre ++ [c])) - 1)%Z with (Z.of_nat (length pre)) by (rewrite length_app; simpl; lia).
  change ([c] ++ acc) with (c :: acc). unfold store. rewrite index_nat, list_lookup_middle, ret_bind, Nat2Z.id by done.
  f_equal. rewrite <- (Nat.add_0_r (length pre)), insert_app_r. done.
Qed.

Lemma grouped_app fuel n comma acc : grouped fuel n comma acc = grouped fuel n comma [] ++ acc.
Proof.
  revert n comma acc. induction fuel as [|fuel IH]; intros n comma acc; [done|]. cbn [grouped].
  destruct (0 <? n)%Z; [|done]. destruct (comma =? 3)%Z.
  - rewrite IH, (IH n 0%Z [_]), <- app_assoc. done.
  - rewrite IH, (IH _ _ [_]), <- app_assoc. done.
Qed.

(** The rounds that a number of [d] digits needs. *)
Definition rounds (d : nat) (comma : Z) : nat := 2 * d + (if (comma =? 3)%Z then 2 else 1).

Lemma below_power n d : (0 < n < 10 ^ Z.of_nat d)%Z → ∃ d', d = S d' ∧ (0 ≤ n / 10 < 10 ^ Z.of_nat d')%Z.
Proof.
  destruct d as [|d]; [cbn; lia|]. rewrite Nat2Z.inj_succ, Z.pow_succ_r by lia. intros Hn. exists d. split; [done|].
  split; [apply Z.div_pos; lia|]. apply Z.div_lt_upper_bound; lia.
Qed.

Lemma grouped_length fuel n comma b : length (grouped fuel n comma [b]) = S (length (grouped fuel n comma [])).
Proof. rewrite grouped_app, length_app. simpl. lia. Qed.

Lemma last_shorter (pre : bytes) c : (Z.of_nat (length (pre ++ [c])) - 1 - 1 = Z.of_nat (length pre) - 1)%Z.
Proof. rewrite length_app. simpl. lia. Qed.

(** The loop writes these characters before what is there. *)
Lemma write_digits_grouped d fuel n comma pre acc :
  (0 ≤ n < 10 ^ Z.of_nat d)%Z → (0 ≤ comma ≤ 3)%Z → rounds d comma ≤ fuel → length (grouped fuel n comma []) ≤ length pre →
  ∃ pre', write_digits fuel n comma (Z.of_nat (length pre) - 1) (pre ++ acc)
          = Ret ((Z.of_nat (length pre') - 1)%Z, pre' ++ grouped fuel n comma acc) ∧
    length pre' + length (grouped fuel n comma []) = length pre.
Proof.
  revert d n comma pre acc. induction fuel as [|fuel IH]; intros d n comma pre acc Hn Hc Hf Hl; [unfold rounds in Hf; destruct (_ =? _)%Z; lia|].
  cbn [grouped write_digits] in *. destruct (Z.ltb_spec 0 n); [|exists pre; simpl; split; [done|lia]].
  assert (Hsnoc : ∃ pre0 c, pre = pre0 ++ [c]).
  { destruct pre as [|c pre] using rev_ind; [|by exists pre, c]. exfalso. revert Hl.
    destruct (comma =? 3)%Z; rewrite grouped_length; simpl; lia. }
  destruct Hsnoc as (pre0 & c & ->). rewrite <- app_assoc.
  destruct (Z.eqb_spec comma 3).
  - rewrite store_last, ret_bind, last_shorter. rewrite grouped_length, length_app in *. simpl in Hl.
    destruct (IH d n 0%Z pre0 (comma_byte :: acc)) as (pre' & E & Hlen); [done|lia| |lia|].
    { unfold rounds in *. simpl. subst. simpl in Hf. lia. }
    exists pre'. split; [exact E|]. simpl. lia.
  - rewrite store_last, ret_bind, last_shorter. rewrite grouped_length, length_app in *. simpl in Hl.
    destruct (below_power n d) as (d' & -> & Hd); [lia|].
    destruct (IH d' (n / 10)%Z (comma + 1)%Z pre0 (digit (n `mod` 10) :: acc)) as (pre' & E & Hlen); [done|lia| |lia|].
    { unfold rounds in *. rewrite (proj2 (Z.eqb_neq _ _) n0) in Hf. destruct (_ =? _)%Z; lia. }
    exists pre'. split; [exact E|]. simpl. lia.
Qed.

Lemma digits_enough d fuel z : (0 ≤ z < 10 ^ Z.of_nat (S d))%Z → S d ≤ fuel → digits fuel z = digits (S d) z.
Proof.
  revert fuel z. induction d as [|d IH]; intros fuel z Hz Hf; destruct fuel as [|fuel]; try lia.
  - cbn [digits]. by rewrite (proj2 (Z.ltb_lt z 10)) by (cbn in Hz; lia).
  - rewrite (Nat2Z.inj_succ (S d)), Z.pow_succ_r in Hz by lia. remember (S d) as m. cbn [digits].
    destruct (z <? 10)%Z; [done|]. f_equal. apply IH; [|lia].
    split; [apply Z.div_pos; lia|apply Z.div_lt_upper_bound; lia].
Qed.

Lemma three_digits_mod z :
  three_digits (z `mod` 1000) = [digit ((z / 10 / 10) `mod` 10); digit ((z / 10) `mod` 10); digit (z `mod` 10)].
Proof.
  unfold three_digits. replace (z `mod` 1000 / 100)%Z with ((z / 10 / 10) `mod` 10)%Z by lia.
  replace ((z `mod` 1000 / 10) `mod` 10)%Z with ((z / 10) `mod` 10)%Z by lia.
  by replace ((z `mod` 1000) `mod` 10)%Z with (z `mod` 10)%Z by lia.
Qed.

Lemma digits_three fuel z : (1000 ≤ z)%Z → digits (S (S (S fuel))) z = digits fuel (z / 1000) ++ three_digits (z `mod` 1000).
Proof.
  intros Hz. cbn [digits]. rewrite !(proj2 (Z.ltb_ge _ 10)), <- !app_assoc by lia. rewrite three_digits_mod.
  by replace (z / 10 / 10 / 10)%Z with (z / 1000)%Z by lia.
Qed.

Lemma thousands_power f : (1000 ^ Z.of_nat (S f) = 1000 * 1000 ^ Z.of_nat f)%Z.
Proof. rewrite Nat2Z.inj_succ, Z.pow_succ_r by lia. done. Qed.

Lemma thousand_below f z : (0 ≤ z < 1000 ^ Z.of_nat (S f))%Z → (1000 ≤ z)%Z → (0 < z / 1000 < 1000 ^ Z.of_nat f)%Z.
Proof. rewrite thousands_power. intros Hz Hl. split; [lia|]. apply Z.div_lt_upper_bound; lia. Qed.

Lemma grouped_digit fuel n comma acc :
  (0 < n)%Z → (0 ≤ comma < 3)%Z → grouped (S fuel) n comma acc = grouped fuel (n / 10) (comma + 1) (digit (n `mod` 10) :: acc).
Proof. intros Hn Hc. cbn [grouped]. by rewrite (proj2 (Z.ltb_lt 0 n)), (proj2 (Z.eqb_neq comma 3)) by lia. Qed.

Lemma grouped_comma fuel n acc : (0 < n)%Z → grouped (S fuel) n 3 acc = grouped fuel n 0 (comma_byte :: acc).
Proof. intros Hn. cbn [grouped]. by rewrite (proj2 (Z.ltb_lt 0 n)) by lia. Qed.

Lemma grouped_end fuel n comma acc : (n ≤ 0)%Z → grouped fuel n comma acc = acc.
Proof. intros Hn. destruct fuel; [done|]. cbn [grouped]. by rewrite (proj2 (Z.ltb_ge 0 n)) by lia. Qed.

Lemma digits_one fuel z : (z < 10)%Z → digits (S fuel) z = [digit z].
Proof. intros Hz. cbn [digits]. by rewrite (proj2 (Z.ltb_lt z 10)). Qed.

Lemma digits_more fuel z : (10 ≤ z)%Z → digits (S fuel) z = digits fuel (z / 10) ++ [digit (z `mod` 10)].
Proof. intros Hz. cbn [digits]. by rewrite (proj2 (Z.ltb_ge z 10)). Qed.

Lemma grouped_below_1000 fuel n acc : (0 < n < 1000)%Z → grouped (S (S (S fuel))) n 0 acc = digits 3 n ++ acc.
Proof.
  intros Hn. rewrite grouped_digit by lia. destruct (Z_lt_dec n 10).
  { by rewrite grouped_end, digits_one, Z.mod_small by lia. }
  rewrite grouped_digit, digits_more by lia. destruct (Z_lt_dec n 100).
  { rewrite grouped_end, digits_one, (Z.mod_small (n / 10)) by lia. done. }
  rewrite grouped_digit, digits_more, digits_one, grouped_end, (Z.mod_small (n / 10 / 10)) by lia. done.
Qed.

Lemma grouped_thousands f fuel n acc :
  (0 < n < 1000 ^ Z.of_nat f)%Z → 8 * f ≤ fuel → grouped fuel n 0 acc = thousands f n ++ acc.
Proof.
  revert fuel n acc. induction f as [|f IH]; intros fuel n acc Hn Hf; [cbn in Hn; lia|].
  do 4 (destruct fuel as [|fuel]; [lia|]). cbn [thousands]. destruct (Z.ltb_spec n 1000); [apply grouped_below_1000; lia|].
  destruct (thousand_below f n) as [H1 H2]; [lia..|].
  rewrite !grouped_digit by lia. replace (n / 10 / 10 / 10)%Z with (n / 1000)%Z by lia.
  rewrite grouped_comma, IH by lia. by rewrite <- app_assoc, three_digits_mod.
Qed.

Lemma digits_length n y : length (digits n y) ≤ n.
Proof.
  revert y. induction n as [|n IH]; intros y; cbn [digits]; [done|]. destruct (_ <? _)%Z; [simpl; lia|].
  rewrite length_app. specialize (IH (y / 10)%Z). simpl. lia.
Qed.

(** As long as there are three digits and a comma for each factor of a thousand. *)
Lemma thousands_length f z k j :
  (0 ≤ z < 10 ^ Z.of_nat j * 1000 ^ Z.of_nat k)%Z → 1 ≤ j ≤ 3 → length (thousands f z) ≤ 4 * k + j.
Proof.
  revert z k. induction f as [|f IH]; intros z k Hz Hj; cbn [thousands length]; [lia|].
  destruct (Z.ltb_spec z 1000).
  - destruct k as [|k].
    + rewrite (digits_enough (j - 1) 3); [|by replace (S (j - 1)) with j by lia; lia|lia].
      pose proof (digits_length (S (j - 1)) z). lia.
    + pose proof (digits_length 3 z). lia.
  - rewrite length_app. cbn [length three_digits]. destruct k as [|k].
    + exfalso. assert (10 ^ Z.of_nat j ≤ 10 ^ 3)%Z by (apply Z.pow_le_mono_r; lia). lia.
    + rewrite thousands_power in Hz. enough (length (thousands f (z / 1000)) ≤ 4 * k + j) by lia. apply IH; [|done].
      split; [lia|]. apply Z.div_lt_upper_bound; [lia|]. rewrite (Z.mul_comm 1000), <- Z.mul_assoc, (Z.mul_comm _ 1000). lia.
Qed.

(** *** Numbers of any size

    The loop over the characters of a text, [rev] those that are left from the last. *)
Fixpoint group_chars (rev : bytes) (comma : Z) (acc : bytes) : bytes :=
  match rev with
  | [] => acc
  | c :: rev' =>
      if bool_decide (c = minus_byte) then group_chars rev' comma (c :: acc)
      else if (comma =? 3)%Z then group_chars rev' 1 (c :: comma_byte :: acc)
      else group_chars rev' (comma + 1) (c :: acc)
  end.

Lemma group_chars_app rev comma acc : group_chars rev comma acc = group_chars rev comma [] ++ acc.
Proof.
  revert comma acc. induction rev as [|c rev IH]; intros comma acc; [done|]. cbn [group_chars].
  case_bool_decide; [|destruct (comma =? 3)%Z];
    rewrite IH; symmetry; rewrite IH, <- app_assoc; reflexivity.
Qed.

Lemma group_chars_length rev comma acc : length (group_chars rev comma acc) = length (group_chars rev comma []) + length acc.
Proof. by rewrite group_chars_app, length_app. Qed.

Lemma pop (pre : bytes) : 0 < length pre → ∃ pre' c, pre = pre' ++ [c].
Proof. destruct pre as [|c pre] using rev_ind; [simpl; lia|]. by exists pre, c. Qed.

Lemma write_text_grouped a b comma pre acc :
  length (group_chars (reverse a) comma []) ≤ length pre →
  ∃ pre', write_text (a ++ b) (length a) comma (Z.of_nat (length pre) - 1) (pre ++ acc)
          = Ret ((Z.of_nat (length pre') - 1)%Z, pre' ++ group_chars (reverse a) comma acc) ∧
    length pre' + length (group_chars (reverse a) comma []) = length pre.
Proof.
  revert b comma pre acc. induction a as [|c a IH] using rev_ind; intros b comma pre acc Hl; [exists pre; simpl; split; [done|lia]|].
  rewrite reverse_snoc in *. rewrite length_app, Nat.add_comm, <- app_assoc. cbn [length Nat.add write_text group_chars] in *.
  rewrite index_nat. cbn [app]. rewrite list_lookup_middle, ret_bind by done.
  case_bool_decide as Em; [|destruct (comma =? 3)%Z]; rewrite group_chars_length in *; simpl in Hl;
    (destruct (pop pre) as (p & x & ->); [lia|]); rewrite length_app in Hl; simpl in Hl; rewrite <- app_assoc, store_last, ret_bind.
  - rewrite last_shorter. destruct (IH (c :: b) comma p (c :: acc)) as (pre' & E & Hlen); [lia|].
    exists pre'. split; [exact E|]. rewrite length_app. simpl. lia.
  - destruct (pop p) as (q & y & ->); [lia|]. rewrite length_app in Hl. simpl in Hl.
    rewrite last_shorter, <- (app_assoc q [y] (comma_byte :: acc)), store_last, ret_bind.
    replace (Z.of_nat (length ((q ++ [y]) ++ [x])) - 1 - 2)%Z with (Z.of_nat (length q) - 1)%Z by (rewrite !length_app; simpl; lia).
    destruct (IH (c :: b) 1%Z q (c :: comma_byte :: acc)) as (pre' & E & Hlen); [lia|].
    exists pre'. split; [exact E|]. rewrite !length_app. simpl. lia.
  - rewrite last_shorter. destruct (IH (c :: b) (comma + 1)%Z p (c :: acc)) as (pre' & E & Hlen); [lia|].
    exists pre'. split; [exact E|]. rewrite length_app. simpl. lia.
Qed.

Lemma digit_not_minus d : (0 ≤ d < 10)%Z → bool_decide (digit d = minus_byte) = false.
Proof.
  intros Hd. apply bool_decide_eq_false_2. intros E%(f_equal byte_Z). rewrite byte_Z_digit in E by done.
  change (byte_Z minus_byte) with 45%Z in E. lia.
Qed.

(** Both loops write the same. *)
Lemma group_chars_digits d fuel z comma acc :
  (0 < z < 10 ^ Z.of_nat d)%Z → (0 ≤ comma ≤ 3)%Z → rounds d comma ≤ fuel →
  group_chars (reverse (digits d z)) comma acc = grouped fuel z comma acc.
Proof.
  revert fuel z comma acc. induction d as [|d IH]; intros fuel z comma acc Hz Hc Hf; [cbn in Hz; lia|].
  unfold rounds in Hf. do 2 (destruct fuel as [|fuel]; [destruct (_ =? _)%Z; lia|]).
  assert (Hm : ∀ comma', 2 * d + (if (comma' =? 3)%Z then 2 else 1) ≤ 2 * d + 2) by (intros comma'; destruct (comma' =? 3)%Z; lia).
  destruct (Z_lt_dec z 10) as [Hlt|Hge].
  - rewrite digits_one by lia. change (reverse [digit z]) with [digit z]. cbn [group_chars]. rewrite digit_not_minus by lia.
    destruct (Z.eqb_spec comma 3) as [->|].
    + by rewrite grouped_comma, grouped_digit, grouped_end, Z.mod_small by lia.
    + by rewrite grouped_digit, grouped_end, Z.mod_small by lia.
  - destruct (below_power z (S d)) as (d' & [= <-] & Hd); [lia|].
    rewrite digits_more, reverse_snoc by lia. cbn [group_chars]. rewrite digit_not_minus by lia.
    destruct (Z.eqb_spec comma 3) as [->|].
    + rewrite grouped_comma, grouped_digit by lia. apply IH; [lia|lia|]. unfold rounds. simpl. lia.
    + rewrite grouped_digit by lia. apply IH; [lia|lia|]. specialize (Hm (comma + 1)%Z). unfold rounds. lia.
Qed.

(** *** Reading back *)

Definition no_commas (text : bytes) : bytes := filter (λ c, c ≠ comma_byte) text.

Lemma no_commas_id text : comma_byte ∉ text → no_commas text = text.
Proof.
  induction text as [|c text IH]; intros Hn; [done|]. apply not_elem_of_cons in Hn as [Hc Hn].
  unfold no_commas. rewrite filter_cons_True by congruence. f_equal. by apply IH.
Qed.

Lemma no_commas_digits fuel z : (0 ≤ z)%Z → no_commas (digits fuel z) = digits fuel z.
Proof. intros Hz. apply no_commas_id, digits_not; [done|]. left. by vm_compute. Qed.

Lemma no_commas_three z : (0 ≤ z)%Z → no_commas (three_digits (z `mod` 1000)) = three_digits (z `mod` 1000).
Proof.
  intros Hz. apply no_commas_id. rewrite three_digits_mod, !not_elem_of_cons.
  assert (∀ d, (0 ≤ d < 10)%Z → comma_byte ≠ digit d) as Hd.
  { intros d Hd E. apply (f_equal byte_Z) in E. rewrite byte_Z_digit in E by lia. change (byte_Z comma_byte) with 44%Z in E. lia. }
  split_and!; try (apply Hd; lia). apply not_elem_of_nil.
Qed.

Lemma thousands_digits f z : (0 ≤ z < 1000 ^ Z.of_nat f)%Z → 0 < f → no_commas (thousands f z) = digits (3 * f) z.
Proof.
  revert z. induction f as [|f IH]; intros z Hz Hf; [lia|]. cbn [thousands]. destruct (Z.ltb_spec z 1000).
  - rewrite no_commas_digits by lia. symmetry. apply digits_enough; [cbn; lia|lia].
  - destruct (thousand_below f z) as [H1 H2]; [lia..|]. replace (3 * S f) with (S (S (S (3 * f)))) by lia.
    rewrite digits_three by lia. unfold no_commas. rewrite filter_app, filter_cons_False by congruence. f_equal.
    + apply IH; [lia|]. destruct f; [cbn in H2; lia|lia].
    + apply no_commas_three. lia.
Qed.

Definition sign_of (neg : bool) : bytes := if neg then [minus_byte] else [].

(** The buffer of 26 bytes is enough for every number, and for the sign. *)
Lemma formatLogfmtUint64_large n (neg : bool) :
  (100000 ≤ n < 2 ^ 64)%Z → (neg = true → (n ≤ 2 ^ 63)%Z) → formatLogfmtUint64 n neg = Ret (sign_of neg ++ thousands 7 n).
Proof.
  intros Hn Hneg. unfold formatLogfmtUint64. rewrite (proj2 (Z.ltb_ge n 100000)) by lia.
  assert (Eg : ∀ acc, grouped 64 n 0 acc = thousands 7 n ++ acc) by (intros acc; apply grouped_thousands; lia).
  assert (Hl : length (thousands 7 n) ≤ 26) by (apply (thousands_length 7 n 6 2); lia).
  destruct (write_digits_grouped 20 64 n 0 (zeros 26) []) as (pre & E & Hlen); [lia..|cbn; lia| |].
  { rewrite Eg, app_nil_r. done. }
  rewrite app_nil_r in E. change (Z.of_nat (length (zeros 26)) - 1)%Z with (maxLength - 1)%Z in E.
  change (zeros (Z.to_nat maxLength)) with (zeros 26). rewrite E, ret_bind, Eg, app_nil_r.
  rewrite Eg, app_nil_r in Hlen. change (length (zeros 26)) with 26 in Hlen. change maxLength with (Z.of_nat 26).
  assert (Hs : neg = true → length (thousands 7 n) ≤ 25).
  { intros Hs. apply (thousands_length 7 n 6 1); specialize (Hneg Hs); lia. }
  clear Eg E. revert Hl Hlen Hs. generalize (thousands 7 n) as text. intros text Hl Hlen Hs. destruct neg; cbn [sign_of].
  - specialize (Hs eq_refl). destruct pre as [|c pre] using rev_ind; [simpl in Hlen; lia|clear IHpre]. rewrite <- app_assoc, store_last, ret_bind.
    replace (Z.of_nat (length (pre ++ [c])) - 1)%Z with (Z.of_nat (length pre)) by (rewrite length_app; simpl; lia).
    rewrite length_app in Hlen. simpl in Hlen. rewrite slice_Ret by (rewrite length_app; simpl; lia).
    rewrite take_ge, drop_app_length by (rewrite length_app; simpl; lia). done.
  - replace (Z.of_nat (length pre) - 1 + 1)%Z with (Z.of_nat (length pre)) by lia.
    rewrite slice_Ret by (rewrite length_app; lia). by rewrite take_ge, drop_app_length by (rewrite length_app; lia).
Qed.

Lemma FormatLogfmtInt64_abs n : is_int64 n → FormatLogfmtInt64 n = formatLogfmtUint64 (Z.abs n) (n <? 0)%Z.
Proof.
  intros [Hlo Hhi]. unfold FormatLogfmtInt64, uint64_wrap, int64_wrap. destruct (Z.ltb_spec n 0); f_equal; lia.
Qed.

Definition int64_text (n : Z) : bytes :=
  if (Z.abs n <? 100000)%Z then Itoa n else sign_of (n <? 0)%Z ++ thousands 7 (Z.abs n).

Lemma int64_text_spec n : is_int64 n → FormatLogfmtInt64 n = Ret (int64_text n) ∧ no_commas (int64_text n) = Itoa n.
Proof.
  intros Hn. pose proof Hn as [Hlo Hhi]. rewrite FormatLogfmtInt64_abs by done.
  unfold int64_text. destruct (Z.ltb_spec (Z.abs n) 100000).
  - unfold formatLogfmtUint64. rewrite (proj2 (Z.ltb_lt _ _)) by done. split.
    + do 2 f_equal. unfold int64_wrap. destruct (Z.ltb_spec n 0); lia.
    + apply no_commas_id, Itoa_not; [left; by vm_compute|done].
  - rewrite formatLogfmtUint64_large by lia. split; [done|].
    unfold no_commas. rewrite filter_app. fold (no_commas (thousands 7 (Z.abs n))). rewrite thousands_digits by lia.
    rewrite (digits_enough 19 (3 * 7)) by lia. unfold Itoa. destruct (Z.ltb_spec n 0).
    + by replace (Z.abs n) with (- n)%Z by lia.
    + by replace (Z.abs n) with n by lia.
Qed.

(** C34: every 64-bit integer is written: the buffer is enough, also for the least
    one, whose negation overflows.  Numbers of five digits or less are written as
    they are, the others in groups of three; without the commas the text is read
    back as the number. *)
Theorem FormatLogfmtInt64_spec n :
  is_int64 n →
  ∃ text, FormatLogfmtInt64 n = Ret text ∧ Atoi (no_commas text) = Ret n ∧
    text = (if (Z.abs n <? 100000)%Z then Itoa n else sign_of (n <? 0)%Z ++ thousands 7 (Z.abs n)).
Proof.
  intros Hn. destruct (int64_text_spec n Hn) as [E Ec]. exists (int64_text n). rewrite Ec. split; [done|].
  split; [by apply Atoi_Itoa|done].
Qed.

Lemma FormatLogfmtInt64_spec_witness :
  is_int64 (- 2 ^ 63) ∧ ∃ text, FormatLogfmtInt64 (- 2 ^ 63) = Ret text ∧ Atoi (no_commas text) = Ret (- 2 ^ 63)%Z ∧
    text = sign_of true ++ thousands 7 (2 ^ 63).
Proof. split; [by split|]. apply (FormatLogfmtInt64_spec (- 2 ^ 63)). by split. Defined.

(** *** Big numbers *)

Lemma thousands_enough f g z : (0 ≤ z < 1000 ^ Z.of_nat f)%Z → 0 < f → f ≤ g → thousands g z = thousands f z.
Proof.
  revert g z. induction f as [|f IH]; intros g z Hz Hf Hg; [lia|]. destruct g as [|g]; [lia|]. cbn [thousands].
  destruct (Z.ltb_spec z 1000); [done|]. f_equal. destruct (thousand_below f z) as [H1 H2]; [lia..|].
  apply IH; [lia| |lia]. destruct f; [cbn in H2; lia|lia].
Qed.

Lemma group_chars_minus rev comma acc : group_chars (rev ++ [minus_byte]) comma acc = minus_byte :: group_chars rev comma acc.
Proof.
  revert comma acc. induction rev as [|c rev IH]; intros comma acc; [done|]. cbn [app group_chars].
  case_bool_decide; [apply IH|]. destruct (_ =? _)%Z; apply IH.
Qed.

Lemma group_chars_fits rev comma :
  (0 ≤ comma ≤ 3)%Z → (Z.of_nat (length (group_chars rev comma [])) ≤ Z.of_nat (length rev) + (Z.of_nat (length rev) + comma) / 3)%Z.
Proof.
  revert comma. induction rev as [|c rev IH]; intros comma Hc; cbn [group_chars length]; [lia|].
  case_bool_decide; [|destruct (Z.eqb_spec comma 3)]; rewrite group_chars_length; cbn [length].
  - specialize (IH comma Hc). lia.
  - specialize (IH 1%Z). lia.
  - specialize (IH (comma + 1)%Z). lia.
Qed.

Definition log_fuel (z : Z) : nat := S (Z.to_nat (Z.log2 z)).
Lemma log_fuel_enough b z : (2 ≤ b)%Z → (0 ≤ z)%Z → (z < b ^ Z.of_nat (log_fuel z))%Z.
Proof.
  intros Hb [Hz| <-]%Zle_lt_or_eq; [|change (log_fuel 0) with 1; lia]. unfold log_fuel. rewrite Nat2Z.inj_succ, Z2Nat.id by apply Z.log2_nonneg.
  destruct (Z.log2_spec z Hz) as [_ Hlt]. eapply Z.lt_le_trans; [exact Hlt|]. apply Z.pow_le_mono_l. lia.
Qed.

Lemma big_text_grouped n : (n ≠ 0)%Z →
  group_chars (reverse (big_String n)) 0 [] = sign_of (n <? 0)%Z ++ thousands (log_fuel (Z.abs n)) (Z.abs n).
Proof.
  intros Hn. set (f := log_fuel (Z.abs n)). pose proof (log_fuel_enough 10 (Z.abs n) ltac:(lia) ltac:(lia)) as H10.
  pose proof (log_fuel_enough 1000 (Z.abs n) ltac:(lia) ltac:(lia)) as H1000. fold f in H10, H1000.
  assert (Hf : 0 < f) by (unfold f, log_fuel; lia).
  assert (E : group_chars (reverse (decimal (Z.abs n))) 0 [] = thousands f (Z.abs n)).
  { unfold decimal. fold (log_fuel (Z.abs n)) f. rewrite (group_chars_digits f (8 * f)) by (first [lia|unfold rounds; cbn [Z.eqb]; lia]).
    rewrite (grouped_thousands f) by lia. by rewrite app_nil_r. }
  unfold big_String. destruct (Z.ltb_spec n 0); cbn [sign_of].
  - rewrite reverse_cons, group_chars_minus. replace (- n)%Z with (Z.abs n) by lia. by rewrite E.
  - replace n with (Z.abs n) at 1 by lia. by rewrite E.
Qed.

Lemma thousands_log f n : (0 ≤ n < 1000 ^ Z.of_nat f)%Z → 0 < f → thousands f n = thousands (log_fuel n) n.
Proof.
  intros Hn Hf. pose proof (log_fuel_enough 1000 n ltac:(lia) ltac:(lia)) as Hl.
  destruct (Nat.le_ge_cases f (log_fuel n)); [symmetry|]; apply thousands_enough; try lia. unfold log_fuel. lia.
Qed.

Lemma decimal_digits k n : (0 ≤ n < 10 ^ Z.of_nat (S k))%Z → decimal n = digits (S k) n.
Proof.
  intros Hn. pose proof (log_fuel_enough 10 n ltac:(lia) ltac:(lia)) as Hl. unfold log_fuel in Hl. unfold decimal.
  destruct (Nat.le_ge_cases k (Z.to_nat (Z.log2 n))); [|symmetry]; apply digits_enough; lia.
Qed.

Lemma Itoa_big n : (Z.abs n < 10 ^ 20)%Z → Itoa n = big_String n.
Proof.
  intros Hn. unfold Itoa, big_String. destruct (Z.ltb_spec n 0); rewrite (decimal_digits 19); try done; lia.
Qed.

Lemma no_commas_decimal z : (0 ≤ z)%Z → no_commas (decimal z) = decimal z.
Proof. apply no_commas_digits. Qed.

(** The loop over the text of a number that no machine integer holds. *)
Lemma formatLogfmtBigInt_large n :
  (n < - 2 ^ 63)%Z ∨ (2 ^ 64 ≤ n)%Z →
  formatLogfmtBigInt n = Ret (sign_of (n <? 0)%Z ++ thousands (log_fuel (Z.abs n)) (Z.abs n)).
Proof.
  intros Hn. unfold formatLogfmtBigInt.
  replace ((0 <=? n) && (n <? 2 ^ 64))%Z with false by lia. replace ((- 2 ^ 63 <=? n) && (n <? 2 ^ 63))%Z with false by lia.
  pose proof (big_text_grouped n ltac:(lia)) as Eg. revert Eg. generalize (big_String n) as text. intros text Eg.
  set (size := length text + length text `div` 3).
  pose proof (group_chars_fits (reverse text) 0 ltac:(lia)) as Hfit. rewrite length_reverse in Hfit.
  destruct (write_text_grouped text [] 0 (zeros size) []) as (pre & E & Hlen).
  { unfold zeros. rewrite length_replicate. unfold size. lia. }
  rewrite !app_nil_r in E. unfold zeros in E at 1. rewrite length_replicate in E. rewrite E, ret_bind, Eg.
  unfold zeros in Hlen. rewrite length_replicate, Eg in Hlen.
  replace (Z.of_nat (length pre) - 1 + 1)%Z with (Z.of_nat (length pre)) by lia.
  rewrite slice_Ret by (rewrite length_app; lia). by rewrite take_ge, drop_app_length by (rewrite length_app; lia).
Qed.

Lemma FormatLogfmtUint64_text n : (0 ≤ n < 2 ^ 64)%Z →
  FormatLogfmtUint64 n = Ret (if (n <? 100000)%Z then Itoa n else thousands 7 n).
Proof.
  intros Hn. unfold FormatLogfmtUint64. destruct (Z.ltb_spec n 100000).
  - unfold formatLogfmtUint64. by rewrite (proj2 (Z.ltb_lt _ _)).
  - by rewrite formatLogfmtUint64_large by lia.
Qed.

Definition big_text (n : Z) : bytes :=
  if (Z.abs n <? 100000)%Z then Itoa n else sign_of (n <? 0)%Z ++ thousands (log_fuel (Z.abs n)) (Z.abs n).

Lemma formatLogfmtBigInt_text n : formatLogfmtBigInt n = Ret (big_text n).
Proof.
  destruct (decide ((n < - 2 ^ 63)%Z ∨ (2 ^ 64 ≤ n)%Z)) as [Hl|Hs].
  { rewrite formatLogfmtBigInt_large by done. unfold big_text. by rewrite (proj2 (Z.ltb_ge (Z.abs n) 100000)) by lia. }
  unfold formatLogfmtBigInt, big_text. destruct (Z.leb_spec 0 n); cbn [andb].
  - replace (n <? 2 ^ 64)%Z with true by lia. rewrite FormatLogfmtUint64_text, Z.abs_eq by lia.
    destruct (Z.ltb_spec n 100000); [done|]. rewrite (proj2 (Z.ltb_ge n 0)) by lia. cbn [sign_of app]. f_equal. apply thousands_log; lia.
  - replace ((- 2 ^ 63 <=? n) && (n <? 2 ^ 63))%Z with true by lia.
    destruct (int64_text_spec n) as [-> _]; [unfold is_int64; lia|]. unfold int64_text. destruct (_ <? 100000)%Z; [done|].
    do 2 f_equal. apply thousands_log; lia.
Qed.

Lemma no_commas_big_text n : no_commas (big_text n) = big_String n.
Proof.
  unfold big_text. destruct (Z.ltb_spec (Z.abs n) 100000).
  - rewrite <- Itoa_big by lia. apply no_commas_id, Itoa_not; [left; by vm_compute|done].
  - unfold no_commas. rewrite filter_app. fold (no_commas (thousands (log_fuel (Z.abs n)) (Z.abs n))).
    pose proof (log_fuel_enough 1000 (Z.abs n) ltac:(lia) ltac:(lia)). pose proof (log_fuel_enough 10 (Z.abs n) ltac:(lia) ltac:(lia)).
    rewrite thousands_digits by (unfold log_fuel in *; lia). unfold log_fuel in *. rewrite (digits_enough (Z.to_nat (Z.log2 (Z.abs n)))) by lia.
    unfold big_String, decimal. destruct (Z.ltb_spec n 0).
    + by replace (- n)%Z with (Z.abs n) by lia.
    + by replace n with (Z.abs n) at 3 4 by lia.
Qed.

(** integers of any size are written, in groups of three digits when they
    have more than five; without the commas the text is the decimal number. *)
Theorem formatLogfmtBigInt_spec n :
  ∃ text, formatLogfmtBigInt n = Ret text ∧ no_commas text = big_String n ∧
    (100000 ≤ Z.abs n → text = sign_of (n <? 0) ++ thousands (log_fuel (Z.abs n)) (Z.abs n))%Z.
Proof.
  exists (big_text n). split; [apply formatLogfmtBigInt_text|]. split; [apply no_commas_big_text|].
  intros Hn. unfold big_text. by rewrite (proj2 (Z.ltb_ge _ _)).
Qed.
