(* ===== verification/LogText.v ===== *)
(** * Texts in a log

    [escapeString] of [log/format.go], with what it uses of [strconv] and
    [unicode/utf8]: a value that could be taken for more than one word is quoted. *)

From Stdlib Require Import Strings.Byte Ascii ZifyNat.
From stdpp Require Import base strings numbers list.
From S2P Require Import Prelude Platform Concrete Net.

(** ** [unicode/utf8] *)

(** [utf8.AppendRune] of a valid rune. *)
Definition encode_rune (r : Z) : bytes :=
  if (r <? 128)%Z then [Z_byte r]
  else if (r <? 2048)%Z then [Z_byte (192 + r / 64); Z_byte (128 + r `mod` 64)]
  else if (r <? 65536)%Z then
    [Z_byte (224 + r / 4096); Z_byte (128 + (r / 64) `mod` 64); Z_byte (128 + r `mod` 64)]
  else [Z_byte (240 + r / 262144); Z_byte (128 + (r / 4096) `mod` 64); Z_byte (128 + (r / 64) `mod` 64);
        Z_byte (128 + r `mod` 64)].

(** [utf8.ValidRune]. *)
Definition ValidRune (r : Z) : bool := ((0 <=? r) && (r <? 55296) || (57343 <? r) && (r <=? 1114111))%Z.

Definition RuneCountInString (s : bytes) : Z := Z.of_nat (length (go_range_string s)).

(** Which runes are printable is a table of [strconv]; of the ASCII ones these are
    the characters from the space on. *)
Class Unicode := { IsPrint : Z → bool }.
Class UnicodeLaws `{Unicode} : Prop := {
  IsPrint_ascii r : (0 ≤ r < 128)%Z → IsPrint r = ((32 <=? r) && (r <=? 126))%Z
}.

(** ** [strconv.Quote] *)

Definition lowerhex (n : Z) : byte := nth (Z.to_nat (n `mod` 16)) (str "0123456789abcdef") x00.
Definition backslash : byte := x5c.
Definition quote_byte : byte := x22.

(** The hexadecimal digits of [r], [n] of them. *)
Fixpoint hex_digits (n : nat) (r : Z) : bytes :=
  match n with
  | O => []
  | S n' => hex_digits n' (r / 16) ++ [lowerhex r]
  end.

(** The escapes of one letter. *)
Definition letter_escapes : list (Z * byte) :=
  [(7, "a"%byte); (8, "b"%byte); (12, "f"%byte); (10, "n"%byte); (13, "r"%byte); (9, "t"%byte); (11, "v"%byte)]%Z.
Definition letter_of (r : Z) : option byte := (λ p, p.2.2) <$> list_find (λ p, p.1 = r) letter_escapes.

Section Quote.
Context `{Unicode}.

Definition appendEscapedRune (r : Z) : bytes :=
  if (r =? byte_Z quote_byte)%Z || (r =? byte_Z backslash)%Z then [backslash; Z_byte r]
  else if IsPrint r then encode_rune r
  else
    match letter_of r with
    | Some c => [backslash; c]
    | None =>
        if (r <? 32)%Z || (r =? 127)%Z then backslash :: "x"%byte :: hex_digits 2 r
        else let r := if ValidRune r then r else RuneError in
          if (r <? 65536)%Z then backslash :: "u"%byte :: hex_digits 4 r
          else backslash :: "U"%byte :: hex_digits 8 r
    end.

Fixpoint quote_body (fuel : nat) (s : bytes) : bytes :=
  match fuel, s with
  | S fuel', b :: _ =>
      let '(r, width) := decode_rune s in
      (if bool_decide (width = 1) && (r =? RuneError)%Z then backslash :: "x"%byte :: hex_digits 2 (byte_Z b)
       else appendEscapedRune r) ++ quote_body fuel' (drop width s)
  | _, _ => []
  end.

Definition Quote (s : bytes) : bytes := quote_byte :: quote_body (length s) s ++ [quote_byte].

(** ** [escapeString] *)

Definition quoted_rune (r : Z) : bool := ((r <=? byte_Z quote_byte) || (126 <? r) || (r =? 61))%Z.

Definition escapeString (s : bytes) : bytes :=
  if existsb (λ p, quoted_rune p.2) (go_range_string s) then Quote s else s.
End Quote.

(** ** Runes *)

Lemma between_Some lo hi o z : between lo hi o = Some z → ∃ c, o = Some c ∧ z = byte_Z c ∧ (lo ≤ byte_Z c ≤ hi)%Z.
Proof.
  destruct o as [c|]; [|done]. simpl. destruct (_ && _) eqn:E; [|done]. intros [= <-].
  apply andb_prop in E as [?%Z.leb_le ?%Z.leb_le]. eauto.
Qed.

Lemma byte_of z c : z = byte_Z c → Z_byte z = c.
Proof. intros ->. apply Z_byte_byte_Z. Qed.

Definition second_byte (b0 : Z) (o : option byte) : option Z :=
  if (b0 =? 224)%Z then between 160 191 o
  else if (b0 =? 237)%Z then between 128 159 o
  else if (b0 =? 240)%Z then between 144 191 o
  else if (b0 =? 244)%Z then between 128 143 o
  else between 128 191 o.

Lemma second_byte_Some b0 o z : second_byte b0 o = Some z →
  ∃ c, o = Some c ∧ z = byte_Z c ∧ (128 ≤ z ≤ 191)%Z ∧ (b0 = 224 → 160 ≤ z)%Z ∧ (b0 = 237 → z ≤ 159)%Z ∧
    (b0 = 240 → 144 ≤ z)%Z ∧ (b0 = 244 → z ≤ 143)%Z.
Proof.
  unfold second_byte. intros E.
  repeat match type of E with context [(?x =? ?y)%Z] => destruct (Z.eqb_spec x y); cbv iota in E end;
    apply between_Some in E as (c & -> & -> & Hc); exists c; split_and!; try done; lia.
Qed.

Lemma valid_rune r : (128 ≤ r ≤ 1114111)%Z → (r < 55296 ∨ 57343 < r)%Z → ValidRune r = true.
Proof. intros. unfold ValidRune. destruct (Z.leb_spec 0 r), (Z.ltb_spec r 55296), (Z.ltb_spec 57343 r), (Z.leb_spec r 1114111); simpl; lia. Qed.

Ltac rune_bytes := repeat (apply f_equal2; [symmetry; apply byte_of; lia|]); try reflexivity.

(** What a rune is decoded from. *)
Lemma decode_rune_spec b s r n :
  decode_rune (b :: s) = (r, n) →
  ((byte_Z b < 128)%Z ∧ r = byte_Z b ∧ n = 1) ∨ ((128 ≤ byte_Z b)%Z ∧ r = RuneError ∧ n = 1) ∨
  ((128 ≤ r)%Z ∧ ValidRune r = true ∧ 2 ≤ n ≤ length (b :: s) ∧ take n (b :: s) = encode_rune r).
Proof.
  pose proof (byte_Z_range b) as Hb. intros E. destruct (Z_lt_dec (byte_Z b) 128) as [Hlt|Hge].
  { left. rewrite decode_rune_ascii in E by done. by injection E as <- <-. }
  right. unfold decode_rune in E. change (default 0%Z (byte_Z <$> (b :: s) !! 0)) with (byte_Z b) in E.
  change ((b :: s) !! 1) with (s !! 0) in E. change ((b :: s) !! 2) with (s !! 1) in E. change ((b :: s) !! 3) with (s !! 2) in E.
  fold (second_byte (byte_Z b) (s !! 0)) in E. rewrite (proj2 (Z.ltb_ge _ 128)) in E by lia.
  assert (Hbad : (RuneError, 1) = (r, n) → (128 ≤ byte_Z b)%Z ∧ r = RuneError ∧ n = 1) by (intros [= <- <-]; split_and!; [lia|done..]).
  destruct ((194 <=? byte_Z b) && (byte_Z b <=? 223))%Z eqn:E2; [|destruct ((224 <=? byte_Z b) && (byte_Z b <=? 239))%Z eqn:E3;
    [|destruct ((240 <=? byte_Z b) && (byte_Z b <=? 244))%Z eqn:E4; [|left; apply Hbad; exact E]]];
    (destruct (second_byte (byte_Z b) (s !! 0)) as [b1|] eqn:H1; [|left; apply Hbad; exact E]);
    apply second_byte_Some in H1 as (c1 & H1 & -> & R1); (destruct s as [|c1' s]; [done|]); injection H1 as ->; cbn [mbind option_bind lookup list_lookup] in E.
  - injection E as <- <-. right. split_and!; [lia|apply valid_rune; lia|simpl; lia..|]. unfold encode_rune.
    rewrite (proj2 (Z.ltb_ge _ 128)), (proj2 (Z.ltb_lt _ 2048)) by lia. cbn [take]. rune_bytes.
  - destruct (between 128 191 (s !! 0)) as [b2|] eqn:H2; [|left; apply Hbad; exact E].
    apply between_Some in H2 as (c2 & H2 & -> & R2). destruct s as [|c2' s]; [done|]. injection H2 as ->.
    injection E as <- <-. right. split_and!; [lia|apply valid_rune; lia|simpl; lia..|]. unfold encode_rune.
    rewrite (proj2 (Z.ltb_ge _ 128)), (proj2 (Z.ltb_ge _ 2048)), (proj2 (Z.ltb_lt _ 65536)) by lia. cbn [take]. rune_bytes.
  - destruct (between 128 191 (s !! 0)) as [b2|] eqn:H2; [|left; apply Hbad; exact E].
    apply between_Some in H2 as (c2 & H2 & -> & R2). destruct s as [|c2' s]; [done|]. injection H2 as ->. cbn [mbind option_bind lookup list_lookup] in E.
    destruct (between 128 191 (s !! 0)) as [b3|] eqn:H3; [|left; apply Hbad; exact E].
    apply between_Some in H3 as (c3 & H3 & -> & R3). destruct s as [|c3' s]; [done|]. injection H3 as ->.
    injection E as <- <-. right. split_and!; [lia|apply valid_rune; lia|simpl; lia..|]. unfold encode_rune.
    rewrite (proj2 (Z.ltb_ge _ 128)), (proj2 (Z.ltb_ge _ 2048)), (proj2 (Z.ltb_ge _ 65536)) by lia. cbn [take]. rune_bytes.
Qed.

(** ** Reading a value back

    What [strconv.Unquote] makes of the escapes that [Quote] writes. *)

Definition hex_number (l : bytes) : option Z :=
  foldl (λ acc c, v ← acc; d ← hex_value (ascii_of_byte c); Some (16 * v + d)%Z) (Some 0%Z) l.

Definition escaped_char (e : byte) : option byte :=
  if bool_decide (e = quote_byte) || bool_decide (e = backslash) then Some e
  else (λ p, Z_byte p.2.1) <$> list_find (λ p, p.2 = e) letter_escapes.

Fixpoint unquote_body (s : bytes) : option bytes :=
  match s with
  | [] => None
  | c :: s1 =>
      if bool_decide (c = quote_byte) then (if bool_decide (s1 = []) then Some [] else None)
      else if bool_decide (c = x0a) then None
      else if bool_decide (c = backslash) then
        match s1 with
        | [] => None
        | e :: s2 =>
            if bool_decide (e = "x"%byte) then
              match s2 with
              | a1 :: a2 :: s' => v ← hex_number [a1; a2]; cons (Z_byte v) <$> unquote_body s'
              | _ => None
              end
            else if bool_decide (e = "u"%byte) then
              match s2 with
              | a1 :: a2 :: a3 :: a4 :: s' => v ← hex_number [a1; a2; a3; a4]; app (encode_rune v) <$> unquote_body s'
              | _ => None
              end
            else if bool_decide (e = "U"%byte) then
              match s2 with
              | a1 :: a2 :: a3 :: a4 :: a5 :: a6 :: a7 :: a8 :: s' =>
                  v ← hex_number [a1; a2; a3; a4; a5; a6; a7; a8]; app (encode_rune v) <$> unquote_body s'
              | _ => None
              end
            else b ← escaped_char e; cons b <$> unquote_body s2
        end
      else cons c <$> unquote_body s1
  end.

(** A value that is not quoted is itself. *)
Definition read_value (t : bytes) : option bytes :=
  match t with
  | c :: t' => if bool_decide (c = quote_byte) then unquote_body t' else Some t
  | [] => Some []
  end.

Lemma hex_number_snoc l c : hex_number (l ++ [c]) = (v ← hex_number l; d ← hex_value (ascii_of_byte c); Some (16 * v + d)%Z).
Proof. unfold hex_number. by rewrite foldl_app. Qed.

Lemma hex_value_lowerhex n : hex_value (ascii_of_byte (lowerhex n)) = Some (n `mod` 16)%Z.
Proof.
  unfold lowerhex. assert (Hn : (0 ≤ n `mod` 16 < 16)%Z) by lia. revert Hn. generalize (n `mod` 16)%Z. intros d Hd.
  assert (Hall : forallb (λ d, bool_decide (hex_value (ascii_of_byte (nth (Z.to_nat d) (str "0123456789abcdef") x00)) = Some d)) (seqZ 0 16) = true)
    by (by vm_compute).
  rewrite forallb_forall in Hall. apply (bool_decide_eq_true _), Hall, list_elem_of_In, elem_of_seqZ. lia.
Qed.

Lemma hex_number_digits n r : (0 ≤ r < 16 ^ Z.of_nat n)%Z → hex_number (hex_digits n r) = Some r.
Proof.
  revert r. induction n as [|n IH]; intros r Hr; [cbn in *; f_equal; lia|]. cbn [hex_digits].
  rewrite Nat2Z.inj_succ, Z.pow_succ_r in Hr by lia.
  rewrite hex_number_snoc, IH, hex_value_lowerhex; [cbn; f_equal; lia|]. split; [apply Z.div_pos; lia|apply Z.div_lt_upper_bound; lia].
Qed.

Section Reading.
Context `{UnicodeLaws}.

(** A byte that is read as it is. *)
Definition plain_byte (c : byte) : Prop := c ≠ quote_byte ∧ c ≠ x0a ∧ c ≠ backslash.

Lemma unquote_plain l rest : Forall plain_byte l → unquote_body (l ++ rest) = app l <$> unquote_body rest.
Proof.
  induction 1 as [|c l (H1 & H2 & H3) _ IH]; [by simpl; destruct (unquote_body rest)|]. cbn [app unquote_body].
  rewrite !bool_decide_eq_false_2, IH by done. by destruct (unquote_body rest).
Qed.

Lemma high_plain c : (128 ≤ byte_Z c)%Z → plain_byte c.
Proof. intros Hc. split_and!; intros ->; by vm_compute in Hc. Qed.

Lemma byte_Z_high z : (128 ≤ z < 256)%Z → (128 ≤ byte_Z (Z_byte z))%Z.
Proof. intros Hz. rewrite byte_Z_Z_byte. lia. Qed.

Lemma encode_rune_high r : (128 ≤ r ≤ 1114111)%Z → Forall (λ c, 128 ≤ byte_Z c)%Z (encode_rune r).
Proof.
  intros Hr. unfold encode_rune. rewrite (proj2 (Z.ltb_ge r 128)) by lia.
  destruct (Z.ltb_spec r 2048); [|destruct (Z.ltb_spec r 65536)]; rewrite !Forall_cons, Forall_nil; split_and!; try done; apply byte_Z_high; lia.
Qed.

Lemma ValidRune_range r : ValidRune r = true → (0 ≤ r ≤ 1114111)%Z.
Proof. unfold ValidRune. lia. Qed.

Lemma unquote_x v rest : (0 ≤ v < 256)%Z →
  unquote_body (backslash :: "x"%byte :: hex_digits 2 v ++ rest) = cons (Z_byte v) <$> unquote_body rest.
Proof.
  intros Hv. pose proof (hex_number_digits 2 v ltac:(lia)) as E. change (hex_digits 2 v) with [lowerhex (v / 16); lowerhex v] in *.
  cbn [app unquote_body]. rewrite (bool_decide_eq_true_2 (backslash = backslash)) by done.
  rewrite !(bool_decide_eq_false_2 (backslash = _)) by done. rewrite bool_decide_eq_true_2 by done. by rewrite E.
Qed.

Lemma unquote_u v rest : (0 ≤ v < 65536)%Z →
  unquote_body (backslash :: "u"%byte :: hex_digits 4 v ++ rest) = app (encode_rune v) <$> unquote_body rest.
Proof.
  intros Hv. pose proof (hex_number_digits 4 v ltac:(lia)) as E. cbn [hex_digits app] in *.
  cbn [unquote_body]. rewrite (bool_decide_eq_true_2 (backslash = backslash)) by done.
  rewrite !(bool_decide_eq_false_2 (backslash = _)) by done. rewrite bool_decide_eq_false_2 by done.
  rewrite bool_decide_eq_true_2 by done. by rewrite E.
Qed.

Lemma unquote_U v rest : (0 ≤ v < 2 ^ 32)%Z →
  unquote_body (backslash :: "U"%byte :: hex_digits 8 v ++ rest) = app (encode_rune v) <$> unquote_body rest.
Proof.
  intros Hv. pose proof (hex_number_digits 8 v ltac:(lia)) as E. cbn [hex_digits app] in *.
  cbn [unquote_body]. rewrite (bool_decide_eq_true_2 (backslash = backslash)) by done.
  rewrite !(bool_decide_eq_false_2 (backslash = _)) by done. rewrite !(bool_decide_eq_false_2 ("U"%byte = _)) by done.
  rewrite bool_decide_eq_true_2 by done. by rewrite E.
Qed.
Lemma encode_ascii r : (0 ≤ r < 128)%Z → encode_rune r = [Z_byte r].
Proof. intros Hr. unfold encode_rune. by rewrite (proj2 (Z.ltb_lt r 128)) by lia. Qed.

Lemma letter_of_Some r c : letter_of r = Some c →
  (7 ≤ r ≤ 13)%Z ∧ (97 ≤ byte_Z c)%Z ∧ ∀ rest, unquote_body (backslash :: c :: rest) = cons (Z_byte r) <$> unquote_body rest.
Proof.
  unfold letter_of. intros E. apply fmap_Some in E as ([i [z e]] & Hf & ->). apply list_find_Some in Hf as (Hi & Hz & _).
  simpl in *. subst z. do 7 (destruct i as [|i]; [injection Hi as <- <-; split_and!; [lia..|by vm_compute|reflexivity]|]). done.
Qed.

Lemma plain_ascii r : (32 ≤ r < 127)%Z → r ≠ byte_Z quote_byte → r ≠ byte_Z backslash → plain_byte (Z_byte r).
Proof.
  intros Hr Hq Hb. assert (E : byte_Z (Z_byte r) = r) by (rewrite byte_Z_Z_byte; lia).
  split_and!; intros Ec; rewrite Ec in E; [congruence| |congruence]. vm_compute in E. lia.
Qed.

Lemma appendEscapedRune_read r rest :
  ValidRune r = true → unquote_body (appendEscapedRune r ++ rest) = app (encode_rune r) <$> unquote_body rest.
Proof.
  intros Hv. pose proof (ValidRune_range r Hv) as Hr. unfold appendEscapedRune.
  destruct (Z.eqb_spec r (byte_Z quote_byte)) as [->|Hq]; [reflexivity|].
  destruct (Z.eqb_spec r (byte_Z backslash)) as [->|Hb]; [reflexivity|]. cbn [orb].
  destruct (IsPrint r) eqn:Hp.
  { apply unquote_plain. destruct (Z_lt_dec r 128) as [Hlt|Hge].
    - rewrite IsPrint_ascii in Hp by lia. apply andb_prop in Hp as [?%Z.leb_le ?%Z.leb_le].
      rewrite encode_ascii by lia. apply Forall_singleton, plain_ascii; lia.
    - eapply Forall_impl; [apply encode_rune_high; lia|]. intros c. apply high_plain. }
  destruct (letter_of r) as [c|] eqn:El.
  { destruct (letter_of_Some r c El) as (Hl & _ & Hu). cbn [app]. rewrite Hu, encode_ascii by lia. done. }
  destruct ((r <? 32) || (r =? 127))%Z eqn:Ec.
  { rewrite encode_ascii by lia. rewrite <- !app_comm_cons, unquote_x by lia. done. }
  rewrite Hv. destruct (Z.ltb_spec r 65536).
  - rewrite <- !app_comm_cons. apply unquote_u. lia.
  - rewrite <- !app_comm_cons. apply unquote_U. lia.
Qed.

Lemma quote_body_read fuel s : length s ≤ fuel → unquote_body (quote_body fuel s ++ [quote_byte]) = Some s.
Proof.
  revert s. induction fuel as [|fuel IH]; intros s Hf; [by destruct s; [|simpl in Hf; lia]|].
  destruct s as [|b s]; [done|]. cbn [quote_body]. destruct (decode_rune (b :: s)) as [r n] eqn:E. simpl in Hf.
  assert (Hd : ∀ m, 1 ≤ m → unquote_body (quote_body fuel (drop m (b :: s)) ++ [quote_byte]) = Some (drop m (b :: s))).
  { intros m Hm. apply IH. rewrite length_drop. simpl. lia. }
  pose proof (byte_Z_range b) as Hb. rewrite <- app_assoc.
  destruct (decode_rune_spec b s r n E) as [(Hlt & -> & ->)|[(Hge & -> & ->)|(Hge & Hv & Hn & Ht)]].
  - rewrite (proj2 (Z.eqb_neq (byte_Z b) RuneError)), andb_false_r by (unfold RuneError; lia).
    rewrite appendEscapedRune_read, Hd by first [unfold ValidRune; lia|lia]. rewrite encode_ascii, Z_byte_byte_Z by lia. done.
  - rewrite bool_decide_eq_true_2, Z.eqb_refl by done. cbn [andb]. rewrite <- !app_comm_cons, unquote_x, Hd, Z_byte_byte_Z by lia. done.
  - rewrite bool_decide_eq_false_2 by lia. cbn [andb]. rewrite appendEscapedRune_read, Hd by (done || lia).
    rewrite <- Ht. cbn [fmap option_fmap option_map]. by rewrite take_drop.
Qed.

(** A byte that neither ends a line nor moves the cursor. *)
Definition visible (c : byte) : Prop := (32 ≤ byte_Z c)%Z ∧ byte_Z c ≠ 127%Z.
(** A byte of a word that needs no quotes. *)
Definition word_byte (c : byte) : Prop := (35 ≤ byte_Z c ≤ 126)%Z ∧ byte_Z c ≠ 61%Z.

Lemma lowerhex_visible n : visible (lowerhex n).
Proof.
  unfold lowerhex. assert (Hn : (Z.to_nat (n `mod` 16) < 16)%nat) by lia. revert Hn. generalize (Z.to_nat (n `mod` 16)). intros k Hk.
  do 16 (destruct k as [|k]; [split; by vm_compute|]). lia.
Qed.

Lemma hex_digits_visible n r : Forall visible (hex_digits n r).
Proof.
  revert r. induction n as [|n IH]; intros r; [constructor|]. cbn [hex_digits].
  apply Forall_app. split; [apply IH|apply Forall_singleton, lowerhex_visible].
Qed.

Lemma backslash_visible : visible backslash.
Proof. split; by vm_compute. Qed.

Lemma byte_visible r : (32 ≤ r < 127)%Z → visible (Z_byte r).
Proof. intros Hr. split; rewrite byte_Z_Z_byte; lia. Qed.

Lemma escape_visible c n r : visible c → Forall visible (backslash :: c :: hex_digits n r).
Proof. intros Hc. rewrite !Forall_cons. split_and!; [apply backslash_visible|done|apply hex_digits_visible]. Qed.

Lemma appendEscapedRune_visible r : ValidRune r = true → Forall visible (appendEscapedRune r).
Proof.
  intros Hv. pose proof (ValidRune_range r Hv) as Hr. unfold appendEscapedRune.
  assert (Hpair : ∀ c, visible c → Forall visible [backslash; c]).
  { intros c Hc. rewrite !Forall_cons. split_and!; [apply backslash_visible|done|constructor]. }
  destruct ((r =? _)%Z || (r =? _)%Z) eqn:Eq.
  { apply Hpair. apply orb_prop in Eq as [->%Z.eqb_eq | ->%Z.eqb_eq]; apply byte_visible; by vm_compute. }
  destruct (IsPrint r) eqn:Hp.
  { destruct (Z_lt_dec r 128) as [Hlt|Hge].
    - rewrite IsPrint_ascii in Hp by lia. rewrite encode_ascii by lia. apply Forall_singleton, byte_visible. lia.
    - eapply Forall_impl; [apply encode_rune_high; lia|]. intros c Hc. cbv beta in Hc. split; lia. }
  destruct (letter_of r) as [c|] eqn:El.
  { apply Hpair. unfold letter_of in El. apply fmap_Some in El as ([i [z e]] & Hf & ->). apply list_find_Some in Hf as (Hi & _ & _).
    do 7 (destruct i as [|i]; [injection Hi as <- <-; split; by vm_compute|]). done. }
  assert (Hx : visible "x"%byte ∧ visible "u"%byte ∧ visible "U"%byte) by (split_and!; by vm_compute).
  rewrite Hv. destruct Hx as (Hx & Hu & HU). destruct ((r <? 32) || (r =? 127))%Z; [|destruct (r <? 65536)%Z]; by apply escape_visible.
Qed.

Lemma quote_body_visible fuel s : Forall visible (quote_body fuel s).
Proof.
  revert s. induction fuel as [|fuel IH]; intros s; [constructor|]. destruct s as [|b s]; [constructor|].
  cbn [quote_body]. destruct (decode_rune (b :: s)) as [r n] eqn:E. apply Forall_app. split; [|apply IH].
  assert (Hx : visible "x"%byte) by (split; by vm_compute). pose proof (byte_Z_range b) as Hb.
  destruct (bool_decide (n = 1) && (r =? RuneError)%Z) eqn:Eb; [by apply escape_visible|].
  destruct (decode_rune_spec b s r n E) as [(Hlt & -> & ->)|[(Hge & -> & ->)|(Hge & Hv & Hn & Ht)]].
  - apply appendEscapedRune_visible. unfold ValidRune. lia.
  - by rewrite bool_decide_eq_true_2, Z.eqb_refl in Eb.
  - by apply appendEscapedRune_visible.
Qed.

Lemma word_runes fuel i s :
  length s ≤ fuel → existsb (λ p, quoted_rune p.2) (runes_from fuel i s) = false → Forall word_byte s.
Proof.
  revert i s. induction fuel as [|fuel IH]; intros i s Hf He; [by destruct s; [|simpl in Hf; lia]|].
  destruct s as [|b s]; [constructor|]. cbn [runes_from] in He. destruct (decode_rune (b :: s)) as [r n] eqn:E. simpl in Hf.
  cbn [existsb snd] in He. apply orb_false_elim in He as [Hr He]. unfold quoted_rune in Hr.
  change (byte_Z quote_byte) with 34%Z in Hr.
  destruct (decode_rune_spec b s r n E) as [(Hlt & -> & ->)|[(Hge & -> & ->)|(Hge & Hv & Hn & Ht)]].
  - apply Forall_cons. split; [split; lia|]. eapply IH; [|exact He]. lia.
  - by vm_compute in Hr.
  - lia.
Qed.

Lemma word_visible s : Forall word_byte s → Forall visible s.
Proof. intros Hw. eapply Forall_impl; [exact Hw|]. intros c [Hc Hd]. split; lia. Qed.

Lemma escapeString_cases s : escapeString s = Quote s ∨ escapeString s = s ∧ Forall word_byte s.
Proof.
  unfold escapeString. destruct (existsb _ _) eqn:E; [by left|]. right. split; [done|]. by eapply word_runes; [|exact E].
Qed.

Lemma escapeString_visible s : Forall visible (escapeString s).
Proof.
  destruct (escapeString_cases s) as [->|[-> Hw]]; [|by apply word_visible]. unfold Quote.
  apply Forall_cons. split; [split; by vm_compute|]. apply Forall_app. split; [apply quote_body_visible|].
  apply Forall_singleton. split; by vm_compute.
Qed.

(** C32: a value in a log can be read back, and cannot be taken for anything else: it
    is one word without spaces, equal signs and quotes, or it is quoted; and whatever
    bytes it is made of, it is written without line ends and control characters. *)
Theorem escapeString_reads_back s :
  read_value (escapeString s) = Some s ∧ Forall visible (escapeString s) ∧
  (Forall word_byte (escapeString s) ∨ escapeString s = Quote s).
Proof.
  split; [|split; [apply escapeString_visible|]].
  - destruct (escapeString_cases s) as [->|[-> Hw]]; unfold read_value.
    + unfold Quote. rewrite bool_decide_eq_true_2 by done. by apply quote_body_read.
    + destruct s as [|c s]; [done|]. apply Forall_cons in Hw as [[Hc _] _].
      rewrite bool_decide_eq_false_2; [done|]. intros ->. change (byte_Z quote_byte) with 34%Z in Hc. lia.
  - destruct (escapeString_cases s) as [->|[-> Hw]]; [by right|by left].
Qed.
End Reading.

(** ** An instance *)

Module LogTextDemo.
#[export] Instance ascii_unicode : Unicode := { IsPrint r := ((32 <=? r) && (r <=? 126))%Z }.
#[export] Instance ascii_unicode_laws : UnicodeLaws.
Proof. by constructor. Qed.

(** A text with a line end, a quote, a byte that is no rune, and a rune of two bytes. *)
Definition odd_text : bytes := [x61; x0a; x22; xff; xc3; xa9].

Lemma escapeString_reads_back_witness :
  read_value (escapeString odd_text) = Some odd_text ∧ Forall visible (escapeString odd_text) ∧
  escapeString odd_text = quote_byte :: str "a\n\" ++ quote_byte :: str "\xff\u00e9" ++ [quote_byte].
Proof.
  destruct (escapeString_reads_back odd_text) as (H1 & H2 & _). split; [exact H1|]. split; [exact H2|]. vm_compute. reflexivity.
Defined.
End LogTextDemo.
