(* ===== verification/Log.v ===== *)
(** * Loggers and handlers

    [log/logger.go], [log/root.go] and [log/handler.go]: records with their context
    of keys and values, the loggers that make them, and the handlers that filter,
    complete and pass them on.  The handlers with a channel are in [LogBuffer.v]. *)

From Stdlib Require Import Strings.Byte ZifyNat.
From stdpp Require Import base strings numbers gmap list.
From S2P Require Import Prelude Float64 Platform Concrete Net LogNumbers LogText.

(** ** Levels *)

Abbreviation Lvl := Z.
Definition LvlCrit : Lvl := 0.
Definition LvlError : Lvl := 1.
Definition LvlWarn : Lvl := 2.
Definition LvlInfo : Lvl := 3.
Definition LvlDebug : Lvl := 4.
Definition LvlTrace : Lvl := 5.

Definition AlignedString (l : Lvl) : outcome bytes :=
  if (l =? LvlTrace)%Z then Ret (str "TRACE")
  else if (l =? LvlDebug)%Z then Ret (str "DEBUG")
  else if (l =? LvlInfo)%Z then Ret (str "INFO ")
  else if (l =? LvlWarn)%Z then Ret (str "WARN ")
  else if (l =? LvlError)%Z then Ret (str "ERROR")
  else if (l =? LvlCrit)%Z then Ret (str "CRIT ")
  else Panic PBadLevel.

Definition Lvl_String (l : Lvl) : outcome bytes :=
  if (l =? LvlTrace)%Z then Ret (str "trce")
  else if (l =? LvlDebug)%Z then Ret (str "dbug")
  else if (l =? LvlInfo)%Z then Ret (str "info")
  else if (l =? LvlWarn)%Z then Ret (str "warn")
  else if (l =? LvlError)%Z then Ret (str "eror")
  else if (l =? LvlCrit)%Z then Ret (str "crit")
  else Panic PBadLevel.

(** The level that is returned with the error is the one of debugging. *)
Definition LvlFromString (lvlString : bytes) : Lvl * option goerror :=
  if bool_decide (lvlString ∈ [str "trace"; str "trce"]) then (LvlTrace, None)
  else if bool_decide (lvlString ∈ [str "debug"; str "dbug"]) then (LvlDebug, None)
  else if bool_decide (lvlString = str "info") then (LvlInfo, None)
  else if bool_decide (lvlString = str "warn") then (LvlWarn, None)
  else if bool_decide (lvlString ∈ [str "error"; str "eror"]) then (LvlError, None)
  else if bool_decide (lvlString = str "crit") then (LvlCrit, None)
  else (LvlDebug, Some (EFmt "unknown level: %v" [ABytes lvlString])).

(** ** Values

    A time is what its formats show of it. *)
Record Time := mkTime {
  t_year : Z; t_month : Z; t_day : Z; t_hour : Z; t_minute : Z; t_second : Z; t_nanosecond : Z; t_zone : Z
}.
#[export] Instance Time_eq_dec : EqDecision Time.
Proof. solve_decision. Defined.

Inductive int_kind := Int | Int8 | Int16 | Int32 | Int64 | Uint | Uint8 | Uint16 | Uint32 | Uint64.
#[export] Instance int_kind_eq_dec : EqDecision int_kind.
Proof. solve_decision. Defined.

(** A call site of [go-stack]: its program counter and its texts under the verbs. *)
Record Call := mkCall { c_PC : Z; c_String : bytes; c_verb : bytes → bytes }.

(** A value of another type: its type, what identifies it among the values of that
    type, whether the type can be compared, its methods where it has them, and whether
    it is a nil pointer. *)
Record object := mkObject {
  ob_type : Z;
  ob_id : Z;
  ob_comparable : bool;
  ob_nil : bool;
  ob_TerminalString : option (outcome bytes);
  ob_Error : option (outcome bytes);
  ob_String : option (outcome bytes)
}.

(** A [Ctx] is its pairs in the order in which the map is visited; a [Lazy] holds a
    function with the number of its arguments and its results, or something else. *)
Inductive value :=
| VNil
| VBool (b : bool)
| VInt (k : int_kind) (z : Z)
| VFloat (single : bool) (f : float64)
| VString (s : bytes)
| VTime (t : Time)
| VBigInt (n : option Z)
| VLvl (l : Lvl)
| VError (e : goerror)
| VObject (o : object)
| VStack (frames : list Call)
| VSlice (vs : list value)
| VCtx (pairs : list (bytes * value))
| VLazy (fn : option (bool * nat * list value)) (printed : bytes).

(** [==] of two interface values: false for different types, and a panic for two
    values of a type that cannot be compared; two lazy values are taken to hold
    functions of one type.  Pointers to integers are the same only
    when they are the same pointer, which the model does not tell: two of them are
    taken to be different. *)
Definition value_eq (a b : value) : outcome bool :=
  match a, b with
  | VNil, VNil => Ret true
  | VBool x, VBool y => Ret (bool_decide (x = y))
  | VInt k x, VInt l y => Ret (bool_decide (k = l) && (x =? y)%Z)
  | VFloat s x, VFloat t y => Ret (bool_decide (s = t) && f64_eqb x y)
  | VString x, VString y => Ret (bool_decide (x = y))
  | VTime x, VTime y => Ret (bool_decide (x = y))
  | VBigInt None, VBigInt None => Ret true
  | VLvl x, VLvl y => Ret (x =? y)%Z
  | VError x, VError y => Ret (bool_decide (x = y))
  | VObject x, VObject y =>
      if (ob_type x =? ob_type y)%Z
      then (if ob_comparable x then Ret (ob_id x =? ob_id y)%Z else Panic PUncomparable)
      else Ret false
  | VStack _, VStack _ | VSlice _, VSlice _ | VCtx _, VCtx _ => Panic PUncomparable
  | VLazy _ _, VLazy _ _ => Panic PUncomparable
  | _, _ => Ret false
  end.

(** ** Records *)

Definition timeKey : bytes := str "t".
Definition lvlKey : bytes := str "lvl".
Definition msgKey : bytes := str "msg".
Definition ctxKey : bytes := str "ctx".
Definition errorKey : bytes := str "LOG15_ERROR".

Record RecordKeyNames := mkKeyNames { kn_Time : bytes; kn_Msg : bytes; kn_Lvl : bytes; kn_Ctx : bytes }.

(** The type [Record] of the source. *)
Record Rec := mkRec {
  r_Time : Time; r_Lvl : Lvl; r_Msg : bytes; r_Ctx : list value; r_Call : Call; r_KeyNames : RecordKeyNames
}.
Definition set_Ctx (ctx : list value) (r : Rec) : Rec := mkRec (r_Time r) (r_Lvl r) (r_Msg r) ctx (r_Call r) (r_KeyNames r).
Definition append_Ctx (more : list value) (r : Rec) : Rec := set_Ctx (r_Ctx r ++ more) r.

Definition toArray (c : list (bytes * value)) : list value := c ≫= λ p, [VString p.1; p.2].

Definition odd_message : bytes := str "Normalized odd number of arguments by adding nil".
Definition normalize (ctx : list value) : list value :=
  let ctx := match ctx with [VCtx ctxMap] => toArray ctxMap | _ => ctx end in
  if Nat.odd (length ctx) then ctx ++ [VNil; VString errorKey; VString odd_message] else ctx.

Definition newContext (prefix suffix : list value) : list value :=
  let normalizedSuffix := normalize suffix in
  let newCtx := replicate (length prefix + length normalizedSuffix) VNil in
  let n := length prefix `min` length newCtx in
  go_copy_at (go_copy newCtx prefix) n normalizedSuffix.

(** ** Handlers

    What the handlers and formats share: the paddings and the alignment that the
    formats remember, which mutexes are locked, and what has been written where. *)

Record World := mkWorld {
  fieldPadding : gmap bytes Z;
  locationEnabled : bool;
  locationLength : Z;
  locked : gset Z;
  written : gmap Z (list bytes)
}.

(** A handler gets a pointer to the record: it can change it for its caller. *)
Definition Handler : Type := st (Rec * World) unit.
Definition Format : Type := Rec → st World bytes.
Definition writer : Type := bytes → st World unit.

Definition the_record : st (Rec * World) Rec := λ s, (Ret s.1, s).
Definition change_record (f : Rec → Rec) : Handler := λ s, (Ret tt, (f s.1, s.2)).
Definition in_world {A} (m : st World A) : st (Rec * World) A := λ s, let '(a, w) := m s.2 in (a, (s.1, w)).

Definition set_locked (l : gset Z) (w : World) : World :=
  mkWorld (fieldPadding w) (locationEnabled w) (locationLength w) l (written w).
Definition set_written (l : gmap Z (list bytes)) (w : World) : World :=
  mkWorld (fieldPadding w) (locationEnabled w) (locationLength w) (locked w) l.
Definition set_padding (p : gmap bytes Z) (w : World) : World :=
  mkWorld p (locationEnabled w) (locationLength w) (locked w) (written w).
Definition set_locationLength (n : Z) (w : World) : World :=
  mkWorld (fieldPadding w) (locationEnabled w) n (locked w) (written w).

(** A mutex that is locked when it is asked for again is never given. *)
Definition SyncHandler (mu : Z) (h : Handler) : Handler := λ '(r, w),
  if bool_decide (mu ∈ locked w) then (OutOfFuel, (r, w))
  else let '(res, (r', w')) := h (r, set_locked ({[mu]} ∪ locked w) w) in (res, (r', set_locked (locked w' ∖ {[mu]}) w')).

Definition FilterHandler (fn : Rec → outcome bool) (h : Handler) : Handler :=
  r ← the_record; pass ← lift (fn r); if pass : bool then h else mret tt.

Fixpoint match_ctx (key : bytes) (v : value) (ctx : list value) : outcome bool :=
  match ctx with
  | [] => Ret false
  | k :: rest =>
      same ← value_eq k (VString key);
      if same : bool then x ← index rest 0; value_eq x v
      else match rest with [] => Ret false | _ :: rest' => match_ctx key v rest' end
  end.
Definition MatchFilterHandler (key : bytes) (v : value) (h : Handler) : Handler :=
  FilterHandler (λ r,
    if bool_decide (key = kn_Lvl (r_KeyNames r)) then value_eq (VLvl (r_Lvl r)) v
    else if bool_decide (key = kn_Time (r_KeyNames r)) then value_eq (VTime (r_Time r)) v
    else if bool_decide (key = kn_Msg (r_KeyNames r)) then value_eq (VString (r_Msg r)) v
    else match_ctx key v (r_Ctx r)) h.

Definition LvlFilterHandler (maxLvl : Lvl) (h : Handler) : Handler := FilterHandler (λ r, Ret (r_Lvl r <=? maxLvl)%Z) h.

Fixpoint MultiHandler (hs : list Handler) : Handler :=
  match hs with
  | [] => mret tt
  | h :: hs' => _ ← drop_err h; MultiHandler hs'
  end.

(** [err] is the error of the handler before, or none. *)
Fixpoint failover (i : Z) (err : option goerror) (hs : list Handler) : Handler :=
  match hs with
  | [] => match err with None => mret tt | Some e => fail e end
  | h :: hs' => λ s,
      match h s with
      | (Err e, s') => (_ ← change_record (append_Ctx [VString (str "failover_err_" ++ Itoa i); VError e]); failover (i + 1) (Some e) hs') s'
      | r => r
      end
  end.
Definition FailoverHandler (hs : list Handler) : Handler := failover 0 None hs.

Definition CallerFileHandler (h : Handler) : Handler :=
  _ ← change_record (λ r, append_Ctx [VString (str "caller"); VString (c_verb (r_Call r) (str "%v"))] r); h.
Definition CallerFuncHandler (h : Handler) : Handler :=
  _ ← change_record (λ r, append_Ctx [VString (str "fn"); VString (c_verb (r_Call r) (str "%+n"))] r); h.

Definition DiscardHandler : Handler := mret tt.

(** [go-stack] and the errors' texts are not in the repository; [fmt] prints what
    the formats do not know. *)
Class LogLibs := {
  Trace : list Call;
  TrimBelow : list Call → Call → list Call;
  TrimRuntime : list Call → list Call;
  Sprintf_stack : bytes → list Call → bytes;
  error_text : goerror → bytes;
  Sprint : value → bytes
}.

Section Handlers.
Context `{LogLibs}.

Definition CallerStackHandler (format : bytes) (h : Handler) : Handler :=
  _ ← change_record (λ r,
        let s := TrimRuntime (TrimBelow Trace (r_Call r)) in
        if (0 <? Z.of_nat (length s))%Z then append_Ctx [VString (str "stack"); VString (Sprintf_stack format s)] r else r);
  h.

Definition lazy_error (what : string) (printed : bytes) : goerror := EFmt what [ABytes printed].
Definition evaluateLazy (fn : option (bool * nat * list value)) (printed : bytes) : outcome value :=
  '(isfunc, nin, results) ← deref fn;
  if negb isfunc then Err (lazy_error "INVALID_LAZY, not func: %+v" printed)
  else if (0 <? Z.of_nat nin)%Z then Err (lazy_error "INVALID_LAZY, func takes args: %+v" printed)
  else match results with
       | [] => Err (lazy_error "INVALID_LAZY, no func return val: %+v" printed)
       | [v] => Ret v
       | values => Ret (VSlice values)
       end.

(** The values of the context, with what the functions return. *)
Fixpoint lazy_ctx (call : Call) (ctx : list value) : outcome (list value * bool) :=
  match ctx with
  | k :: v :: rest =>
      v' ← match v with
           | VLazy fn printed =>
               match evaluateLazy fn printed with
               | Ret (VStack cs) => Ret (VStack (TrimRuntime (TrimBelow cs call)), false)
               | Ret v => Ret (v, false)
               | Err e => Ret (VError e, true)
               | Panic p => Panic p
               | OutOfFuel => OutOfFuel
               end
           | _ => Ret (v, false)
           end;
      r ← lazy_ctx call rest;
      Ret (k :: v'.1 :: r.1, v'.2 || r.2)
  | _ => Ret (ctx, false)
  end.
Definition LazyHandler (h : Handler) : Handler :=
  r ← the_record;
  c ← lift (lazy_ctx (r_Call r) (r_Ctx r));
  _ ← change_record (set_Ctx (c.1 ++ (if c.2 : bool then [VString errorKey; VString (str "bad lazy")] else [])));
  h.

Definition write_to (wr : writer) (fmtr : Format) : Handler :=
  r ← the_record; text ← in_world (fmtr r); in_world (wr text).
Definition StreamHandler (mu : Z) (wr : writer) (fmtr : Format) : Handler := LazyHandler (SyncHandler mu (write_to wr fmtr)).

(** A file or a connection is opened by the operating system. *)
Definition FileHandler (mu : Z) (opened : outcome writer) (fmtr : Format) : outcome Handler :=
  f ← opened; Ret (StreamHandler mu f fmtr).
Definition NetHandler (mu : Z) (dialed : outcome writer) (fmtr : Format) : outcome Handler :=
  conn ← dialed; Ret (StreamHandler mu conn fmtr).
Definition must (r : outcome Handler) : outcome Handler := match r with Err e => Panic (PError e) | r => r end.
Definition Must_FileHandler (mu : Z) (opened : outcome writer) (fmtr : Format) : outcome Handler := must (FileHandler mu opened fmtr).
Definition Must_NetHandler (mu : Z) (dialed : outcome writer) (fmtr : Format) : outcome Handler := must (NetHandler mu dialed fmtr).
End Handlers.

(** ** Loggers

    The handler of a logger is in a box of its own, a [swapHandler]; the box of a new
    logger holds the box of the logger it was made from.  [boxes] is the store of all
    of them. *)

Inductive boxed := Fun (h : Handler) | Box (b : nat).
Abbreviation boxes := (gmap nat boxed).

(** An empty box is a nil pointer; boxes in a circle never end. *)
Fixpoint Log_to (fuel : nat) (bs : boxes) (h : boxed) : Handler :=
  match h with
  | Fun h => h
  | Box b =>
      match fuel with
      | O => lift OutOfFuel
      | S fuel' => match bs !! b with None => lift (Panic PNil) | Some h => Log_to fuel' bs h end
      end
  end.

Record logger := mkLogger { lg_ctx : list value; lg_h : nat }.

(** What [time.Now] and [stack.Caller] return. *)
Record moment := mkMoment { m_now : Time; m_call : Call }.

Definition record_of (lg : logger) (msg : bytes) (lvl : Lvl) (ctx : list value) (m : moment) : Rec :=
  mkRec (m_now m) lvl msg (newContext (lg_ctx lg) ctx) (m_call m) (mkKeyNames timeKey msgKey lvlKey ctxKey).

(** The error of the handler is dropped, and nobody else has the record. *)
Definition logger_write (fuel : nat) (bs : boxes) (lg : logger) (msg : bytes) (lvl : Lvl) (ctx : list value) (m : moment) : st World unit :=
  λ w, let '(res, (_, w')) := drop_err (Log_to fuel bs (Box (lg_h lg))) (record_of lg msg lvl ctx m, w) in (res, w').

Definition logger_New (ctx : list value) (lg : logger) (bs : boxes) : logger * boxes :=
  let b := fresh (dom bs) in
  (mkLogger (newContext (lg_ctx lg) ctx) b, <[b := Box (lg_h lg)]> bs).
Definition logger_SetHandler (h : boxed) (lg : logger) (bs : boxes) : boxes := <[lg_h lg := h]> bs.
Definition logger_GetHandler (lg : logger) (bs : boxes) : outcome boxed := deref (bs !! lg_h lg).

Definition logger_Trace fuel bs lg msg := logger_write fuel bs lg msg LvlTrace.
Definition logger_Debug fuel bs lg msg := logger_write fuel bs lg msg LvlDebug.
Definition logger_Info fuel bs lg msg := logger_write fuel bs lg msg LvlInfo.
Definition logger_Warn fuel bs lg msg := logger_write fuel bs lg msg LvlWarn.
Definition logger_Error fuel bs lg msg := logger_write fuel bs lg msg LvlError.
(** A critical message ends the program. *)
Definition logger_Crit fuel bs lg msg ctx m : st World unit :=
  _ ← logger_write fuel bs lg msg LvlCrit ctx m; lift (Panic PExit).

(** The root of all loggers, in the first box. *)
Definition root : logger := mkLogger [] 0.
Definition init_boxes : boxes := {[ 0 := Fun DiscardHandler ]}.

(** The functions of the package write with the root logger, and not by its methods,
    so that the call site is as many calls away. *)
Definition Root : logger := root.
Definition log_New (ctx : list value) (bs : boxes) : logger * boxes := logger_New ctx root bs.
Definition log_Trace fuel bs msg := logger_write fuel bs root msg LvlTrace.
Definition log_Debug fuel bs msg := logger_write fuel bs root msg LvlDebug.
Definition log_Info fuel bs msg := logger_write fuel bs root msg LvlInfo.
Definition log_Warn fuel bs msg := logger_write fuel bs root msg LvlWarn.
Definition log_Error fuel bs msg := logger_write fuel bs root msg LvlError.
Definition log_Crit fuel bs msg ctx m : st World unit :=
  _ ← logger_write fuel bs root msg LvlCrit ctx m; lift (Panic PExit).
(** [skipped] is the moment with the call site that many calls away. *)
Definition skipLevel : Z := 2.
Definition Output fuel bs msg lvl (calldepth : Z) ctx (skipped : Z → moment) : st World unit :=
  logger_write fuel bs root msg lvl ctx (skipped (calldepth + skipLevel)%Z).

(** ** The contexts are pairs *)

Definition paired (ctx : list value) : Prop := Nat.Even (length ctx).

Lemma toArray_paired c : paired (toArray c).
Proof.
  unfold paired, toArray. induction c as [|p c IH]; [by exists 0|]. cbn [mbind list_bind]. rewrite length_app.
  destruct IH as [n E]. exists (S n). simpl. lia.
Qed.

Lemma normalize_paired ctx : paired (normalize ctx).
Proof.
  unfold normalize. cbv zeta. generalize (match ctx with [VCtx m] => toArray m | _ => ctx end). intros c.
  unfold paired. destruct (Nat.odd (length c)) eqn:E.
  - rewrite length_app. apply Nat.odd_spec in E as [n E]. exists (n + 2). simpl. lia.
  - apply Nat.even_spec. by rewrite <- Nat.negb_odd, E.
Qed.

(** The copies put the two contexts next to each other. *)
Lemma newContext_app prefix suffix : newContext prefix suffix = prefix ++ normalize suffix.
Proof.
  unfold newContext. cbv zeta. generalize (normalize suffix). intros s.
  assert (E : go_copy (replicate (length prefix + length s) VNil) prefix = prefix ++ replicate (length s) VNil).
  { unfold go_copy. rewrite length_replicate, take_ge by lia. f_equal. rewrite drop_replicate. f_equal. lia. }
  rewrite E. replace (length prefix `min` length (replicate (length prefix + length s) VNil)) with (length prefix)
    by (rewrite length_replicate; lia).
  unfold go_copy_at. rewrite take_app_length, drop_app_length. f_equal. unfold go_copy.
  rewrite length_replicate, take_ge, drop_ge by (rewrite ?length_replicate; lia). by rewrite app_nil_r.
Qed.

Lemma paired_app c c' : paired c → paired c' → paired (c ++ c').
Proof. unfold paired. rewrite length_app. intros [n E] [m E']. exists (n + m). lia. Qed.

Lemma newContext_paired prefix suffix : paired prefix → paired (newContext prefix suffix).
Proof. rewrite newContext_app. intros Hp. apply paired_app; [done|apply normalize_paired]. Qed.

(** A value of the source: its integers fit their types, and its methods and the
    results of its functions do not read past the end of a slice themselves. *)
Definition int_range (k : int_kind) (z : Z) : Prop :=
  match k with
  | Int8 => - 2 ^ 7 ≤ z < 2 ^ 7
  | Int16 => - 2 ^ 15 ≤ z < 2 ^ 15
  | Int32 => - 2 ^ 31 ≤ z < 2 ^ 31
  | Int | Int64 => - 2 ^ 63 ≤ z < 2 ^ 63
  | Uint8 => 0 ≤ z < 2 ^ 8
  | Uint16 => 0 ≤ z < 2 ^ 16
  | Uint32 => 0 ≤ z < 2 ^ 32
  | Uint | Uint64 => 0 ≤ z < 2 ^ 64
  end%Z.
Definition no_index {A} (o : outcome A) : Prop := o ≠ Panic PIndex.
Definition good_method (m : option (outcome bytes)) : Prop := match m with Some m => no_index m | None => True end.
Fixpoint good (v : value) : Prop :=
  match v with
  | VInt k z => int_range k z
  | VObject o => good_method (ob_TerminalString o) ∧ good_method (ob_Error o) ∧ good_method (ob_String o)
  | VCtx pairs => foldr (λ p P, good p.2 ∧ P) True pairs
  | VLazy (Some (_, _, results)) _ => foldr (λ v P, good v ∧ P) True results
  | _ => True
  end.
Definition good_ctx (ctx : list value) : Prop := paired ctx ∧ Forall good ctx.

Lemma toArray_good c : foldr (λ p P, good p.2 ∧ P) True c → Forall good (toArray c).
Proof.
  unfold toArray. induction c as [|p c IH]; [constructor|]. intros [Hp Hc]. cbn [mbind list_bind app].
  rewrite !Forall_cons. split; [done|]. split; [done|]. by apply IH.
Qed.

Lemma normalize_good ctx : Forall good ctx → good_ctx (normalize ctx).
Proof.
  intros Hg. split; [apply normalize_paired|]. unfold normalize. cbv zeta.
  assert (Hc : Forall good (match ctx with [VCtx m] => toArray m | _ => ctx end)).
  { destruct ctx as [|v [|]]; [done| |by destruct v]. destruct v; try done. apply toArray_good. by inversion_clear Hg. }
  destruct (Nat.odd _); [|done]. apply Forall_app. split; [done|]. rewrite !Forall_cons. by split_and!.
Qed.

Lemma newContext_good prefix suffix : good_ctx prefix → Forall good suffix → good_ctx (newContext prefix suffix).
Proof.
  intros [Hp Hg] Hs. destruct (normalize_good suffix Hs) as [Hn Hgn]. rewrite newContext_app.
  split; [by apply paired_app|]. by apply Forall_app.
Qed.
