(* ===== verification/LogFormat.v ===== *)
(** * Formats of records

    [log/format.go]: values as text, records as lines for a terminal, for [logfmt]
    and as JSON.  What [encoding/json] makes of an object is an argument. *)

From Stdlib Require Import Strings.Byte ZifyNat.
From stdpp Require Import base strings numbers gmap list.
From S2P Require Import Prelude Float64 Platform Concrete Net LogNumbers LogText Log.

(** ** Times *)

(** A number with at least [n] digits. *)
Definition padded (n : nat) (z : Z) : bytes :=
  let d := digits 20 (Z.abs z) in (if (z <? 0)%Z then str "-" else []) ++ replicate (n - length d) "0"%byte ++ d.

(** ["2006-01-02T15:04:05-0700"]; the zone is in seconds to the east. *)
Definition format_time (t : Time) : bytes :=
  padded 4 (t_year t) ++ str "-" ++ padded 2 (t_month t) ++ str "-" ++ padded 2 (t_day t) ++ str "T" ++
  padded 2 (t_hour t) ++ str ":" ++ padded 2 (t_minute t) ++ str ":" ++ padded 2 (t_second t) ++
  (let zone := (t_zone t ÷ 60)%Z in
   (if (zone <? 0)%Z then str "-" else str "+") ++ padded 2 (Z.abs zone / 60) ++ padded 2 (Z.abs zone `mod` 60)).

(** ["01-02|15:04:05.000"]. *)
Definition format_term_time (t : Time) : bytes :=
  padded 2 (t_month t) ++ str "-" ++ padded 2 (t_day t) ++ str "|" ++ padded 2 (t_hour t) ++ str ":" ++
  padded 2 (t_minute t) ++ str ":" ++ padded 2 (t_second t) ++ str "." ++ padded 3 (t_nanosecond t / 1000000).

(** ** Values *)

Section Values.
Context `{Unicode} `{LogLibs}.

(** What a value shows of itself: a text, or the value. *)
Definition method_result (o : object) (m : outcome bytes) : outcome (bytes + value) :=
  match m with
  | Ret s => Ret (inl s)
  | Panic p => if ob_nil o then Ret (inl (str "nil")) else Panic p
  | Err e => Err e
  | OutOfFuel => OutOfFuel
  end.
Definition formatShared (v : value) : outcome (bytes + value) :=
  match v with
  | VTime t => Ret (inl (format_time t))
  | VError e => Ret (inl (error_text e))
  | VLvl l => s ← Lvl_String l; Ret (inl s)
  | VBigInt (Some n) => Ret (inl (big_String n))
  | VBigInt None => Ret (inl (str "<nil>"))
  | VObject o =>
      match ob_Error o, ob_String o with
      | Some m, _ => method_result o m
      | None, Some m => method_result o m
      | None, None => Ret (inr v)
      end
  | v => Ret (inr v)
  end.

(** The integers of eight and sixteen bits are written as they are. *)
Definition format_int (k : int_kind) (z : Z) : outcome bytes :=
  match k with
  | Int8 | Uint8 | Int16 | Uint16 => Ret (Itoa z)
  | Int | Int32 | Int64 => FormatLogfmtInt64 z
  | Uint | Uint32 | Uint64 => FormatLogfmtUint64 z
  end.

Definition formatLogfmtValue (v : value) (term : bool) : outcome bytes :=
  match v with
  | VNil => Ret (str "nil")
  | VTime t => Ret (format_time t)
  | VBigInt None => Ret (str "<nil>")
  | VBigInt (Some n) => formatLogfmtBigInt n
  | _ =>
      match (if term then match v with VObject o => ob_TerminalString o | _ => None end else None) with
      | Some m => s ← m; Ret (escapeString s)
      | None =>
          shown ← formatShared v;
          match shown with
          | inl s => Ret (escapeString s)
          | inr (VBool b) => Ret (if b then str "true" else str "false")
          | inr (VFloat _ f) => Ret (str (fmt_fixed 3 f))
          | inr (VInt k z) => format_int k z
          | inr (VString s) => Ret (escapeString s)
          | inr v => Ret (escapeString (Sprint v))
          end
      end
  end.

(** What JSON keeps as it is: numbers and strings. *)
Definition formatJSONValue (v : value) : outcome value :=
  shown ← formatShared v;
  Ret match shown with
      | inl s => VString s
      | inr (VInt k z) => VInt k z
      | inr (VFloat b f) => VFloat b f
      | inr (VString s) => VString s
      | inr v => VString (Sprint v)
      end.
End Values.

(** ** Lines *)

Definition termMsgJust : Z := 40.
Definition termCtxMaxPadding : Z := 40.
Definition spaces (n : Z) : bytes := replicate (Z.to_nat n) " "%byte.

(** The escape sequences of a color. *)
Definition colored (color : Z) (s : bytes) : bytes := x1b :: str "[" ++ Itoa color ++ str "m" ++ s ++ x1b :: str "[0m".

Section Lines.
Context `{Unicode} `{LogLibs}.

Definition the_world : st World World := λ w, (Ret w, w).
Definition change_world (f : World → World) : st World unit := λ w, (Ret tt, f w).

(** The width that the values of a key are padded to: the longest so far, up to a
    limit. *)
Definition padding_for (k : bytes) (length : Z) : st World Z :=
  w ← the_world;
  let padding := default 0%Z (fieldPadding w !! k) in
  if (padding <? length)%Z && (length <=? termCtxMaxPadding)%Z then
    _ ← change_world (λ w, set_padding (<[k := length]> (fieldPadding w)) w); mret length
  else mret padding.

(** A key that is not a string leaves the empty string to be shown as the error. *)
Definition key_value (key v : value) (term : bool) : outcome (bytes * bytes) :=
  shown ← formatLogfmtValue v term;
  match key with
  | VString k => Ret (k, shown)
  | _ => shown ← formatLogfmtValue (VString []) term; Ret (errorKey, shown)
  end.

Fixpoint logfmt_pairs (first : bool) (ctx : list value) (color : Z) (term : bool) : st World bytes :=
  match ctx with
  | [] => mret []
  | [_] => lift (Panic PIndex)
  | key :: v :: rest =>
      kv ← lift (key_value key v term);
      let length := RuneCountInString kv.2 in
      padding ← padding_for kv.1 length;
      let name := if (0 <? color)%Z then colored color kv.1 ++ str "=" else kv.1 ++ str "=" in
      let pad := if negb (bool_decide (rest = [])) && (length <? padding)%Z then spaces (padding - length) else [] in
      more ← logfmt_pairs false rest color term;
      mret ((if first then [] else str " ") ++ name ++ kv.2 ++ pad ++ more)
  end.
Definition logfmt (ctx : list value) (color : Z) (term : bool) : st World bytes :=
  text ← logfmt_pairs true ctx color term; mret (text ++ [x0a]).

Definition LogfmtFormat : Format := λ r,
  logfmt ([VString (kn_Time (r_KeyNames r)); VTime (r_Time r); VString (kn_Lvl (r_KeyNames r)); VLvl (r_Lvl r);
           VString (kn_Msg (r_KeyNames r)); VString (r_Msg r)] ++ r_Ctx r) 0 false.

(** The handlers of [root.go] for the output and the errors of the program. *)
Definition StdoutHandler (mu : Z) (stdout : writer) : Handler := StreamHandler mu stdout LogfmtFormat.
Definition StderrHandler (mu : Z) (stderr : writer) : Handler := StreamHandler mu stderr LogfmtFormat.

Definition level_color (l : Lvl) : Z :=
  if (l =? LvlCrit)%Z then 35
  else if (l =? LvlError)%Z then 31
  else if (l =? LvlWarn)%Z then 33
  else if (l =? LvlInfo)%Z then 32
  else if (l =? LvlDebug)%Z then 36
  else if (l =? LvlTrace)%Z then 34
  else 0.

Definition locationTrims : list bytes := [str "github.com/ethereum/go-ethereum/"].
Definition TrimPrefix (s prefix : bytes) : bytes :=
  if bool_decide (take (length prefix) s = prefix) then drop (length prefix) s else s.

(** The place of a call, padded to the longest so far. *)
Definition location_heading (r : Rec) : st World (option (bytes * bytes)) :=
  w ← the_world;
  if locationEnabled w then
    let location := foldl TrimPrefix (c_verb (r_Call r) (str "%+v")) locationTrims in
    let len := Z.of_nat (length location) in
    let align := locationLength w in
    align ← (if (align <? len)%Z then _ ← change_world (set_locationLength len); mret len else mret align);
    mret (Some (location, spaces (align - len)))
  else mret None.

Definition TerminalFormat (usecolor : bool) : Format := λ r,
  let color := if usecolor then level_color (r_Lvl r) else 0%Z in
  lvl ← lift (AlignedString (r_Lvl r));
  let lvl := if (0 <? color)%Z then colored color lvl else lvl in
  location ← location_heading r;
  let heading :=
    match location with
    | Some (location, padding) => lvl ++ str "[" ++ format_term_time (r_Time r) ++ str "|" ++ location ++ str "]" ++ padding ++ str " "
    | None => lvl ++ str "[" ++ format_term_time (r_Time r) ++ str "] "
    end in
  let length := RuneCountInString (r_Msg r) in
  let just := if negb (bool_decide (r_Ctx r = [])) && (length <? termMsgJust)%Z then spaces (termMsgJust - length) else [] in
  text ← logfmt (r_Ctx r) color true;
  mret (heading ++ r_Msg r ++ str " " ++ just ++ text).

Definition PrintOrigins (print : bool) (w : World) : World :=
  mkWorld (fieldPadding w) print (locationLength w) (locked w) (written w).

(** ** JSON

    The properties of an object; [Marshal] is [json.Marshal], or [json.MarshalIndent]
    when it is to be pretty. *)

Inductive json := JValue (v : value) | JTexts (l : list bytes).
Class JSON := { Marshal : bool → gmap bytes json → outcome bytes }.
Context `{JSON}.

Definition head_props (r : Rec) : outcome (gmap bytes json) :=
  lvl ← Lvl_String (r_Lvl r);
  Ret (<[kn_Msg (r_KeyNames r) := JValue (VString (r_Msg r))]>
       (<[kn_Lvl (r_KeyNames r) := JValue (VString lvl)]>
       (<[kn_Time (r_KeyNames r) := JValue (VTime (r_Time r))]> ∅))).

Definition bad_key (key : value) : bytes := Sprint key ++ str " is not a string key".

Fixpoint json_props (ctx : list value) (props : gmap bytes json) : outcome (gmap bytes json) :=
  match ctx with
  | [] => Ret props
  | [_] => Panic PIndex
  | key :: v :: rest =>
      let '(k, props) := match key with
                         | VString k => (k, props)
                         | _ => ([], <[errorKey := JValue (VString (bad_key key))]> props)
                         end in
      v ← formatJSONValue v;
      json_props rest (<[k := JValue v]> props)
  end.

(** The keys and values as texts, in their order; the error of a bad key ends in a
    comma. *)
Fixpoint json_texts (ctx : list value) (props : gmap bytes json) : outcome (list bytes * gmap bytes json) :=
  match ctx with
  | [] => Ret ([], props)
  | [_] => Panic PIndex
  | key :: v :: rest =>
      let '(k, props) := match key with
                         | VString k => (k, props)
                         | _ => ([], <[errorKey := JValue (VString (bad_key key ++ str ","))]> props)
                         end in
      text ← formatLogfmtValue v true;
      r ← json_texts rest props;
      Ret (k :: text :: r.1, r.2)
  end.

Definition marshalled (pretty lineSeparated : bool) (props : gmap bytes json) : outcome bytes :=
  match Marshal pretty props with
  | Err e => ignore_err [] (Marshal pretty {[ errorKey := JValue (VString (error_text e)) ]})
  | Ret b => Ret (if lineSeparated then b ++ [x0a] else b)
  | r => r
  end.

Definition JSONFormatEx (pretty lineSeparated : bool) : Format := λ r,
  lift (props ← head_props r; props ← json_props (r_Ctx r) props; marshalled pretty lineSeparated props).
Definition JSONFormat : Format := JSONFormatEx false true.
Definition JSONFormatOrderedEx (pretty lineSeparated : bool) : Format := λ r,
  lift (props ← head_props r;
        c ← json_texts (r_Ctx r) props;
        marshalled pretty lineSeparated (<[kn_Ctx (r_KeyNames r) := JTexts c.1]> c.2)).
End Lines.
