(* ===== verification/LogSafe.v ===== *)
(** * What the log writes

    The handlers and formats of [log], one by one: none reads past the end of a
    context that is pairs of keys and values, and each leaves it so. *)

From Stdlib Require Import Strings.Byte ZifyNat.
From stdpp Require Import base strings numbers gmap list.
From S2P Require Import Prelude Float64 Platform Concrete Net LogNumbers LogText Log LogFormat.

Section Safe.
Context {U : Unicode} {LL : LogLibs} {J : JSON}.

(** ** No handler reads past the end of a context *)

Definition sound_handler (h : Handler) : Prop :=
  ∀ s, good_ctx (r_Ctx s.1) → no_index (h s).1 ∧ good_ctx (r_Ctx (h s).2.1).
Definition sound_format (f : Format) : Prop := ∀ r w, good_ctx (r_Ctx r) → no_index (f r w).1.
Definition sound_writer (wr : writer) : Prop := ∀ text w, no_index (wr text w).1.
Definition sound_filter (fn : Rec → outcome bool) : Prop := ∀ r, good_ctx (r_Ctx r) → no_index (fn r).

(** The formats of the package. *)
Inductive package_format : Format → Prop :=
| format_logfmt : package_format LogfmtFormat
| format_terminal usecolor : package_format (TerminalFormat usecolor)
| format_json pretty lineSeparated : package_format (JSONFormatEx pretty lineSeparated)
| format_ordered pretty lineSeparated : package_format (JSONFormatOrderedEx pretty lineSeparated).

Lemma sound_change f h : (∀ r, good_ctx (r_Ctx r) → good_ctx (r_Ctx (f r))) → sound_handler h → sound_handler (_ ← change_record f; h).
Proof. intros Hf Hh [r w] Hp. apply (Hh (f r, w)), Hf, Hp. Qed.

Lemma good_ctx_app c c' : good_ctx c → good_ctx c' → good_ctx (c ++ c').
Proof. intros [Hp Hg] [Hp' Hg']. split; [by apply paired_app|]. by apply Forall_app. Qed.

Lemma append_good more r : good_ctx more → good_ctx (r_Ctx r) → good_ctx (r_Ctx (append_Ctx more r)).
Proof. intros Hm Hr. by apply good_ctx_app. Qed.

Lemma good_two (a b : value) : good a → good b → good_ctx [a; b].
Proof. intros Ha Hb. split; [by exists 1|]. by rewrite !Forall_cons. Qed.

Lemma sound_FilterHandler fn h : sound_filter fn → sound_handler h → sound_handler (FilterHandler fn h).
Proof.
  intros Hf Hh [r w] Hp. unfold FilterHandler, mbind, st_bind, the_record, lift. cbn [fst]. specialize (Hf r Hp).
  destruct (fn r) as [[]|e|p|]; simpl; split; try done; try (by apply (Hh (r, w))). intros E. by injection E as ->.
Qed.

Lemma sound_SyncHandler mu h : sound_handler h → sound_handler (SyncHandler mu h).
Proof.
  intros Hh [r w] Hp. unfold SyncHandler. case_bool_decide; [done|].
  pose proof (Hh (r, set_locked ({[mu]} ∪ locked w) w) Hp) as [H1 H2]. by destruct (h _) as [res [r' w']].
Qed.

Lemma value_eq_no_index a b : no_index (value_eq a b).
Proof. unfold no_index. destruct a, b; simpl; try done; repeat case_match; done. Qed.

Lemma match_ctx_no_index key v ctx : paired ctx → no_index (match_ctx key v ctx).
Proof.
  intros [n Hn]. revert ctx Hn. induction n as [|n IH]; intros ctx Hn; [by destruct ctx|].
  destruct ctx as [|a [|b ctx]]; [done|simpl in Hn; lia|]. cbn [match_ctx].
  pose proof (value_eq_no_index a (VString key)) as Ha. destruct (value_eq a _) as [[]|e|p|]; simpl in *; try done.
  - apply value_eq_no_index.
  - apply IH. simpl in Hn. lia.
Qed.

Lemma sound_match_filter key v : sound_filter (λ r,
    if bool_decide (key = kn_Lvl (r_KeyNames r)) then value_eq (VLvl (r_Lvl r)) v
    else if bool_decide (key = kn_Time (r_KeyNames r)) then value_eq (VTime (r_Time r)) v
    else if bool_decide (key = kn_Msg (r_KeyNames r)) then value_eq (VString (r_Msg r)) v
    else match_ctx key v (r_Ctx r)).
Proof. intros r Hr. repeat case_bool_decide; try apply value_eq_no_index. apply match_ctx_no_index, Hr. Qed.

Lemma sound_drop_err h : sound_handler h → sound_handler (drop_err h).
Proof.
  intros Hh s Hp. destruct (Hh s Hp) as [H1 H2]. unfold drop_err. destruct (h s) as [[a|e|p|] s']; split; try done.
Qed.

Lemma sound_bind (h h' : Handler) : sound_handler h → sound_handler h' → sound_handler (_ ← h; h').
Proof.
  intros Hh Hh' s Hp. destruct (Hh s Hp) as [H1 H2]. unfold mbind, st_bind. destruct (h s) as [[a|e|p|] s']; try done.
  - by apply Hh'.
Qed.

Lemma sound_MultiHandler hs : Forall sound_handler hs → sound_handler (MultiHandler hs).
Proof.
  induction 1 as [|h hs Hh _ IH]; [by intros s|]. cbn [MultiHandler]. apply (sound_bind (drop_err h)); [by apply sound_drop_err|done].
Qed.

Lemma sound_failover i err hs : Forall sound_handler hs → sound_handler (failover i err hs).
Proof.
  intros Hhs. revert i err. induction Hhs as [|h hs Hh _ IH]; intros i err; [by destruct err; intros s|].
  intros s Hp. destruct (Hh s Hp) as [H1 H2]. cbn [failover]. destruct (h s) as [[a|e|p|] s']; try done.
  apply (sound_change (append_Ctx _) (failover (i + 1) (Some e) hs)); [|apply IH|done].
  intros r Hr. apply append_good; [by apply good_two|done].
Qed.


Lemma evaluateLazy_no_index fn printed : no_index (evaluateLazy fn printed).
Proof. unfold no_index, evaluateLazy. destruct fn as [[[[] []] [|v []]]|]; simpl; done. Qed.

Lemma foldr_good l : foldr (λ v P, good v ∧ P) True l → Forall good l.
Proof. induction l as [|v l IH]; [constructor|]. intros [Hv Hl]. constructor; auto. Qed.

Lemma evaluateLazy_good fn printed v : good (VLazy fn printed) → evaluateLazy fn printed = Ret v → good v.
Proof.
  unfold evaluateLazy. destruct fn as [[[isfunc nin] results]|]; [|done]. simpl. destruct isfunc; [|done].
  destruct (0 <? Z.of_nat nin)%Z; [done|]. simpl. destruct results as [|x [|y l]]; [done|by intros [Hx _] [= <-]|by intros _ [= <-]].
Qed.

Lemma lazy_ctx_sound_upto n call ctx :
  length ctx ≤ n → no_index (lazy_ctx call ctx) ∧
  ∀ c, lazy_ctx call ctx = Ret c → length c.1 = length ctx ∧ (Forall good ctx → Forall good c.1).
Proof.
  unfold no_index. revert ctx.
  induction n as [|n IH]; intros ctx Hn; (destruct ctx as [|k [|v ctx]]; [by split; [|intros c [= <-]]..|]); simpl in Hn; [lia|].
  destruct (IH ctx ltac:(lia)) as [H1 H2]. cbn [lazy_ctx].
  match goal with |- (?x ≫= _) ≠ _ ∧ _ => assert (Hm : x ≠ Panic PIndex ∧ ∀ v', x = Ret v' → good v → good v'.1); [|revert Hm; generalize x; intros m [Hm Hv]] end.
  { destruct v; try (by split; [|intros v' [= <-]]). pose proof (evaluateLazy_no_index fn printed) as Hl. unfold no_index in Hl.
    pose proof (λ v, evaluateLazy_good fn printed v) as Hg. revert Hl Hg. generalize (evaluateLazy fn printed). intros m Hl Hg.
    destruct m as [x|e|p|]; [|by split; [|intros v' [= <-]]|split; [congruence|done]|done].
    destruct x; (split; [done|]); intros v' [= <-] Hx; try done; by apply Hg. }
  destruct m as [v'|e|p|]; cbn [mbind outcome_bind]; try done; [|split; [congruence|done]].
  destruct (lazy_ctx call ctx) as [c'|e|p|]; simpl; try done.
  split; [done|]. intros c [= <-]. simpl. destruct (H2 c' eq_refl) as [Hl Hg]. split; [by rewrite Hl|].
  rewrite !Forall_cons. intros (Hk & Hgv & Hc). split; [done|]. split; [by apply (Hv v')|]. by apply Hg.
Qed.

Lemma lazy_ctx_sound call ctx :
  no_index (lazy_ctx call ctx) ∧ ∀ c, lazy_ctx call ctx = Ret c → length c.1 = length ctx ∧ (Forall good ctx → Forall good c.1).
Proof. by apply (lazy_ctx_sound_upto (length ctx)). Qed.

Lemma sound_LazyHandler h : sound_handler h → sound_handler (LazyHandler h).
Proof.
  intros Hh [r w] [Hp Hg]. unfold LazyHandler, mbind, st_bind, the_record, lift, change_record. cbn [fst snd].
  destruct (lazy_ctx_sound (r_Call r) (r_Ctx r)) as [H1 H2]. destruct (lazy_ctx (r_Call r) (r_Ctx r)) as [c|e|p|]; try done.
  - apply (Hh (set_Ctx _ r, w)). simpl. destruct (H2 c eq_refl) as [Hl Hgc]. apply good_ctx_app.
    + split; [unfold paired; by rewrite Hl|by apply Hgc].
    + destruct c.2; [by apply good_two|]. split; [by exists 0|constructor].
  - simpl. split; [|by split]. intros E. injection E as ->. by apply H1.
Qed.

Lemma no_index_bind {A B} (m : outcome A) (f : A → outcome B) : no_index m → (∀ a, m = Ret a → no_index (f a)) → no_index (m ≫= f).
Proof. intros Hm Hf. unfold no_index in *. destruct m as [a|e|p|]; simpl; try done; [by apply Hf|]. intros [= ->]. done. Qed.

Lemma no_index_st {S A B} (m : st S A) (f : A → st S B) s :
  no_index (m s).1 → (∀ a s', m s = (Ret a, s') → no_index (f a s').1) → no_index ((m ≫= f) s).1.
Proof.
  intros Hm Hf. unfold no_index, mbind, st_bind in *. destruct (m s) as [[a|e|p|] s'] eqn:E; simpl in *; try done; [by apply Hf|].
  intros [= ->]. done.
Qed.

(** *** Values *)

Lemma method_result_no_index o m : no_index m → no_index (method_result o m).
Proof. unfold no_index, method_result. destruct m; try done. destruct (ob_nil o); [done|]. intros Hp [= ->]. done. Qed.

Lemma formatShared_no_index v : good v → no_index (formatShared v) ∧ ∀ v', formatShared v = Ret (inr v') → v' = v.
Proof.
  destruct v as [| | | | | |[n|]|l| |o| | | |fn printed]; simpl; try (by intros _; split; [|intros v' [= <-]]).
  - intros _. unfold Lvl_String. repeat destruct (_ =? _)%Z; by split.
  - intros (_ & He & Hs). destruct (ob_Error o) as [m|]; [|destruct (ob_String o) as [m|]].
    1, 2: (split; [by apply method_result_no_index|intros v']; unfold method_result; destruct m; try done; by destruct (ob_nil o)).
    split; [done|]. by intros v' [= <-].
Qed.

Lemma format_int_no_index k z : int_range k z → no_index (format_int k z).
Proof.
  intros Hr. unfold no_index.
  destruct k; simpl in *; try done;
    first [destruct (int64_text_spec z) as [-> _]; [unfold is_int64; lia|done] | rewrite FormatLogfmtUint64_text by lia; done].
Qed.

Lemma formatLogfmtValue_no_index v term : good v → no_index (formatLogfmtValue v term).
Proof.
  intros Hg. destruct (formatShared_no_index v Hg) as [Hs Hv].
  assert (Hshown : no_index (shown ← formatShared v;
          match shown with
          | inl s => Ret (escapeString s)
          | inr (VBool b) => Ret (if b then str "true" else str "false")
          | inr (VFloat _ f) => Ret (str (fmt_fixed 3 f))
          | inr (VInt k z) => format_int k z
          | inr (VString s) => Ret (escapeString s)
          | inr v => Ret (escapeString (Sprint v))
          end)).
  { apply no_index_bind; [done|]. intros [s|v'] E; [done|]. apply Hv in E as ->. destruct v; try done. by apply format_int_no_index. }
  unfold formatLogfmtValue. destruct v; try exact Hshown; try done; try (by destruct term).
  - destruct n; [by rewrite formatLogfmtBigInt_text|done].
  - destruct term; [|exact Hshown]. destruct Hg as (Ht & _ & _). destruct (ob_TerminalString o) as [m|]; [|exact Hshown].
    by apply no_index_bind.
Qed.

Lemma formatJSONValue_no_index v : good v → no_index (formatJSONValue v).
Proof. intros Hg. unfold formatJSONValue. apply no_index_bind; [by apply formatShared_no_index|done]. Qed.

(** *** Lines *)

Lemma key_value_no_index key v term : good v → no_index (key_value key v term).
Proof.
  intros Hv. unfold key_value. apply no_index_bind; [by apply formatLogfmtValue_no_index|]. intros shown _.
  destruct key; try done; (apply no_index_bind; [by apply (formatLogfmtValue_no_index (VString []))|done]).
Qed.

Lemma padding_for_returns k n w : ∃ p w', padding_for k n w = (Ret p, w').
Proof. unfold padding_for, mbind, st_bind, the_world. destruct (_ && _); by eexists _, _. Qed.

Lemma logfmt_pairs_no_index n first ctx color term w :
  length ctx = 2 * n → Forall good ctx → no_index (logfmt_pairs first ctx color term w).1.
Proof.
  revert first ctx w. induction n as [|n IH]; intros first ctx w Hn Hg; [by destruct ctx|].
  destruct ctx as [|k [|v ctx]]; [simpl in Hn; lia..|]. rewrite !Forall_cons in Hg. destruct Hg as (_ & Hv & Hg).
  cbn [logfmt_pairs]. apply no_index_st; [by apply key_value_no_index|]. intros kv w1 _. cbv zeta.
  apply no_index_st; [by destruct (padding_for_returns kv.1 (RuneCountInString kv.2) w1) as (p & w' & ->)|]. intros p w2 _.
  apply no_index_st; [|done]. apply IH; [simpl in Hn; lia|done].
Qed.

Lemma logfmt_no_index ctx color term w : good_ctx ctx → no_index (logfmt ctx color term w).1.
Proof. intros [[n Hn] Hg]. apply no_index_st; [|done]. by apply (logfmt_pairs_no_index n). Qed.

(** [encoding/json] does not fail on what it is given. *)
Context (HJ : ∀ pretty props, no_index (Marshal pretty props)).

Lemma marshalled_no_index pretty sep props : no_index (marshalled pretty sep props).
Proof.
  unfold marshalled. pose proof (HJ pretty props) as Hm. destruct (Marshal pretty props) as [b|e|p|]; try done.
  specialize (HJ pretty {[ errorKey := JValue (VString (error_text e)) ]}). by destruct (Marshal pretty _).
Qed.

Lemma head_props_no_index r : no_index (head_props r).
Proof. apply no_index_bind; [|done]. unfold Lvl_String. by repeat destruct (_ =? _)%Z. Qed.

Lemma json_props_no_index n ctx props : length ctx = 2 * n → Forall good ctx → no_index (json_props ctx props).
Proof.
  revert ctx props. induction n as [|n IH]; intros ctx props Hn Hg; [by destruct ctx|].
  destruct ctx as [|k [|v ctx]]; [simpl in Hn; lia..|]. rewrite !Forall_cons in Hg. destruct Hg as (_ & Hv & Hg).
  assert (Hrest : ∀ k props, no_index (v' ← formatJSONValue v; json_props ctx (<[k := JValue v']> props))).
  { intros k' props'. apply no_index_bind; [by apply formatJSONValue_no_index|]. intros v' _. apply IH; [simpl in Hn; lia|done]. }
  cbn [json_props]. by destruct k; apply Hrest.
Qed.

Lemma json_texts_no_index n ctx props : length ctx = 2 * n → Forall good ctx → no_index (json_texts ctx props).
Proof.
  revert ctx props. induction n as [|n IH]; intros ctx props Hn Hg; [by destruct ctx|].
  destruct ctx as [|k [|v ctx]]; [simpl in Hn; lia..|]. rewrite !Forall_cons in Hg. destruct Hg as (_ & Hv & Hg).
  assert (Hrest : ∀ k props, no_index (text ← formatLogfmtValue v true; r ← json_texts ctx props; Ret (k :: text :: r.1, r.2))).
  { intros k' props'. apply no_index_bind; [by apply formatLogfmtValue_no_index|]. intros text _.
    apply no_index_bind; [|done]. apply IH; [simpl in Hn; lia|done]. }
  cbn [json_texts]. by destruct k; apply Hrest.
Qed.

Lemma location_heading_returns r w : ∃ l w', location_heading r w = (Ret l, w').
Proof.
  unfold location_heading, mbind, st_bind, the_world. destruct (locationEnabled w); [|by eexists _, _].
  cbv zeta. destruct (_ <? _)%Z; by eexists _, _.
Qed.

Lemma package_format_sound f : package_format f → sound_format f.
Proof.
  intros [ |usecolor|pretty sep|pretty sep] r w Hg.
  - apply logfmt_no_index, good_ctx_app; [|done]. split; [by exists 3|]. rewrite !Forall_cons. by split_and!.
  - apply no_index_st; [unfold AlignedString; by repeat destruct (_ =? _)%Z|]. intros lvl w1 _. cbv zeta.
    apply no_index_st; [by destruct (location_heading_returns r w1) as (l & w' & ->)|]. intros l w2 _. cbv zeta.
    apply no_index_st; [by apply logfmt_no_index|]. done.
  - destruct Hg as [[n Hn] Hg]. apply no_index_bind; [apply head_props_no_index|]. intros props _.
    apply no_index_bind; [by apply (json_props_no_index n)|]. intros props' _. apply marshalled_no_index.
  - destruct Hg as [[n Hn] Hg]. apply no_index_bind; [apply head_props_no_index|]. intros props _.
    apply no_index_bind; [by apply (json_texts_no_index n)|]. intros c _. apply marshalled_no_index.
Qed.

(** *** Handlers *)

Lemma sound_write_to wr fmtr : sound_writer wr → sound_format fmtr → sound_handler (write_to wr fmtr).
Proof.
  intros Hw Hf [r w] Hp. unfold write_to, mbind, st_bind, the_record, in_world. cbn [fst snd].
  specialize (Hf r w Hp). destruct (fmtr r w) as [[text|e|p|] w']; cbn [fst snd] in *; try done.
  - specialize (Hw text w'). by destruct (wr text w') as [res w''].
  - split; [|done]. intros E. by injection E as ->.
Qed.

End Safe.

(** ** An instance *)

Module LogDemo.
Import LogTextDemo.

#[export] Instance plain_libs : LogLibs := {
  Trace := [];
  TrimBelow cs _ := cs;
  TrimRuntime cs := cs;
  Sprintf_stack _ _ := str "[]";
  error_text _ := str "error";
  Sprint _ := str "value"
}.
#[export] Instance no_json : JSON := { Marshal _ _ := Ret (str "{}") }.

(** The lines that were written to one output. *)
Definition to_output (n : Z) : writer :=
  λ text w, (Ret tt, set_written (<[n := default [] (written w !! n) ++ [text]]> (written w)) w).
Definition quiet_world : World := mkWorld ∅ false 0 ∅ ∅.
Definition noon : moment := mkMoment (mkTime 2018 5 16 12 30 5 0 7200) (mkCall 0 [] (λ _, [])).

Definition demo_boxes : boxes := {[ 0 := Fun (LvlFilterHandler LvlInfo (StreamHandler 0 (to_output 1) LogfmtFormat)) ]}.
Definition child : logger := (logger_New [VString (str "peer"); VInt Int 123456] root demo_boxes).1.
Definition child_boxes : boxes := (logger_New [VString (str "peer"); VInt Int 123456] root demo_boxes).2.

(** A value is missing; the message is written with the reason. *)
Example odd_arguments :
  (λ w, written w !! 1%Z) (logger_write 3 child_boxes child (str "hi") LvlInfo [VString (str "size")] noon quiet_world).2
  = Some [str "t=2018-05-16T12:30:05+0200 lvl=info msg=hi peer=123,456 size=nil LOG15_ERROR=" ++
          quote_byte :: str "Normalized odd number of arguments by adding nil" ++ [quote_byte; x0a]].
Proof. vm_compute. reflexivity. Qed.

(** A key that is not a string is lost, with what it was. *)
Example bad_key_is_lost :
  (logfmt [VInt Int 7; VString (str "seven")] 0 false quiet_world).1 = Ret (str "LOG15_ERROR=" ++ [x0a]).
Proof. reflexivity. Qed.
End LogDemo.

