(* ===== verification/LogHandlers.v ===== *)
(** * Handlers that share a record, and loggers that share a handler

    What [FailoverHandler] leaves in the record it passes on, and how a logger follows
    the handler of the one it was made from ([log/handler.go], [log/logger.go]); and
    the handler of [log/syslog.go]. *)

From Stdlib Require Import Strings.Byte ZifyNat.
From stdpp Require Import base strings numbers gmap list.
From S2P Require Import Prelude Float64 Platform Concrete Net Runes LogNumbers LogText Log LogFormat LogSafe.

(** ** The log of the system

    What [log/syslog] of the standard library writes to, by severity. *)
Record syslog := mkSyslog { sys_Crit : writer; sys_Err : writer; sys_Warning : writer; sys_Info : writer; sys_Debug : writer }.

Definition syslogFn (sysWr : syslog) (l : Lvl) : writer :=
  if (l =? LvlCrit)%Z then sys_Crit sysWr
  else if (l =? LvlError)%Z then sys_Err sysWr
  else if (l =? LvlWarn)%Z then sys_Warning sysWr
  else if (l =? LvlInfo)%Z then sys_Info sysWr
  else if (l =? LvlDebug)%Z then sys_Debug sysWr
  else if (l =? LvlTrace)%Z then λ _, mret tt
  else sys_Info sysWr.

Definition write_syslog (sysWr : syslog) (fmtr : Format) : Handler :=
  r ← the_record; text ← in_world (fmtr r); in_world (syslogFn sysWr (r_Lvl r) (TrimSpace text)).
Definition sharedSyslog `{LogLibs} (fmtr : Format) (opened : outcome syslog) : outcome Handler :=
  sysWr ← opened; Ret (LazyHandler (write_syslog sysWr fmtr)).

Definition SyslogHandler `{LogLibs} (opened : outcome syslog) (fmtr : Format) : outcome Handler := sharedSyslog fmtr opened.
Definition SyslogNetHandler `{LogLibs} (dialed : outcome syslog) (fmtr : Format) : outcome Handler := sharedSyslog fmtr dialed.
Definition Must_SyslogHandler `{LogLibs} (opened : outcome syslog) (fmtr : Format) : outcome Handler := must (SyslogHandler opened fmtr).
Definition Must_SyslogNetHandler `{LogLibs} (dialed : outcome syslog) (fmtr : Format) : outcome Handler := must (SyslogNetHandler dialed fmtr).

(** A trace is formatted, and written nowhere. *)
Lemma write_syslog_trace sysWr fmtr r w text w' :
  r_Lvl r = LvlTrace → fmtr r w = (Ret text, w') → write_syslog sysWr fmtr (r, w) = (Ret tt, (r, w')).
Proof.
  intros Hl Hf. unfold write_syslog, mbind, st_bind, the_record, in_world. cbn [fst snd]. rewrite Hf. cbn [fst snd]. by rewrite Hl.
Qed.

(** ** Failing over *)

(** A handler that fails with an error after it has changed the world. *)
Definition failing (p : goerror * (World → World)) : Handler := λ s, (Err p.1, (s.1, p.2 s.2)).

(** The reasons, numbered from [i]. *)
Fixpoint reasons (i : Z) (es : list goerror) : list value :=
  match es with
  | [] => []
  | e :: es' => VString (str "failover_err_" ++ Itoa i) :: VError e :: reasons (i + 1) es'
  end.
Definition after_failures (fails : list (goerror * (World → World))) (w : World) : World := foldl (λ w p, p.2 w) w fails.

Lemma append_Ctx_nil r : append_Ctx [] r = r.
Proof. destruct r. unfold append_Ctx, set_Ctx. simpl. by rewrite app_nil_r. Qed.

Lemma append_Ctx_app a b r : append_Ctx b (append_Ctx a r) = append_Ctx (a ++ b) r.
Proof. unfold append_Ctx, set_Ctx. simpl. by rewrite app_assoc. Qed.

Lemma failover_fails fails hs i err r w :
  failover i err ((failing <$> fails) ++ hs) (r, w) =
  failover (i + Z.of_nat (length fails)) (last (err :: (Some ∘ fst <$> fails)) ≫= id) hs
    (append_Ctx (reasons i (fails.*1)) r, after_failures fails w).
Proof.
  revert i err r w. induction fails as [|[e f] fails IH]; intros i err r w.
  { cbn [reasons fmap list_fmap]. rewrite append_Ctx_nil. cbn [length Z.of_nat]. rewrite Z.add_0_r. reflexivity. }
  cbn [fmap list_fmap length app failover failing fst snd]. unfold mbind at 1, st_bind, change_record. cbn [fst snd]. rewrite IH, append_Ctx_app.
  cbn [app]. rewrite <- (Z.add_assoc i 1). replace (1 + Z.of_nat (length fails))%Z with (Z.of_nat (S (length fails))) by lia. reflexivity.
Qed.

(** C37: failing over goes from one handler to the next as long as they fail, and
    stops at the first that does not: that one gets the record with the reasons of
    those before it, in their order, and its result is the result.  When all fail the
    last error is returned, and the record keeps all the reasons. *)
Theorem FailoverHandler_spec fails hs r w :
  let r' := append_Ctx (reasons 0 (fails.*1)) r in let w' := after_failures fails w in
  (∀ h rest, hs = h :: rest → (∀ e s, h (r', w') ≠ (Err e, s)) → FailoverHandler ((failing <$> fails) ++ hs) (r, w) = h (r', w')) ∧
  (hs = [] → FailoverHandler ((failing <$> fails) ++ hs) (r, w) =
     (match last (fails.*1) with Some e => Err e | None => Ret tt end, (r', w'))).
Proof.
  cbv zeta. unfold FailoverHandler. rewrite failover_fails. split.
  - intros h rest -> Hh. cbn [failover]. set (s := (append_Ctx _ r, _)) in *. specialize (λ e s', Hh e s').
    destruct (h s) as [[a|e|p|] s'] eqn:E; try done. by destruct (Hh e s').
  - intros ->. cbn [failover]. destruct fails as [|p fails] using rev_ind; [done|].
    rewrite !fmap_app. csimpl. rewrite app_comm_cons, !last_snoc. done.
Qed.

(** ** Loggers and their children *)

(** The boxes that a box holds are in the store. *)
Definition closed_boxes (bs : boxes) : Prop := ∀ b b', bs !! b = Some (Box b') → b' ∈ dom bs.

Lemma Log_to_insert fuel bs b x y :
  closed_boxes bs → b ∉ dom bs → (∀ b', x = Box b' → b' ∈ dom bs) → Log_to fuel (<[b := y]> bs) x = Log_to fuel bs x.
Proof.
  intros Hc Hb. revert x. induction fuel as [|fuel IH]; intros [h|b'] Hx; cbn [Log_to]; try done.
  rewrite lookup_insert_ne by (intros ->; by apply Hb, Hx). destruct (bs !! b') as [x|] eqn:E; [|done].
  apply IH. intros b'' ->. by apply (Hc b').
Qed.

(** a new logger writes to the handler of the one it was made from, with its
    context after that one's; it follows when that handler is replaced; and when it
    is given one of its own, the other keeps what it had. *)
Theorem logger_New_follows lg bs ctx :
  closed_boxes bs → lg_h lg ∈ dom bs →
  let child := (logger_New ctx lg bs).1 in let bs' := (logger_New ctx lg bs).2 in
  (∀ fuel msg lvl more m w,
     logger_write (S (S fuel)) bs' child msg lvl more m w
     = logger_write (S fuel) bs (mkLogger (lg_ctx lg ++ normalize ctx) (lg_h lg)) msg lvl more m w) ∧
  (∀ fuel h, Log_to (S (S fuel)) (logger_SetHandler (Fun h) lg bs') (Box (lg_h child)) = h) ∧
  (∀ fuel h, Log_to fuel (logger_SetHandler h child bs') (Box (lg_h lg)) = Log_to fuel bs (Box (lg_h lg))).
Proof.
  intros Hc Hd. cbv zeta. unfold logger_New. cbn [fst snd lg_h lg_ctx]. set (b := fresh (dom bs)).
  assert (Hb : b ∉ dom bs) by apply is_fresh. assert (Hne : lg_h lg ≠ b) by (intros E; by rewrite E in Hd). split_and!.
  - intros fuel msg lvl more m w. unfold logger_write.
    replace (Log_to (S (S fuel)) (<[b := Box (lg_h lg)]> bs) (Box b)) with (Log_to (S fuel) bs (Box (lg_h lg))).
    + unfold record_of. cbn [lg_ctx lg_h]. by rewrite !newContext_app.
    + symmetry. change (Log_to (S (S fuel)) (<[b := Box (lg_h lg)]> bs) (Box b)) with
        (match <[b := Box (lg_h lg)]> bs !! b with
         | None => lift (Panic PNil) | Some h => Log_to (S fuel) (<[b := Box (lg_h lg)]> bs) h end).
      rewrite lookup_insert_eq. apply Log_to_insert; [done..|]. by intros b' [= <-].
  - intros fuel h. unfold logger_SetHandler. cbn [Log_to lg_h]. rewrite lookup_insert_ne by done. rewrite lookup_insert_eq.
    cbn [Log_to]. rewrite lookup_insert_eq. by destruct fuel.
  - intros fuel h. unfold logger_SetHandler. cbn [lg_h]. rewrite insert_insert_eq. apply Log_to_insert; [done..|]. by intros b' [= <-].
Qed.

(** ** An instance *)

Module LogHandlersDemo.
Import LogTextDemo LogDemo.

Lemma logger_New_follows_witness :
  (∀ fuel msg lvl more m w,
     logger_write (S (S fuel)) child_boxes child msg lvl more m w
     = logger_write (S fuel) demo_boxes (mkLogger [VString (str "peer"); VInt Int 123456] 0) msg lvl more m w) ∧
  ∀ h, Log_to 2 (logger_SetHandler (Fun h) root child_boxes) (Box (lg_h child)) = h.
Proof.
  destruct (logger_New_follows root demo_boxes [VString (str "peer"); VInt Int 123456]) as (H1 & H2 & _).
  - intros b b' Hb. unfold demo_boxes in Hb. apply lookup_singleton_Some in Hb as [_ Hb]. discriminate Hb.
  - unfold demo_boxes. rewrite dom_singleton. apply elem_of_singleton. reflexivity.
  - split; [exact H1|exact (H2 0)].
Defined.

(** The reasons stay in the record also for the handlers after the failing over. *)
Example reasons_stay :
  (λ w, written w !! 1%Z)
    (MultiHandler [FailoverHandler [failing (EMsg "down", id); DiscardHandler]; write_to (to_output 1) LogfmtFormat]
       (record_of root (str "hi") LvlInfo [] noon, quiet_world)).2.2
  = Some [str "t=2018-05-16T12:30:05+0200 lvl=info msg=hi failover_err_0=error" ++ [x0a]].
Proof. vm_compute. reflexivity. Qed.
End LogHandlersDemo.
