(* ===== verification/LogLines.v ===== *)
(** * One record, one line

    What [logfmt] of [log/format.go] writes for a record is one line, whatever the
    values are: no value can end the line, and so none can look like a record. *)

From Stdlib Require Import Strings.Byte Ascii SpecFloat ZifyNat.
From stdpp Require Import base strings pretty numbers gmap list.
From S2P Require Import Prelude Float64 Platform Concrete Net LogNumbers LogText Log LogFormat LogSafe.

(** ** Texts that stay on their line *)

Definition clear_text (s : bytes) : Prop := Forall visible s.
#[export] Instance visible_dec c : Decision (visible c).
Proof. unfold visible. apply _. Defined.

(** Texts of the source. *)
Ltac constant_text := apply (bool_decide_unpack _); vm_compute; exact I.

Lemma clear_app a b : clear_text a → clear_text b → clear_text (a ++ b).
Proof. intros. by apply Forall_app. Qed.

Lemma clear_cons c s : visible c → clear_text s → clear_text (c :: s).
Proof. intros. by constructor. Qed.

Lemma clear_replicate n c : visible c → clear_text (replicate n c).
Proof. intros Hc. by apply Forall_replicate. Qed.

Lemma digit_visible d : (0 ≤ d < 10)%Z → visible (digit d).
Proof. intros Hd. unfold visible. rewrite byte_Z_digit by done. lia. Qed.

Lemma clear_digits f z : (0 ≤ z)%Z → clear_text (digits f z).
Proof.
  revert z. induction f as [|f IH]; intros z Hz; cbn [digits]; [constructor|].
  destruct (Z.ltb_spec z 10); [by apply Forall_singleton, digit_visible|].
  apply clear_app; [apply IH; lia|apply Forall_singleton, digit_visible; lia].
Qed.

Lemma clear_Itoa z : clear_text (Itoa z).
Proof.
  unfold Itoa. destruct (Z.ltb_spec z 0); [|by apply clear_digits]. apply clear_app; [constant_text|apply clear_digits; lia].
Qed.

Lemma clear_thousands f z : (0 ≤ z)%Z → clear_text (thousands f z).
Proof.
  revert z. induction f as [|f IH]; intros z Hz; cbn [thousands]; [constructor|].
  destruct (Z.ltb_spec z 1000); [by apply clear_digits|]. apply clear_app; [apply IH; lia|].
  rewrite three_digits_mod. apply clear_cons; [split; by vm_compute|].
  repeat (apply clear_cons; [apply digit_visible; lia|]). constructor.
Qed.

Lemma clear_sign neg : clear_text (sign_of neg).
Proof. destruct neg; constant_text. Qed.

Lemma clear_big_text n : clear_text (big_text n).
Proof.
  unfold big_text. destruct (_ <? _)%Z; [apply clear_Itoa|]. apply clear_app; [apply clear_sign|]. apply clear_thousands; lia.
Qed.

Lemma clear_int64_text n : clear_text (int64_text n).
Proof.
  unfold int64_text. destruct (_ <? _)%Z; [apply clear_Itoa|]. apply clear_app; [apply clear_sign|]. apply clear_thousands; lia.
Qed.

Lemma clear_padded n z : clear_text (padded n z).
Proof.
  unfold padded. cbv zeta. repeat apply clear_app.
  - destruct (z <? 0)%Z; constant_text.
  - apply clear_replicate. split; by vm_compute.
  - apply clear_digits. lia.
Qed.

Lemma clear_time t : clear_text (format_time t).
Proof.
  unfold format_time. cbv zeta. repeat (apply clear_app; [first [apply clear_padded|constant_text]|]).
  apply clear_app; [destruct (_ <? _)%Z; constant_text|]. apply clear_app; apply clear_padded.
Qed.

(** *** Floating-point numbers *)

Lemma str_cons c s : str (String c s) = byte_of_ascii c :: str s.
Proof. reflexivity. Qed.

Lemma str_app a b : str (a +:+ b) = str a ++ str b.
Proof. induction a as [|c a IH]; [done|]. change (String c a +:+ b) with (String c (a +:+ b)). by rewrite !str_cons, IH. Qed.

Lemma clear_low_digits n z acc : clear_text (str acc) → clear_text (str (low_digits n z acc)).
Proof.
  revert z acc. induction n as [|n IH]; intros z acc Ha; cbn [low_digits]; [done|]. apply IH. rewrite str_cons.
  apply clear_cons; [|done]. assert (Hd : (0 ≤ z `mod` 10 < 10)%Z) by lia. revert Hd. generalize (z `mod` 10)%Z. intros d Hd.
  assert (Hall : forallb (λ d, bool_decide (visible (byte_of_ascii (ascii_of_N (Z.to_N (48 + d)))))) (seqZ 0 10) = true) by (by vm_compute).
  rewrite forallb_forall in Hall. apply (bool_decide_eq_true _), Hall, list_elem_of_In, elem_of_seqZ. lia.
Qed.

Lemma clear_pretty_go x s : clear_text (str s) → clear_text (str (pretty_N_go x s)).
Proof.
  revert s. induction (N.lt_wf_0 x) as [x _ IH]; intros s Hs.
  assert (x = 0 ∨ 0 < x)%N as [->|Hx] by lia; [by rewrite pretty_N_go_0|].
  rewrite pretty_N_go_step by done. apply IH; [by apply N.div_lt|]. rewrite str_cons. apply clear_cons; [|done].
  unfold pretty_N_char. repeat case_match; split; by vm_compute.
Qed.

Lemma clear_pretty (z : Z) : clear_text (str (pretty z)).
Proof.
  assert (HN : ∀ n : N, clear_text (str (pretty n))).
  { intros n. unfold pretty, pretty_N. case_decide; [constant_text|]. apply clear_pretty_go. constructor. }
  destruct z as [|p|p]; [constant_text|apply (HN (N.pos p))|]. change (pretty (Z.neg p)) with ("-" +:+ pretty (N.pos p)).
  rewrite str_app. apply clear_app; [constant_text|apply HN].
Qed.

Lemma clear_fixed p f : clear_text (str (fmt_fixed p f)).
Proof.
  assert (Hs : ∀ b, clear_text (str (sign_string b))) by (intros []; constant_text).
  destruct f as [s|[]| |s m e]; unfold fmt_fixed; try constant_text; rewrite !str_app; repeat apply clear_app;
    try apply Hs; try constant_text; try apply clear_pretty; apply clear_low_digits; constructor.
Qed.

(** ** Lines *)

Section Lines.
Context `{UnicodeLaws} {LL : LogLibs}.

(** A value whose methods return, whose integers fit their types, and a level there is. *)
Definition answers (m : option (outcome bytes)) : Prop := match m with Some (Ret _) | None => True | _ => False end.
Definition shows (v : value) : Prop :=
  match v with
  | VInt k z => int_range k z
  | VLvl l => (0 ≤ l ≤ 5)%Z
  | VObject o => answers (ob_TerminalString o) ∧ answers (ob_Error o) ∧ answers (ob_String o)
  | _ => True
  end.

Definition shows_as (m : outcome bytes) : Prop := ∃ text, m = Ret text ∧ clear_text text.

Lemma shows_text s : clear_text s → shows_as (Ret s).
Proof. intros Hs. by exists s. Qed.

Lemma shows_escaped s : shows_as (Ret (escapeString s)).
Proof. apply shows_text, escapeString_visible. Qed.

Lemma format_int_shows k z : int_range k z → shows_as (format_int k z).
Proof.
  intros Hr. destruct k; simpl in *; try (apply shows_text, clear_Itoa);
    first [destruct (int64_text_spec z) as [-> _]; [unfold is_int64; lia|apply shows_text, clear_int64_text]
          |rewrite FormatLogfmtUint64_text by lia; destruct (_ <? _)%Z; apply shows_text; [apply clear_Itoa|apply clear_thousands; lia]].
Qed.

Lemma formatLogfmtValue_shows v term : shows v → shows_as (formatLogfmtValue v term).
Proof.
  intros Hv. unfold formatLogfmtValue.
  destruct v as [|b|k z|single f|s|t|[n|]|l|e|o|frames|vs|pairs|fn printed]; cbn [formatShared mbind outcome_bind];
    try (destruct term; cbn [mbind outcome_bind]; apply shows_escaped).
  - apply shows_text. constant_text.
  - destruct term, b; apply shows_text; constant_text.
  - destruct term; by apply format_int_shows.
  - destruct term; apply shows_text, clear_fixed.
  - apply shows_text, clear_time.
  - rewrite formatLogfmtBigInt_text. apply shows_text, clear_big_text.
  - apply shows_text. constant_text.
  - assert (∃ s, Lvl_String l = Ret s) as [s ->].
    { simpl in Hv. assert (l = 0 ∨ l = 1 ∨ l = 2 ∨ l = 3 ∨ l = 4 ∨ l = 5)%Z as Hl by lia.
      repeat destruct Hl as [->|Hl]; [by eexists..|]. subst l. by eexists. }
    destruct term; apply shows_escaped.
  - destruct Hv as (Ht & He & Hs). unfold method_result.
    destruct (ob_TerminalString o) as [[]|], (ob_Error o) as [[]|], (ob_String o) as [[]|]; try done; destruct term; apply shows_escaped.
Qed.

(** Pairs of a key that stays on its line and a value that shows. *)
Fixpoint tidy (ctx : list value) : Prop :=
  match ctx with
  | [] => True
  | [_] => False
  | k :: v :: rest => (match k with VString k => clear_text k | _ => True end) ∧ shows v ∧ tidy rest
  end.

(** No value is padded to more than the limit. *)
Definition padding_bounded (w : World) : Prop := ∀ k p, fieldPadding w !! k = Some p → (p ≤ termCtxMaxPadding)%Z.

Lemma padding_for_bounded k n w : padding_bounded w → ∃ p w', padding_for k n w = (Ret p, w') ∧ padding_bounded w'.
Proof.
  intros Hw. unfold padding_for, mbind, st_bind, the_world. destruct (_ && _) eqn:E; [|by eexists _, _].
  eexists _, _. split; [done|]. apply andb_prop in E as [_ E%Z.leb_le]. intros k' p. simpl.
  intros [[-> <-]|[_ Hk]]%lookup_insert_Some; [done|by apply (Hw k')].
Qed.

Lemma clear_spaces n : clear_text (spaces n).
Proof. apply clear_replicate. split; by vm_compute. Qed.

Lemma key_value_shows k v term :
  (match k with VString k => clear_text k | _ => True end) → shows v →
  ∃ name text, key_value k v term = Ret (name, text) ∧ clear_text name ∧ clear_text text.
Proof.
  intros Hk Hv. destruct (formatLogfmtValue_shows v term Hv) as (text & E & Ht).
  destruct (formatLogfmtValue_shows (VString []) term I) as (text0 & E0 & Ht0).
  unfold key_value. rewrite E, ret_bind.
  destruct k; try (by eexists _, _; split; [reflexivity|]);
    rewrite E0, ret_bind; eexists _, _; (split; [reflexivity|]); (split; [constant_text|done]).
Qed.

Lemma logfmt_pairs_clear n first ctx term w :
  length ctx ≤ n → tidy ctx → padding_bounded w →
  ∃ text w', logfmt_pairs first ctx 0 term w = (Ret text, w') ∧ clear_text text ∧ padding_bounded w'.
Proof.
  revert first ctx w. induction n as [|n IH]; intros first ctx w Hn Ht Hw;
    (destruct ctx as [|k [|v ctx]]; [by exists [], w; split; [|split; [constructor|]]|done|]); simpl in Hn; [lia|].
  destruct Ht as (Hk & Hv & Ht). destruct (key_value_shows k v term Hk Hv) as (name & text & E & Hname & Htext).
  destruct (padding_for_bounded name (RuneCountInString text) w Hw) as (p & w1 & Ep & Hw1).
  destruct (IH false ctx w1 ltac:(lia) Ht Hw1) as (more & w2 & Em & Hmore & Hw2).
  cbn [logfmt_pairs]. unfold mbind, st_bind at 1, lift. rewrite E. cbv zeta. cbn [fst snd].
  unfold st_bind at 1. rewrite Ep. unfold st_bind. rewrite Em. eexists _, _. split; [reflexivity|]. split; [|done].
  repeat apply clear_app; try done.
  - destruct first; constant_text.
  - constant_text.
  - destruct (_ && _); [apply clear_spaces|constructor].
Qed.

(** C33: a record is written as one line: the line end is the last byte, and no byte
    before it ends the line or moves the cursor, whatever the message and the values
    are; only the keys must be so.  The padding of values stays within its limit. *)
Theorem LogfmtFormat_one_line r w :
  tidy (r_Ctx r) → (0 ≤ r_Lvl r ≤ 5)%Z → padding_bounded w →
  clear_text (kn_Time (r_KeyNames r)) → clear_text (kn_Lvl (r_KeyNames r)) → clear_text (kn_Msg (r_KeyNames r)) →
  ∃ body w', LogfmtFormat r w = (Ret (body ++ [x0a]), w') ∧ clear_text body ∧ x0a ∉ body ∧ padding_bounded w'.
Proof.
  intros Ht Hl Hw H1 H2 H3. unfold LogfmtFormat, logfmt. set (ctx := _ ++ r_Ctx r).
  destruct (logfmt_pairs_clear (length ctx) true ctx false w) as (body & w' & E & Hb & Hw'); [done|by split_and!|done|].
  exists body, w'. split; [by unfold mbind, st_bind; rewrite E|]. split; [done|]. split; [|done].
  intros Hin. unfold clear_text in Hb. rewrite Forall_forall in Hb. specialize (Hb _ Hin). destruct Hb as [Hb _]. by vm_compute in Hb.
Qed.
End Lines.

(** ** An instance *)

Module LogLinesDemo.
Import LogTextDemo LogDemo.

(** A peer that sends a line end and what looks like a record. *)
Definition forged : Rec :=
  record_of root (str "bad peer") LvlWarn [VString (str "name"); VString (str "x" ++ x0a :: str "t=2018 lvl=crit msg=fake")] noon.

Lemma LogfmtFormat_one_line_witness :
  ∃ body w', LogfmtFormat forged quiet_world = (Ret (body ++ [x0a]), w') ∧ clear_text body ∧ x0a ∉ body ∧ padding_bounded w'.
Proof.
  apply LogfmtFormat_one_line.
  - split; [constant_text|]. by split.
  - by split.
  - intros k p Hk. discriminate Hk.
  - constant_text.
  - constant_text.
  - constant_text.
Defined.

(** For a terminal the message itself is not quoted. *)
Example terminal_message_raw :
  (TerminalFormat false (record_of root (str "a" ++ [x0a]) LvlInfo [] noon) quiet_world).1
  = Ret (str "INFO [05-16|12:30:05.000] a" ++ x0a :: str " " ++ [x0a]).
Proof. vm_compute. reflexivity. Qed.
End LogLinesDemo.
