(* ===== verification/LogBuffer.v ===== *)
(** * Handlers with a channel

    [ChannelHandler] and [BufferedHandler] of [log/handler.go]: the records go through
    a channel to a goroutine that gives them to the wrapped handler.  The channel
    holds pointers, so that the sender and the goroutine share the records. *)

From Stdlib Require Import Strings.Byte.
From stdpp Require Import base strings numbers gmap list.
From S2P Require Import Prelude Float64 Platform Concrete Net Runes LogNumbers LogText Log LogFormat LogSafe.

(** The records by their addresses, the channel, the record that the goroutine works
    on, the panic that ended the program, and what the wrapped handler writes to,
    which nothing else is taken to use. *)
Record buffered := mkBuffered {
  b_recs : gmap nat Rec;
  b_chan : list nat;
  b_busy : option nat;
  b_dead : option gopanic;
  b_world : World
}.
Definition b_init (w : World) : buffered := mkBuffered ∅ [] None None w.
Definition set_recs (m : gmap nat Rec) (s : buffered) : buffered := mkBuffered m (b_chan s) (b_busy s) (b_dead s) (b_world s).

(** A send: it waits while the channel is full, and goes to the goroutine when that
    one waits at an empty channel. *)
Definition ChannelHandler (bufSize : nat) (r : nat) (s : buffered) : option buffered :=
  match b_busy s, b_chan s with
  | None, [] => Some (mkBuffered (b_recs s) [] (Some r) (b_dead s) (b_world s))
  | _, _ =>
      if length (b_chan s) <? bufSize then Some (mkBuffered (b_recs s) (b_chan s ++ [r]) (b_busy s) (b_dead s) (b_world s))
      else None
  end.

(** The goroutine of [BufferedHandler]: it takes a record, and logs it.  The error is
    dropped; a panic ends the program. *)
Definition receive (s : buffered) : option buffered :=
  match b_busy s, b_chan s with
  | None, m :: recs => Some (mkBuffered (b_recs s) recs (Some m) (b_dead s) (b_world s))
  | _, _ => None
  end.
Definition log_one (h : Handler) (s : buffered) : option buffered :=
  m ← b_busy s; r ← b_recs s !! m;
  match h (r, b_world s) with
  | (Ret _, (r', w')) | (Err _, (r', w')) => Some (mkBuffered (<[m := r']> (b_recs s)) (b_chan s) None (b_dead s) w')
  | (Panic p, (r', w')) => Some (mkBuffered (<[m := r']> (b_recs s)) (b_chan s) None (Some p) w')
  | (OutOfFuel, _) => None
  end.

(** What can happen: a logger makes a record, a handler of the sender changes it or
    sends it, the goroutine goes on. *)
Inductive buffer_event := ENew (m : nat) (r : Rec) | EChange (m : nat) (f : Rec → Rec) | ESend (m : nat) | EReceive | ELog.

Section Buffered.
Context (bufSize : nat) (h : Handler).

Definition BufferedHandler (e : buffer_event) (s : buffered) : option buffered :=
  match b_dead s with
  | Some _ => None
  | None =>
      match e with
      | ENew m r => match b_recs s !! m with None => Some (set_recs (<[m := r]> (b_recs s)) s) | Some _ => None end
      | EChange m f => r ← b_recs s !! m; Some (set_recs (<[m := f r]> (b_recs s)) s)
      | ESend m => _ ← b_recs s !! m; ChannelHandler bufSize m s
      | EReceive => receive s
      | ELog => log_one h s
      end
  end.

(** The records that are sent, as they are then, and the state after the events. *)
Fixpoint run_buffered (es : list buffer_event) (s : buffered) : option (list Rec * buffered) :=
  match es with
  | [] => Some ([], s)
  | e :: es' =>
      s' ← BufferedHandler e s;
      '(sent, s'') ← run_buffered es' s';
      Some (match e with ESend m => option_list (b_recs s !! m) ++ sent | _ => sent end, s'')
  end.

(** ** The handler without a channel *)

Fixpoint log_all (rs : list Rec) (w : World) : outcome unit * World :=
  match rs with
  | [] => (Ret tt, w)
  | r :: rs' =>
      match h (r, w) with
      | (Ret _, (_, w')) | (Err _, (_, w')) => log_all rs' w'
      | (Panic p, (_, w')) => (Panic p, w')
      | (OutOfFuel, (_, w')) => (OutOfFuel, w')
      end
  end.
Definition ended (dead : option gopanic) : outcome unit := match dead with None => Ret tt | Some p => Panic p end.

Lemma log_all_snoc rs r w w' : log_all rs w = (Ret tt, w') → log_all (rs ++ [r]) w = log_all [r] w'.
Proof.
  revert w. induction rs as [|r0 rs IH]; intros w; cbn [app]; [by intros [= ->]|]. cbn [log_all].
  destruct (h (r0, w)) as [[[]|e|p|] [r1 w1]]; try apply IH; done.
Qed.

Lemma log_all_panic rs rs' w p w' : log_all rs w = (Panic p, w') → log_all (rs ++ rs') w = (Panic p, w').
Proof.
  revert w. induction rs as [|r0 rs IH]; intros w; cbn [app]; [done|]. cbn [log_all].
  destruct (h (r0, w)) as [[[]|e|q|] [r1 w1]]; try apply IH; done.
Qed.

Lemma log_all_cons r rs w w' : log_all (r :: rs) w = (Ret tt, w') →
  ∃ r1 w1, (h (r, w) = (Ret tt, (r1, w1)) ∨ ∃ e, h (r, w) = (Err e, (r1, w1))) ∧ log_all rs w1 = (Ret tt, w').
Proof. cbn [log_all]. destruct (h (r, w)) as [[[]|e|q|] [r1 w1]]; try done; intros E; exists r1, w1; eauto. Qed.

Lemma log_all_app rs rs' w w' w1 : log_all rs w = (Ret tt, w1) → log_all (rs ++ rs') w = (Ret tt, w') → log_all rs' w1 = (Ret tt, w').
Proof.
  revert w. induction rs as [|r0 rs IH]; intros w; cbn [app]; [by intros [= ->]|].
  intros (r1 & w2 & H1 & E1)%log_all_cons (r2 & w3 & H2 & E2)%log_all_cons. apply (IH w2); [done|].
  destruct H1 as [H1|[e H1]], H2 as [H2|[e' H2]]; congruence.
Qed.

(** ** Nothing is lost and the order is kept *)

(** After a record is sent its sender neither changes nor sends it again. *)
Definition touches (m : nat) (e : buffer_event) : bool :=
  match e with EChange n _ | ESend n => n =? m | _ => false end.
Fixpoint careful (es : list buffer_event) : Prop :=
  match es with
  | [] => True
  | ESend m :: es' => Forall (λ e, touches m e = false) es' ∧ careful es'
  | _ :: es' => careful es'
  end.

(** What was sent and is not logged yet. *)
Definition pending (s : buffered) : list nat := option_list (b_busy s) ++ b_chan s.

Record buffer_inv (w0 : World) (sent : list Rec) (s : buffered) (logged rest : list Rec) : Prop := {
  inv_sent : sent = logged ++ rest;
  inv_rest : Forall2 (λ m r, b_recs s !! m = Some r) (pending s) rest;
  inv_distinct : NoDup (pending s);
  inv_world : log_all logged w0 = (ended (b_dead s), b_world s);
  inv_full : length (b_chan s) ≤ bufSize
}.

Definition untouched (es : list buffer_event) (s : buffered) : Prop := Forall (λ m, Forall (λ e, touches m e = false) es) (pending s).

Lemma rest_insert (m : nat) (r : Rec) (recs : gmap nat Rec) ms rs :
  m ∉ ms → Forall2 (λ m r, recs !! m = Some r) ms rs → Forall2 (λ n r', <[m := r]> recs !! n = Some r') ms rs.
Proof.
  intros Hm Hr. revert Hm. induction Hr as [|n r' ms rs E Hr IH]; intros Hm; [constructor|].
  apply not_elem_of_cons in Hm as [Hn Hm]. constructor; [rewrite lookup_insert_ne; [done|congruence]|by apply IH].
Qed.

Lemma untouched_not e es s m : untouched (e :: es) s → touches m e = true → m ∉ pending s.
Proof.
  unfold untouched. rewrite Forall_forall. intros Hu Ht Hm. specialize (Hu m Hm). apply Forall_cons in Hu as [Hu _]. congruence.
Qed.

Lemma untouched_tail e es s s' : untouched (e :: es) s → (∀ m, m ∈ pending s' → m ∈ pending s) → untouched es s'.
Proof.
  unfold untouched. rewrite !Forall_forall. intros Hu Hp m Hm. specialize (Hu m (Hp m Hm)). by apply Forall_cons in Hu as [_ Hu].
Qed.

(** A record that is sent is the last of those to be logged. *)
Lemma ChannelHandler_pending m s s' : ChannelHandler bufSize m s = Some s' →
  pending s' = pending s ++ [m] ∧ b_recs s' = b_recs s ∧ b_dead s' = b_dead s ∧ b_world s' = b_world s ∧
  (length (b_chan s) ≤ bufSize → length (b_chan s') ≤ bufSize).
Proof.
  intros Hs. assert (Hb : (if length (b_chan s) <? bufSize
      then Some (mkBuffered (b_recs s) (b_chan s ++ [m]) (b_busy s) (b_dead s) (b_world s)) else None) = Some s' ∨
    (b_busy s = None ∧ b_chan s = [] ∧ s' = mkBuffered (b_recs s) [] (Some m) (b_dead s) (b_world s))).
  { unfold ChannelHandler in Hs. destruct (b_busy s), (b_chan s); [by left..| |by left]. right. by injection Hs. }
  unfold pending. destruct Hb as [Hb|(Eb & Ec & ->)].
  - destruct (Nat.ltb_spec (length (b_chan s)) bufSize); [|done]. injection Hb as <-. cbn [b_recs b_chan b_busy b_dead b_world].
    rewrite <- app_assoc. split_and!; try done. rewrite length_app. cbn [length]. lia.
  - rewrite Eb, Ec. split_and!; try done.
Qed.

Lemma inv_stored w0 sent s logged rest m : buffer_inv w0 sent s logged rest → m ∈ pending s → is_Some (b_recs s !! m).
Proof.
  intros Hi [i Hm]%list_elem_of_lookup_1. destruct (Forall2_lookup_l _ _ _ _ _ (inv_rest _ _ _ _ _ Hi) Hm) as (r & _ & E).
  by exists r.
Qed.

(** A change of a record that is not on its way. *)
Lemma inv_elsewhere w0 sent s logged rest m r :
  m ∉ pending s → buffer_inv w0 sent s logged rest → buffer_inv w0 sent (set_recs (<[m := r]> (b_recs s)) s) logged rest.
Proof. intros Hm [-> Hr Hd Hw Hf]. split; try done. by apply rest_insert. Qed.

Lemma inv_send w0 sent s logged rest m r s' :
  m ∉ pending s → b_recs s !! m = Some r → ChannelHandler bufSize m s = Some s' →
  buffer_inv w0 sent s logged rest → buffer_inv w0 (sent ++ [r]) s' logged (rest ++ [r]).
Proof.
  intros Hm Er Hs [-> Hr Hd Hw Hf]. apply ChannelHandler_pending in Hs as (Ep & Ec & Ed & Ew & Hf').
  split; [by rewrite app_assoc|rewrite Ep, Ec|rewrite Ep|by rewrite Ed, Ew|by apply Hf'].
  - apply Forall2_app; [done|by constructor].
  - apply NoDup_app. split; [done|]. split; [|apply NoDup_singleton]. intros n Hn ->%list_elem_of_singleton. done.
Qed.

Lemma inv_receive w0 sent s logged rest s' :
  receive s = Some s' → buffer_inv w0 sent s logged rest → buffer_inv w0 sent s' logged rest ∧ pending s' = pending s.
Proof.
  unfold receive. destruct s as [recs [|m chan] [n|] dead w]; cbn; try done. intros [= <-] [-> Hr Hd Hw Hf].
  split; [|done]. split; try done. cbn in *. lia.
Qed.

Lemma inv_log w0 sent s logged rest s' :
  log_one h s = Some s' → b_dead s = None → buffer_inv w0 sent s logged rest →
  ∃ r rest', rest = r :: rest' ∧ buffer_inv w0 sent s' (logged ++ [r]) rest' ∧ pending s = option_list (b_busy s) ++ pending s'.
Proof.
  unfold log_one. destruct s as [recs chan [m|] dead w]; [|done]. cbn. intros Hs -> [-> Hr Hd Hw Hf]. unfold pending in *. cbn in *.
  destruct (recs !! m) as [r|] eqn:Er; [|done]. cbn in Hs. apply Forall2_cons_inv_l in Hr as (r0 & rest' & E & Hr & ->).
  assert (r0 = r) as -> by congruence. apply NoDup_cons in Hd as [Hm Hd]. exists r, rest'. split; [done|].
  pose proof (log_all_snoc logged r w0 w Hw) as Hl. cbn [log_all] in Hl.
  destruct (h (r, w)) as [[[]|e|p|] [r' w']]; try done; injection Hs as <-; (split; [|done]);
    split; cbn; rewrite <- ?app_assoc; try done; by apply rest_insert.
Qed.

Lemma inv_step w0 sent s logged rest e es s' :
  buffer_inv w0 sent s logged rest → untouched (e :: es) s → careful (e :: es) → BufferedHandler e s = Some s' →
  ∃ logged' rest', buffer_inv w0 (sent ++ match e with ESend m => option_list (b_recs s !! m) | _ => [] end) s' logged' rest' ∧
    untouched es s' ∧ careful es.
Proof.
  intros Hi Hu Hc Hs. unfold BufferedHandler in Hs. destruct (b_dead s) eqn:Ed; [done|].
  destruct e as [m r|m f|m| |]; cbn [careful] in Hc; rewrite ?app_nil_r.
  - destruct (b_recs s !! m) eqn:Em; [done|]. injection Hs as <-. exists logged, rest. split; [|split; [by eapply untouched_tail|done]].
    apply inv_elsewhere; [|done]. intros (r' & Er)%(inv_stored _ _ _ _ _ _ Hi). congruence.
  - destruct (b_recs s !! m) eqn:Em; [|done]. injection Hs as <-. exists logged, rest. split; [|split; [by eapply untouched_tail|done]].
    apply inv_elsewhere; [|done]. apply (untouched_not _ _ _ m Hu). apply Nat.eqb_refl.
  - destruct Hc as [Hm Hc]. destruct (b_recs s !! m) as [r|] eqn:Em; [|done]. exists logged, (rest ++ [r]).
    split; [|split; [|done]].
    + apply (inv_send _ _ s _ _ m); try done. apply (untouched_not _ _ _ m Hu). apply Nat.eqb_refl.
    + apply ChannelHandler_pending in Hs as [Ep _]. unfold untouched. rewrite Ep. apply Forall_app. split; [|by constructor].
      by apply (untouched_tail _ _ s s Hu).
  - apply (inv_receive w0 sent s logged rest) in Hs as [Hi' Ep]; [|done]. exists logged, rest. split; [done|]. split; [|done].
    apply (untouched_tail _ _ s s' Hu). by rewrite Ep.
  - destruct (inv_log w0 sent s logged rest s' Hs Ed Hi) as (r & rest' & -> & Hi' & Ep). exists (logged ++ [r]), rest'.
    split; [done|]. split; [|done]. apply (untouched_tail _ _ s s' Hu). intros m Hm. rewrite Ep. apply elem_of_app. by right.
Qed.

Lemma inv_run w0 es sent s logged rest more s' :
  buffer_inv w0 sent s logged rest → untouched es s → careful es → run_buffered es s = Some (more, s') →
  ∃ logged' rest', buffer_inv w0 (sent ++ more) s' logged' rest'.
Proof.
  revert sent s logged rest more. induction es as [|e es IH]; intros sent s logged rest more Hi Hu Hc Hr.
  { injection Hr as <- <-. rewrite app_nil_r. eauto. }
  cbn [run_buffered] in Hr. apply bind_Some in Hr as (s1 & Hs & Hr). apply bind_Some in Hr as ([more1 s2] & Hr & [= <- <-]).
  destruct (inv_step w0 sent s logged rest e es s1 Hi Hu Hc Hs) as (l1 & r1 & Hi1 & Hu1 & Hc1).
  destruct (IH _ s1 l1 r1 more1 Hi1 Hu1 Hc1 Hr) as (l2 & r2 & Hi2). exists l2, r2. revert Hi2. rewrite <- app_assoc.
  by destruct e.
Qed.

(** ** The channel is emptied *)

(** The goroutine logs the next record. *)
Lemma goroutine_step w0 sent s logged rest w' :
  pending s ≠ [] → b_dead s = None → buffer_inv w0 sent s logged rest → log_all sent w0 = (Ret tt, w') →
  ∃ e s', (e = EReceive ∨ e = ELog) ∧ BufferedHandler e s = Some s' ∧ b_dead s' = None ∧
    2 * length (b_chan s') + length (option_list (b_busy s')) < 2 * length (b_chan s) + length (option_list (b_busy s)).
Proof.
  intros Hp Ed Hi Hl. unfold BufferedHandler. destruct (b_busy s) as [m|] eqn:Eb.
  - exists ELog. rewrite Ed. unfold log_one. rewrite Eb. cbn [mbind option_bind].
    destruct (inv_stored w0 sent s logged rest m Hi) as [r Er]. { unfold pending. rewrite Eb. by left. }
    rewrite Er. cbn [mbind option_bind]. destruct Hi as [-> Hr Hd Hw Hf]. rewrite Ed in Hw. pose proof (log_all_app _ _ _ _ _ Hw Hl) as Hl'.
    unfold pending in Hr. rewrite Eb in Hr. apply Forall2_cons_inv_l in Hr as (r0 & rest' & E & _ & ->). assert (r0 = r) as -> by congruence.
    apply log_all_cons in Hl' as (r1 & w1 & [E1|[e E1]] & _); rewrite E1; eexists; (split; [by right|]); (split; [reflexivity|]);
      cbn; (split; [done|lia]).
  - exists EReceive. rewrite Ed. unfold receive, pending in *. rewrite Eb in *. destruct (b_chan s) as [|m chan] eqn:Ec; [done|].
    eexists. split; [by left|]. split; [reflexivity|]. cbn. split; [done|lia].
Qed.

Lemma inv_drained w0 sent s logged rest w' :
  pending s = [] → b_dead s = None → buffer_inv w0 sent s logged rest → log_all sent w0 = (Ret tt, w') → b_world s = w'.
Proof.
  intros Hp Ed [-> Hr _ Hw _] Hl. rewrite Hp in Hr. apply Forall2_nil_inv_l in Hr as ->. rewrite app_nil_r, Hw, Ed in Hl.
  by injection Hl.
Qed.

Lemma drain n w0 sent s logged rest w' :
  2 * length (b_chan s) + length (option_list (b_busy s)) ≤ n → b_dead s = None →
  buffer_inv w0 sent s logged rest → log_all sent w0 = (Ret tt, w') →
  ∃ es s', Forall (λ e, e = EReceive ∨ e = ELog) es ∧ run_buffered es s = Some ([], s') ∧ pending s' = [] ∧ b_world s' = w'.
Proof.
  revert s logged rest. induction n as [|n IH]; intros s logged rest Hn Ed Hi Hl.
  all: destruct (decide (pending s = [])) as [Hp|Hp].
  1, 3: exists [], s; split_and!; [apply Forall_nil_2|done|done|by apply (inv_drained w0 sent s logged rest)].
  all: destruct (goroutine_step w0 sent s logged rest w' Hp Ed Hi Hl) as (e & s1 & He & Hs & Ed1 & Hlt).
  1: lia.
  assert (He' : e = EReceive ∨ e = ELog) by done.
  assert (Hc : careful [e]) by (by destruct He as [->| ->]).
  assert (Hu : untouched [e] s).
  { apply Forall_forall. intros m _. constructor; [|constructor]. by destruct He as [->| ->]. }
  destruct (inv_step w0 sent s logged rest e [] s1 Hi Hu Hc Hs) as (l1 & r1 & Hi1 & _).
  assert (Esent : sent ++ match e with ESend m => option_list (b_recs s !! m) | _ => [] end = sent)
    by (destruct He as [->| ->]; apply app_nil_r).
  rewrite Esent in Hi1. destruct (IH s1 l1 r1) as (es & s' & Hes & Hrun & Hp' & Hw'); [lia|done..|].
  exists (e :: es), s'. split; [by constructor|]. split; [|done]. cbn [run_buffered]. rewrite Hs. cbn [mbind option_bind].
  rewrite Hrun. by destruct He as [->| ->].
Qed.
(** C36: a handler with a channel does what the wrapped handler does without it, later:
    at every moment the records that were logged are the first of those that were
    sent, in their order and as they were when they were sent, with the effect that
    the wrapped handler has on them; the rest waits, no more than the size in the
    channel; and as long as the wrapped handler does not panic or block, the goroutine
    alone can log all of them.  Only, a record must not be changed after it is sent. *)
Theorem BufferedHandler_refines w0 es sent s :
  careful es → run_buffered es (b_init w0) = Some (sent, s) →
  length (b_chan s) ≤ bufSize ∧
  (∃ logged rest, sent = logged ++ rest ∧ length rest = length (pending s) ∧
     log_all logged w0 = (ended (b_dead s), b_world s)) ∧
  ∀ w', log_all sent w0 = (Ret tt, w') →
    ∃ es' s', Forall (λ e, e = EReceive ∨ e = ELog) es' ∧ run_buffered es' s = Some ([], s') ∧ pending s' = [] ∧ b_world s' = w'.
Proof.
  intros Hc Hr. destruct (inv_run w0 es [] (b_init w0) [] [] sent s) as (logged & rest & Hi); try done.
  { split; cbn; try done; [apply NoDup_nil_2|lia]. }
  { by apply Forall_nil_2. }
  split; [by apply (inv_full _ _ _ _ _ Hi)|]. split.
  - exists logged, rest. split; [by apply (inv_sent _ _ _ _ _ Hi)|]. split; [|by apply (inv_world _ _ _ _ _ Hi)].
    symmetry. by eapply Forall2_length, (inv_rest _ _ _ _ _ Hi).
  - intros w' Hl. destruct (b_dead s) as [p|] eqn:Ed; [|by eapply drain].
    pose proof (inv_world _ _ _ _ _ Hi) as Hw. rewrite Ed in Hw. cbn [ended] in Hw.
    apply (log_all_panic _ rest) in Hw. rewrite <- (inv_sent _ _ _ _ _ Hi) in Hw. cbn [app] in *. congruence.
Qed.
End Buffered.

(** ** An instance *)

Module LogBufferDemo.
Import LogTextDemo LogDemo.

Definition out : Handler := write_to (to_output 1) LogfmtFormat.
Definition hello (msg : string) : Rec := record_of root (str msg) LvlInfo [] noon.
Definition demo_events : list buffer_event := [ENew 0 (hello "one"); ESend 0; ENew 1 (hello "two"); ESend 1; ELog; EReceive].
Definition the_run : list Rec * buffered :=
  match run_buffered 1 out demo_events (b_init quiet_world) with Some r => r | None => ([], b_init quiet_world) end.

Lemma BufferedHandler_refines_witness :
  length (b_chan the_run.2) ≤ 1 ∧
  ∃ es' s', Forall (λ e, e = EReceive ∨ e = ELog) es' ∧ run_buffered 1 out es' the_run.2 = Some ([], s') ∧ pending s' = [] ∧
    b_world s' = (log_all out [hello "one"; hello "two"] quiet_world).2.
Proof.
  destruct (BufferedHandler_refines 1 out quiet_world demo_events [hello "one"; hello "two"] the_run.2) as (H1 & _ & H2).
  - cbn. split_and!; repeat constructor.
  - vm_compute. reflexivity.
  - split; [exact H1|]. apply H2. vm_compute. reflexivity.
Defined.

(** A full channel makes the sender wait. *)
Example full_channel_waits :
  run_buffered 1 out [ENew 0 (hello "a"); ESend 0; ENew 1 (hello "b"); ESend 1; ENew 2 (hello "c"); ESend 2] (b_init quiet_world) = None.
Proof. vm_compute. reflexivity. Qed.

(** What a handler after it adds to the record is written by the handler with the
    channel, when its goroutine comes later. *)
Example changed_after_send :
  (λ r, written (b_world r.2) !! 1%Z) <$>
    run_buffered 1 out [ENew 0 (hello "a"); ESend 0; EChange 0 (append_Ctx [VString (str "caller"); VString (str "main.go:7")]); ELog] (b_init quiet_world)
  = Some (Some [str "t=2018-05-16T12:30:05+0200 lvl=info msg=a caller=main.go:7" ++ [x0a]]).
Proof. vm_compute. reflexivity. Qed.
End LogBufferDemo.
