(* ===== verification/Glog.v ===== *)
(** * Verbosity by call site

    [log/handler_glog.go]: a handler with a ceiling, with rules that raise it for the
    files whose path matches a pattern, and with a place where it adds a stack dump.
    What a rule says about a call site is kept in a cache.  Its lock is left out. *)

From Stdlib Require Import Strings.Byte ZifyNat.
From stdpp Require Import base strings numbers gmap list.
From S2P Require Import Prelude Float64 Platform Concrete Text Net Runes LogNumbers LogText Log.

(** ** [regexp]

    The expressions that [Vmodule] builds, on bytes: their classes are all bytes but
    one ASCII byte, so that a rune is never cut. *)

Inductive regexp :=
| RVoid
| REps
| RLit (c : byte)
| RNot (c : byte)
| RCat (a b : regexp)
| RAlt (a b : regexp)
| RStar (a : regexp).

Fixpoint nullable (e : regexp) : bool :=
  match e with
  | RVoid | RLit _ | RNot _ => false
  | REps | RStar _ => true
  | RCat a b => nullable a && nullable b
  | RAlt a b => nullable a || nullable b
  end.

(** What is left of an expression after a byte. *)
Fixpoint derive (x : byte) (e : regexp) : regexp :=
  match e with
  | RVoid | REps => RVoid
  | RLit c => if bool_decide (x = c) then REps else RVoid
  | RNot c => if bool_decide (x = c) then RVoid else REps
  | RCat a b => if nullable a then RAlt (RCat (derive x a) b) (derive x b) else RCat (derive x a) b
  | RAlt a b => RAlt (derive x a) (derive x b)
  | RStar a => RCat (derive x a) (RStar a)
  end.
Fixpoint whole_match (e : regexp) (s : bytes) : bool :=
  match s with [] => nullable e | x :: s' => whole_match (derive x e) s' end.

(** The match can begin anywhere; the expressions end at the end of the text. *)
Fixpoint MatchString (e : regexp) (s : bytes) : bool :=
  whole_match e s || match s with [] => false | _ :: s' => MatchString e s' end.

Definition RText (s : bytes) : regexp := foldr (λ c e, RCat (RLit c) e) REps s.
Definition RPlus (a : regexp) : regexp := RCat a (RStar a).
Definition ROpt (a : regexp) : regexp := RAlt a REps.
Definition newline : byte := x0a.
Definition slash : byte := "/"%byte.

(** ** Rules *)

(** An expression for a component of a path: for a star nothing or a slash and
    anything, else a slash and the component, quoted. *)
Definition component_regexp (comp : bytes) : regexp :=
  if bool_decide (comp = str "*") then ROpt (RCat (RLit slash) (RStar (RNot newline)))
  else if bool_decide (comp = []) then REps
  else RText (slash :: comp).

Definition matcher (pattern : bytes) : regexp :=
  RCat (RStar (RNot newline))
    (RCat (foldr (λ comp e, RCat (component_regexp comp) e) REps (Split slash pattern))
       (if HasSuffix pattern (str ".go") then REps
        else RCat (RLit slash) (RCat (RPlus (RNot slash)) (RText (str ".go"))))).

(** A text that does not compile leaves a nil pointer, since the error is dropped. *)
Definition compiled (pattern : bytes) : option regexp := if ValidString pattern then Some (matcher pattern) else None.

Abbreviation rule := (option regexp * Lvl)%type.
Definition errVmoduleSyntax : goerror := EMsg "expect comma-separated list of filename=N".
Definition errTraceSyntax : goerror := EMsg "expect file.go:234".

(** One rule of the argument: none when it is empty or does not raise anything. *)
Definition parse_rule (text : bytes) : outcome (list rule) :=
  if bool_decide (text = []) then Ret []
  else match Split "="%byte text with
       | [pattern; level] =>
           let pattern := TrimSpace pattern in
           let level := TrimSpace level in
           if bool_decide (pattern = []) || bool_decide (level = []) then Err errVmoduleSyntax
           else match Atoi level with
                | Ret level => if (level <=? 0)%Z then Ret [] else Ret [(compiled pattern, level)]
                | Err _ => Err errVmoduleSyntax
                | Panic p => Panic p
                | OutOfFuel => OutOfFuel
                end
       | _ => Err errVmoduleSyntax
       end.
Definition parse_rules (ruleset : bytes) : outcome (list rule) :=
  rules ← mmap parse_rule (Split ","%byte ruleset); Ret (concat rules).

(** ** The handler *)

Record GlogHandler := mkGlog {
  g_origin : Handler;
  g_level : Z;
  g_override : Z;
  g_backtrace : Z;
  g_patterns : list rule;
  g_siteCache : gmap Z Lvl;
  g_location : bytes
}.

Definition uint32_wrap (z : Z) : Z := (z `mod` 2 ^ 32)%Z.

Definition NewGlogHandler (h : Handler) : GlogHandler := mkGlog h 0 0 0 [] ∅ [].
Definition glog_SetHandler (nh : Handler) (h : GlogHandler) : GlogHandler :=
  mkGlog nh (g_level h) (g_override h) (g_backtrace h) (g_patterns h) (g_siteCache h) (g_location h).
Definition Verbosity (level : Lvl) (h : GlogHandler) : GlogHandler :=
  mkGlog (g_origin h) (uint32_wrap level) (g_override h) (g_backtrace h) (g_patterns h) (g_siteCache h) (g_location h).

Definition Vmodule (ruleset : bytes) (h : GlogHandler) : outcome unit * GlogHandler :=
  match parse_rules ruleset with
  | Ret filter => (Ret tt, mkGlog (g_origin h) (g_level h) (uint32_wrap (Z.of_nat (length filter))) (g_backtrace h) filter ∅ (g_location h))
  | Err e => (Err e, h)
  | Panic p => (Panic p, h)
  | OutOfFuel => (OutOfFuel, h)
  end.

Definition BacktraceAt (location : bytes) (h : GlogHandler) : outcome unit * GlogHandler :=
  match Split ":"%byte location with
  | [file; line] =>
      let file := TrimSpace file in
      let line := TrimSpace line in
      if bool_decide (file = []) || bool_decide (line = []) then (Err errTraceSyntax, h)
      else if negb (HasSuffix file (str ".go")) then (Err errTraceSyntax, h)
      else match Atoi line with
           | Err _ => (Err errTraceSyntax, h)
           | _ => (Ret tt, mkGlog (g_origin h) (g_level h) (g_override h) (uint32_wrap (Z.of_nat (length location)))
                             (g_patterns h) (g_siteCache h) location)
           end
  | _ => (Err errTraceSyntax, h)
  end.

Definition set_siteCache (c : gmap Z Lvl) (h : GlogHandler) : GlogHandler :=
  mkGlog (g_origin h) (g_level h) (g_override h) (g_backtrace h) (g_patterns h) c (g_location h).

Definition call_path (c : Call) : bytes := c_verb c (str "%+s").

(** The level of the first rule that matches. *)
Fixpoint first_match (patterns : list rule) (path : bytes) : outcome (option Lvl) :=
  match patterns with
  | [] => Ret None
  | (pattern, level) :: patterns' =>
      e ← deref pattern;
      if MatchString e path then Ret (Some level) else first_match patterns' path
  end.

Section Glog.
(** What [runtime.Stack] writes. *)
Context (stack : bytes).

Definition at_backtrace (h : GlogHandler) (r : Rec) : Rec :=
  if (0 <? g_backtrace h)%Z && bool_decide (g_location h = c_String (r_Call r)) then
    mkRec (r_Time r) LvlInfo (r_Msg r ++ [newline; newline] ++ stack) (r_Ctx r) (r_Call r) (r_KeyNames r)
  else r.

(** The level for a call site, from the cache or from the rules. *)
Definition site_level (h : GlogHandler) (c : Call) : outcome Lvl * GlogHandler :=
  match g_siteCache h !! c_PC c with
  | Some lvl => (Ret lvl, h)
  | None =>
      match first_match (g_patterns h) (call_path c) with
      | Ret l => let lvl := default 0%Z l in (Ret lvl, set_siteCache (<[c_PC c := lvl]> (g_siteCache h)) h)
      | Err e => (Err e, h)
      | Panic p => (Panic p, h)
      | OutOfFuel => (OutOfFuel, h)
      end
  end.

Definition glog_Log (h : GlogHandler) (s : Rec * World) : outcome unit * GlogHandler * (Rec * World) :=
  let r := at_backtrace h s.1 in
  if (uint32_wrap (r_Lvl r) <=? g_level h)%Z then let '(res, s') := g_origin h (r, s.2) in (res, h, s')
  else if (g_override h =? 0)%Z then (Ret tt, h, (r, s.2))
  else
    match site_level h (r_Call r) with
    | (Ret lvl, h') =>
        if (r_Lvl r <=? lvl)%Z then let '(res, s') := g_origin h (r, s.2) in (res, h', s') else (Ret tt, h', (r, s.2))
    | (Err e, h') => (Err e, h', (r, s.2))
    | (Panic p, h') => (Panic p, h', (r, s.2))
    | (OutOfFuel, h') => (OutOfFuel, h', (r, s.2))
    end.
End Glog.
