(* ===== verification/AppConfig.v ===== *)
(** * The configuration of the peer-to-peer program

    [ReadConfig] of [config/config.go]: lines of a key, an equal sign and a value
    over settings that are always there. *)

From Stdlib Require Import Strings.Byte ZifyNat.
From stdpp Require Import base strings numbers gmap list.
From S2P Require Import Prelude Platform Concrete Text Net Runes.

Definition default_config : gmap bytes bytes :=
  {[ str "port" := str "8888"; str "password" := str "abc123"; str "ip" := str "127.0.0.1" ]}.

(** What a line of the file, with its line end if it has one, does to the settings;
    lines without an equal sign or with no key are ignored. *)
Definition config_line (config : gmap bytes bytes) (line : bytes) : gmap bytes bytes :=
  match SplitN2 "="%byte line with
  | [key; value] =>
      let key := TrimSpace key in
      if bool_decide (key = []) then config else <[key := TrimSpace value]> config
  | _ => config
  end.

(** The lines as [ReadString] returns them: all but the last end in a line end. *)
Fixpoint ends_lines (parts : list bytes) : list bytes :=
  match parts with
  | [] => []
  | [p] => [p]
  | p :: ps => (p ++ [x0a]) :: ends_lines ps
  end.

(** The file is opened and read by the operating system: reading gives the content,
    or what comes before an error. *)
Definition ReadConfig (filename : bytes) (opened : outcome (bytes * option goerror)) : outcome (gmap bytes bytes) :=
  if bool_decide (filename = []) then Ret default_config
  else
    '(content, failed) ← opened;
    let config := foldl config_line default_config (ends_lines (Split x0a content)) in
    match failed with Some e => Err e | None => Ret config end.

(** ** A file that is written is read *)

Definition setting_line (kv : bytes * bytes) : bytes := kv.1 ++ "="%byte :: kv.2.
Definition config_text (kvs : list (bytes * bytes)) : bytes := Join x0a (setting_line <$> kvs).

(** Keys and values that fit on a line. *)
Definition setting (kv : bytes * bytes) : Prop :=
  plain_text kv.1 ∧ plain_text kv.2 ∧ trimmed kv.1 ∧ trimmed kv.2 ∧ kv.1 ≠ [] ∧
  "="%byte ∉ kv.1 ∧ x0a ∉ kv.1 ∧ x0a ∉ kv.2.

Lemma SplitN2_found sep a b : sep ∉ a → SplitN2 sep (a ++ sep :: b) = [a; b].
Proof.
  induction a as [|c a IH]; intros Hn; cbn [app SplitN2]; [by rewrite bool_decide_eq_true_2|].
  apply not_elem_of_cons in Hn as [Hc Hn]. by rewrite bool_decide_eq_false_2, IH.
Qed.

Lemma config_line_setting config kv post :
  setting kv → post = [] ∨ post = [x0a] → config_line config (setting_line kv ++ post) = <[kv.1 := kv.2]> config.
Proof.
  intros (Hk & Hv & Htk & Htv & Hne & He & _ & _) Hpost. unfold config_line, setting_line.
  rewrite <- app_assoc. cbn [app]. rewrite SplitN2_found by done.
  assert (Ek : TrimSpace kv.1 = kv.1).
  { rewrite <- (app_nil_r kv.1) at 1. apply (TrimSpace_trimmed [] kv.1 []); [by rewrite app_nil_r|done|constructor..]. }
  assert (Ev : TrimSpace (kv.2 ++ post) = kv.2).
  { apply (TrimSpace_trimmed [] kv.2 post); [|done|constructor|].
    - cbn [app]. apply Forall_app. split; [done|]. destruct Hpost as [->| ->]; [constructor|]. by apply Forall_singleton.
    - destruct Hpost as [->| ->]; [constructor|]. by apply Forall_singleton. }
  cbv zeta. rewrite Ek, Ev. by rewrite bool_decide_eq_false_2.
Qed.

Lemma config_lines_settings config kvs :
  Forall setting kvs → foldl config_line config (ends_lines (setting_line <$> kvs)) = foldl (λ m kv, <[kv.1 := kv.2]> m) config kvs.
Proof.
  intros Hs. revert config. induction Hs as [|kv kvs Hkv Hs IH]; intros config; [done|].
  destruct kvs as [|kv' kvs].
  - csimpl. rewrite <- (app_nil_r (setting_line kv)). apply config_line_setting; [done|by left].
  - change (ends_lines (setting_line <$> kv :: kv' :: kvs)) with ((setting_line kv ++ [x0a]) :: ends_lines (setting_line <$> kv' :: kvs)).
    cbn [foldl]. rewrite config_line_setting by (done || by right). apply IH.
Qed.

(** The settings that were written are over those that are always there, the last one
    of a key counting. *)
Lemma ReadConfig_written filename kvs :
  filename ≠ [] → kvs ≠ [] → Forall setting kvs →
  ReadConfig filename (Ret (config_text kvs, None)) = Ret (foldl (λ m kv, <[kv.1 := kv.2]> m) default_config kvs).
Proof.
  intros Hf Hne Hs. unfold ReadConfig. rewrite bool_decide_eq_false_2 by done. rewrite ret_bind. unfold config_text.
  rewrite Split_Join; [by rewrite config_lines_settings|by destruct kvs|].
  intros line (kv & -> & Hin)%list_elem_of_fmap. rewrite Forall_forall in Hs. destruct (Hs kv Hin) as (_ & _ & _ & _ & _ & _ & Hk & Hv).
  unfold setting_line. rewrite not_elem_of_app, not_elem_of_cons. split_and!; done.
Qed.

Example comment_is_a_setting :
  ReadConfig (str "config.txt") (Ret (str "# port=1" ++ x0a :: str "password = s=t", None))
  = Ret (<[str "password" := str "s=t"]> (<[str "# port" := str "1"]> default_config)).
Proof. vm_compute. reflexivity. Qed.
