(* ===== verification/GlogRules.v ===== *)
(** * What the rules of a verbosity mean

    The expressions that [Vmodule] of [log/handler_glog.go] builds match the paths
    that its documentation describes, and keeping the level of a call site does not
    change what is written. *)

From Stdlib Require Import Strings.Byte ZifyNat.
From stdpp Require Import base strings numbers gmap list.
From S2P Require Import Prelude Float64 Platform Concrete Text Net Runes LogNumbers LogText Log LogFormat LogSafe Glog.

(** ** The language of an expression *)

Inductive lang : regexp → bytes → Prop :=
| lang_eps : lang REps []
| lang_lit c : lang (RLit c) [c]
| lang_not c x : x ≠ c → lang (RNot c) [x]
| lang_cat a b s t : lang a s → lang b t → lang (RCat a b) (s ++ t)
| lang_left a b s : lang a s → lang (RAlt a b) s
| lang_right a b s : lang b s → lang (RAlt a b) s
| lang_nil a : lang (RStar a) []
| lang_more a s t : lang a s → lang (RStar a) t → lang (RStar a) (s ++ t).
#[local] Hint Constructors lang : core.

Lemma cat_iff a b s : lang (RCat a b) s ↔ ∃ s1 s2, s = s1 ++ s2 ∧ lang a s1 ∧ lang b s2.
Proof. split; [inversion 1; subst; eauto|]. intros (s1 & s2 & -> & ? & ?). by constructor. Qed.

Lemma alt_iff a b s : lang (RAlt a b) s ↔ lang a s ∨ lang b s.
Proof. split; [inversion 1; auto|]. intros [?|?]; auto. Qed.

Lemma eps_iff s : lang REps s ↔ s = [].
Proof. split; [by inversion 1|]. intros ->. constructor. Qed.

Lemma void_false s : ¬ lang RVoid s.
Proof. by inversion 1. Qed.

Lemma nullable_iff e : nullable e = true ↔ lang e [].
Proof.
  induction e as [| | | |a IHa b IHb|a IHa b IHb|a IHa]; simpl.
  - split; [done|]. by intros ?%void_false.
  - by split.
  - split; [done|inversion 1].
  - split; [done|inversion 1].
  - rewrite andb_true_iff, IHa, IHb, cat_iff. split.
    + intros [? ?]. by exists [], [].
    + intros (s1 & s2 & E & ? & ?). symmetry in E. by apply app_nil in E as [-> ->].
  - by rewrite orb_true_iff, IHa, IHb, alt_iff.
  - by split.
Qed.

Lemma star_first a x s : lang (RStar a) (x :: s) → ∃ s1 s2, s = s1 ++ s2 ∧ lang a (x :: s1) ∧ lang (RStar a) s2.
Proof.
  intros Hs. remember (RStar a) as e eqn:Ee. remember (x :: s) as t eqn:Et. revert s Et.
  induction Hs as [| | | | | | |a' s1 t Ha _ Hs IH]; intros s0 Et; try done. injection Ee as ->.
  destruct s1 as [|y s1]; [by apply IH|]. injection Et as -> <-. by exists s1, t.
Qed.

Lemma derive_iff x e s : lang (derive x e) s ↔ lang e (x :: s).
Proof.
  revert s. induction e as [| |c|c|a IHa b IHb|a IHa b IHb|a IHa]; intros s; simpl.
  - by split; intros ?%void_false.
  - split; [by intros ?%void_false|by inversion 1].
  - case_bool_decide as Hx.
    + subst. rewrite eps_iff. split; [by intros ->|by inversion 1].
    + split; [by intros ?%void_false|by inversion 1].
  - case_bool_decide as Hx.
    + split; [by intros ?%void_false|by inversion 1].
    + rewrite eps_iff. split; [intros ->; by constructor|by inversion 1].
  - assert (Hcat : lang (RCat (derive x a) b) s ↔ ∃ s1 s2, s = s1 ++ s2 ∧ lang a (x :: s1) ∧ lang b s2).
    { rewrite cat_iff. by setoid_rewrite IHa. }
    assert (Hsplit : lang (RCat a b) (x :: s) ↔ (lang a [] ∧ lang b (x :: s)) ∨ ∃ s1 s2, s = s1 ++ s2 ∧ lang a (x :: s1) ∧ lang b s2).
    { rewrite cat_iff. split.
      - intros ([|y s1] & s2 & E & Ha & Hb); [left; simpl in E; by subst|]. injection E as -> ->. right. by exists s1, s2.
      - intros [[Ha Hb]|(s1 & s2 & -> & Ha & Hb)]; [by exists [], (x :: s)|by exists (x :: s1), s2]. }
    rewrite Hsplit. pose proof (nullable_iff a) as Hn. destruct (nullable a).
    + rewrite alt_iff, Hcat, IHb. assert (lang a []) by (by apply Hn). naive_solver.
    + rewrite Hcat. assert (¬ lang a []) by (by intros ?%Hn). naive_solver.
  - by rewrite !alt_iff, IHa, IHb.
  - rewrite cat_iff. setoid_rewrite IHa. split.
    + intros (s1 & s2 & -> & Ha & Hs). by apply (lang_more a (x :: s1) s2).
    + apply star_first.
Qed.

Lemma whole_match_iff e s : whole_match e s = true ↔ lang e s.
Proof. revert e. induction s as [|x s IH]; intros e; [apply nullable_iff|]. by rewrite <- derive_iff, <- IH. Qed.

Lemma MatchString_iff e s : MatchString e s = true ↔ ∃ pre suf, s = pre ++ suf ∧ lang e suf.
Proof.
  induction s as [|x s IH]; cbn [MatchString]; rewrite orb_true_iff, whole_match_iff.
  - split; [intros [?|?]; [by exists [], []|done]|]. intros (pre & suf & E & ?). symmetry in E. apply app_nil in E as [-> ->]. by left.
  - rewrite IH. split.
    + intros [?|(pre & suf & -> & ?)]; [by exists [], (x :: s)|by exists (x :: pre), suf].
    + intros ([|y pre] & suf & E & ?); [left; simpl in E; by subst|]. injection E as -> ->. right. by exists pre, suf.
Qed.

(** The expressions in use. *)
Lemma RText_iff t s : lang (RText t) s ↔ s = t.
Proof.
  revert s. induction t as [|c t IH]; intros s; simpl; [apply eps_iff|]. rewrite cat_iff. split.
  - intros (s1 & s2 & -> & H1 & H2%IH). inversion H1; by subst.
  - intros ->. exists [c], t. split; [done|]. split; [constructor|by apply IH].
Qed.

Lemma star_not_iff c s : lang (RStar (RNot c)) s ↔ c ∉ s.
Proof.
  induction s as [|x s IH].
  - split; [intros _; apply not_elem_of_nil|constructor].
  - rewrite not_elem_of_cons, <- IH. split.
    + intros (s1 & s2 & -> & H1 & H2)%star_first. inversion H1; subst. by split; [congruence|].
    + intros [Hx Hs]. apply (lang_more _ [x] s); [by constructor; congruence|done].
Qed.

(** ** The paths of a rule *)

(** What a component of a pattern stands for. *)
Definition component_text (comp t : bytes) : Prop :=
  if bool_decide (comp = str "*") then t = [] ∨ ∃ u, t = slash :: u ∧ newline ∉ u
  else if bool_decide (comp = []) then t = []
  else t = slash :: comp.

(** The end of the path: nothing when the pattern names a file, else any Go file. *)
Definition file_text (pattern t : bytes) : Prop :=
  if HasSuffix pattern (str ".go") then t = []
  else ∃ name, t = slash :: name ++ str ".go" ∧ name ≠ [] ∧ slash ∉ name.

Lemma component_iff comp t : lang (component_regexp comp) t ↔ component_text comp t.
Proof.
  unfold component_regexp, component_text. repeat case_bool_decide.
  - unfold ROpt. rewrite alt_iff, eps_iff, cat_iff. split.
    + intros [(s1 & s2 & -> & H1 & H2%star_not_iff)| ->]; [|by left]. right. inversion H1; subst. by exists s2.
    + intros [->|(u & -> & Hu)]; [by right|]. left. exists [slash], u. split; [done|]. split; [constructor|by apply star_not_iff].
  - apply eps_iff.
  - apply RText_iff.
Qed.

Lemma components_iff comps t :
  lang (foldr (λ comp e, RCat (component_regexp comp) e) REps comps) t ↔ ∃ ts, t = concat ts ∧ Forall2 component_text comps ts.
Proof.
  revert t. induction comps as [|comp comps IH]; intros t; simpl.
  - rewrite eps_iff. split; [intros ->; by exists []|]. by intros (ts & -> & ->%Forall2_nil_inv_l).
  - rewrite cat_iff. split.
    + intros (s1 & s2 & -> & H1%component_iff & (ts & -> & H2)%IH). exists (s1 :: ts). split; [done|]. by constructor.
    + intros (ts & -> & (s & ts' & H1 & H2 & ->)%Forall2_cons_inv_l). exists s, (concat ts').
      split; [done|]. split; [by apply component_iff|]. apply IH. by exists ts'.
Qed.

Lemma file_iff pattern t :
  lang (if HasSuffix pattern (str ".go") then REps
        else RCat (RLit slash) (RCat (RPlus (RNot slash)) (RText (str ".go")))) t ↔ file_text pattern t.
Proof.
  unfold file_text. destruct (HasSuffix _ _); [apply eps_iff|]. rewrite cat_iff. split.
  - intros (s1 & s2 & -> & H1 & (s3 & s4 & -> & (s5 & s6 & -> & H5 & H6%star_not_iff)%cat_iff & ->%RText_iff)%cat_iff).
    inversion H1; subst. inversion H5 as [| |c x Hx| | | | |]; subst. exists (x :: s6). split; [done|]. split; [done|].
    apply not_elem_of_cons. split; [congruence|done].
  - intros (name & -> & Hne & Hs). destruct name as [|x name]; [done|]. apply not_elem_of_cons in Hs as [Hx Hs].
    exists [slash], ((x :: name) ++ str ".go"). split; [done|]. split; [constructor|]. apply cat_iff.
    exists (x :: name), (str ".go"). split; [done|]. split; [|by apply RText_iff]. apply (lang_cat (RNot slash) _ [x] name).
    + by constructor; congruence.
    + by apply star_not_iff.
Qed.

(** C39: a rule matches a path exactly when the path ends in the components of its
    pattern, in their order and each after a slash, a star standing for any
    directories or none, and then in the name of a Go file, unless the pattern
    itself ends in one. *)
Theorem matcher_spec pattern path :
  MatchString (matcher pattern) path = true ↔
  ∃ pre ts last, path = pre ++ concat ts ++ last ∧
    Forall2 component_text (Split slash pattern) ts ∧ file_text pattern last.
Proof.
  rewrite MatchString_iff. unfold matcher. split.
  - intros (pre & suf & -> & (s1 & s2 & -> & _ & (s3 & s4 & -> & H3 & H4)%cat_iff)%cat_iff).
    apply components_iff in H3 as (ts & -> & H3). apply file_iff in H4. exists (pre ++ s1), ts, s4. by rewrite <- app_assoc.
  - intros (pre & ts & last & -> & Hts & Hl). exists pre, (concat ts ++ last). split; [done|].
    apply cat_iff. exists [], (concat ts ++ last). split; [done|]. split; [constructor|]. apply cat_iff.
    exists (concat ts), last. split; [done|]. split; [by apply components_iff; exists ts|by apply file_iff].
Qed.

(** ** The cache of call sites *)

Section Cache.
Context (stack : bytes).

(** The level of a call site from the rules alone. *)
Definition rule_level (h : GlogHandler) (c : Call) : outcome Lvl :=
  l ← first_match (g_patterns h) (call_path c); Ret (default 0%Z l).

(** What [Log] is to do: a record goes to the handler when the ceiling or the level
    of its call site allows. *)
Definition allowed (h : GlogHandler) (r : Rec) : outcome bool :=
  if (uint32_wrap (r_Lvl r) <=? g_level h)%Z then Ret true
  else if (g_override h =? 0)%Z then Ret false
  else lvl ← rule_level h (r_Call r); Ret (r_Lvl r <=? lvl)%Z.
Definition glog_spec (h : GlogHandler) (s : Rec * World) : outcome unit * (Rec * World) :=
  let r := at_backtrace stack h s.1 in
  match allowed h r with
  | Ret true => g_origin h (r, s.2)
  | Ret false => (Ret tt, (r, s.2))
  | Err e => (Err e, (r, s.2))
  | Panic p => (Panic p, (r, s.2))
  | OutOfFuel => (OutOfFuel, (r, s.2))
  end.

(** The operations on a handler, and the settings it has without the cache. *)
Inductive glog_op := OpVerbosity (level : Lvl) | OpVmodule (ruleset : bytes) | OpBacktraceAt (location : bytes)
  | OpSetHandler (nh : Handler) | OpLog (r : Rec).

Definition configure (op : glog_op) (h : GlogHandler) : outcome unit * GlogHandler :=
  match op with
  | OpVerbosity level => (Ret tt, Verbosity level h)
  | OpVmodule ruleset => Vmodule ruleset h
  | OpBacktraceAt location => BacktraceAt location h
  | OpSetHandler nh => (Ret tt, glog_SetHandler nh h)
  | OpLog _ => (Ret tt, h)
  end.

(** The results and the world after the operations, with the cache and by the rules. *)
Fixpoint run_glog (ops : list glog_op) (h : GlogHandler) (w : World) : list (outcome unit) * World :=
  match ops with
  | [] => ([], w)
  | OpLog r :: ops' => let '(res, h', (_, w')) := glog_Log stack h (r, w) in let '(rs, w'') := run_glog ops' h' w' in (res :: rs, w'')
  | op :: ops' => let '(res, h') := configure op h in let '(rs, w') := run_glog ops' h' w in (res :: rs, w')
  end.
Fixpoint run_rules (ops : list glog_op) (h : GlogHandler) (w : World) : list (outcome unit) * World :=
  match ops with
  | [] => ([], w)
  | OpLog r :: ops' => let '(res, (_, w')) := glog_spec h (r, w) in let '(rs, w'') := run_rules ops' h w' in (res :: rs, w'')
  | op :: ops' => let '(res, h') := configure op h in let '(rs, w') := run_rules ops' h' w in (res :: rs, w')
  end.

(** The call sites of a program: the program counter tells them apart. *)
Context (site : Call → Prop) (Hsite : ∀ c c', site c → site c' → c_PC c = c_PC c' → call_path c = call_path c').

Definition cache_ok (h : GlogHandler) : Prop :=
  ∀ c lvl, site c → g_siteCache h !! c_PC c = Some lvl → rule_level h c = Ret lvl.
(** Two handlers that differ in the cache only. *)
Definition same_settings (h h' : GlogHandler) : Prop := set_siteCache ∅ h = set_siteCache ∅ h'.

Lemma same_spec h h' s : same_settings h h' → glog_spec h s = glog_spec h' s.
Proof. destruct h, h'. unfold same_settings, set_siteCache. simpl. intros [= -> -> -> -> -> ->]. reflexivity. Qed.

Lemma site_level_spec h c : site c → cache_ok h →
  (site_level h c).1 = rule_level h c ∧ same_settings (site_level h c).2 h ∧ cache_ok (site_level h c).2.
Proof.
  intros Hc Hok. unfold site_level. destruct (g_siteCache h !! c_PC c) as [lvl|] eqn:E.
  { split; [symmetry; by apply Hok|done]. }
  unfold rule_level. destruct (first_match (g_patterns h) (call_path c)) as [l|e|p|] eqn:Em; try done.
  split; [done|]. split; [by destruct h|]. intros c' lvl Hc' Hl. simpl in Hl.
  apply lookup_insert_Some in Hl as [[Epc <-]|[_ Hl]]; [|by apply Hok].
  unfold rule_level. simpl. rewrite <- (Hsite c c') by done. by rewrite Em.
Qed.

Lemma glog_Log_spec h r w : site (r_Call r) → cache_ok h →
  let '(res, h', s') := glog_Log stack h (r, w) in
  (res, s') = glog_spec h (r, w) ∧ same_settings h' h ∧ cache_ok h'.
Proof.
  intros Hr Hok. unfold glog_Log, glog_spec, allowed. cbn [fst snd]. set (r' := at_backtrace stack h r).
  assert (Hc : r_Call r' = r_Call r) by (unfold r', at_backtrace; by destruct (_ && _)).
  destruct (_ <=? _)%Z; [by destruct (g_origin h (r', w))|]. destruct (_ =? _)%Z; [done|]. rewrite Hc.
  destruct (site_level_spec h (r_Call r) Hr Hok) as (E & Hs & Hok'). rewrite <- E.
  destruct (site_level h (r_Call r)) as [[lvl|e|p|] h']; cbn [fst snd mbind outcome_bind] in *; try done.
  destruct (r_Lvl r' <=? lvl)%Z; [|done]. assert (Eo : g_origin h' = g_origin h) by (destruct h, h'; by injection Hs).
  rewrite <- Eo. by destruct (g_origin h' (r', w)).
Qed.

Lemma configure_spec op h h' : same_settings h h' → cache_ok h →
  (configure op h).1 = (configure op h').1 ∧ same_settings (configure op h).2 (configure op h').2 ∧ cache_ok (configure op h).2.
Proof.
  intros Hs Hok. destruct h, h'. unfold same_settings, set_siteCache in Hs. simpl in Hs. injection Hs as -> -> -> -> -> ->.
  destruct op as [level|ruleset|location|nh|r]; simpl; try done.
  - unfold Vmodule. by destruct (parse_rules ruleset).
  - unfold BacktraceAt. destruct (Split _ _) as [|file [|line []]]; try done.
    destruct (_ || _); [done|]. destruct (negb _); [done|]. by destruct (Atoi _).
Qed.

Lemma run_glog_spec ops h h' w :
  Forall (λ op, match op with OpLog r => site (r_Call r) | _ => True end) ops → same_settings h h' → cache_ok h →
  run_glog ops h w = run_rules ops h' w.
Proof.
  revert h h' w. induction ops as [|op ops IH]; intros h h' w Hops Hs Hok; [done|].
  apply Forall_cons in Hops as [Hop Hops].
  assert (Hconf : ∀ o, (let '(res, h1) := configure o h in let '(rs, w') := run_glog ops h1 w in (res :: rs, w'))
    = (let '(res, h1) := configure o h' in let '(rs, w') := run_rules ops h1 w in (res :: rs, w'))).
  { intros o. destruct (configure_spec o h h' Hs Hok) as (E1 & Hs1 & Hok1).
    destruct (configure o h) as [res h1], (configure o h') as [res' h1']. simpl in *. subst res'. by rewrite (IH h1 h1'). }
  destruct op as [level|ruleset|location|nh|r]; try apply Hconf. cbn [run_glog run_rules].
  pose proof (glog_Log_spec h r w Hop Hok) as Hl. destruct (glog_Log stack h (r, w)) as [[res h1] [r1 w1]].
  destruct Hl as (E & Hs1 & Hok1). rewrite (same_spec h h') in E by done. rewrite <- E. rewrite (IH h1 h'); [done..| |done].
  unfold same_settings in *. congruence.
Qed.

(** C38: keeping the level of each call site changes nothing: whatever is logged and
    however the settings change in between, the handler writes and returns what the
    rules and the ceiling in force say, as if no level were ever kept. *)
Theorem siteCache_transparent ops h w :
  Forall (λ op, match op with OpLog r => site (r_Call r) | _ => True end) ops →
  run_glog ops (NewGlogHandler h) w = run_rules ops (NewGlogHandler h) w.
Proof. intros Hops. apply run_glog_spec; [done|done|]. intros c lvl _ Hl. discriminate Hl. Qed.
End Cache.

(** ** Instances *)

Module GlogDemo.
Import LogTextDemo LogDemo.

Definition out : Handler := write_to (to_output 1) LogfmtFormat.
Definition at_path (pc : Z) (path : bytes) : moment :=
  mkMoment (m_now noon) (mkCall pc (str "main.go:7") (λ verb, if bool_decide (verb = str "%+s") then path else [])).
Definition from (pc : Z) (path : string) (lvl : Lvl) : Rec := record_of root (str "hi") lvl [] (at_path pc (str path)).
(** How many lines a run has written. *)
Definition lines (w : World) : nat := length (default [] (written w !! 1%Z)).

(** Two files, with one raised by a rule that is taken back. *)
Definition paths (pc : Z) : string := if (pc =? 1)%Z then "a/p2p/peer.go" else "a/core/block.go".
Definition demo_site (c : Call) : Prop := ∃ pc, c = m_call (at_path pc (str (paths pc))).
Definition demo_ops : list glog_op :=
  [OpVmodule (str "p2p=5"); OpLog (from 1 (paths 1) LvlTrace); OpLog (from 2 (paths 2) LvlTrace); OpLog (from 1 (paths 1) LvlTrace);
   OpVmodule (str "core=5"); OpLog (from 1 (paths 1) LvlTrace); OpLog (from 2 (paths 2) LvlTrace)].

Lemma siteCache_transparent_witness :
  run_glog [] demo_ops (NewGlogHandler out) quiet_world = run_rules [] demo_ops (NewGlogHandler out) quiet_world ∧
  lines (run_glog [] demo_ops (NewGlogHandler out) quiet_world).2 = 3.
Proof.
  split; [|vm_compute; reflexivity]. apply (siteCache_transparent [] demo_site).
  - intros c c' [pc ->] [pc' ->] E. cbn in E. subst. reflexivity.
  - unfold demo_ops. rewrite !Forall_cons. split_and!; try exact I; try (by exists 1%Z); try (by exists 2%Z). constructor.
Defined.

(** A directory of the pattern needs something before it: not all packages whose path
    ends in [foo] are in. *)
Example top_package_not_matched :
  MatchString (matcher (str "foo")) (str "a/foo/x.go") = true ∧ MatchString (matcher (str "foo")) (str "foo/x.go") = false.
Proof. by vm_compute. Qed.

(** A rule that is no UTF-8 is accepted, and the first record it is asked for panics. *)
Example invalid_rule_panics :
  let h := Vmodule (xff :: str "=5") (NewGlogHandler out) in
  h.1 = Ret tt ∧ (glog_Log [] h.2 (from 1 (paths 1) LvlTrace, quiet_world)).1.1 = Panic PNil.
Proof. by vm_compute. Qed.

(** An error at the place of the backtrace becomes a piece of information, and is
    not written where errors are. *)
Example backtrace_hides_error :
  let h := Verbosity LvlWarn (NewGlogHandler out) in
  lines (glog_Log [] h (from 1 (paths 1) LvlError, quiet_world)).2.2 = 1 ∧
  lines (glog_Log [] (BacktraceAt (str "main.go:7") h).2 (from 1 (paths 1) LvlError, quiet_world)).2.2 = 0.
Proof. by vm_compute. Qed.

(** A verbosity below all levels lets everything through. *)
Example negative_verbosity :
  lines (glog_Log [] (Verbosity (-1) (NewGlogHandler out)) (from 1 (paths 1) LvlTrace, quiet_world)).2.2 = 1.
Proof. by vm_compute. Qed.
End GlogDemo.
