(* ===== verification/LogTyped.v ===== *)
(** * Any combination of handlers

    Loggers with handlers that are built from all of those of [log]
    ([log/handler.go], [log/handler_glog.go], [log/syslog.go]): contexts are pairs of
    keys and values, whatever is passed to a logger, and nothing reads past the end
    of one. *)

From Stdlib Require Import Strings.Byte ZifyNat.
From stdpp Require Import base strings numbers gmap list.
From S2P Require Import Prelude Float64 Platform Concrete Text Net Runes LogNumbers LogText Log LogFormat LogSafe LogHandlers LogBuffer Glog.

Section Typed.
Context {U : Unicode} {LL : LogLibs} {J : JSON}.

(** The handler of a moment: what its settings and its cache are then. *)
Definition glog_handler (stack : bytes) (g : GlogHandler) : Handler :=
  λ s, let '(res, _, s') := glog_Log stack g s in (res, s').

(** Writers to the log of the system. *)
Definition sound_syslog (sysWr : syslog) : Prop :=
  sound_writer (sys_Crit sysWr) ∧ sound_writer (sys_Err sysWr) ∧ sound_writer (sys_Warning sysWr) ∧
  sound_writer (sys_Info sysWr) ∧ sound_writer (sys_Debug sysWr).

(** Handlers as the package builds them, from the outputs, the functions of the
    callers and each other.  A [ChannelHandler] and a [BufferedHandler] only send the
    record to a goroutine, so that to the logger they are as [DiscardHandler]; the
    goroutine is in the theorem. *)
Inductive built : Handler → Prop :=
| built_discard : built DiscardHandler
| built_stream mu wr fmtr : sound_writer wr → package_format fmtr → built (StreamHandler mu wr fmtr)
| built_syslog sysWr fmtr : sound_syslog sysWr → package_format fmtr → built (LazyHandler (write_syslog sysWr fmtr))
| built_sync mu h : built h → built (SyncHandler mu h)
| built_filter fn h : sound_filter fn → built h → built (FilterHandler fn h)
| built_match key v h : built h → built (MatchFilterHandler key v h)
| built_lvl maxLvl h : built h → built (LvlFilterHandler maxLvl h)
| built_multi hs : Forall built hs → built (MultiHandler hs)
| built_failover hs : Forall built hs → built (FailoverHandler hs)
| built_caller_file h : built h → built (CallerFileHandler h)
| built_caller_func h : built h → built (CallerFuncHandler h)
| built_caller_stack format h : built h → built (CallerStackHandler format h)
| built_lazy h : built h → built (LazyHandler h)
| built_glog stack g : built (g_origin g) → built (glog_handler stack g).

(** ** The handler with verbosity by call site *)

Lemma first_match_no_index patterns path : no_index (first_match patterns path).
Proof.
  induction patterns as [|[[e|] level] patterns IH]; [done| |done]. cbn. by destruct (MatchString e path).
Qed.

Lemma sound_glog stack g : sound_handler (g_origin g) → sound_handler (glog_handler stack g).
Proof.
  intros Hh [r w] Hp. unfold glog_handler, glog_Log. cbn [fst snd].
  assert (Hr : good_ctx (r_Ctx (at_backtrace stack g r))) by (unfold at_backtrace; by destruct (_ && _)).
  generalize dependent (at_backtrace stack g r). clear r Hp. intros r Hr. pose proof (Hh (r, w) Hr) as [H1 H2].
  destruct (_ <=? _)%Z; [by destruct (g_origin g (r, w))|]. destruct (_ =? _)%Z; [done|].
  unfold site_level. destruct (g_siteCache g !! _) as [lvl|].
  { destruct (r_Lvl r <=? lvl)%Z; [by destruct (g_origin g (r, w))|done]. }
  pose proof (first_match_no_index (g_patterns g) (call_path (r_Call r))) as Hm.
  destruct (first_match _ _) as [l|e|p|]; try done.
  - cbv zeta. destruct (_ <=? _)%Z; [by destruct (g_origin g (r, w))|done].
  - split; [|done]. intros E. by injection E as ->.
Qed.

(** ** The log of the system *)

Lemma sound_syslogFn sysWr l : sound_syslog sysWr → sound_writer (syslogFn sysWr l).
Proof.
  intros (H1 & H2 & H3 & H4 & H5). unfold syslogFn. repeat destruct (_ =? _)%Z; try done.
Qed.

Lemma sound_write_syslog sysWr fmtr : sound_syslog sysWr → sound_format fmtr → sound_handler (write_syslog sysWr fmtr).
Proof.
  intros Hw Hf [r w] Hp. unfold write_syslog, mbind, st_bind, the_record, in_world. cbn [fst snd].
  specialize (Hf r w Hp). destruct (fmtr r w) as [[text|e|p|] w']; cbn [fst snd] in *; try done.
  - pose proof (sound_syslogFn sysWr (r_Lvl r) Hw (TrimSpace text) w') as Hs.
    by destruct (syslogFn _ _ _ w') as [res w''].
  - split; [|done]. intros E. by injection E as ->.
Qed.

(** [encoding/json] does not fail on what it is given. *)
Context (HJ : ∀ pretty props, no_index (Marshal pretty props)).

(** The type of a handler as the package means it. *)
Lemma built_sound h : built h → sound_handler h.
Proof.
  revert h. fix IH 2. intros h [ |mu wr fmtr Hw Hf|sysWr fmtr Hw Hf|mu h0 Hb|fn h0 Hf Hb|key v h0 Hb|l h0 Hb|hs Hb|hs Hb|h0 Hb|h0 Hb|format h0 Hb|h0 Hb|stack g Hb].
  - by intros s.
  - apply sound_LazyHandler, sound_SyncHandler. apply sound_write_to; [done|by apply package_format_sound].
  - apply sound_LazyHandler, sound_write_syslog; [done|by apply package_format_sound].
  - by apply sound_SyncHandler, IH.
  - by apply sound_FilterHandler, IH.
  - apply sound_FilterHandler, IH; [apply sound_match_filter|done].
  - apply sound_FilterHandler, IH; [by intros r|done].
  - apply sound_MultiHandler. induction Hb; constructor; auto.
  - apply sound_failover. induction Hb; constructor; auto.
  - apply sound_change, IH; [|done]. intros r. by apply append_good, good_two.
  - apply sound_change, IH; [|done]. intros r. by apply append_good, good_two.
  - apply (sound_change _ h0); [|by apply IH]. intros r Hr. cbv zeta. destruct (_ <? _)%Z; [|done]. apply append_good; [by apply good_two|done].
  - by apply sound_LazyHandler, IH.
  - by apply sound_glog, IH.
Qed.

(** Boxes whose handlers the package has built. *)
Definition built_boxes (bs : boxes) : Prop := ∀ b h, bs !! b = Some (Fun h) → built h.

Lemma Log_to_sound fuel bs x : built_boxes bs → (∀ h, x = Fun h → built h) → sound_handler (Log_to fuel bs x).
Proof.
  intros Hbs. revert x. induction fuel as [|fuel IH]; intros [h|b] Hx; cbn [Log_to]; try (by apply built_sound, Hx); [by intros s|].
  destruct (bs !! b) as [x|] eqn:E; [|by intros s]. apply IH. intros h ->. by apply (Hbs b).
Qed.

(** The loggers that are made from the root. *)
Inductive made : logger → Prop :=
| made_root : made root
| made_New lg bs ctx : made lg → Forall good ctx → made (logger_New ctx lg bs).1.

Lemma made_good lg : made lg → good_ctx (lg_ctx lg).
Proof.
  induction 1 as [|lg bs ctx _ IH Hc]; [split; [by exists 0|constructor]|]. by apply newContext_good.
Qed.

(** *** The goroutine of a handler with a channel *)

(** What a record of the sender starts with and what is done to it. *)
Definition good_event (e : buffer_event) : Prop :=
  match e with
  | ENew _ r => good_ctx (r_Ctx r)
  | EChange _ f => ∀ r, good_ctx (r_Ctx r) → good_ctx (r_Ctx (f r))
  | _ => True
  end.
Definition good_buffer (s : buffered) : Prop :=
  (∀ m r, b_recs s !! m = Some r → good_ctx (r_Ctx r)) ∧ b_dead s ≠ Some PIndex.

Lemma good_insert (recs : gmap nat Rec) m r :
  (∀ m r, recs !! m = Some r → good_ctx (r_Ctx r)) → good_ctx (r_Ctx r) →
  ∀ m' r', <[m := r]> recs !! m' = Some r' → good_ctx (r_Ctx r').
Proof. intros Hr Hg m' r' [[<- <-]|[_ E]]%lookup_insert_Some; [done|by apply (Hr m')]. Qed.

Lemma good_log_one h s s' : sound_handler h → good_buffer s → log_one h s = Some s' → good_buffer s'.
Proof.
  intros Hh [Hr Hd] Hs. unfold log_one in Hs. apply bind_Some in Hs as (m & _ & Hs).
  apply bind_Some in Hs as (r & Hm & Hs). destruct (Hh (r, b_world s) (Hr m r Hm)) as [Hn Hg].
  destruct (h (r, b_world s)) as [[u|e|p|] [r' w']]; try done; injection Hs as <-;
    (split; [by apply good_insert|]); try done. cbn. intros [= ->]. done.
Qed.

Lemma good_buffered bufSize h e s s' :
  sound_handler h → good_event e → good_buffer s → BufferedHandler bufSize h e s = Some s' → good_buffer s'.
Proof.
  intros Hh He Hg Hs. unfold BufferedHandler in Hs. destruct (b_dead s) eqn:Ed; [done|].
  destruct e as [m r|m f|m| |].
  - destruct (b_recs s !! m); [done|]. injection Hs as <-. split; [by apply good_insert; [apply Hg|]|apply Hg].
  - apply bind_Some in Hs as (r & Hm & [= <-]). destruct Hg as [Hr Hd].
    split; [apply good_insert; [done|by apply He, (Hr m)]|done].
  - apply bind_Some in Hs as (r & Hm & Hs). apply ChannelHandler_pending in Hs as (_ & Er & Eb & _).
    unfold good_buffer. rewrite Er, Eb. exact Hg.
  - unfold receive in Hs. destruct (b_busy s), (b_chan s); try done. by injection Hs as <-.
  - by apply (good_log_one h s).
Qed.

Lemma run_buffered_good bufSize h es s sent s' :
  sound_handler h → Forall good_event es → good_buffer s → run_buffered bufSize h es s = Some (sent, s') → good_buffer s'.
Proof.
  intros Hh Hes. revert s sent. induction Hes as [|e es He _ IH]; intros s sent Hg Hr; [by injection Hr as _ <-|].
  cbn [run_buffered] in Hr. apply bind_Some in Hr as (s1 & Hs & Hr). apply bind_Some in Hr as ([more s2] & Hr & [= _ <-]).
  eapply IH; [|exact Hr]. by eapply good_buffered.
Qed.

(** C35: a context is always pairs of a key and a value, however many arguments a
    logger was made with and is called with: no handler, filter and format of the
    package, the one with rules for call sites and the one for the log of the system
    among them, and no combination of them, reads past the end of one; and neither
    does the goroutine behind a handler with a channel, as long as those who change
    the records that it gets keep them so.  Outputs, filters and methods that the
    program brings are taken not to do it themselves. *)
Theorem logger_write_typed fuel bs lg msg lvl ctx m w :
  built_boxes bs → made lg → Forall good ctx →
  good_ctx (r_Ctx (record_of lg msg lvl ctx m)) ∧ no_index (logger_write fuel bs lg msg lvl ctx m w).1 ∧
  ∀ bufSize h es w0 sent s, built h → Forall good_event es →
    run_buffered bufSize h es (b_init w0) = Some (sent, s) → b_dead s ≠ Some PIndex.
Proof.
  intros Hbs Hm Hc. assert (Hg : good_ctx (r_Ctx (record_of lg msg lvl ctx m))) by (apply newContext_good; [by apply made_good|done]).
  split; [done|]. split.
  - unfold logger_write.
    destruct (sound_drop_err _ (Log_to_sound fuel bs (Box (lg_h lg)) Hbs ltac:(done)) (record_of lg msg lvl ctx m, w) Hg) as [Hn _].
    by destruct (drop_err _ _) as [res [r' w']].
  - intros bufSize h es w0 sent s Hh Hes Hr.
    apply (run_buffered_good bufSize h es (b_init w0) sent s); [by apply built_sound|done|by split|done].
Qed.
End Typed.

(** ** An instance

    A rule for one file over an output with a level, and the same output behind a
    channel. *)

Module LogTypedDemo.
Import LogTextDemo LogDemo LogBufferDemo.

Definition rules : GlogHandler :=
  (Vmodule (str "main.go=5") (NewGlogHandler (LvlFilterHandler LvlInfo (StreamHandler 0 (to_output 1) LogfmtFormat)))).2.
Definition typed_boxes : boxes := {[ 0 := Fun (glog_handler [] rules) ]}.

Lemma rules_built : built (glog_handler [] rules).
Proof. apply built_glog, built_lvl, built_stream; [by intros text w|constructor]. Qed.

Lemma typed_boxes_built : built_boxes typed_boxes.
Proof. intros b h Hb. unfold typed_boxes in Hb. apply lookup_singleton_Some in Hb as [_ Hb]. injection Hb as <-. apply rules_built. Qed.

Lemma logger_write_typed_witness :
  good_ctx (r_Ctx (record_of root (str "hi") LvlInfo [VString (str "size")] noon)) ∧
  no_index (logger_write 3 typed_boxes root (str "hi") LvlInfo [VString (str "size")] noon quiet_world).1 ∧
  b_dead (default (([], b_init quiet_world)) (run_buffered 1 (glog_handler [] rules) demo_events (b_init quiet_world))).2 ≠ Some PIndex.
Proof.
  assert (HJ : ∀ pretty props, no_index (Marshal pretty props)) by (intros pretty props; discriminate).
  destruct (logger_write_typed HJ 3 typed_boxes root (str "hi") LvlInfo [VString (str "size")] noon quiet_world
    typed_boxes_built made_root) as (H1 & H2 & H3).
  - rewrite !Forall_cons. by split_and!.
  - split_and!; [exact H1|exact H2|].
    destruct (run_buffered 1 (glog_handler [] rules) demo_events (b_init quiet_world)) as [[sent s]|] eqn:E; [|discriminate].
    apply (H3 1 (glog_handler [] rules) demo_events quiet_world sent s rules_built); [|exact E].
    repeat (constructor; [first [exact I|apply newContext_good; [split; [by exists 0|constructor]|constructor]]|]). constructor.
Defined.
End LogTypedDemo.
