(* ===== verification/Fork.v ===== *)
(** * Functions in processes of their own

    [lib/fork]: a registry of functions by name, the start of a process that is to run
    one of them with its arguments in a temporary file, and what that process does.
    What the operating system answers is an argument. *)

From Stdlib Require Import Strings.Byte ZifyNat.
From stdpp Require Import base strings numbers gmap list.
From S2P Require Import Prelude Platform Concrete.

(** A value of the program: its kind in [reflect] and its content. *)
Record gvalue := mkGValue { v_kind : Z; v_data : bytes }.

(** [encoding/gob] on a stream of values: they are read back by their kinds. *)
Class ArgStream := {
  encode_values : list gvalue → bytes;
  decode_values : list Z → bytes → outcome (list gvalue)
}.
Class ArgStreamLaws `{ArgStream} : Prop := {
  decode_encode vs : decode_values (v_kind <$> vs) (encode_values vs) = Ret vs
}.

(** A function value: the kinds of its arguments, and what it returns. *)
Record gfunc := mkGFunc { fn_in : list Z; fn_call : list gvalue → outcome (list gvalue) }.

Record Function := mkFunction { f_Name : bytes; f_fn : gfunc; f_Args : list bytes }.

(** [os.Args[0]] is [arg0]; what is no function gives a nil pointer. *)
Definition NewFork (arg0 n : bytes) (fn : option gfunc) (args : list bytes) : option Function :=
  match fn with
  | Some fn => Some (mkFunction n fn (if bool_decide (args = []) then [arg0] else args))
  | None => None
  end.

Abbreviation registry := (gmap bytes Function).

Definition Register (f : option Function) (forks : registry) : outcome registry :=
  f ← deref f;
  if bool_decide (f_Name f = []) then Panic (PError (EMsg "tried to register fork with no name"))
  else Ret (<[f_Name f := f]> forks).
Definition RegisterFunc (arg0 n : bytes) (fn : option gfunc) (forks : registry) : outcome registry :=
  Register (NewFork arg0 n fn []) forks.

(** An argument that is nil has no type. *)
Fixpoint same_kinds (kinds : list Z) (args : list (option gvalue)) : outcome (list gvalue) :=
  match kinds, args with
  | k :: kinds', a :: args' =>
      v ← deref a;
      if negb (k =? v_kind v)%Z then Err (EFmt "argument mismatch (1) %s != %s" [AInt (v_kind v); AInt k])
      else vs ← same_kinds kinds' args'; Ret (v :: vs)
  | _, _ => Ret []
  end.
Definition validateArgs (f : Function) (args : list (option gvalue)) : outcome (list gvalue) :=
  if negb (length args =? length (fn_in (f_fn f))) then Err (EMsg "incorrect number of args for: %s")
  else same_kinds (fn_in (f_fn f)) args.

Definition nameVar : bytes := str "GOFORK_NAME".
Definition argsVar : bytes := str "GOFORK_ARGS".

(** A process: its environment, and the files there are. *)
Record process := mkProcess { p_env : gmap bytes bytes; p_files : gmap bytes bytes }.

Section Fork.
Context `{ArgStream}.

(** The process that is started, and the files after it; [p] is the process that
    forks.  The name of the temporary file is taken before its error is looked at; the
    file stays when nothing is started. *)
Definition Function_Fork (f : Function) (args : list (option gvalue)) (tempfile : outcome bytes) (start : option goerror)
    : st process process := λ p,
  match (vs ← validateArgs f args; af ← unchecked tempfile; Ret (vs, af)) with
  | Ret (vs, af) =>
      let files := <[af := encode_values vs]> (p_files p) in
      (match start with
       | Some e => Err e
       | None => Ret (mkProcess (<[argsVar := af]> (<[nameVar := f_Name f]> (p_env p))) files)
       end, mkProcess (p_env p) files)
  | Err e => (Err e, p)
  | Panic q => (Panic q, p)
  | OutOfFuel => (OutOfFuel, p)
  end.

Definition Fork (forks : registry) (name : bytes) (args : list (option gvalue)) (tempfile : outcome bytes) (start : option goerror)
    : st process process :=
  match forks !! name with
  | None => fail (EFmt "no registered function by name: %s" [ABytes name])
  | Some f => Function_Fork f args tempfile start
  end.

(** What [Init] ends in: the program goes on, or it has run a function and exits. *)
Inductive init_end := NotAFork | Exited (code : Z) (args : list gvalue).

Definition read_args (f : Function) (p : process) : outcome (list gvalue * process) :=
  let argsFile := default [] (p_env p !! argsVar) in
  if bool_decide (argsFile = []) then Ret ([], p)
  else match p_files p !! argsFile with
       | None => Panic (PError (EMsg "failed to open args file"))
       | Some content =>
           match decode_values (fn_in (f_fn f)) content with
           | Ret args => Ret (args, mkProcess (delete argsVar (p_env p)) (delete argsFile (p_files p)))
           | Err e => Panic (PError e)
           | Panic q => Panic q
           | OutOfFuel => OutOfFuel
           end
       end.

(** The results of the function are compared with nil: any result is a failure. *)
Definition fork_Init (forks : registry) (p : process) : outcome (init_end * process) :=
  let name := default [] (p_env p !! nameVar) in
  if bool_decide (name = []) then Ret (NotAFork, p)
  else
    let p := mkProcess (delete nameVar (p_env p)) (p_files p) in
    match forks !! name with
    | None => Panic (PError (EFmt "no fork by name: " [ABytes name]))
    | Some f =>
        '(args, p) ← read_args f p;
        if negb (length (fn_in (f_fn f)) =? length args) then Panic (PError (EMsg "fork failed: incorrect number of args supplied"))
        else results ← fn_call (f_fn f) args; Ret (Exited (if bool_decide (results = []) then 0 else 1) args, p)
    end.
End Fork.

(** ** A fork runs its function *)

Lemma same_kinds_length kinds args vs : length args = length kinds → same_kinds kinds args = Ret vs →
  args = Some <$> vs ∧ kinds = v_kind <$> vs.
Proof.
  revert args vs. induction kinds as [|k kinds IH]; intros [|[v|] args] vs Hl Hs; try done; [by injection Hs as <-|].
  cbn [same_kinds deref] in Hs. rewrite ret_bind in Hs. destruct (Z.eqb_spec k (v_kind v)); [|done]. cbn [negb] in Hs.
  apply outcome_bind_Ret in Hs as (vs' & Hs & [= <-]). simpl in Hl. destruct (IH args vs') as [-> ->]; [lia|done|]. by subst.
Qed.

Lemma validateArgs_ok f args vs : validateArgs f args = Ret vs → args = Some <$> vs ∧ fn_in (f_fn f) = v_kind <$> vs.
Proof.
  unfold validateArgs. destruct (Nat.eqb_spec (length args) (length (fn_in (f_fn f)))); [|done]. by apply same_kinds_length.
Qed.

(** C40: a function that was registered runs in the process that [Fork] starts, with
    the arguments it was given, and the process takes down the file and the variables
    that told it; it reports success exactly when the function has no results. *)
Theorem Fork_Init `{ArgStreamLaws} forks forks' arg0 name fn args af p child results :
  RegisterFunc arg0 name (Some fn) forks = Ret forks' → af ≠ [] →
  (Fork forks' name args (Ret af) None p).1 = Ret child →
  (∀ vs, args = Some <$> vs → fn_call fn vs = Ret results) →
  ∃ vs child', args = Some <$> vs ∧
    fork_Init forks' child = Ret (Exited (if bool_decide (results = []) then 0 else 1)%Z vs, child') ∧
    p_env child' = delete argsVar (delete nameVar (p_env p)) ∧ p_files child' = delete af (p_files p).
Proof.
  unfold RegisterFunc, NewFork, Register. rewrite bool_decide_eq_true_2 by done. cbn [deref]. rewrite ret_bind. cbn [f_Name].
  case_bool_decide as Hn; [done|]. intros [= <-] Haf. unfold Fork. rewrite lookup_insert_eq. unfold Function_Fork.
  intros Hc Hcall. destruct (validateArgs (mkFunction name fn [arg0]) args) as [vs|e|q|] eqn:Hv; try done.
  rewrite ret_bind in Hc. cbn [unchecked] in Hc. rewrite ret_bind in Hc. cbn [fst] in Hc. injection Hc as <-.
  apply validateArgs_ok in Hv as [-> Hk]. cbn [f_fn] in Hk. cbn [f_Name]. exists vs.
  set (f := mkFunction name fn [arg0]) in *. set (env := <[argsVar := af]> (<[nameVar := name]> (p_env p))).
  assert (Hname : env !! nameVar = Some name).
  { unfold env. rewrite lookup_insert_ne by (by vm_compute). by rewrite lookup_insert_eq. }
  assert (Hargs : delete nameVar env !! argsVar = Some af).
  { rewrite lookup_delete_ne by (by vm_compute). unfold env. by rewrite lookup_insert_eq. }
  exists (mkProcess (delete argsVar (delete nameVar env)) (delete af (<[af := encode_values vs]> (p_files p)))).
  split; [done|]. split; [|split].
  - unfold fork_Init. cbn [p_env p_files]. rewrite Hname. cbn [default]. rewrite bool_decide_eq_false_2, lookup_insert_eq by done.
    unfold read_args. cbn [p_env p_files]. rewrite Hargs. cbn [default]. rewrite bool_decide_eq_false_2 by done.
    rewrite lookup_insert_eq. cbn [f_fn f]. rewrite Hk, decode_encode, ret_bind. cbn [f_fn].
    rewrite length_fmap, Nat.eqb_refl. cbn [negb]. rewrite (Hcall vs eq_refl), ret_bind. done.
  - cbn [p_env]. unfold env. apply map_eq. intros i.
    destruct (decide (i = argsVar)) as [->|Hia]; [by rewrite !lookup_delete_eq|]. rewrite !(lookup_delete_ne _ argsVar) by done.
    destruct (decide (i = nameVar)) as [->|Hin]; [by rewrite !lookup_delete_eq|]. rewrite !(lookup_delete_ne _ nameVar) by done.
    by rewrite !lookup_insert_ne by done.
  - cbn [p_files]. by rewrite delete_insert_eq.
Qed.

(** ** An instance *)

Module ForkDemo.
#[local] Instance values_gob : Gob (list (Z * bytes)) := codec_gob (codec_list (codec_prod codec_Z codec_bytes)).
#[local] Instance values_gob_laws : GobLaws (list (Z * bytes)) := codec_gob_laws _.

Definition of_pairs (l : list (Z * bytes)) : list gvalue := (λ p, mkGValue p.1 p.2) <$> l.
Definition to_pairs (l : list gvalue) : list (Z * bytes) := (λ v, (v_kind v, v_data v)) <$> l.
#[local] Instance stream : ArgStream := {
  encode_values vs := match gob_Encode (to_pairs vs) with Ret b => b | _ => [] end;
  decode_values kinds s := l ← gob_Decode s; if bool_decide (kinds = l.*1) then Ret (of_pairs l) else Err (ELib "gob")
}.
#[local] Instance stream_laws : ArgStreamLaws.
Proof.
  constructor. intros vs. cbn [encode_values decode_values stream]. destruct (gob_total (to_pairs vs)) as [b E]. rewrite E.
  destruct (gob_roundtrip _ _ E) as [_ ->]. rewrite ret_bind. unfold to_pairs, of_pairs. rewrite <- !list_fmap_compose.
  rewrite bool_decide_eq_true_2 by done. f_equal. rewrite <- (list_fmap_id vs) at 2. apply list_fmap_ext. by intros i [].
Qed.

(** A function of a number, of kind 2, that returns nothing. *)
Definition quiet : gfunc := mkGFunc [2%Z] (λ _, Ret []).
Definition seven : gvalue := mkGValue 2 [x07].
Definition forks : registry :=
  match RegisterFunc (str "node") (str "worker") (Some quiet) ∅ with Ret r => r | _ => ∅ end.
Definition started : process :=
  match Fork forks (str "worker") [Some seven] (Ret (str "/tmp/gofork_1")) None (mkProcess ∅ ∅) with (Ret p, _) => p | _ => mkProcess ∅ ∅ end.

Lemma Fork_Init_witness :
  ∃ vs child', [Some seven] = Some <$> vs ∧ fork_Init forks started = Ret (Exited 0 vs, child') ∧
    p_env child' = delete argsVar (delete nameVar ∅) ∧ p_files child' = delete (str "/tmp/gofork_1") ∅.
Proof.
  apply (Fork_Init ∅ forks (str "node") (str "worker") quiet [Some seven] (str "/tmp/gofork_1") (mkProcess ∅ ∅) started []).
  - reflexivity.
  - discriminate.
  - reflexivity.
  - reflexivity.
Defined.

(** A function that returns no error returns a result, and counts as failed. *)
Definition no_failure : gfunc := mkGFunc [] (λ _, Ret [mkGValue 20 []]).
Example result_is_failure :
  (λ r, r.1) <$> fork_Init (<[str "job" := mkFunction (str "job") no_failure []]> ∅) (mkProcess {[ nameVar := str "job" ]} ∅) = Ret (Exited 1 []).
Proof. reflexivity. Qed.

(** Without room for the temporary file the program panics. *)
Example no_tempfile_panics :
  (Fork forks (str "worker") [Some seven] (Err (ELib "no space left on device")) None (mkProcess ∅ ∅)).1 = Panic PNil.
Proof. reflexivity. Qed.

(** When the process is not started the file of its arguments stays. *)
Example file_stays :
  Fork forks (str "worker") [Some seven] (Ret (str "/tmp/gofork_1")) (Some (ELib "exec")) (mkProcess ∅ ∅)
  = (Err (ELib "exec"), mkProcess ∅ {[ str "/tmp/gofork_1" := encode_values [seven] ]}).
Proof. vm_compute. reflexivity. Qed.
End ForkDemo.
